(* ===== verification/_CoqProject ===== *)
-Q . S2P
Prelude.v
GoStrings.v
Regex.v
GoErrors.v
K8s.v
Api.v
Client.v
Planner.v
PlanRun.v
FakeMemgraph.v
Convergence.v
Rollout.v
Volumes.v
Settings.v
Expectations.v
Resources.v
Topology.v
Flags.v
Vector.v
Workloads.v
Monitoring.v
Status.v
Effects.v
Bolt.v
World.v
Exposure.v
Apply.v
Admission.v
Stored.v
Texts.v
ExposurePass.v
Events.v
Encoding.v
SystemUser.v
SettingsPass.v
Replicas.v
VolumePass.v
FlagClasses.v
Connections.v
Registration.v
FakeCluster.v
Reconcile.v
PassEffects.v
PassShape.v
Operator.v
Watches.v
Wire.v
Manager.v
Main.v
