(* ===== verification/Prelude.v ===== *)
(** * Verification of the Memgraph Kubernetes operator

    The operator (src/, a Go program) drives a Memgraph high-availability cluster on
    Kubernetes toward a MemgraphDBCluster resource: two StatefulSets, of Raft coordinators and
    of data instances, the Services, ConfigMaps and Secrets around them, the registration of
    the members with the coordinators over Bolt, run-time settings, rolling restarts, volume
    expansion and the status of the resource. This library translates it definition by
    definition and proves what makes it correct. This file is the root: after this header it
    holds the notations, tactics and generic lemmas the others share.

    ** How the code is modelled

    - A pure function is a function. Strings are byte strings (GoStrings.v), an error is what
      the code can see of one (GoErrors.v), [A + error] is a Go pair of a value and an error,
      [option] a pointer that may be nil, a map a [gmap]; the order of a Go range over a map is
      a parameter of the class [RangeOrder], so what is proved holds for every order. An int32
      is a [Z] with its wrap-around written out ([wrap32]).
    - A function of the reconciler that talks to the outside is a program with effects
      (Effects.v): a tree of calls, whose answers are not constrained. The calls are the type
      [eff] of World.v: the Connector and the Client of internal/memgraph, the API server's
      reads, applies, deletes and patches, random bytes, and the Event recorder.
      [returns p t a] is a run of [p] that leaves the trace [t] and the result [a], and a
      theorem about [returns] holds whatever the outside answers; [Effects.run] executes a
      program against an environment, which the witnesses use.
    - What a pass mutates, the resource's status and the shrinks the process waits for, is
      the record [passState] of Apply.v, threaded and returned. Shared Go maps that a pass
      fills ([podSettings], the reads of a pass) are threaded the same way.
    - Code that is not in the repository is a parameter: resource.Quantity ([QuantityOrder]),
      apimachinery's condition list ([ConditionsAPI]), the spec fields only copied ([Kube]),
      SHA-256, PBKDF2, bcrypt, YAML and JSON encoders, the embedded dashboard, semantic
      equality of statuses, the neo4j driver ([driverCall] of Bolt.v).
    - A run-time panic the code could reach is a value ([None], [Panicked]), which the
      theorems rule out.

    ** The parts

    internal/memgraph: Client.v (the data, the query text, the row parsing), Bolt.v (dialling
    and calling an instance over the driver).

    internal/planner: Planner.v ([Plan], [Retired], and what every command of a plan implies),
    PlanRun.v (the commands' Run and String over the Client interface, the class
    [ClusterClient]), FakeMemgraph.v (the coordinators' rules as the repository's own test
    double states them, an instance of that class), Convergence.v (the planner against it),
    FakeCluster.v (the whole test double as the environment of a pass, and passes against it).

    internal/rollout: Rollout.v ([Next], one restart decision). internal/volumes: Volumes.v
    ([Decide], one volume decision). internal/settings: Settings.v (diffs, classification,
    secrets). internal/expectations: Expectations.v (writes the cache has not shown yet).

    internal/resources: Resources.v (normalization, names, labels), Topology.v (the members by
    ordinal), Flags.v (flag files and their digests), Workloads.v (StatefulSets, headless
    Services, flag ConfigMaps, the system user's Secrets), Vector.v (the log sidecar),
    Monitoring.v (ServiceMonitor, dashboard, vmagent), Exposure.v (external Services, Gateway,
    routes), over the object types of K8s.v and the API types of Api.v (api/v1alpha1).

    api/v1alpha1's validation markers: Admission.v (one rule per type, [create], [update] and
    the specs [stored] under them, the patterns matched by Regex.v), Stored.v (what the
    builders may rely on of a stored spec), Texts.v (where its text ends up).

    internal/controller: Status.v (conditions and their summary), World.v (the effects),
    Apply.v (applyDesired, pruneKind), ExposurePass.v (desired, pruned and observed external
    objects), Events.v (events.go), SystemUser.v (systemuser.go, over Encoding.v),
    SettingsPass.v (license, flags, AWS credentials), Replicas.v (replicaCounts,
    observeRollout, restartPod), VolumePass.v (reconcileVolumes), FlagClasses.v (what the
    running Memgraph says the flags are, coordinator settings), Connections.v
    (observeCluster), Registration.v (reconcileRegistration), Reconcile.v (Reconcile and
    reconcileCluster), Watches.v (what starts a pass).

    Across them: Wire.v runs a whole pass down to the driver, its Memgraph effects answered by
    the client of Bolt.v; Manager.v holds the informers and the cache of the manager against
    the reads of a pass; PassEffects.v says which calls a pass may issue and PassShape.v cuts its
    trace into its stages, and Operator.v runs passes, restarts and edits of the spec one after
    another over the versions of a StatefulSet, deletions included, its cached copies and the
    members; Main.v is the process: cmd/main.go's command line, the options of the manager and
    its servers, SetupWithManager, discovery, and the steps to the manager's start, a program
    over effects of its own ([boot], the calls into controller-runtime).

    A pass goes: replicaCounts, the system user, the volumes, applying, pruning, the exposure,
    the pods, the license, and the registration pass, which plans against the Raft leader's
    view and runs the plan, or sheds what has left, or settles the settings and rolls one pod.
    Each stage of Reconcile.v is a definition that calls the next.

    ** What the theorems show

    - Registration: a plan is never refused by the coordinators' rules, and planning against
      them converges (Convergence.v); so do whole registration passes, in three of them, and
      one settings pass brings every ready pod in line (FakeCluster.v); MAIN is moved and
      unregistered only over a caught-up survivor, and a leader yields instead of being removed
      (Planner.v).
    - Restarts: only an outstanding pod is deleted, with its role whole, MAIN's last; a roll
      ends (Rollout.v); a pod is spared exactly for run-time flags (FlagClasses.v, Workloads.v).
    - Volumes: a pass only grows bound claims, and deletes a StatefulSet at most once and only
      orphaned (Volumes.v, VolumePass.v).
    - Whole passes: the stages change things in one order, end without a panic and leave no
      connection open (Reconcile.v); no pod is shed before its member has left, and the long
      resync is asked for only when nothing is owed (Registration.v); over any sequence of
      passes, restarts, edits, late caches, deletions and recreations every member keeps its
      pod, no shrink is undone, and a shrink, however its pass ends, is waited for until the
      cache shows it (Operator.v, over Replicas.v, Registration.v and Expectations.v); the
      status is written exactly when it changed, at the end and nowhere else (PassEffects.v);
      down to the driver, every driver and session is closed and every query is a read, a SET
      or of the plan (Wire.v); no read fails for want of an informer, and what a pass applies
      is owned, but for the two Secrets of the system user (Manager.v, Main.v).
    - Watches: which clusters an event on a Secret, a claim or a pod starts, and what the roll
      does not see of the pod updates that are dropped (Watches.v).
    - Secrets: the password is generated once and never replaced, the hash is one every pod
      can load (SystemUser.v); the password is offered as the system user's only (Bolt.v); a
      SET's literals read back as they were asked for (Bolt.v).
    - Objects: mounts resolve to volumes, privilege is only what the spec asks for
      (Workloads.v); routes of a Gateway meet their Services (Exposure.v); pruning spares what
      is in use and the status mirrors the objects (ExposurePass.v).
    - Specs the API server let through: over any sequence of updates no immutable field
      changes, no volume shrinks and the members' TLS mode stays; the flag file reads back;
      environment names, mount paths and Gateway ports are distinct and valid, with the exact
      exceptions (Stored.v); a flag has one source but one; no text of the spec is live in the
      start script, and the addresses in the queries read back; two data instances are
      announced at different hostnames exactly when the first name of the annotation holds the
      ordinal (Texts.v).
    - Start-up: the manager starts last, once and only when every step before it succeeded,
      for the controller that was discovered; a command line reads back as what it spells, and
      HTTP/2 is off and metrics guarded unless a flag says otherwise (Main.v).
    - Round trips, normalization and refinement: member names and ordinals (Topology.v),
      PBKDF2 literals (SystemUser.v), the builders' defaults against the CRD's (Resources.v,
      Workloads.v), expectations against a specification that forgets nothing, over a cache
      that shows absences, deletions and recreations (Expectations.v).

    ** Bounds

    No definition runs on fuel: every loop is structural on a list, and a trace is finite. A
    theorem that counts passes ([roll_completes], [registration_passes_converge]) says how
    many. Int32 wrap-around is kept in the ports, the ordinals and the counts; no theorem
    needs a count beyond what admission lets through unless it says so. Patterns are matched
    by derivatives, structurally on the text.

    ** Not modelled

    - What controller-runtime does with the options, servers, checks and watches it is given
      (Main.v, Manager.v): of its cache, only the label selectors and the informed kinds.
    - zz_generated.deepcopy.go, generated deep copies; groupversion_info.go but for the group.
    - Of the API server's validation, the schemas of embedded Kubernetes types (volumes,
      containers, tolerations, resource requirements) and its ratcheting of old violations.
    - Log lines and the timeouts of contexts: a call that runs out of time answers an error.
    - Concurrent passes: controller-runtime runs one pass per cluster at a time; what changes
      in between is in the unconstrained answers. Operator.v takes them in sequence and
      assumes of the outside that nobody else writes or deletes the StatefulSet or registers
      members, that a deletion takes effect when it is answered, that a refused call to the API
      server changed nothing, and that a leader's view lists every member; that no edit lowers
      the spec below a growth the cache does not show yet, and that pods outlive a StatefulSet
      that is deleted to be recreated, are hypotheses where a theorem needs them.
    - Of the fake Memgraph, the setters a test arranges it with (their results are any value
      of [fakeSetup]) and the password of each dial. FakeCluster.v's theorems take a fake that
      answers everything, and a cluster whose name holds no dot: the fake reads a
      coordinator's ordinal up to the first dot of its address. *)

From stdpp Require Export gmap strings pretty list sorting.
From Stdlib Require Export Ascii.

(** ** Scope and notations *)

Declare Scope go_scope.
Delimit Scope go_scope with go.

(** [s ^^ t] is Go's string concatenation. *)
Infix "^^" := String.append (at level 60, right associativity) : go_scope.
(** [m !!? k | d] is Go's single-value map read, with the zero value [d] of the
    element type when [k] is absent. *)
Notation "m !!? k | d" := (default d (m !! k)) (at level 20, k at level 9, d at level 9) : go_scope.

#[global] Open Scope go_scope.
#[global] Open Scope stdpp_scope.

(** ** Tactics *)

Create Rewrite HintDb operator.

(** Split a boolean conjunction, disjunction or negation in the context into
    propositions. *)
Ltac bool_split :=
  repeat match goal with
  | H : _ && _ = true |- _ => apply andb_true_iff in H as [? ?]
  | H : _ || _ = false |- _ => apply orb_false_iff in H as [? ?]
  | H : negb _ = true |- _ => apply negb_true_iff in H
  | H : negb _ = false |- _ => apply negb_false_iff in H
  | H : bool_decide _ = true |- _ => apply bool_decide_eq_true in H
  | H : bool_decide _ = false |- _ => apply bool_decide_eq_false in H
  | H : (_ <? _)%Z = true |- _ => apply Z.ltb_lt in H
  | H : (_ <? _)%Z = false |- _ => apply Z.ltb_ge in H
  | H : (_ =? _)%Z = true |- _ => apply Z.eqb_eq in H
  | H : (_ =? _)%Z = false |- _ => apply Z.eqb_neq in H
  | H : (_ <=? _)%Z = true |- _ => apply Z.leb_le in H
  | H : (_ <=? _)%Z = false |- _ => apply Z.leb_gt in H
  end.

(** Case on every [if] and [match] of the goal, keeping the equations, and close
    what the equations contradict. *)
Ltac case_all := repeat (case_match; simplify_eq/=; try done).

(** Settle a closed decidable proposition by evaluating its decision. *)
Ltac by_decide := apply (bool_decide_unpack _); vm_compute; exact I.

(** A proposition equivalent to a decidable one is decidable. *)
Definition iff_decision (P Q : Prop) `{Decision Q} (HPQ : P ↔ Q) : Decision P :=
  match decide Q with
  | left HQ => left (proj2 HPQ HQ)
  | right HnQ => right (λ HP, HnQ (proj1 HPQ HP))
  end.

(** ** Integers at their width *)

(** Go's [int32] arithmetic wraps around. *)
Definition wrap32 (z : Z) : Z := ((z + 2 ^ 31) `mod` 2 ^ 32 - 2 ^ 31)%Z.

Definition is_int32 (z : Z) : Prop := (- 2 ^ 31 ≤ z < 2 ^ 31)%Z.

#[export] Instance is_int32_dec z : Decision (is_int32 z).
Proof. unfold is_int32. apply _. Defined.

Lemma wrap32_id z : is_int32 z → wrap32 z = z.
Proof. unfold is_int32, wrap32. intros. rewrite Z.mod_small by lia. lia. Qed.

Lemma wrap32_range z : is_int32 (wrap32 z).
Proof.
  unfold is_int32, wrap32.
  pose proof (Z.mod_pos_bound (z + 2 ^ 31) (2 ^ 32) ltac:(lia)). lia.
Qed.

Lemma wrap32_max : wrap32 (2 ^ 31 - 1 + 1) = (- 2 ^ 31)%Z.
Proof. reflexivity. Qed.

(** [range n] of Go on an [int32]: the ordinals [0 .. n-1], none when [n <= 0]. *)
Definition ordinals (n : Z) : list Z := seqZ 0 n.

(** ** Keys *)

(** Under distinct keys, an element is known by its key. *)
Lemma NoDup_fmap_unique {A B} (f : A → B) (l : list A) x y :
  NoDup (f <$> l) → x ∈ l → y ∈ l → f x = f y → x = y.
Proof.
  intros Hnd [i Hi]%list_elem_of_lookup [j Hj]%list_elem_of_lookup E.
  assert (i = j) as ->; [|congruence].
  eapply (NoDup_lookup _ _ _ (f x) Hnd); rewrite list_lookup_fmap; [by rewrite Hi|by rewrite Hj, E].
Qed.

(** ** Maps built by a loop over a list *)

(** [for _, x := range l { m[key(x)] = x }]: the last element under a key wins. *)
Definition index_by {A} (key : A → string) (l : list A) : gmap string A :=
  foldl (λ m x, <[key x := x]> m) ∅ l.

Section index_by.
Context {A : Type} (key : A → string).
Implicit Types (l : list A).

Lemma index_by_snoc l x : index_by key (l ++ [x]) = <[key x := x]> (index_by key l).
Proof. unfold index_by. by rewrite foldl_app. Qed.

Lemma index_by_Some_1 l k x : index_by key l !! k = Some x → x ∈ l ∧ key x = k.
Proof.
  induction l as [|y l IH] using rev_ind; [done|].
  rewrite index_by_snoc, elem_of_app, list_elem_of_singleton.
  destruct (decide (key y = k)) as [<-|?].
  - rewrite lookup_insert_eq. naive_solver.
  - rewrite lookup_insert_ne by done. naive_solver.
Qed.

Lemma index_by_None l k : index_by key l !! k = None ↔ (∀ x, x ∈ l → key x ≠ k).
Proof.
  induction l as [|y l IH] using rev_ind; [set_solver|].
  rewrite index_by_snoc, lookup_insert_None, IH.
  setoid_rewrite elem_of_app. setoid_rewrite list_elem_of_singleton. naive_solver.
Qed.

Lemma index_by_is_Some l k : is_Some (index_by key l !! k) ↔ ∃ x, x ∈ l ∧ key x = k.
Proof.
  split.
  - intros [x Hx]. eauto using index_by_Some_1.
  - intros (x & Hx & Hk). destruct (index_by key l !! k) eqn:E; [eauto|].
    rewrite index_by_None in E. naive_solver.
Qed.

(** With distinct keys, the map is the list. *)
Lemma index_by_NoDup l k x :
  NoDup (key <$> l) → index_by key l !! k = Some x ↔ x ∈ l ∧ key x = k.
Proof.
  intros Hnd; split; [apply index_by_Some_1|]. intros [Hx Hk].
  destruct (index_by key l !! k) as [y|] eqn:E.
  - apply index_by_Some_1 in E as [Hy Hky]. f_equal. eapply (NoDup_fmap_unique key); eauto. congruence.
  - rewrite index_by_None in E. naive_solver.
Qed.
End index_by.

(** ** Map iteration order *)

(** Go leaves the iteration order of a map unspecified: every [range] over one may
    enumerate its entries in any order. A definition that ranges over a map takes
    the order from this interface, and its theorems hold for every instance. *)
Class RangeOrder := {
  range : ∀ {V : Type}, gmap string V → list (string * V);
  range_perm : ∀ {V : Type} (m : gmap string V), range m ≡ₚ map_to_list m
}.

Section range.
Context {RO : RangeOrder} {V : Type}.
Implicit Types (m : gmap string V).

Lemma elem_of_range m k v : (k, v) ∈ range m ↔ m !! k = Some v.
Proof. rewrite range_perm. apply elem_of_map_to_list. Qed.

Lemma NoDup_range_fst m : NoDup (range m).*1.
Proof. rewrite range_perm. apply NoDup_fst_map_to_list. Qed.

Lemma list_to_map_range m : list_to_map (range m) = m.
Proof.
  rewrite <- (list_to_map_to_list m) at 2.
  apply list_to_map_proper; [apply NoDup_range_fst|apply range_perm].
Qed.

Lemma range_empty : range (∅ : gmap string V) = [].
Proof. apply Permutation_nil_r. by rewrite range_perm, map_to_list_empty. Qed.
End range.

(** The order of stdpp's own enumeration: one concrete order, for the witnesses. *)
#[export] Program Instance range_map_to_list : RangeOrder | 100 :=
  {| range V m := map_to_list m |}.
Next Obligation. done. Qed.

(** The reverse of that order: a second one, to show the order can matter. *)
Definition range_reversed : RangeOrder.
Proof.
  refine {| range V m := reverse (map_to_list m) |}.
  abstract (intros; apply reverse_Permutation).
Defined.

(** ** Lists *)

Lemma filter_nil_iff {A} (P : A → Prop) `{∀ x, Decision (P x)} (l : list A) :
  filter P l = [] ↔ ∀ x, x ∈ l → ¬ P x.
Proof.
  split.
  - intros E x Hx HP. assert (x ∈ filter P l) as Hin by (apply list_elem_of_filter; done).
    rewrite E in Hin. by apply elem_of_nil in Hin.
  - intros HP. destruct (filter P l) as [|x k] eqn:E; [done|].
    assert (x ∈ filter P l) as [??]%list_elem_of_filter by (rewrite E; left). naive_solver.
Qed.

(** [List.find] on a boolean test, Go's "first match" loop. *)
Lemma find_Some_elem {A} (f : A → bool) (l : list A) x :
  List.find f l = Some x → x ∈ l ∧ f x = true.
Proof. intros [??]%List.find_some. by rewrite list_elem_of_In. Qed.

Lemma find_None_iff {A} (f : A → bool) (l : list A) :
  List.find f l = None ↔ ∀ x, x ∈ l → f x = false.
Proof.
  split.
  - intros H x ?%list_elem_of_In. by eapply List.find_none.
  - intros H. destruct (List.find f l) as [x|] eqn:E; [|done].
    apply find_Some_elem in E as [Hx Hf]. rewrite H in Hf by done. done.
Qed.

(** Lists of at most one element, as a guard or an optional field gives them. *)
Lemma elem_of_when {A} (b : bool) (x y : A) : x ∈ (if b then [y] else []) ↔ b = true ∧ x = y.
Proof. destruct b; rewrite ?list_elem_of_singleton, ?elem_of_nil; naive_solver. Qed.
Lemma elem_of_match_option {A B} (o : option B) (f : B → A) x :
  x ∈ match o with Some b => [f b] | None => [] end ↔ ∃ b, o = Some b ∧ x = f b.
Proof. destruct o; rewrite ?list_elem_of_singleton, ?elem_of_nil; naive_solver. Qed.
Lemma elem_of_unless {A} (P : Prop) `{Decision P} (l : list A) x : x ∈ (if decide P then [] else l) ↔ ¬ P ∧ x ∈ l.
Proof. case_decide; rewrite ?elem_of_nil; naive_solver. Qed.

Lemma elem_of_bfilter {A} (f : A → bool) (l : list A) x :
  x ∈ List.filter f l ↔ x ∈ l ∧ f x = true.
Proof. by rewrite !list_elem_of_In, List.filter_In. Qed.

Lemma bfilter_nil_iff {A} (f : A → bool) (l : list A) :
  List.filter f l = [] ↔ ∀ x, x ∈ l → f x = false.
Proof.
  split.
  - intros E x Hx. destruct (f x) eqn:Hf; [|done].
    assert (x ∈ List.filter f l) as Hin by (by apply elem_of_bfilter).
    rewrite E in Hin. by apply elem_of_nil in Hin.
  - intros Hf. destruct (List.filter f l) as [|x k] eqn:E; [done|].
    assert (x ∈ List.filter f l) as [Hx Ht]%elem_of_bfilter by (rewrite E; left).
    by rewrite Hf in Ht.
Qed.

Lemma NoDup_bfilter {A} (f : A → bool) (l : list A) : NoDup l → NoDup (List.filter f l).
Proof.
  induction 1 as [|x l Hx _ IH]; simpl; [constructor|]. destruct (f x); [|done].
  constructor; [|done]. by intros [? _]%elem_of_bfilter.
Qed.

Lemma existsb_true_iff {A} (f : A → bool) (l : list A) :
  existsb f l = true ↔ ∃ x, x ∈ l ∧ f x = true.
Proof. rewrite existsb_exists. by setoid_rewrite list_elem_of_In. Qed.

Lemma forallb_true_iff {A} (f : A → bool) (l : list A) :
  forallb f l = true ↔ ∀ x, x ∈ l → f x = true.
Proof. rewrite forallb_forall. by setoid_rewrite list_elem_of_In. Qed.

(** A split of [X ++ Y] at an element [X] does not hold falls in [Y]. *)
Lemma app_split_notin {A} (X Y l1 l2 : list A) x :
  X ++ Y = l1 ++ x :: l2 → x ∉ X → ∃ k, l1 = X ++ k ∧ Y = k ++ x :: l2.
Proof.
  revert l1. induction X as [|a X IH]; intros l1 E Hx; [by exists l1|].
  destruct l1 as [|b l1]; simplify_eq/=; [set_solver|].
  destruct (IH l1) as (k & -> & ->); [done|set_solver|]. by exists k.
Qed.

(** Membership in a comprehension: Go's "append f(x) for every x that passes". *)
Lemma elem_of_comprehension {A B} (f : A → B) (g : A → bool) (l : list A) y :
  y ∈ f <$> List.filter g l ↔ ∃ x, y = f x ∧ x ∈ l ∧ g x = true.
Proof. rewrite list_elem_of_fmap. by setoid_rewrite elem_of_bfilter. Qed.

(** Membership in an optional one-element list. *)
Lemma elem_of_if_singleton {A} (b : bool) (x y : A) :
  y ∈ (if b then [x] else []) ↔ b = true ∧ y = x.
Proof. destruct b; set_solver. Qed.

#[export] Hint Rewrite @elem_of_app @elem_of_comprehension @elem_of_bfilter @list_elem_of_fmap @elem_of_nil
  @list_elem_of_singleton @existsb_true_iff @forallb_true_iff andb_true_iff negb_true_iff
  bool_decide_eq_true bool_decide_eq_false : operator.
