(* ===== verification/GoStrings.v ===== *)
(** * The string functions of Go's standard library the operator uses

    Go strings are byte sequences and so are these: a [string] is a list of 8-bit
    characters, compared bytewise. [strings.EqualFold] is folded over the ASCII
    letters only, which is exact for the words the operator compares with
    ("leader", "main", "up"): no letter of them has a non-ASCII case fold.
    [strings.Fields] and [strings.TrimSpace] know every Unicode space in its UTF-8
    encoding. [strconv.Quote] (the [%q] verb) is exact on ASCII and on printable
    well-formed UTF-8. *)

From S2P Require Import Prelude.

(** ** Append *)

Lemma app_nil_l_s (s : string) : "" ^^ s = s.
Proof. done. Qed.

Lemma app_cons_s c (s t : string) : String c s ^^ t = String c (s ^^ t).
Proof. done. Qed.

Lemma app_nil_r_s (s : string) : s ^^ "" = s.
Proof. induction s as [|c s IH]; [done|]. by rewrite app_cons_s, IH. Qed.

Lemma app_assoc_s (s t u : string) : (s ^^ t) ^^ u = s ^^ (t ^^ u).
Proof. induction s as [|c s IH]; [done|]. by rewrite !app_cons_s, IH. Qed.

Lemma length_app_s (s t : string) : String.length (s ^^ t) = String.length s + String.length t.
Proof. induction s as [|c s IH]; [done|]. rewrite app_cons_s. simpl. by rewrite IH. Qed.

Lemma app_inj_l_s (s t u : string) : s ^^ t = s ^^ u → t = u.
Proof. apply (inj (String.append s)). Qed.

Lemma app_inj_r_s (s t u : string) : s ^^ u = t ^^ u → s = t.
Proof.
  revert t. induction s as [|c s IH]; intros [|d t]; rewrite ?app_nil_l_s, ?app_cons_s; intros E.
  - done.
  - apply (f_equal String.length) in E. simpl in E. rewrite length_app_s in E. lia.
  - apply (f_equal String.length) in E. simpl in E. rewrite length_app_s in E. lia.
  - simplify_eq. f_equal. by apply IH.
Qed.

(** A test of every character. *)
Fixpoint all_chars (p : ascii → bool) (s : string) : bool :=
  match s with
  | "" => true
  | String c s => p c && all_chars p s
  end.

Lemma all_chars_app p s t : all_chars p (s ^^ t) = all_chars p s && all_chars p t.
Proof. induction s as [|c s IH]; [done|]. rewrite app_cons_s. simpl. by rewrite IH, andb_assoc. Qed.

(** ** [strings.EqualFold] against an ASCII word *)

Definition ascii_lower (c : ascii) : ascii :=
  let n := nat_of_ascii c in
  if (65 <=? n) && (n <=? 90) then ascii_of_nat (n + 32) else c.

Fixpoint lower (s : string) : string :=
  match s with
  | "" => ""
  | String c s => String (ascii_lower c) (lower s)
  end.

Definition EqualFold (s t : string) : bool := bool_decide (lower s = lower t).

(** ** Prefixes, cuts and splits *)

(** [strings.CutPrefix]. *)
Fixpoint CutPrefix (s p : string) : option string :=
  match p, s with
  | "", _ => Some s
  | String _ _, "" => None
  | String c p, String d s => if decide (c = d) then CutPrefix s p else None
  end.

Lemma CutPrefix_Some s p r : CutPrefix s p = Some r ↔ s = p ^^ r.
Proof.
  revert s. induction p as [|c p IH]; intros [|d s]; simpl; rewrite ?app_nil_l_s, ?app_cons_s.
  - naive_solver.
  - naive_solver.
  - naive_solver.
  - case_decide; [subst; rewrite IH|]; naive_solver.
Qed.

Lemma CutPrefix_app p r : CutPrefix (p ^^ r) p = Some r.
Proof. by apply CutPrefix_Some. Qed.

(** [strings.HasPrefix], [strings.TrimPrefix]. *)
Definition HasPrefix (s p : string) : bool := bool_decide (is_Some (CutPrefix s p)).
Definition TrimPrefix (s p : string) : string := default s (CutPrefix s p).

(** [strings.Contains]. *)
Fixpoint Contains (s sub : string) : bool :=
  HasPrefix s sub || match s with "" => false | String _ s => Contains s sub end.

(** [strings.Cut] at a one-byte separator: the text before and after the first
    occurrence, or nothing when there is none. *)
Fixpoint Cut (s : string) (sep : ascii) : option (string * string) :=
  match s with
  | "" => None
  | String c s =>
      if decide (c = sep) then Some ("", s)
      else '(before, after) ← Cut s sep; Some (String c before, after)
  end.

Definition free_of (sep : ascii) : string → bool := all_chars (λ c, negb (bool_decide (c = sep))).

Lemma Cut_app s sep r : free_of sep s → Cut (s ^^ String sep r) sep = Some (s, r).
Proof.
  unfold free_of. induction s as [|c s IH]; simpl; intros Hf.
  - rewrite ?app_nil_l_s; simpl; by rewrite decide_True.
  - rewrite ?app_cons_s; simpl. apply andb_True in Hf as [Hc Hs].
    rewrite decide_False by (intros ->; by rewrite bool_decide_eq_true_2 in Hc).
    by rewrite IH.
Qed.

(** [strings.Split] (and [strings.SplitSeq]) at a one-byte separator: never empty. *)
Fixpoint Split (s : string) (sep : ascii) : list string :=
  match s with
  | "" => [""]
  | String c s =>
      if decide (c = sep) then "" :: Split s sep
      else match Split s sep with
           | [] => [String c ""]
           | l :: ls => String c l :: ls
           end
  end.

Lemma Split_app s sep r : free_of sep s → Split (s ^^ String sep r) sep = s :: Split r sep.
Proof.
  unfold free_of. induction s as [|c s IH]; simpl; intros Hf.
  - rewrite ?app_nil_l_s; simpl; by rewrite decide_True.
  - rewrite ?app_cons_s; simpl. apply andb_True in Hf as [Hc Hs].
    rewrite decide_False by (intros ->; by rewrite bool_decide_eq_true_2 in Hc).
    by rewrite IH.
Qed.

(** [strings.Join]. *)
Fixpoint Join (l : list string) (sep : string) : string :=
  match l with
  | [] => ""
  | [s] => s
  | s :: l => s ^^ sep ^^ Join l sep
  end.

(** [strings.TrimLeft] with a one-byte cutset. *)
Fixpoint TrimLeft (s : string) (c : ascii) : string :=
  match s with
  | String d s' => if decide (d = c) then TrimLeft s' c else s
  | "" => ""
  end.

(** [strings.ReplaceAll] of one byte by another. *)
Fixpoint ReplaceAll (s : string) (old new : ascii) : string :=
  match s with
  | "" => ""
  | String c s => String (if decide (c = old) then new else c) (ReplaceAll s old new)
  end.

(** [strings.ReplaceAll] of a non-empty string: the leftmost occurrences, which do not
    overlap; [skip] bytes of the current one are left. *)
Fixpoint replace_go (skip : nat) (s old new : string) : string :=
  match s with
  | "" => ""
  | String c s' =>
      match skip with
      | S skip => replace_go skip s' old new
      | 0 =>
          match CutPrefix s old with
          | Some _ => new ^^ replace_go (String.length old - 1) s' old new
          | None => String c (replace_go 0 s' old new)
          end
      end
  end.
Definition ReplaceString : string → string → string → string := replace_go 0.

Lemma CutPrefix_free s r old sep :
  free_of sep old = true → is_Some (CutPrefix (s ^^ String sep r) old) ↔ is_Some (CutPrefix s old).
Proof.
  unfold free_of. revert s. induction old as [|c old IH]; intros s; [by destruct s|]. cbn [all_chars].
  intros [Hc Ho]%andb_true_iff. apply negb_true_iff, bool_decide_eq_false in Hc. destruct s as [|d s].
  - rewrite app_nil_l_s. cbn [CutPrefix]. rewrite decide_False by done. by split; intros [??].
  - rewrite app_cons_s. cbn [CutPrefix]. case_decide; [by apply IH|]. by split; intros [??].
Qed.

Lemma CutPrefix_length s old r : CutPrefix s old = Some r → String.length s = String.length old + String.length r.
Proof. intros ->%CutPrefix_Some. apply length_app_s. Qed.

Section replace.
Context (first : ascii) (others : string).
Let old := String first others.

(** A replacement does not reach over a separator the replaced text does not hold. *)
Lemma replace_sep sep r new : free_of sep old = true → ∀ s skip, skip ≤ String.length s →
  replace_go skip (s ^^ String sep r) old new = replace_go skip s old new ^^ String sep (replace_go 0 r old new).
Proof.
  intros Hf s. induction s as [|c s IH]; intros skip Hs; cbn [String.length] in Hs.
  - assert (skip = 0) as -> by lia. rewrite !app_nil_l_s. cbn [replace_go].
    destruct (CutPrefix (String sep r) old) eqn:E; [|done]. exfalso.
    destruct (proj1 (CutPrefix_free "" r old sep Hf)) as [? Hn]; [rewrite app_nil_l_s; eauto|done].
  - rewrite app_cons_s. cbn [replace_go]. destruct skip as [|skip]; [|apply IH; lia].
    pose proof (CutPrefix_free (String c s) r old sep Hf) as Hc. rewrite app_cons_s in Hc.
    destruct (CutPrefix (String c s) old) as [u|] eqn:E, (CutPrefix (String c (s ^^ String sep r)) old) as [v|] eqn:E'.
    + apply CutPrefix_length in E. cbn [String.length] in E.
      rewrite IH, app_assoc_s by (unfold old in *; cbn [String.length] in *; lia). done.
    + destruct (proj2 Hc) as [? ?]; [eauto|done].
    + destruct (proj1 Hc) as [? ?]; [eauto|done].
    + rewrite IH by lia. by rewrite app_cons_s.
Qed.

Lemma ReplaceString_sep s sep r new :
  free_of sep old = true → ReplaceString (s ^^ String sep r) old new = ReplaceString s old new ^^ String sep (ReplaceString r old new).
Proof. intros Hf. by apply replace_sep; [|lia]. Qed.

Lemma Contains_cons c s : Contains (String c s) old = true ↔ is_Some (CutPrefix (String c s) old) ∨ Contains s old = true.
Proof. cbn [Contains]. unfold HasPrefix. by rewrite orb_true_iff, bool_decide_eq_true. Qed.

Lemma ReplaceString_absent s new : Contains s old = false → ReplaceString s old new = s.
Proof.
  unfold ReplaceString. induction s as [|c s IH]; [done|]. intros Hc%not_true_iff_false. rewrite Contains_cons in Hc.
  cbn [replace_go]. destruct (CutPrefix _ _) eqn:E; [destruct Hc; left; eauto|].
  rewrite IH; [done|]. apply not_true_iff_false. tauto.
Qed.

Lemma replace_all_chars p new : all_chars p new = true →
  ∀ s skip, all_chars p s = true → all_chars p (replace_go skip s old new) = true.
Proof.
  intros Hn s. induction s as [|c s IH]; intros skip; [done|]. cbn [all_chars replace_go]. intros [Hc Hs]%andb_true_iff.
  destruct skip; [|by apply IH]. destruct (CutPrefix _ _); [by rewrite all_chars_app, Hn, IH|]. cbn [all_chars].
  by rewrite Hc, IH.
Qed.

Lemma replace_length x y : String.length x ≤ String.length y →
  ∀ s skip, String.length (replace_go skip s old x) ≤ String.length (replace_go skip s old y).
Proof.
  intros Hl s. induction s as [|c s IH]; intros skip; [done|]. cbn [replace_go].
  destruct skip; [|apply IH]. destruct (CutPrefix _ _).
  - rewrite !length_app_s. specialize (IH (String.length old - 1)). lia.
  - cbn [String.length]. specialize (IH 0). lia.
Qed.

Lemma ReplaceString_length s x y :
  String.length x < String.length y → Contains s old = true →
  String.length (ReplaceString s old x) < String.length (ReplaceString s old y).
Proof.
  unfold ReplaceString. intros Hl. induction s as [|c s IH]; [done|]. intros [[r E]|Hc]%Contains_cons; cbn [replace_go].
  - rewrite E, !length_app_s. pose proof (replace_length x y ltac:(lia) s (String.length old - 1)). lia.
  - destruct (CutPrefix _ _); [|cbn [String.length]; specialize (IH Hc); lia].
    rewrite !length_app_s. pose proof (replace_length x y ltac:(lia) s (String.length old - 1)). lia.
Qed.

Lemma app_same_length s t u v : String.length s = String.length t → s ^^ u = t ^^ v → s = t.
Proof.
  revert t. induction s as [|c s IH]; intros [|d t]; cbn [String.length]; rewrite ?app_cons_s; intros Hl E; simplify_eq; [done|].
  f_equal. by eapply IH; [lia|].
Qed.

(** What replaces a text that occurs can be read off the result. *)
Lemma ReplaceString_inj s x y :
  Contains s old = true → ReplaceString s old x = ReplaceString s old y → x = y.
Proof.
  intros Hc E. assert (String.length x = String.length y) as Hl.
  { pose proof (f_equal String.length E) as El.
    destruct (Nat.lt_total (String.length x) (String.length y)) as [Hlt|[|Hlt]]; [|done|];
      pose proof (ReplaceString_length s _ _ Hlt Hc); lia. }
  unfold ReplaceString in E. revert E. induction s as [|c s IH]; [done|]. apply Contains_cons in Hc. cbn [replace_go].
  destruct (CutPrefix (String c s) old) eqn:Ep.
  - by apply app_same_length.
  - destruct Hc as [[? ?]|Hc]; [done|]. intros E. simplify_eq. by apply IH.
Qed.

Lemma ReplaceString_ne s new : s ≠ "" → new ≠ "" → ReplaceString s old new ≠ "".
Proof.
  destruct s as [|c s]; [done|]. intros _ Hn. unfold ReplaceString. cbn [replace_go].
  destruct (CutPrefix _ _); [|done]. by destruct new.
Qed.
End replace.

(** ** White space *)

(** The string of the given bytes. *)
Definition bytes (l : list nat) : string := foldr (λ n s, String (ascii_of_nat n) s) "" l.

(** Every rune [unicode.IsSpace] accepts, in UTF-8. *)
Definition white_space : list string :=
  bytes <$> [[9]; [10]; [11]; [12]; [13]; [32]; [194; 133]; [194; 160]; [225; 154; 128];
             [226; 128; 128]; [226; 128; 129]; [226; 128; 130]; [226; 128; 131]; [226; 128; 132];
             [226; 128; 133]; [226; 128; 134]; [226; 128; 135]; [226; 128; 136]; [226; 128; 137];
             [226; 128; 138]; [226; 128; 168]; [226; 128; 169]; [226; 128; 175]; [226; 129; 159];
             [227; 128; 128]].

(** The length of the space [s] starts with, zero when it starts with none. *)
Definition space_len (s : string) : nat :=
  match List.find (HasPrefix s) white_space with
  | Some w => String.length w
  | None => 0
  end.

(** [strings.Fields]: [skip] bytes of a space are still to be dropped and [cur] is
    the field being read. *)
Fixpoint fields_go (skip : nat) (cur : string) (s : string) : list string :=
  match s with
  | "" => if decide (cur = "") then [] else [cur]
  | String c s' =>
      match skip, space_len s with
      | S skip, _ => fields_go skip cur s'
      | O, S n => (if decide (cur = "") then [] else [cur]) ++ fields_go n "" s'
      | O, O => fields_go 0 (cur ^^ String c "") s'
      end
  end.
Definition Fields (s : string) : list string := fields_go 0 "" s.

(** [strings.TrimSpace]. *)
Fixpoint trim_left_go (skip : nat) (s : string) : string :=
  match s with
  | "" => ""
  | String c s' =>
      match skip, space_len s with
      | S skip, _ => trim_left_go skip s'
      | O, S n => trim_left_go n s'
      | O, O => s
      end
  end.
Fixpoint trim_right (s : string) : string :=
  match s with
  | "" => ""
  | String c s' => if decide (trim_left_go 0 s = "") then "" else String c (trim_right s')
  end.
Definition TrimSpace (s : string) : string := trim_right (trim_left_go 0 s).

Example fields_tabs : Join (Fields (bytes [9] ^^ "a  b" ^^ bytes [194; 160] ^^ "c" ^^ bytes [10])) " " = "a b c".
Proof. reflexivity. Qed.

Example trim_both : TrimSpace (" x y" ^^ bytes [10; 32]) = "x y".
Proof. reflexivity. Qed.

(** A text of printable ASCII characters has no space to trim. *)
Definition printable (c : ascii) : bool := (33 <=? nat_of_ascii c) && (nat_of_ascii c <=? 126).

Lemma printable_no_space c s : printable c = true → space_len (String c s) = 0.
Proof.
  intros Hc. unfold space_len. destruct (List.find _ _) as [w|] eqn:E; [|done]. exfalso.
  apply find_Some_elem in E as [Hw Hp]. unfold HasPrefix in Hp. apply bool_decide_eq_true in Hp as [r Hp].
  assert (Forall (λ w, match w with String d _ => negb (printable d) | "" => false end = true) white_space) as Hall by by_decide.
  rewrite Forall_forall in Hall. specialize (Hall w Hw). destruct w as [|d w]; [done|]. cbn [CutPrefix] in Hp.
  case_decide; [|done]. subst. by rewrite Hc in Hall.
Qed.

Lemma TrimSpace_printable s : all_chars printable s = true → TrimSpace s = s.
Proof.
  assert (∀ c s, printable c = true → trim_left_go 0 (String c s) = String c s) as Hl.
  { intros c t Hc. cbn [trim_left_go]. by rewrite printable_no_space. }
  unfold TrimSpace. intros Hs. assert (trim_left_go 0 s = s) as ->.
  { destruct s as [|c s]; [done|]. cbn [all_chars] in Hs. apply andb_true_iff in Hs as [Hc _]. by apply Hl. }
  induction s as [|c s IH]; [done|]. cbn [all_chars] in Hs. apply andb_true_iff in Hs as [Hc Hs]. cbn [trim_right].
  rewrite Hl by done. rewrite decide_False by done. by rewrite IH.
Qed.

(** ** Decimal integers *)

(** [strconv.FormatInt], [strconv.Itoa] and the [%d] verb. *)
Definition Itoa (z : Z) : string := pretty z.

Definition digit (c : ascii) : option N :=
  let n := N_of_ascii c in
  if ((48 <=? n) && (n <=? 57))%N then Some (n - 48)%N else None.

Fixpoint digits (acc : N) (s : string) : option N :=
  match s with
  | "" => Some acc
  | String c s => d ← digit c; digits (10 * acc + d) s
  end.

(** [strconv.ParseInt(s, 10, 32)]: an optional sign, at least one digit, and a value
    in range; [None] stands for the error. *)
Definition parse_digits (neg : bool) (s : string) : option Z :=
  if decide (s = "") then None
  else n ← digits 0 s;
       let z := if neg then (- Z.of_N n)%Z else Z.of_N n in
       if decide (is_int32 z) then Some z else None.

Definition ParseInt32 (s : string) : option Z :=
  match s with
  | String "+" s => parse_digits false s
  | String "-" s => parse_digits true s
  | _ => parse_digits false s
  end.

Lemma digit_pretty n : (n < 10)%N → digit (pretty_N_char n) = Some n.
Proof.
  intros. assert (n = 0 ∨ n = 1 ∨ n = 2 ∨ n = 3 ∨ n = 4 ∨ n = 5 ∨ n = 6 ∨ n = 7 ∨ n = 8 ∨ n = 9)%N
    as H' by lia. by repeat destruct H' as [->|H']; subst.
Qed.

Lemma digits_pretty_go n s : digits 0 (pretty_N_go n s) = digits n s.
Proof.
  revert s. induction (N.lt_wf_0 n) as [n _ IH]; intros s.
  destruct (decide (n = 0)%N) as [->|?]; [done|].
  rewrite pretty_N_go_step by lia. rewrite IH by (apply N.div_lt; lia). simpl.
  rewrite digit_pretty by (by apply N.mod_lt). simpl. f_equal.
  pose proof (N.div_mod n 10). lia.
Qed.

Lemma digits_pretty (n : N) : digits 0 (pretty n) = Some n.
Proof. unfold pretty, pretty_N. case_decide; [by subst|]. apply digits_pretty_go. Qed.

(** The first character of a rendered natural number is a digit. *)
Lemma pretty_N_head (n : N) : ∃ c s, pretty n = String c s ∧ is_Some (digit c).
Proof.
  destruct (pretty n) as [|c s] eqn:E.
  - exfalso. assert (n = 0)%N as ->; [|done].
    pose proof (digits_pretty n) as H. rewrite E in H. by simplify_eq/=.
  - exists c, s. split; [done|]. pose proof (digits_pretty n) as H. rewrite E in H. simpl in H.
    destruct (digit c); naive_solver.
Qed.

(** A decimal digit is one of ten characters. *)
Lemma digit_cases c : is_Some (digit c) → ∃ n, n < 10 ∧ c = ascii_of_nat (48 + n).
Proof.
  intros [d Hd]. unfold digit in Hd. case_match eqn:E; [|done].
  apply andb_true_iff in E as [H1%N.leb_le H2%N.leb_le].
  exists (N.to_nat (N_of_ascii c) - 48). split; [lia|].
  replace (48 + _) with (nat_of_ascii c) by (unfold nat_of_ascii; lia).
  by rewrite ascii_nat_embedding.
Qed.

Lemma ParseInt32_Itoa z : (0 ≤ z)%Z → is_int32 z → ParseInt32 (Itoa z) = Some z.
Proof.
  intros Hz Hr. replace z with (Z.of_N (Z.to_N z)) by lia.
  set (n := Z.to_N z). assert (Itoa (Z.of_N n) = pretty n) as -> by (by destruct n).
  destruct (pretty_N_head n) as (c & s & E & Hc).
  pose proof (digits_pretty n) as Hd. rewrite E in Hd |- *.
  assert (is_int32 (Z.of_N n)) by (subst n; by rewrite Z2N.id).
  unfold ParseInt32.
  transitivity (if decide (String c s = "") then None
    else n ← digits 0 (String c s); if decide (is_int32 (Z.of_N n)) then Some (Z.of_N n) else None).
  { apply digit_cases in Hc as (k & Hk & ->). by do 10 (destruct k as [|k]; [done|]); lia. }
  rewrite decide_False by done. rewrite Hd. simpl. by rewrite decide_True.
Qed.

Lemma ParseInt32_range s z : ParseInt32 s = Some z → is_int32 z.
Proof.
  assert (∀ neg s, parse_digits neg s = Some z → is_int32 z) as Hp.
  { intros neg t. unfold parse_digits. case_decide; [done|]. destruct (digits 0 t) as [n|]; simpl; [|done].
    case_decide; naive_solver. }
  unfold ParseInt32. destruct s as [|[b0 b1 b2 b3 b4 b5 b6 b7] s]; [apply Hp|].
  destruct b0, b1, b2, b3, b4, b5, b6, b7; apply Hp.
Qed.

Lemma Itoa_inj x y : Itoa x = Itoa y → x = y.
Proof. apply (inj pretty). Qed.

Lemma Itoa_ne_nil z : Itoa z ≠ "".
Proof.
  intros E. destruct z as [|p|p]; [done| |done].
  destruct (pretty_N_head (N.pos p)) as (c & s & E' & _).
  change (pretty (N.pos p) = "") in E. congruence.
Qed.

(** ** [strconv.Quote], the [%q] verb *)

Definition hex_digit (n : nat) : ascii :=
  if n <? 10 then ascii_of_nat (48 + n) else ascii_of_nat (87 + n).

Definition quote_char (c : ascii) : string :=
  let n := nat_of_ascii c in
  if n =? 34 then bytes [92; 34]
  else if n =? 92 then bytes [92; 92]
  else if n =? 7 then "\a" else if n =? 8 then "\b" else if n =? 12 then "\f"
  else if n =? 10 then "\n" else if n =? 13 then "\r" else if n =? 9 then "\t" else if n =? 11 then "\v"
  else if (n <? 32) || (n =? 127)
       then "\x" ^^ String (hex_digit (n / 16)) (String (hex_digit (n mod 16)) "")
  else String c "".

Fixpoint quote_body (s : string) : string :=
  match s with
  | "" => ""
  | String c s => quote_char c ^^ quote_body s
  end.

Definition newline : ascii := ascii_of_nat 10.
(** Lines joined by newlines, and a text written with ['] for the double quote. *)
Definition unlines (l : list string) : string := Join l (String newline "").
Definition quoting (s : string) : string := ReplaceAll s "'" (ascii_of_nat 34).

Definition dquote : string := bytes [34].
Definition Quote (s : string) : string := dquote ^^ quote_body s ^^ dquote.

(** ** Sorting *)

(** [slices.Sort] on strings. *)
Definition SortStrings (l : list string) : list string := merge_sort String.le l.

Lemma SortStrings_perm l : SortStrings l ≡ₚ l.
Proof. apply merge_sort_Permutation. Qed.

Lemma SortStrings_sorted l : Sorted String.le (SortStrings l).
Proof. apply Sorted_merge_sort, _. Qed.

Lemma elem_of_SortStrings l s : s ∈ SortStrings l ↔ s ∈ l.
Proof. by rewrite SortStrings_perm. Qed.

(** A sorted list of strings is determined by its elements. *)
Lemma SortStrings_unique l k : l ≡ₚ k → SortStrings l = SortStrings k.
Proof.
  intros H. apply (Sorted_unique String.le); [apply SortStrings_sorted..|].
  by rewrite !SortStrings_perm.
Qed.

#[export] Instance SortStrings_proper : Proper ((≡ₚ) ==> (=)) SortStrings.
Proof. intros ???. by apply SortStrings_unique. Qed.

Lemma bfilter_sorted (f : string → bool) l : Sorted String.le l → Sorted String.le (List.filter f l).
Proof.
  intros Hl%Sorted_StronglySorted; [|apply _]. apply StronglySorted_Sorted. induction Hl as [|x l Hl IH Hx]; cbn; [constructor|].
  destruct (f x); [|done]. constructor; [done|]. rewrite list.Forall_forall in Hx |- *. intros y [Hy _]%elem_of_bfilter. by apply Hx.
Qed.

(** [slices.SortFunc] on records compared by a string key. The Go sort is not
    stable, so the model is only used where the keys are distinct: then the sorted
    list is unique and any sorting algorithm returns it ([SortByKey_unique]). *)
Section SortByKey.
Context {A : Type} (key : A → string).

Definition key_le (x y : A) : Prop := (String.le (key x) (key y)).

#[export] Instance key_le_dec : RelDecision key_le.
Proof. intros ??. unfold key_le. apply _. Defined.
#[export] Instance key_le_total : Total key_le.
Proof. intros x y. apply (total String.le). Qed.
#[export] Instance key_le_trans : Transitive key_le.
Proof. intros x y z. unfold key_le. apply (transitivity (R := String.le)). Qed.

Definition SortByKey (l : list A) : list A := merge_sort key_le l.

Lemma SortByKey_perm l : SortByKey l ≡ₚ l.
Proof. apply merge_sort_Permutation. Qed.

Lemma SortByKey_sorted l : Sorted key_le (SortByKey l).
Proof. apply Sorted_merge_sort, _. Qed.

Lemma SortByKey_unique l k :
  NoDup (key <$> l) → Sorted key_le k → k ≡ₚ l → k = SortByKey l.
Proof.
  intros Hnd Hs Hp. apply (Sorted_unique_strong key_le); [|done|apply SortByKey_sorted|].
  - intros x y Hx Hy H1 H2.
    assert (key x = key y) as Hk by (by apply (anti_symm String.le)).
    rewrite Hp in Hx. rewrite SortByKey_perm in Hy.
    apply list_elem_of_lookup in Hx as [i Hi], Hy as [j Hj].
    assert (i = j) as ->; [|congruence].
    eapply (NoDup_lookup _ _ _ (key x) Hnd); rewrite list_lookup_fmap.
    + by rewrite Hi.
    + rewrite Hj. simpl. by rewrite Hk.
  - by rewrite Hp, SortByKey_perm.
Qed.

Lemma SortByKey_cong l k : NoDup (key <$> l) → l ≡ₚ k → SortByKey l = SortByKey k.
Proof.
  intros Hnd Hp. symmetry. apply SortByKey_unique; [done|apply SortByKey_sorted|].
  by rewrite SortByKey_perm.
Qed.
End SortByKey.

(** ** [errors.Join] and message truncation need only lengths and prefixes *)

(** [s[:n]]. *)
Definition slice_to (s : string) (n : nat) : string := String.substring 0 n s.
(** [s[n:]]. *)
Definition slice_from (s : string) (n : nat) : string :=
  String.substring n (String.length s - n) s.

Lemma length_substring0 n s : String.length (String.substring 0 n s) = Nat.min n (String.length s).
Proof. revert s. induction n as [|n IH]; intros [|c s]; simpl; [done..|]. by rewrite IH. Qed.

Lemma length_slice_from s n : String.length (slice_from s n) = String.length s - n.
Proof.
  unfold slice_from. revert s. induction n as [|n IH]; intros s.
  - rewrite length_substring0. lia.
  - destruct s as [|c s]; [done|]. apply IH.
Qed.
