(* ===== verification/Regex.v ===== *)
(** * Regular expressions

    The syntax of Go's regexp package the schema's patterns use, matched by derivatives:
    [matches] decides the language [lang] a pattern denotes, and [show] prints an expression
    back to the text of the pattern, so that each pattern of Admission.v is compared with the
    source's. Patterns are matched against bytes: no class here tells the bytes of one rune
    apart from those of another. *)

From S2P Require Import Prelude GoStrings.

(** ** Syntax *)

(** [Class neg ranges] is [[lo-hi...]], or [[^lo-hi...]] with [neg]; [Group] is a pair of parentheses. *)
Inductive re :=
| Void
| Eps
| Char (c : ascii)
| Class_ (neg : bool) (ranges : list (ascii * ascii))
| Cat (r s : re)
| Alt (r s : re)
| Star (r : re)
| Plus (r : re)
| Opt (r : re)
| Group (r : re).

Definition in_range (c : ascii) (range : ascii * ascii) : bool :=
  (nat_of_ascii range.1 <=? nat_of_ascii c) && (nat_of_ascii c <=? nat_of_ascii range.2).

Definition in_class (neg : bool) (ranges : list (ascii * ascii)) (c : ascii) : bool :=
  xorb neg (List.existsb (in_range c) ranges).

(** The text of a literal. *)
Fixpoint literal (s : string) : re :=
  match s with
  | "" => Eps
  | String c "" => Char c
  | String c s => Cat (Char c) (literal s)
  end.

(** The sequence of several expressions. *)
Fixpoint seq_of (l : list re) : re :=
  match l with
  | [] => Eps
  | [r] => r
  | r :: l => Cat r (seq_of l)
  end.

Fixpoint alts (l : list re) : re :=
  match l with
  | [] => Void
  | [r] => r
  | r :: l => Alt r (alts l)
  end.

(** [(a|b|...)]. *)
Definition one_of (words : list string) : re := Group (alts (literal <$> words)).

(** A class as it is written, range by range: [cls ["-"; "a-z"]] is [[-a-z]]. *)
Definition range_of (text : string) : ascii * ascii :=
  match text with
  | String lo (String "-" (String hi "")) => (lo, hi)
  | String c _ => (c, c)
  | "" => (newline, newline)
  end.
Definition cls (ranges : list string) : re := Class_ false (range_of <$> ranges).

(** ** Matching *)

Fixpoint nullable (r : re) : bool :=
  match r with
  | Void | Char _ | Class_ _ _ => false
  | Eps | Star _ | Opt _ => true
  | Cat r s => nullable r && nullable s
  | Alt r s => nullable r || nullable s
  | Plus r | Group r => nullable r
  end.

(** A sequence and an alternative, less the branches that cannot match. *)
Definition cat (r s : re) : re :=
  match r with
  | Void => Void
  | Eps => s
  | _ => match s with Void => Void | _ => Cat r s end
  end.
Definition alt (r s : re) : re :=
  match r with
  | Void => s
  | _ => match s with Void => r | _ => Alt r s end
  end.

Fixpoint deriv (c : ascii) (r : re) : re :=
  match r with
  | Void | Eps => Void
  | Char d => if decide (d = c) then Eps else Void
  | Class_ neg ranges => if in_class neg ranges c then Eps else Void
  | Cat r s => alt (cat (deriv c r) s) (if nullable r then deriv c s else Void)
  | Alt r s => alt (deriv c r) (deriv c s)
  | Star r | Plus r => cat (deriv c r) (Star r)
  | Opt r | Group r => deriv c r
  end.

(** The whole of [s] matches. *)
Fixpoint matches (r : re) (s : string) : bool :=
  match s with
  | "" => nullable r
  | String c s => matches (deriv c r) s
  end.

(** A prefix of [s] matches. *)
Fixpoint starts_with (r : re) (s : string) : bool :=
  nullable r || match s with "" => false | String c s => starts_with (deriv c r) s end.

(** ** The text of a pattern *)

Definition show_char (c : ascii) : string :=
  if decide (c = newline) then "\n"
  else if decide (c = ascii_of_nat 13) then "\r"
  else if decide (c = "."%char) then "\." else String c "".

Definition show_class_char (c : ascii) : string := if decide (c = "."%char) then "." else show_char c.

Definition show_range (range : ascii * ascii) : string :=
  if decide (range.1 = range.2) then show_class_char range.1
  else show_class_char range.1 ^^ "-" ^^ show_class_char range.2.

Fixpoint show (r : re) : string :=
  match r with
  | Void => "[]"
  | Eps => ""
  | Char c => show_char c
  | Class_ neg ranges => "[" ^^ (if neg then "^" else "") ^^ Join (show_range <$> ranges) "" ^^ "]"
  | Cat r s => show r ^^ show s
  | Alt r s => show r ^^ "|" ^^ show s
  | Star r => show r ^^ "*"
  | Plus r => show r ^^ "+"
  | Opt r => show r ^^ "?"
  | Group r => "(" ^^ show r ^^ ")"
  end.

(** [^r$] and [^r]. *)
Definition anchored (r : re) : string := "^" ^^ show r ^^ "$".
Definition prefixed (r : re) : string := "^" ^^ show r.

(** ** The language of an expression *)

Inductive lang : re → string → Prop :=
| L_Eps : lang Eps ""
| L_Char c : lang (Char c) (String c "")
| L_Class neg ranges c : in_class neg ranges c = true → lang (Class_ neg ranges) (String c "")
| L_Cat r s x y : lang r x → lang s y → lang (Cat r s) (x ^^ y)
| L_Alt_l r s x : lang r x → lang (Alt r s) x
| L_Alt_r r s x : lang s x → lang (Alt r s) x
| L_Star_nil r : lang (Star r) ""
| L_Star_app r x y : lang r x → lang (Star r) y → lang (Star r) (x ^^ y)
| L_Plus r x y : lang r x → lang (Star r) y → lang (Plus r) (x ^^ y)
| L_Opt_nil r : lang (Opt r) ""
| L_Opt r x : lang r x → lang (Opt r) x
| L_Group r x : lang r x → lang (Group r) x.

Create HintDb regex.
#[export] Hint Constructors lang : regex.

Ltac lang_inv :=
  match goal with
  | H : lang Void _ |- _ => inversion H
  | H : lang Eps _ |- _ => inversion H; clear H; subst
  | H : lang (Char _) _ |- _ => inversion H; clear H; subst
  | H : lang (Class_ _ _) _ |- _ => inversion H; clear H; subst
  | H : lang (Cat _ _) _ |- _ => inversion H; clear H; subst
  | H : lang (Alt _ _) _ |- _ => inversion H; clear H; subst
  | H : lang (Plus _) _ |- _ => inversion H; clear H; subst
  | H : lang (Opt _) _ |- _ => inversion H; clear H; subst
  | H : lang (Group _) _ |- _ => inversion H; clear H; subst
  end.

Lemma lang_cat r s x : lang (cat r s) x ↔ lang (Cat r s) x.
Proof.
  assert (∀ y, lang (Cat Eps s) y ↔ lang s y) as He.
  { intros y. split; intros H; [by repeat lang_inv|]. rewrite <- (app_nil_l_s y). by constructor; [constructor|]. }
  assert (∀ y, lang (Cat r Void) y → False) as Hv by (intros y H; by repeat lang_inv).
  destruct r; cbn [cat]; [|by rewrite He|destruct s; try done..]; cbn [cat]; (split; intros H; [lang_inv|]).
  all: try (by apply Hv in H).
  all: try (inversion H; subst; lang_inv).
Qed.

Lemma lang_alt r s x : lang (alt r s) x ↔ lang (Alt r s) x.
Proof.
  assert (lang (Alt Void s) x ↔ lang s x) as Hl by (split; intros H; [by repeat lang_inv|by apply L_Alt_r]).
  assert (lang (Alt r Void) x ↔ lang r x) as Hr by (split; intros H; [by repeat lang_inv|by apply L_Alt_l]).
  destruct r; cbn [alt]; [by rewrite Hl|destruct s..]; try done; cbn [alt]; by rewrite Hr.
Qed.

(** ** Correctness of the matcher *)

Lemma app_eq_nil_s (x y : string) : x ^^ y = "" → x = "" ∧ y = "".
Proof. destruct x; [|done]. by rewrite app_nil_l_s. Qed.

Lemma nullable_lang r : nullable r = true ↔ lang r "".
Proof.
  assert (∀ r x, lang r x → x = "" → nullable r = true) as Hl.
  { intros r' x Hx. induction Hx; intros E; cbn [nullable]; try done; try apply app_eq_nil_s in E as [??];
      rewrite ?andb_true_iff, ?orb_true_iff; auto. }
  split; [|intros H; by eapply Hl]. clear Hl.
  induction r; cbn [nullable]; rewrite ?andb_true_iff, ?orb_true_iff; intros Hn; try done; auto with regex.
  - rewrite <- (app_nil_l_s ""). constructor; tauto.
  - destruct Hn; auto with regex.
  - rewrite <- (app_nil_l_s ""). constructor; auto with regex.
Qed.

(** A non-empty text of a star starts with a non-empty text of its body. *)
Lemma lang_star_cons r c x : lang (Star r) (String c x) → ∃ y z, x = y ^^ z ∧ lang r (String c y) ∧ lang (Star r) z.
Proof.
  remember (Star r) as sr eqn:Er. remember (String c x) as s eqn:Es. intros H. revert x Er Es.
  induction H as [| | | | | | |r' [|d y] z Hy _ Hz IH| | | |]; intros x0 Er Es; simplify_eq.
  - rewrite app_nil_l_s in Es. by apply IH.
  - rewrite app_cons_s in Es. simplify_eq. eauto.
Qed.

Lemma deriv_lang c r : ∀ x, lang (deriv c r) x ↔ lang r (String c x).
Proof.
  induction r as [| |d|neg ranges|r IHr s IHs|r IHr s IHs|r IHr|r IHr|r IHr|r IHr]; intros x; cbn [deriv].
  - split; intros H; by lang_inv.
  - split; intros H; by lang_inv.
  - case_decide as E; subst; (split; intros H; [by lang_inv; auto with regex|lang_inv; try done; constructor]).
  - destruct (in_class neg ranges c) eqn:E; (split; intros H; lang_inv; auto with regex; congruence).
  - rewrite lang_alt. split; intros H.
    + repeat lang_inv.
      * match goal with H : lang (cat _ _) _ |- _ => apply lang_cat in H end. lang_inv.
        rewrite <- app_cons_s. constructor; [by apply IHr|done].
      * destruct (nullable r) eqn:E; [|lang_inv]. apply nullable_lang in E. rewrite <- (app_nil_l_s (String c x)).
        constructor; [done|by apply IHs].
    + inversion H as [| | |? ? y z Hy Hz E1 E2| | | | | | | |]; subst. destruct y as [|d y].
      * rewrite app_nil_l_s in E2. subst. apply L_Alt_r. rewrite (proj2 (nullable_lang r)) by done. by apply IHs.
      * rewrite app_cons_s in E2. simplify_eq. apply L_Alt_l, lang_cat. constructor; [by apply IHr|done].
  - rewrite lang_alt. split; intros H; lang_inv; (apply L_Alt_l; by apply IHr) || (apply L_Alt_r; by apply IHs).
  - rewrite lang_cat. split; intros H.
    + lang_inv. rewrite <- app_cons_s. constructor; [by apply IHr|done].
    + apply lang_star_cons in H as (y & z & -> & Hy & Hz). constructor; [by apply IHr|done].
  - rewrite lang_cat. split; intros H.
    + lang_inv. rewrite <- app_cons_s. constructor; [by apply IHr|done].
    + inversion H as [| | | | | | | |? y z Hy Hz E1 E2| | |]; subst. destruct y as [|d y].
      * rewrite app_nil_l_s in E2. subst. apply lang_star_cons in Hz as (u & v & -> & Hu & Hv).
        constructor; [by apply IHr|done].
      * rewrite app_cons_s in E2. simplify_eq. constructor; [by apply IHr|done].
  - split; intros H; [apply L_Opt; by apply IHr|]. inversion H; subst. by apply IHr.
  - split; intros H; [apply L_Group; by apply IHr|]. inversion H; subst. by apply IHr.
Qed.

(** The matcher decides the language. *)
Lemma matches_lang r s : matches r s = true ↔ lang r s.
Proof.
  revert r. induction s as [|c s IH]; intros r; cbn [matches]; [apply nullable_lang|]. by rewrite IH, deriv_lang.
Qed.

Lemma starts_with_lang r s : starts_with r s = true ↔ ∃ x y, s = x ^^ y ∧ lang r x.
Proof.
  revert r. induction s as [|c s IH]; intros r; cbn [starts_with]; rewrite orb_true_iff, nullable_lang.
  - split; [intros [?|?]; [by exists "", ""|done]|]. intros (x & y & E & Hx). symmetry in E.
    apply app_eq_nil_s in E as [-> ->]. by left.
  - rewrite IH. split.
    + intros [Hn|(x & y & -> & Hx%deriv_lang)]; [by exists "", (String c s)|]. by exists (String c x), y.
    + intros ([|d x] & y & E & Hx); [by left|]. rewrite app_cons_s in E. simplify_eq. right.
      exists x, y. split; [done|]. by apply deriv_lang.
Qed.

Lemma matches_literal w s : lang (literal w) s ↔ s = w.
Proof.
  revert s. induction w as [|c w IH]; intros s; [split; [intros H; by inversion H|intros ->; constructor]|].
  destruct w as [|d w]; [split; [intros H; by inversion H|intros ->; constructor]|].
  change (literal (String c (String d w))) with (Cat (Char c) (literal (String d w))). split; intros H.
  - inversion H as [| | |? ? x y Hx Hy| | | | | | | |]; subst. apply IH in Hy as ->. by inversion Hx.
  - subst. change (String c (String d w)) with (String c "" ^^ String d w). constructor; [constructor|by apply IH].
Qed.

(** An alternative of words accepts the words. *)
Lemma matches_one_of words s : matches (one_of words) s = true ↔ s ∈ words.
Proof.
  rewrite matches_lang. unfold one_of.
  assert (lang (alts (literal <$> words)) s ↔ s ∈ words) as <- by
    (induction words as [|w [|w' words] IH]; [split; intros H; [inversion H|by apply elem_of_nil in H]| |];
     [change (alts (literal <$> [w])) with (literal w); by rewrite matches_literal, list_elem_of_singleton|];
     rewrite elem_of_cons, <- IH, <- (matches_literal w);
     change (alts (literal <$> w :: w' :: words)) with (Alt (literal w) (alts (literal <$> w' :: words)));
     split; [intros H; inversion H; auto|intros []; [by apply L_Alt_l|by apply L_Alt_r]]).
  split; [intros H; by inversion H|apply L_Group].
Qed.

(** ** The characters of a match *)

(** Every character an expression can match is one [p] accepts. *)
Fixpoint over (p : ascii → bool) (r : re) : bool :=
  match r with
  | Void | Eps => true
  | Char c => p c
  | Class_ neg ranges => List.forallb (λ n, implb (in_class neg ranges (ascii_of_nat n)) (p (ascii_of_nat n))) (seq 0 256)
  | Cat r s | Alt r s => over p r && over p s
  | Star r | Plus r | Opt r | Group r => over p r
  end.

Lemma over_lang p r s : over p r = true → lang r s → all_chars p s = true.
Proof.
  intros Ho H. induction H; cbn [over] in Ho; rewrite ?andb_true_iff in Ho; rewrite ?all_chars_app; cbn [all_chars];
    rewrite ?andb_true_r, ?andb_true_iff; try (apply proj1 in Ho as Ho1; apply proj2 in Ho as Ho2); auto.
  rewrite forallb_true_iff in Ho. specialize (Ho (nat_of_ascii c)). rewrite ascii_nat_embedding in Ho.
  assert (nat_of_ascii c ∈ seq 0 256) as Hin by (apply elem_of_seq; pose proof (nat_ascii_bounded c); lia).
  apply Ho in Hin. by rewrite H in Hin.
Qed.

(** The characters of a text a pattern accepts. *)
Lemma matches_chars p r s : over p r = true → matches r s = true → all_chars p s = true.
Proof. intros Ho Hm%matches_lang. by eapply over_lang. Qed.
