(* ===== verification/GoErrors.v ===== *)
(** * Go error values

    An [error] is what [Error()], [errors.Is] and [errors.As] can see of a Go
    error: its text, the errors it wraps, and the identities the operator tests
    for. A nil error is the [None] of [option error]; a function returning a value
    and an error returns [A + error]. *)

From S2P Require Import Prelude GoStrings.

(** The API server refusals the operator tells apart: [apierrors.IsNotFound],
    [IsConflict], [IsAlreadyExists], [IsForbidden], [IsInvalid]. *)
Inductive APIReason := NotFound | Conflict | AlreadyExists | Forbidden | Invalid | OtherReason.

#[export] Instance APIReason_eq_dec : EqDecision APIReason.
Proof. solve_decision. Defined.

Inductive error :=
| New (msg : string)
| Sentinel (msg : string)
| StatusError (reason : APIReason) (msg : string)
| Errorf (msg : string) (wrapped : list error)
| Joined (errs : list error)
| SettingRejected (command : string) (err : error)
| Neo4jError (code text : string).

(** [err.Error()]. *)
Fixpoint Error (e : error) : string :=
  match e with
  | New msg | Sentinel msg | StatusError _ msg | Errorf msg _ | Neo4jError _ msg => msg
  | Joined errs => Join (List.map Error errs) (bytes [10])
  | SettingRejected command err => command ^^ ": " ^^ Error err
  end.

(** [errors.Join]: nil when there is nothing to join. *)
Definition errors_Join (errs : list error) : option error :=
  match errs with [] => None | _ => Some (Joined errs) end.

(** The text [%w] of [errors.Join(errs...)] renders: Go prints a nil error as
    ["%!w(<nil>)"]. *)
Definition wrapped_text (e : option error) : string :=
  match e with Some e => Error e | None => "%!w(<nil>)" end.

(** [fmt.Errorf(prefix + ": %w", err)]. *)
Definition wrap (prefix : string) (err : error) : error :=
  Errorf (prefix ^^ ": " ^^ Error err) [err].

(** A test that holds of the error or of one it wraps: the walk of [errors.Is] and
    [errors.As]. *)
Fixpoint in_tree (p : error → bool) (e : error) : bool :=
  p e ||
  match e with
  | Errorf _ es | Joined es => List.existsb (in_tree p) es
  | SettingRejected _ err => in_tree p err
  | _ => false
  end.

(** [errors.Is(err, sentinel)] for a package-level sentinel. *)
Definition errors_Is (sentinel : string) (e : error) : bool :=
  in_tree (λ e, match e with Sentinel m => bool_decide (m = sentinel) | _ => false end) e.

(** The reason of the first API status in the tree, in the pre-order walk of
    [errors.As]. *)
Fixpoint reason_for (e : error) : option APIReason :=
  match e with
  | StatusError r _ => Some r
  | Errorf _ es | Joined es =>
      (fix go es := match es with
                    | [] => None
                    | e :: es => match reason_for e with Some r => Some r | None => go es end
                    end) es
  | SettingRejected _ err => reason_for err
  | _ => None
  end.

Definition has_reason (r : APIReason) (e : error) : bool := bool_decide (reason_for e = Some r).
Definition IsNotFound := has_reason NotFound.
Definition IsConflict := has_reason Conflict.
Definition IsAlreadyExists := has_reason AlreadyExists.
Definition IsForbidden := has_reason Forbidden.
Definition IsInvalid := has_reason Invalid.

(** [errors.As(err, *settingRejected)]: the first rejected setting of the tree. *)
Fixpoint as_setting_rejected (e : error) : option (string * error) :=
  match e with
  | SettingRejected command err => Some (command, err)
  | Errorf _ es | Joined es =>
      (fix go es := match es with
                    | [] => None
                    | e :: es => match as_setting_rejected e with Some r => Some r | None => go es end
                    end) es
  | _ => None
  end.

(** [errors.As(err, *neo4j.Neo4jError)]: the code of the first driver error of the tree. *)
Fixpoint as_neo4j_code (e : error) : option string :=
  match e with
  | Neo4jError code _ => Some code
  | Errorf _ es | Joined es =>
      (fix go es := match es with
                    | [] => None
                    | e :: es => match as_neo4j_code e with Some code => Some code | None => go es end
                    end) es
  | SettingRejected _ err => as_neo4j_code err
  | _ => None
  end.

Lemma IsNotFound_wrap p e : IsNotFound (wrap p e) = IsNotFound e.
Proof. unfold IsNotFound, has_reason, wrap. simpl. by destruct (reason_for e). Qed.
