(* ===== verification/K8s.v ===== *)
(** * Kubernetes objects

    The core/v1, apps/v1 and gateway.networking.k8s.io types the operator builds, by the
    fields it sets or reads. What a user can write in the spec and the operator only copies
    is the type [Rest] of the interface [Kube], [noRest] being nothing at all; an optional
    field is an [option], and a nil map or slice the empty one. *)

From S2P Require Import Prelude GoStrings.

(** A [resource.Quantity], kept by the text it is written in; amounts are compared through
    Volumes.v's [QuantityOrder]. *)
Definition Quantity : Type := string.

(** The parts of the Kubernetes API the operator copies, and [resource.MustParse]. *)
Class Kube := {
  MustParse : string → Quantity;
  ResourceRequirements : Type;
  Toleration : Type;
  Rest : Type;
  noRest : Rest
}.

(** ** Objects *)

Record KMeta := mkKMeta {
  km_Name : string;
  km_Namespace : string;
  km_Labels : gmap string string;
  km_Annotations : gmap string string
}.

Record KService := mkKService {
  sv_Meta : KMeta;
  sv_Type : string;
  sv_ClusterIP : string;
  sv_Selector : gmap string string;
  sv_PublishNotReadyAddresses : bool;
  sv_Ports : list (string * Z)
}.

Record KConfigMap := mkKConfigMap { cm_Meta : KMeta; cm_Data : gmap string string }.

Record KSecret := mkKSecret { se_Meta : KMeta; se_Type : string; se_Data : gmap string string }.

(** ** Pods *)

Inductive EnvVarSource := FieldRef (path : string) | SecretKeyRef (name key : string).

Record KeyToPath := mkKeyToPath { kp_Key : string; kp_Path : string }.

Record ContainerPort := mkContainerPort { cp_Name : string; cp_ContainerPort : Z }.

Inductive ProbeHandler := TCPSocket (port : Z) | HTTPGet (path portName : string).

(** A probe with no timing of its own carries zeros, which the API server defaults. *)
Record Probe := mkProbe {
  pb_Handler : ProbeHandler;
  pb_FailureThreshold : Z;
  pb_TimeoutSeconds : Z;
  pb_PeriodSeconds : Z
}.

(** The security context of a container; [sx_SeccompProfile] is the profile's type. *)
Record SecurityContext := mkSecurityContext {
  sx_Privileged : option bool;
  sx_AllowPrivilegeEscalation : option bool;
  sx_CapabilitiesDrop : list string;
  sx_CapabilitiesAdd : list string;
  sx_ReadOnlyRootFilesystem : option bool;
  sx_RunAsUser : option Z;
  sx_RunAsNonRoot : option bool;
  sx_SeccompProfile : string
}.

Record PodSecurityContext := mkPodSecurityContext {
  px_RunAsUser : option Z;
  px_RunAsGroup : option Z;
  px_FSGroup : option Z;
  px_RunAsNonRoot : option bool;
  px_SeccompProfile : string
}.

#[export] Instance SecurityContext_eq_dec : EqDecision SecurityContext.
Proof. solve_decision. Defined.

Section pods.
Context `{Kube}.

Record KEnvVar := mkKEnvVar { ke_Name : string; ke_Value : string; ke_ValueFrom : option (EnvVarSource + Rest) }.

Inductive VolumeSource :=
| EmptyDir
| SecretVolume (name : string) (items : list KeyToPath)
| ConfigMapVolume (name : string)
| OtherVolume (source : Rest).

Record Volume := mkVolume { vo_Name : string; vo_Source : VolumeSource }.

Record VolumeMount := mkVolumeMount {
  vm_Name : string;
  vm_MountPath : string;
  vm_ReadOnly : bool;
  vm_Rest : Rest
}.

(** Of a container a user wrote: what these fields cannot hold is in [co_Rest], and a
    security context with a field beyond [SecurityContext] is a [Rest] as a whole. *)
Record Container := mkContainer {
  co_Name : string;
  co_Image : string;
  co_ImagePullPolicy : string;
  co_Command : list string;
  co_Args : list string;
  co_Env : list KEnvVar;
  co_EnvFromSecrets : list string;
  co_Ports : list ContainerPort;
  co_Resources : option ResourceRequirements;
  co_VolumeMounts : list VolumeMount;
  co_ReadinessProbe : option Probe;
  co_SecurityContext : option (SecurityContext + Rest);
  co_Rest : Rest
}.

Record LabelSelector := mkLabelSelector { lb_MatchLabels : gmap string string; lb_Rest : Rest }.

Record TopologySpreadConstraint := mkSpreadConstraint {
  sc_LabelSelector : option LabelSelector;
  sc_Rest : Rest
}.

Record PodAffinityTerm := mkPodAffinityTerm {
  pt_LabelSelector : option LabelSelector;
  pt_TopologyKey : string;
  pt_Rest : Rest
}.

Record PodAntiAffinity := mkPodAntiAffinity {
  aa_Required : list PodAffinityTerm;
  aa_Preferred : list (Z * PodAffinityTerm)
}.

Record PodSpec := mkPodSpec {
  ps_TerminationGracePeriodSeconds : option Z;
  ps_AutomountServiceAccountToken : option bool;
  ps_InitContainers : list Container;
  ps_Containers : list Container;
  ps_SecurityContext : PodSecurityContext;
  ps_Volumes : list Volume;
  ps_NodeSelector : gmap string string;
  ps_Tolerations : list Toleration;
  ps_TopologySpreadConstraints : list TopologySpreadConstraint;
  ps_PodAntiAffinity : option PodAntiAffinity;
  ps_PriorityClassName : string
}.

Record PodTemplateSpec := mkPodTemplateSpec {
  te_Labels : gmap string string;
  te_Annotations : gmap string string;
  te_Spec : PodSpec
}.

(** ** Workloads *)

Record ClaimTemplateSpec := mkClaimTemplateSpec {
  ts_Name : string;
  ts_AccessMode : string;
  ts_StorageClassName : option string;
  ts_Storage : Quantity
}.

Record StatefulSetSpec := mkStatefulSetSpec {
  sf_Meta : KMeta;
  sf_Replicas : Z;
  sf_ServiceName : string;
  sf_PodManagementPolicy : string;
  sf_UpdateStrategy : string;
  sf_Selector : gmap string string;
  sf_WhenDeleted : string;
  sf_WhenScaled : string;
  sf_VolumeClaimTemplates : list ClaimTemplateSpec;
  sf_Template : PodTemplateSpec
}.

Record Deployment := mkDeployment {
  dp_Meta : KMeta;
  dp_Replicas : Z;
  dp_Selector : gmap string string;
  dp_Template : PodTemplateSpec
}.
End pods.

(** The values of the APIs the operator names. *)

Definition TLSCertKey : string := "tls.crt".
Definition TLSPrivateKeyKey : string := "tls.key".
Definition SeccompProfileTypeRuntimeDefault : string := "RuntimeDefault".
Definition ParallelPodManagement : string := "Parallel".
Definition OnDeleteStatefulSetStrategyType : string := "OnDelete".
Definition ClusterIPNone : string := "None".
Definition ServiceTypeLoadBalancer : string := "LoadBalancer".
Definition ServiceTypeClusterIP : string := "ClusterIP".
Definition SecretTypeOpaque : string := "Opaque".
Definition ReadWriteOnce : string := "ReadWriteOnce".
Definition StatefulSetPodNameLabel : string := "statefulset.kubernetes.io/pod-name".
