(* ===== verification/Api.v ===== *)
(** * Package v1alpha1: the MemgraphDBCluster resource

    The constants and the data types of api/v1alpha1/memgraphdbcluster_types.go. An optional
    (pointer) field is an [option]; a string with [omitempty] is the empty string when
    unset, which is how the code reads it; a map is a [gmap], a nil one the empty one. The
    Kubernetes types the resource carries are those of K8s.v, and the list of conditions
    goes through [ConditionsAPI], whose laws are the documented behaviour of apimachinery's
    condition helpers. *)

From S2P Require Import Prelude GoStrings K8s.

(** ** Enumerations and constants *)

Definition RetentionPolicyRetain : string := "Retain".
Definition RetentionPolicyDelete : string := "Delete".

Definition LogFileLibClaim : string := "LibClaim".
Definition LogFileNone : string := "None".

Definition CorePatternOperator : string := "Operator".
Definition CorePatternNode : string := "Node".

Definition PodAntiAffinityPreferred : string := "preferred".
Definition PodAntiAffinityRequired : string := "required".

Definition PodAntiAffinityScopeRole : string := "role".
Definition PodAntiAffinityScopeCluster : string := "cluster".

Definition DefaultPodAntiAffinityType : string := PodAntiAffinityPreferred.
Definition DefaultPodAntiAffinityScope : string := PodAntiAffinityScopeRole.
Definition DefaultPodAntiAffinityTopologyKey : string := "kubernetes.io/hostname".
Definition PodAntiAffinityWeight : Z := 100.

Definition ExternalAccessLoadBalancer : string := "LoadBalancer".
Definition ExternalAccessGateway : string := "Gateway".
Definition DefaultGatewayDataPortBase : Z := 9000.

Definition ExternalDNSHostnameAnnotation : string := "external-dns.alpha.kubernetes.io/hostname".
Definition OrdinalPlaceholder : string := "{ordinal}".

Definition DefaultCoordinatorCount : Z := 3.
Definition DefaultDataInstanceCount : Z := 2.
Definition DefaultImageRepository : string := "docker.io/memgraph/memgraph".
Definition DefaultImageTag : string := "3.13.0-relwithdebinfo".
Definition DefaultImageReference : string := DefaultImageRepository ^^ ":" ^^ DefaultImageTag.
Definition DefaultImagePullPolicy : string := "IfNotPresent".
Definition DefaultSecretName : string := "memgraph-secrets".
Definition DefaultLicenseSecretKey : string := "MEMGRAPH_ENTERPRISE_LICENSE".
Definition DefaultOrganizationSecretKey : string := "MEMGRAPH_ORGANIZATION_NAME".
Definition AWSAccessKeySecretKey : string := "AWS_ACCESS_KEY_ID".
Definition AWSSecretKeySecretKey : string := "AWS_SECRET_ACCESS_KEY".
Definition AWSRegionSecretKey : string := "AWS_REGION".
Definition AWSEndpointURLSecretKey : string := "AWS_ENDPOINT_URL".
Definition DefaultCoreDumpsSize : string := "10Gi".
Definition DefaultCorePattern : string := CorePatternOperator.
Definition DefaultMaxMapCount : Z := 524288.
Definition DefaultRunAsUser : Z := 101.
Definition DefaultRunAsGroup : Z := 103.
Definition DefaultFSGroup : Z := 103.
Definition DefaultLibPVCSize : string := "10Gi".
Definition DefaultLogFile : string := LogFileLibClaim.
Definition DefaultStorageAccessMode : string := "ReadWriteOnce".
Definition DefaultStorageRetention : string := RetentionPolicyRetain.
Definition DefaultClusterDomain : string := "cluster.local".
Definition BoltPort : Z := 7687.
Definition ManagementPort : Z := 10000.
Definition ReplicationPort : Z := 20000.
Definition CoordinatorPort : Z := 12000.
Definition MetricsPort : Z := 9091.
Definition DefaultGrafanaDashboardLabel : string := "grafana_dashboard".
Definition DefaultGrafanaDashboardValue : string := "1".
Definition DefaultVMAgentImageRepository : string := "docker.io/victoriametrics/vmagent".
Definition DefaultVMAgentImageTag : string := "v1.139.0".
Definition DefaultVMAgentScrapeInterval : string := "15s".
Definition VMAgentPort : Z := 8429.
Definition BasicAuthUsernameKey : string := "username".
Definition BasicAuthPasswordKey : string := "password".
Definition DefaultVectorImageRepository : string := "docker.io/timberio/vector".
Definition DefaultVectorImageTag : string := "0.49.0-debian".
Definition MonitoringPort : Z := 7444.

Definition DefaultProbeFailureThreshold : Z := 20.
Definition DefaultProbeTimeoutSeconds : Z := 10.
Definition DefaultProbePeriodSeconds : Z := 5.

Definition EnvPodName : string := "POD_NAME".
Definition EnvCoreDumpsDir : string := "CORE_DUMPS_DIR".

Definition ConditionReady : string := "Ready".
Definition ConditionConverged : string := "Converged".
Definition ConditionUpdated : string := "Updated".
Definition ConditionLicenseApplied : string := "LicenseApplied".

Definition ReasonApplyFailed : string := "ApplyFailed".
Definition ReasonWorkloadsNotReady : string := "WorkloadsNotReady".
Definition ReasonCoordinatorUnreachable : string := "CoordinatorUnreachable".
Definition ReasonNoCoordinatorLeader : string := "NoCoordinatorLeader".
Definition ReasonRegistrationInProgress : string := "RegistrationInProgress".
Definition ReasonRegistrationFailed : string := "RegistrationFailed".
Definition ReasonAllInstancesRegistered : string := "AllInstancesRegistered".
Definition ReasonExternalAddressPending : string := "ExternalAddressPending".
Definition ReasonSettingsPending : string := "SettingsPending".
Definition ReasonSettingsRejected : string := "SettingsRejected".
Definition ReasonUnknownFlags : string := "UnknownFlags".
Definition ReasonFlagsUnclassified : string := "FlagsUnclassified".
Definition ReasonVolumeExpansionInProgress : string := "VolumeExpansionInProgress".
Definition ReasonVolumeExpansionRefused : string := "VolumeExpansionRefused".
Definition ReasonVolumeExpansionFailed : string := "VolumeExpansionFailed".
Definition ReasonRetirementInProgress : string := "RetirementInProgress".
Definition ReasonLeadershipTransferInProgress : string := "LeadershipTransferInProgress".
Definition ReasonNoCaughtUpSurvivor : string := "NoCaughtUpSurvivor".
Definition ReasonRollingRestartInProgress : string := "RollingRestartInProgress".
Definition ReasonWaitingForCatchUp : string := "WaitingForCatchUp".
Definition ReasonAllPodsUpdated : string := "AllPodsUpdated".
Definition ReasonLicenseMatchesSecret : string := "LicenseMatchesSecret".
Definition ReasonLicensePending : string := "LicensePending".
Definition ReasonLicenseRejected : string := "LicenseRejected".
Definition ReasonNoMainElected : string := "NoMainElected".
Definition ReasonReconciling : string := "Reconciling".
Definition ReasonReconciled : string := "Reconciled".

(** ** Conditions *)

(** [metav1.Condition] and its status; the transition time is left to the API. *)
Inductive ConditionStatus := ConditionTrue | ConditionFalse | ConditionUnknown.

#[export] Instance ConditionStatus_eq_dec : EqDecision ConditionStatus.
Proof. solve_decision. Defined.

Record Condition := mkCondition {
  Type_ : string;
  Status : ConditionStatus;
  Reason : string;
  Message : string;
  ObservedGeneration : Z
}.

#[export] Instance Condition_eq_dec : EqDecision Condition.
Proof. solve_decision. Defined.

(** apimachinery's [meta.FindStatusCondition], [SetStatusCondition] and
    [RemoveStatusCondition] on a list of conditions [L]: a condition is kept per type. *)
Class ConditionsAPI (L : Type) := {
  noConditions : L;
  FindStatusCondition : L → string → option Condition;
  SetStatusCondition : L → Condition → L;
  RemoveStatusCondition : L → string → L;
  find_none : ∀ t, FindStatusCondition noConditions t = None;
  find_type : ∀ l t c, FindStatusCondition l t = Some c → Type_ c = t;
  find_set : ∀ l c, FindStatusCondition (SetStatusCondition l c) (Type_ c) = Some c;
  find_set_ne : ∀ l c t, Type_ c ≠ t →
    FindStatusCondition (SetStatusCondition l c) t = FindStatusCondition l t;
  find_remove : ∀ l t, FindStatusCondition (RemoveStatusCondition l t) t = None;
  find_remove_ne : ∀ l t t', t ≠ t' →
    FindStatusCondition (RemoveStatusCondition l t) t' = FindStatusCondition l t'
}.

(** A concrete implementation: an association by type. *)
#[export] Program Instance conditions_map : ConditionsAPI (gmap string Condition) | 100 := {|
  noConditions := ∅;
  FindStatusCondition l t :=
    match l !! t with Some c => if decide (Type_ c = t) then Some c else None | None => None end;
  SetStatusCondition l c := <[Type_ c := c]> l;
  RemoveStatusCondition l t := delete t l
|}.
Next Obligation. intros. simpl. by rewrite lookup_empty. Qed.
Next Obligation. intros l t c. simpl. destruct (l !! t); [case_decide|]; naive_solver. Qed.
Next Obligation. intros. simpl. by rewrite lookup_insert_eq, decide_True. Qed.
Next Obligation. intros. simpl. by rewrite lookup_insert_ne. Qed.
Next Obligation. intros. simpl. by rewrite lookup_delete_eq. Qed.
Next Obligation. intros. simpl. by rewrite lookup_delete_ne. Qed.

Section InitializeConditions.
Context {L : Type} `{ConditionsAPI L}.

(** The body of the loop of [InitializeConditions]. *)
Definition initialize_condition (generation : Z) (conditions : L) (condType : string) : L :=
  match FindStatusCondition conditions condType with
  | None => SetStatusCondition conditions
              (mkCondition condType ConditionUnknown ReasonReconciling "" generation)
  | Some _ => conditions
  end.

Definition InitializeConditions (generation : Z) (conditions : L) : L :=
  foldl (initialize_condition generation) conditions
    [ConditionReady; ConditionConverged; ConditionUpdated; ConditionLicenseApplied].
End InitializeConditions.

Definition reported_conditions : list string :=
  [ConditionReady; ConditionConverged; ConditionUpdated; ConditionLicenseApplied].

Section InitializeConditions_lemmas.
Context {L : Type} `{ConditionsAPI L}.

Lemma find_initialize_condition generation conditions condType t :
  FindStatusCondition (initialize_condition generation conditions condType) t =
    match FindStatusCondition conditions t with
    | Some c => Some c
    | None => if decide (condType = t)
              then Some (mkCondition t ConditionUnknown ReasonReconciling "" generation) else None
    end.
Proof.
  unfold initialize_condition. destruct (FindStatusCondition conditions condType) eqn:E.
  - case_match eqn:E'; [done|]. case_decide; congruence.
  - case_decide; subst.
    + rewrite E. apply (find_set _ (mkCondition t _ _ _ _)).
    + rewrite find_set_ne by done. by destruct (FindStatusCondition conditions t).
Qed.

Lemma find_initialize generation types : ∀ conditions t,
  FindStatusCondition (foldl (initialize_condition generation) conditions types) t =
    match FindStatusCondition conditions t with
    | Some c => Some c
    | None => if decide (t ∈ types)
              then Some (mkCondition t ConditionUnknown ReasonReconciling "" generation) else None
    end.
Proof.
  induction types as [|condType types IH]; intros conditions t; cbn [foldl].
  - destruct (FindStatusCondition conditions t); [done|]. by rewrite decide_False by set_solver.
  - rewrite IH, find_initialize_condition. destruct (FindStatusCondition conditions t); [done|].
    destruct (decide (condType = t)) as [->|]; [by rewrite decide_True by left|].
    case_decide; [by rewrite decide_True by (by right)|].
    rewrite decide_False; [done|]. by intros [?|?]%elem_of_cons.
Qed.
End InitializeConditions_lemmas.

(** ** The spec *)

Definition FlagValue : Type := string.

Record ImageSpec := mkImageSpec {
  is_Repository : string;
  is_Tag : string;
  is_PullPolicy : string
}.

Record SecretsSpec := mkSecretsSpec {
  ss_Name : string;
  ss_LicenseKey : string;
  ss_OrganizationKey : string
}.

Record SecretReference := mkSecretReference { sr_Name : string }.
Record AWSCredentialsSpec := mkAWSCredentialsSpec { ac_SecretRef : SecretReference }.
Record SysctlInitContainerSpec := mkSysctlInitContainerSpec { si_MaxMapCount : Z }.
Record FixOwnershipInitContainerSpec := mkFixOwnershipInitContainerSpec {}.
Record FIPSSpec := mkFIPSSpec {}.

Record PodSecurityContextSpec := mkPodSecurityContextSpec {
  sc_RunAsUser : option Z;
  sc_RunAsGroup : option Z;
  sc_FSGroup : option Z
}.

Record ReadinessProbeSpec := mkReadinessProbeSpec {
  rp_FailureThreshold : option Z;
  rp_TimeoutSeconds : option Z;
  rp_PeriodSeconds : option Z
}.

Record RoleLabelsSpec := mkRoleLabelsSpec {
  rl_PodLabels : gmap string string;
  rl_StatefulSetLabels : gmap string string;
  rl_ServiceLabels : gmap string string
}.

Record LabelsSpec := mkLabelsSpec {
  ls_Coordinators : RoleLabelsSpec;
  ls_Data : RoleLabelsSpec
}.

Record PodAntiAffinitySpec := mkPodAntiAffinitySpec {
  pa_Type : string;
  pa_Scope : string;
  pa_TopologyKey : string
}.

Record EnvVar := mkEnvVar { ev_Name : string; ev_Value : string }.

Record ExtraEnvSpec := mkExtraEnvSpec {
  ee_Coordinators : list EnvVar;
  ee_Data : list EnvVar
}.

Record FlagsSpec := mkFlagsSpec {
  fs_Coordinators : gmap string FlagValue;
  fs_Data : gmap string FlagValue
}.

Record ExternalAccessGatewaySpec := mkExternalAccessGatewaySpec {
  gw_GatewayClassName : string;
  gw_DataPortBase : option Z;
  gw_Labels : gmap string string;
  gw_Annotations : gmap string string
}.

Record ExternalAccessRoleSpec := mkExternalAccessRoleSpec {
  er_Labels : gmap string string;
  er_Annotations : gmap string string
}.

Record ExternalAccessSpec := mkExternalAccessSpec {
  ea_Type : string;
  ea_Coordinators : ExternalAccessRoleSpec;
  ea_Data : ExternalAccessRoleSpec;
  ea_Gateway : ExternalAccessGatewaySpec
}.

Record ServiceMonitorSpec := mkServiceMonitorSpec {
  sm_Labels : gmap string string;
  sm_Annotations : gmap string string;
  sm_Interval : string
}.

Record GrafanaDashboardSpec := mkGrafanaDashboardSpec {
  gd_Labels : gmap string string;
  gd_Annotations : gmap string string
}.

Record VMAgentImageSpec := mkVMAgentImageSpec {
  vi_Repository : string;
  vi_Tag : string;
  vi_PullPolicy : string
}.

Record BasicAuthSecretSpec := mkBasicAuthSecretSpec { ba_SecretRef : SecretReference }.

Record RemoteWriteSpec := mkRemoteWriteSpec {
  rw_URL : string;
  rw_BasicAuth : option BasicAuthSecretSpec
}.

Record VectorImageSpec := mkVectorImageSpec {
  xi_Repository : string;
  xi_Tag : string;
  xi_PullPolicy : string
}.

Record BoltTLSSpec := mkBoltTLSSpec { bt_SecretRef : SecretReference }.
Record IntraClusterTLSSpec := mkIntraClusterTLSSpec { it_SecretRef : SecretReference }.
Record TLSSpec := mkTLSSpec {
  tls_Bolt : option BoltTLSSpec;
  tls_IntraCluster : option IntraClusterTLSSpec
}.

Section spec.
Context `{Kube}.

Record RoleStorageSpec := mkRoleStorageSpec {
  st_LibPVCSize : option Quantity;
  st_LibStorageAccessMode : string;
  st_LibStorageClassName : option string;
  st_LogFile : string
}.

Record StorageSpec := mkStorageSpec {
  st_RetentionPolicy : string;
  st_Coordinators : RoleStorageSpec;
  st_Data : RoleStorageSpec
}.

Record RoleCoreDumpsSpec := mkRoleCoreDumpsSpec { cd_Size : option Quantity }.

Record CoreDumpsUploaderSpec := mkCoreDumpsUploaderSpec {
  cu_Image : string;
  cu_PullPolicy : string;
  cu_Command : list string;
  cu_Args : list string;
  cu_Env : list EnvVar;
  cu_EnvFromSecrets : list string;
  cu_Resources : ResourceRequirements
}.

Record CoreDumpsSpec := mkCoreDumpsSpec {
  cd_Coordinators : option RoleCoreDumpsSpec;
  cd_Data : option RoleCoreDumpsSpec;
  cd_StorageClassName : option string;
  cd_CorePattern : string;
  cd_Uploader : option CoreDumpsUploaderSpec
}.

Record ResourcesSpec := mkResourcesSpec {
  rs_Coordinators : ResourceRequirements;
  rs_Data : ResourceRequirements
}.

Record RoleSchedulingSpec := mkRoleSchedulingSpec {
  sd_NodeSelector : gmap string string;
  sd_Tolerations : list Toleration;
  sd_TopologySpreadConstraints : list TopologySpreadConstraint;
  sd_RolePodAntiAffinity : option PodAntiAffinity;
  sd_PriorityClassName : string
}.

Record SchedulingSpec := mkSchedulingSpec {
  sd_PodAntiAffinity : option PodAntiAffinitySpec;
  sd_Coordinators : RoleSchedulingSpec;
  sd_Data : RoleSchedulingSpec
}.

Record ExtraVolumesSpec := mkExtraVolumesSpec {
  xv_Coordinators : list Volume;
  xv_Data : list Volume
}.

Record ExtraVolumeMountsSpec := mkExtraVolumeMountsSpec {
  xm_Coordinators : list VolumeMount;
  xm_Data : list VolumeMount
}.

Record UserContainersSpec := mkUserContainersSpec {
  uc_Coordinators : list Container;
  uc_Data : list Container
}.

Record InitContainersSpec := mkInitContainersSpec {
  ic_Coordinators : list Container;
  ic_Data : list Container
}.

Record VectorRemoteSpec := mkVectorRemoteSpec {
  vr_Image : VectorImageSpec;
  vr_LogsEndpoint : string;
  vr_Auth : option BasicAuthSecretSpec;
  vr_ExtraLabels : gmap string string;
  vr_Resources : ResourceRequirements
}.

Record VMAgentRemoteSpec := mkVMAgentRemoteSpec {
  va_Image : VMAgentImageSpec;
  va_RemoteWrite : RemoteWriteSpec;
  va_ScrapeInterval : string;
  va_ExternalLabels : gmap string string;
  va_Resources : ResourceRequirements
}.

Record MonitoringSpec := mkMonitoringSpec {
  mo_ServiceMonitor : option ServiceMonitorSpec;
  mo_GrafanaDashboard : option GrafanaDashboardSpec;
  mo_VMAgentRemote : option VMAgentRemoteSpec;
  mo_VectorRemote : option VectorRemoteSpec
}.

Record MemgraphDBClusterSpec := mkSpec {
  sp_Coordinators : option Z;
  sp_DataInstances : option Z;
  sp_Image : ImageSpec;
  sp_Secrets : SecretsSpec;
  sp_AWSCredentials : option AWSCredentialsSpec;
  sp_Storage : StorageSpec;
  sp_CoreDumps : CoreDumpsSpec;
  sp_SysctlInitContainer : option SysctlInitContainerSpec;
  sp_SecurityContext : option PodSecurityContextSpec;
  sp_FixOwnershipInitContainer : option FixOwnershipInitContainerSpec;
  sp_ClusterDomain : string;
  sp_ReadinessProbe : ReadinessProbeSpec;
  sp_Resources : ResourcesSpec;
  sp_Labels : LabelsSpec;
  sp_Scheduling : SchedulingSpec;
  sp_ExtraEnv : ExtraEnvSpec;
  sp_Flags : FlagsSpec;
  sp_ExtraVolumes : ExtraVolumesSpec;
  sp_ExtraVolumeMounts : ExtraVolumeMountsSpec;
  sp_UserContainers : UserContainersSpec;
  sp_InitContainers : InitContainersSpec;
  sp_ExternalAccess : option ExternalAccessSpec;
  sp_Monitoring : option MonitoringSpec;
  sp_TLS : option TLSSpec;
  sp_FIPS : option FIPSSpec
}.
End spec.

(** ** The status and the resource *)

Record ExternalAddress := mkExternalAddress { xa_Name : string; xa_Address : string }.

Record ExternalAccessStatus := mkExternalAccessStatus {
  xs_Coordinators : string;
  xs_Data : list ExternalAddress
}.

Record MemgraphDBClusterStatus (L : Type) := mkStatus {
  su_Main : string;
  su_Coordinators : Z;
  su_DataInstances : Z;
  su_ExternalAccess : option ExternalAccessStatus;
  su_Conditions : L
}.
Arguments mkStatus {L}.
Arguments su_Main {L}.
Arguments su_Coordinators {L}.
Arguments su_DataInstances {L}.
Arguments su_ExternalAccess {L}.
Arguments su_Conditions {L}.

#[export] Instance ExternalAddress_eq_dec : EqDecision ExternalAddress.
Proof. solve_decision. Defined.
#[export] Instance ExternalAccessStatus_eq_dec : EqDecision ExternalAccessStatus.
Proof. solve_decision. Defined.
#[export] Instance MemgraphDBClusterStatus_eq_dec `{EqDecision L} : EqDecision (MemgraphDBClusterStatus L).
Proof. solve_decision. Defined.

(** The parts of the object metadata the operator reads: name, namespace, uid, generation. *)
Record ObjectMeta := mkObjectMeta {
  m_Name : string;
  m_Namespace : string;
  m_UID : string;
  m_Generation : Z
}.

Record MemgraphDBCluster `{Kube} (L : Type) := mkCluster {
  Meta : ObjectMeta;
  Spec : MemgraphDBClusterSpec;
  Status_ : MemgraphDBClusterStatus L
}.
Arguments mkCluster {_ L}.
Arguments Meta {_ L}.
Arguments Spec {_ L}.
Arguments Status_ {_ L}.

(** ** An empty spec *)

Module Example.
(** Quantities and the other Kubernetes types as their text. *)
#[export] Instance kube_text : Kube := {|
  MustParse := λ s, s; ResourceRequirements := string; Toleration := string; Rest := string; noRest := "" |}.

Definition emptyStorage : RoleStorageSpec := mkRoleStorageSpec None "" None "".
Definition emptyLabels : RoleLabelsSpec := mkRoleLabelsSpec ∅ ∅ ∅.
Definition emptyScheduling : RoleSchedulingSpec := mkRoleSchedulingSpec ∅ [] [] None "".
Definition spec (coordinators dataInstances : option Z) (flags : FlagsSpec) : MemgraphDBClusterSpec :=
  mkSpec coordinators dataInstances (mkImageSpec "" "" "") (mkSecretsSpec "" "" "") None
    (mkStorageSpec "" emptyStorage emptyStorage) (mkCoreDumpsSpec None None None "" None) None None None ""
    (mkReadinessProbeSpec None None None) (mkResourcesSpec "" "") (mkLabelsSpec emptyLabels emptyLabels)
    (mkSchedulingSpec None emptyScheduling emptyScheduling) (mkExtraEnvSpec [] []) flags
    (mkExtraVolumesSpec [] []) (mkExtraVolumeMountsSpec [] []) (mkUserContainersSpec [] [])
    (mkInitContainersSpec [] []) None None None None.

(** A cluster of the given counts, named [db]. *)
Definition cluster (coordinators dataInstances : option Z) : MemgraphDBCluster (gmap string Condition) :=
  mkCluster (mkObjectMeta "db" "default" "uid" 1) (spec coordinators dataInstances (mkFlagsSpec ∅ ∅))
    (mkStatus "" 0 0 None noConditions).
End Example.
