(* ===== verification/Client.v ===== *)
(** * Package memgraph: the cluster view and the query text

    The data of internal/memgraph/client.go, the query grammar of queries.go and the
    row parsing of bolt.go. A driver record is a map from column name to value, as
    [record.Get] reads it; the calls that fetch the records are in Bolt.v. *)

From S2P Require Import Prelude GoStrings GoErrors.

(** ** The data (client.go) *)

Definition RoleLeader : string := "leader".
Definition RoleFollower : string := "follower".
Definition RoleMain : string := "main".
Definition RoleReplica : string := "replica".
Definition HealthUp : string := "up".

(** One row of SHOW INSTANCES. *)
Record Instance := mkInstance {
  i_Name : string;
  i_BoltServer : string;
  i_CoordinatorServer : string;
  i_ManagementServer : string;
  i_Health : string;
  i_Role : string
}.

#[export] Instance Instance_eq_dec : EqDecision Instance.
Proof. solve_decision. Defined.

(** The zero value a Go map read yields for an absent key. *)
Definition zeroInstance : Instance := mkInstance "" "" "" "" "" "".

Definition IsLeader (i : Instance) : bool := EqualFold (i_Role i) RoleLeader.
Definition IsMain (i : Instance) : bool := EqualFold (i_Role i) RoleMain.
Definition IsUp (i : Instance) : bool := EqualFold (i_Health i) HealthUp.

Record CoordinatorSpec := mkCoordinatorSpec {
  c_ID : Z;
  c_BoltServer : string;
  c_CoordinatorServer : string;
  c_ManagementServer : string
}.

#[export] Instance CoordinatorSpec_eq_dec : EqDecision CoordinatorSpec.
Proof. solve_decision. Defined.

(** [fmt.Sprintf("coordinator_%d", id)]. *)
Definition coordinatorNamePrefix : string := "coordinator_".
Definition coordinatorName (id : Z) : string := coordinatorNamePrefix ^^ Itoa id.

(** [CoordinatorSpec.Name]. *)
Definition c_Name (c : CoordinatorSpec) : string := coordinatorName (c_ID c).

Record DataInstanceSpec := mkDataInstanceSpec {
  d_Name : string;
  d_BoltServer : string;
  d_ManagementServer : string;
  d_ReplicationServer : string
}.

#[export] Instance DataInstanceSpec_eq_dec : EqDecision DataInstanceSpec.
Proof. solve_decision. Defined.

Record DatabaseLag := mkDatabaseLag {
  Database : string;
  CommittedTxns : Z;
  TxnsBehindMain : Z
}.

Record ReplicationLag := mkReplicationLag {
  l_Instance : string;
  l_Databases : list DatabaseLag
}.

Definition zeroLag : ReplicationLag := mkReplicationLag "" [].

(** [ReplicationLag.IsCaughtUp]. *)
Definition IsCaughtUp (l : ReplicationLag) : bool :=
  match l_Databases l with
  | [] => false
  | dbs => forallb (λ d, negb (0 <? TxnsBehindMain d)%Z) dbs
  end.

(** [fmt.Sscanf(name, prefix + "%d", &id)] on an int32: the literal prefix, then
    white space the verb skips (a newline among it is an error), an optional sign and
    the longest run of digits, in range; whatever follows is left unread. *)
Fixpoint digit_run (s : string) : string :=
  match s with
  | String c s => match digit c with Some _ => String c (digit_run s) | None => "" end
  | "" => ""
  end.

Definition scan_int32 (s : string) : option Z :=
  let run := match s with
             | String "+" s => "+" ^^ digit_run s
             | String "-" s => "-" ^^ digit_run s
             | _ => digit_run s
             end in
  ParseInt32 run.

Definition Sscanf_ordinal (prefix name : string) : option Z :=
  rest ← CutPrefix name prefix;
  let token := trim_left_go 0 rest in
  let skipped := slice_to rest (String.length rest - String.length token) in
  if free_of (ascii_of_nat 10) skipped then scan_int32 token else None.

(** [CoordinatorIDFromName]. The text of the scan error it wraps is left out: every
    caller drops the error. *)
Definition CoordinatorIDFromName (name : string) : Z + error :=
  match Sscanf_ordinal coordinatorNamePrefix name with
  | Some id => inl id
  | None => inr (Errorf ("parsing coordinator name " ^^ Quote name) [])
  end.

(** ** The query text (queries.go) *)

Definition showInstancesQuery : string := "SHOW INSTANCES".
Definition showReplicationLagQuery : string := "SHOW REPLICATION LAG".
Definition yieldLeadershipQuery : string := "YIELD LEADERSHIP".
Definition showSettingsQuery : string := "SHOW DATABASE SETTINGS".
Definition showCoordinatorSettingsQuery : string := "SHOW COORDINATOR SETTINGS".
Definition showConfigQuery : string := "SHOW CONFIG".

(** One ["key": value] pair of a config map, the value quoted by [%q]. *)
Definition config_pair (key value : string) : string :=
  dquote ^^ key ^^ dquote ^^ ": " ^^ Quote value.

Definition addCoordinatorQuery (c : CoordinatorSpec) : string :=
  "ADD COORDINATOR " ^^ Itoa (c_ID c) ^^ " WITH CONFIG {" ^^
  config_pair "bolt_server" (c_BoltServer c) ^^ ", " ^^
  config_pair "coordinator_server" (c_CoordinatorServer c) ^^ ", " ^^
  config_pair "management_server" (c_ManagementServer c) ^^ "}".

Definition registerInstanceQuery (i : DataInstanceSpec) : string :=
  "REGISTER INSTANCE " ^^ d_Name i ^^ " WITH CONFIG {" ^^
  config_pair "bolt_server" (d_BoltServer i) ^^ ", " ^^
  config_pair "management_server" (d_ManagementServer i) ^^ ", " ^^
  config_pair "replication_server" (d_ReplicationServer i) ^^ "}".

Definition updateCoordinatorBoltServerQuery (id : Z) (boltServer : string) : string :=
  "UPDATE CONFIG FOR COORDINATOR " ^^ Itoa id ^^ " {" ^^ config_pair "bolt_server" boltServer ^^ "}".
Definition updateInstanceBoltServerQuery (name boltServer : string) : string :=
  "UPDATE CONFIG FOR INSTANCE " ^^ name ^^ " {" ^^ config_pair "bolt_server" boltServer ^^ "}".
Definition setInstanceToMainQuery (name : string) : string := "SET INSTANCE " ^^ name ^^ " TO MAIN".
Definition demoteInstanceQuery (name : string) : string := "DEMOTE INSTANCE " ^^ name.
Definition unregisterInstanceQuery (name : string) : string := "UNREGISTER INSTANCE " ^^ name.
Definition removeCoordinatorQuery (id : Z) : string := "REMOVE COORDINATOR " ^^ Itoa id.

(** The escapes of [cypherString]'s replacer: the backslash and the double quote. *)
Fixpoint cypher_escape (s : string) : string :=
  match s with
  | "" => ""
  | String c s =>
      (if decide (nat_of_ascii c = 92) then bytes [92; 92]
       else if decide (nat_of_ascii c = 34) then bytes [92; 34]
       else String c "") ^^ cypher_escape s
  end.

Definition cypherString (s : string) : string := dquote ^^ cypher_escape s ^^ dquote.

Definition setSettingQuery (name value : string) : string :=
  "SET DATABASE SETTING " ^^ cypherString name ^^ " TO " ^^ cypherString value.
Definition setCoordinatorSettingQuery (name value : string) : string :=
  "SET COORDINATOR SETTING " ^^ cypherString name ^^ " TO " ^^ cypherString value.

(** ** Row parsing (bolt.go) *)

(** A value of a driver record, by the dynamic types the parsers test for. *)
Inductive value :=
| VString (s : string)
| VInt (z : Z)
| VMap (m : gmap string value)
| VOther.

(** A driver record, by column name. *)
Definition record := gmap string value.

Definition stringColumn (r : record) (key : string) : string :=
  match r !! key with
  | Some (VString s) => s
  | _ => ""
  end.

Definition asMap (v : value) : option (gmap string value) :=
  match v with VMap m => Some m | _ => None end.

Definition mapColumn (r : record) (key : string) : option (gmap string value) :=
  v ← r !! key; asMap v.

Definition intEntry (m : gmap string value) (key : string) : option Z :=
  match m !! key with
  | Some (VInt z) => Some z
  | _ => None
  end.

Definition instanceFromRecord (r : record) : Instance :=
  mkInstance (stringColumn r "name") (stringColumn r "bolt_server")
    (stringColumn r "coordinator_server") (stringColumn r "management_server")
    (stringColumn r "health") (stringColumn r "role").

Section parse.
Context {RO : RangeOrder}.

(** The loop of [replicationLagFromRecord] over the sorted database names. *)
Fixpoint databaseLags (name : string) (databases : gmap string value) (keys : list string)
    : list DatabaseLag + error :=
  match keys with
  | [] => inl []
  | database :: keys =>
      match databases !! database ≫= asMap with
      | None => inr (Errorf (showReplicationLagQuery ^^ " row for " ^^ name ^^
                       " carries no counters for database " ^^ database) [])
      | Some counters =>
          match intEntry counters "num_committed_txns" with
          | None => inr (Errorf (showReplicationLagQuery ^^ " row for " ^^ name ^^
                           " is missing num_committed_txns for database " ^^ database) [])
          | Some committed =>
              match intEntry counters "num_txns_behind_main" with
              | None => inr (Errorf (showReplicationLagQuery ^^ " row for " ^^ name ^^
                               " is missing num_txns_behind_main for database " ^^ database) [])
              | Some behind =>
                  match databaseLags name databases keys with
                  | inl lags => inl (mkDatabaseLag database committed behind :: lags)
                  | inr err => inr err
                  end
              end
          end
      end
  end.

Definition replicationLagFromRecord (r : record) : ReplicationLag + error :=
  let name := stringColumn r "instance_name" in
  if decide (name = "")
  then inr (Errorf (showReplicationLagQuery ^^ " row carries no instance_name") [])
  else match mapColumn r "data_info" with
       | None => inr (Errorf (showReplicationLagQuery ^^ " row for " ^^ name ^^
                        " carries no data_info map") [])
       | Some databases =>
           match databaseLags name databases (SortStrings (range databases).*1) with
           | inl lags => inl (mkReplicationLag name lags)
           | inr err => inr err
           end
       end.

(** The loop of [ShowReplicationLag] over the rows: the first unreadable one fails
    the whole view. *)
Fixpoint replicationLagFromRecords (rs : list record) : list ReplicationLag + error :=
  match rs with
  | [] => inl []
  | r :: rs =>
      match replicationLagFromRecord r with
      | inr err => inr err
      | inl lag => match replicationLagFromRecords rs with
                   | inr err => inr err
                   | inl lags => inl (lag :: lags)
                   end
      end
  end.
End parse.

(** [namedValuesFromRecords], the rows before the current one in [values]. *)
Fixpoint namedValues_go (values : gmap string string) (rs : list record)
    (nameColumn valueColumn : string) : gmap string string + error :=
  match rs with
  | [] => inl values
  | r :: rs =>
      let name := stringColumn r nameColumn in
      if decide (name = "") then inr (Errorf ("row carries no " ^^ nameColumn) [])
      else namedValues_go (<[name := stringColumn r valueColumn]> values) rs nameColumn valueColumn
  end.
Definition namedValuesFromRecords := namedValues_go ∅.
Definition settingsFromRecords (rs : list record) : gmap string string + error :=
  namedValuesFromRecords rs "setting_name" "setting_value".

(** ** Lemmas *)

(** What a view says of a member: a row that reports it up, a lag row that reports it
    caught up. *)
Definition reachable (observed : list Instance) (name : string) : Prop :=
  ∃ i, i ∈ observed ∧ i_Name i = name ∧ IsUp i.
Definition caught_up (lag : list ReplicationLag) (name : string) : Prop :=
  ∃ l, l ∈ lag ∧ l_Instance l = name ∧ IsCaughtUp l.

Lemma EqualFold_refl s : EqualFold s s.
Proof. unfold EqualFold. by rewrite bool_decide_eq_true_2. Qed.

Lemma zeroInstance_not_up : IsUp zeroInstance = false.
Proof. reflexivity. Qed.

Lemma zeroLag_not_caught_up : IsCaughtUp zeroLag = false.
Proof. reflexivity. Qed.

Lemma IsCaughtUp_spec l :
  IsCaughtUp l = true ↔
    l_Databases l ≠ [] ∧ ∀ d, d ∈ l_Databases l → (TxnsBehindMain d ≤ 0)%Z.
Proof.
  unfold IsCaughtUp. destruct (l_Databases l) as [|d dbs] eqn:E; [naive_solver|].
  rewrite forallb_forall. setoid_rewrite negb_true_iff. setoid_rewrite Z.ltb_ge.
  setoid_rewrite <- list_elem_of_In. naive_solver.
Qed.

Lemma coordinatorName_inj x y : coordinatorName x = coordinatorName y → x = y.
Proof. intros H. apply Itoa_inj. by apply app_inj_l_s in H. Qed.

Lemma c_Name_inj_id c d : c_Name c = c_Name d ↔ c_ID c = c_ID d.
Proof. unfold c_Name. split; [apply coordinatorName_inj|by intros ->]. Qed.

Lemma digit_run_digits n s : digits n s ≠ None → digit_run s = s.
Proof.
  revert n. induction s as [|c s IH]; intros n; simpl; [done|].
  destruct (digit c) as [d|]; simpl; [|done]. intros H. f_equal. by eapply IH.
Qed.

(** Reading a rendered ordinal back: shared by both roles' name parsers. *)
Lemma Sscanf_ordinal_Itoa prefix z :
  (0 ≤ z)%Z → is_int32 z → Sscanf_ordinal prefix (prefix ^^ Itoa z) = Some z.
Proof.
  intros Hz Hr. unfold Sscanf_ordinal. rewrite CutPrefix_app. simpl.
  transitivity (ParseInt32 (Itoa z)); [|by apply ParseInt32_Itoa].
  assert (Itoa z = pretty (Z.to_N z)) as -> by (by destruct z).
  pose proof (digits_pretty (Z.to_N z)) as Hd.
  destruct (pretty_N_head (Z.to_N z)) as (c & s & E & Hc). rewrite E in Hd |- *.
  assert (digit_run (String c s) = String c s) as Hrun
    by (apply (digit_run_digits 0); congruence).
  assert (trim_left_go 0 (String c s) = String c s) as ->.
  { apply digit_cases in Hc as (k & Hk & ->). by do 10 (destruct k as [|k]; [done|]); lia. }
  rewrite Nat.sub_diag. unfold slice_to. simpl.
  transitivity (ParseInt32 (digit_run (String c s))); [|by rewrite Hrun].
  apply digit_cases in Hc as (k & Hk & ->). by do 10 (destruct k as [|k]; [done|]); lia.
Qed.

(** A row read from an indexed view, the zero row for an absent name. *)
Lemma reachable_index observed name :
  IsUp (index_by i_Name observed !!? name | zeroInstance) = true → reachable observed name.
Proof.
  destruct (index_by i_Name observed !! name) as [o|] eqn:E; simpl; [|done].
  apply index_by_Some_1 in E as [??]. intros Hu. exists o. by rewrite Hu.
Qed.

Lemma caught_up_index lag name :
  IsCaughtUp (index_by l_Instance lag !!? name | zeroLag) = true → caught_up lag name.
Proof.
  destruct (index_by l_Instance lag !! name) as [l|] eqn:E; simpl; [|done].
  apply index_by_Some_1 in E as [??]. intros Hc. exists l. by rewrite Hc.
Qed.
