(* ===== verification/Planner.v ===== *)
(** * Package planner: the registration plan

    [Plan], [Retired] and [Registered] of internal/planner/planner.go, translated
    loop by loop, with the characterisation of every command a plan can hold. The
    commands' execution is in PlanRun.v. *)

From S2P Require Import Prelude GoStrings Client.

(** ** Data *)

Record Topology := mkTopology {
  Coordinators : list CoordinatorSpec;
  DataInstances : list DataInstanceSpec;
  t_RetiringCoordinators : list CoordinatorSpec;
  t_RetiringDataInstances : list DataInstanceSpec
}.

Inductive Command :=
| AddCoordinator (c : CoordinatorSpec)
| RegisterInstance (i : DataInstanceSpec)
| UpdateCoordinatorBoltServer (c : CoordinatorSpec)
| UpdateInstanceBoltServer (i : DataInstanceSpec)
| SetInstanceToMain (candidates : list string) (restore : string)
| DemoteInstance (name : string)
| UnregisterInstance (name : string)
| RemoveCoordinator (c : CoordinatorSpec)
| YieldLeadership (leader : string).

#[export] Instance Command_eq_dec : EqDecision Command.
Proof. solve_decision. Defined.

(** ** Definitions *)

Definition index (observed : list Instance) : gmap string Instance := index_by i_Name observed.
Definition indexLag (lag : list ReplicationLag) : gmap string ReplicationLag := index_by l_Instance lag.

(** The set of the retiring data instances' names. *)
Definition retiringNames (declared : Topology) : gset string :=
  list_to_set (d_Name <$> t_RetiringDataInstances declared).

(** A map read is a member when the key is there, whatever its bolt address; a
    coordinator is one only with an address. *)
Definition is_registered (registered : gmap string Instance) (name : string) : bool :=
  bool_decide (is_Some (registered !! name)).
Definition coordinatorRegistered (registered : gmap string Instance) (c : CoordinatorSpec) : bool :=
  match registered !! c_Name c with
  | Some observed => negb (bool_decide (i_BoltServer observed = ""))
  | None => false
  end.

Definition leaderName (observed : list Instance) : string :=
  match List.find IsLeader observed with Some i => i_Name i | None => "" end.

(** The loop that finds where MAIN sits: the retiring MAIN (the last one, empty when
    none) and whether a MAIN that is staying was seen. *)
Definition mains (retiring : gset string) (observed : list Instance) : string * bool :=
  foldl (λ '(retiringMain, hasMain) i,
           if negb (IsMain i) then (retiringMain, hasMain)
           else if decide (i_Name i ∈ retiring) then (i_Name i, hasMain)
           else (retiringMain, true)) ("", false) observed.

Definition is_handover_candidate (registered : gmap string Instance)
    (lag : gmap string ReplicationLag) (i : DataInstanceSpec) : bool :=
  match registered !! d_Name i with
  | Some observed => IsUp observed && IsCaughtUp (lag !!? (d_Name i) | zeroLag)
  | None => false
  end.

Definition handoverCandidates (declared : Topology) (registered : gmap string Instance)
    (lag : gmap string ReplicationLag) : list string :=
  d_Name <$> List.filter (is_handover_candidate registered lag) (DataInstances declared).

Definition observed_up (registered : gmap string Instance) (i : DataInstanceSpec) : bool :=
  match registered !! d_Name i with
  | Some observed => IsUp observed
  | None => false
  end.

(** [None] is the index panic on an empty list, which [Plan] guards. *)
Definition promotionTarget (declared : Topology) (registered : gmap string Instance) : option string :=
  match List.find (observed_up registered) (DataInstances declared) with
  | Some i => Some (d_Name i)
  | None => d_Name <$> hd_error (DataInstances declared)
  end.

Definition bolt_differs (registered : gmap string Instance) (name boltServer : string) : bool :=
  match registered !! name with
  | Some observed =>
      negb (bool_decide (i_BoltServer observed = "")) &&
      negb (bool_decide (i_BoltServer observed = boltServer))
  | None => false
  end.

Definition boltServerUpdates (declared : Topology) (registered : gmap string Instance) : list Command :=
  (UpdateCoordinatorBoltServer <$>
     List.filter (λ c, bolt_differs registered (c_Name c) (c_BoltServer c)) (Coordinators declared)) ++
  (UpdateInstanceBoltServer <$>
     List.filter (λ i, bolt_differs registered (d_Name i) (d_BoltServer i)) (DataInstances declared)).

(** [Plan], its local variables as definitions of the same names. *)
Section Plan.
Context (declared : Topology) (observed : list Instance) (lag : list ReplicationLag).

Definition registered : gmap string Instance := index observed.
Definition retiringMain : string := (mains (retiringNames declared) observed).1.
Definition hasMain : bool := (mains (retiringNames declared) observed).2.

Definition successors : list string :=
  if decide (retiringMain = "") then []
  else handoverCandidates declared registered (indexLag lag).
Definition handover : bool :=
  negb (bool_decide (retiringMain = "")) && (0 <? length successors).

Definition additions : list Command := AddCoordinator <$>
  List.filter (λ c, negb (coordinatorRegistered registered c)) (Coordinators declared).
Definition registrations : list Command := RegisterInstance <$>
  List.filter (λ i, negb (is_registered registered (d_Name i))) (DataInstances declared).
Definition demotion : list Command := if handover then [DemoteInstance retiringMain] else [].
Definition promotion : list Command :=
  if handover && negb hasMain then [SetInstanceToMain successors retiringMain]
  else if bool_decide (retiringMain = "") && negb hasMain && (0 <? length (DataInstances declared))
  then match promotionTarget declared registered with
       | Some target => [SetInstanceToMain [target] ""]
       | None => []
       end
  else [].
Definition unregistrations : list Command := (λ i, UnregisterInstance (d_Name i)) <$>
  List.filter (λ i, is_registered registered (d_Name i) &&
               negb (bool_decide (d_Name i = retiringMain) && negb handover))
    (t_RetiringDataInstances declared).
Definition leader : string := leaderName observed.
Definition removals : list Command := RemoveCoordinator <$>
  List.filter (λ c, negb (bool_decide (c_Name c = leader)) && coordinatorRegistered registered c)
    (t_RetiringCoordinators declared).
Definition yieldFrom : string :=
  if existsb (λ c, bool_decide (c_Name c = leader)) (t_RetiringCoordinators declared)
  then leader else "".
Definition yield : list Command :=
  if decide (yieldFrom = "") then [] else [YieldLeadership yieldFrom].

Definition Plan : list Command :=
  additions ++ registrations ++ boltServerUpdates declared registered ++
  demotion ++ promotion ++ unregistrations ++ removals ++ yield.
End Plan.

Definition Retired (declared : Topology) (observed : list Instance) : bool :=
  let registered := index observed in
  forallb (λ i, negb (is_registered registered (d_Name i))) (t_RetiringDataInstances declared) &&
  forallb (λ c, negb (coordinatorRegistered registered c)) (t_RetiringCoordinators declared).

(** The two counts of [Registered]; the source counts in an int32. *)
Definition Registered (declared : Topology) (observed : list Instance) : Z * Z :=
  let registered := index observed in
  (foldl (λ n c, if coordinatorRegistered registered c then wrap32 (n + 1) else n) 0
     (Coordinators declared),
   foldl (λ n i, if is_registered registered (d_Name i) then wrap32 (n + 1) else n) 0
     (DataInstances declared))%Z.

(** ** Where MAIN sits *)

(** MAIN as the view reports it: on an instance that is staying, or on a retiring one. *)
Definition staying_main (declared : Topology) (observed : list Instance) : Prop :=
  ∃ i, i ∈ observed ∧ IsMain i ∧ i_Name i ∉ retiringNames declared.
Definition retiring_main (declared : Topology) (observed : list Instance) (name : string) : Prop :=
  name ∈ retiringNames declared ∧ ∃ i, i ∈ observed ∧ IsMain i ∧ i_Name i = name.

(** Raft elects one MAIN: the rows reporting that role agree on the name. *)
Definition single_main (observed : list Instance) : Prop :=
  ∀ i j, i ∈ observed → j ∈ observed → IsMain i → IsMain j → i_Name i = i_Name j.

(** What every topology the operator declares satisfies (Topology.v proves it): names
    that identify a member, and an address for every declared one. *)
Record wf_topology (t : Topology) : Prop := {
  wf_data_names : NoDup (d_Name <$> DataInstances t ++ t_RetiringDataInstances t);
  wf_coordinator_ids : NoDup (c_ID <$> Coordinators t ++ t_RetiringCoordinators t);
  wf_data_name_ne : ∀ i, i ∈ DataInstances t ++ t_RetiringDataInstances t → d_Name i ≠ "";
  wf_names_disjoint : ∀ i c, i ∈ DataInstances t ++ t_RetiringDataInstances t →
    c ∈ Coordinators t ++ t_RetiringCoordinators t → d_Name i ≠ c_Name c;
  wf_coordinator_bolt : ∀ c, c ∈ Coordinators t → c_BoltServer c ≠ "";
  wf_data_bolt : ∀ i, i ∈ DataInstances t → d_BoltServer i ≠ ""
}.

(** Both are decidable, so closed instances are settled by evaluation. *)
#[export] Instance single_main_dec observed : Decision (single_main observed).
Proof.
  apply (iff_decision _ (Forall (λ i, Forall (λ j, IsMain i → IsMain j →
    i_Name i = i_Name j) observed) observed)).
  unfold single_main. rewrite Forall_forall. setoid_rewrite Forall_forall. naive_solver.
Defined.

#[export] Instance wf_topology_dec t : Decision (wf_topology t).
Proof.
  apply (iff_decision _
    (NoDup (d_Name <$> DataInstances t ++ t_RetiringDataInstances t) ∧
     NoDup (c_ID <$> Coordinators t ++ t_RetiringCoordinators t) ∧
     Forall (λ i, d_Name i ≠ "") (DataInstances t ++ t_RetiringDataInstances t) ∧
     Forall (λ i, Forall (λ c, d_Name i ≠ c_Name c) (Coordinators t ++ t_RetiringCoordinators t))
       (DataInstances t ++ t_RetiringDataInstances t) ∧
     Forall (λ c, c_BoltServer c ≠ "") (Coordinators t) ∧
     Forall (λ i, d_BoltServer i ≠ "") (DataInstances t))).
  rewrite !Forall_forall. setoid_rewrite Forall_forall.
  split; [intros []; split_and!|intros (?&?&?&?&?&?); split]; auto.
Defined.

Section mains.
Context (declared : Topology).
Let retiring := retiringNames declared.

Lemma mains_snoc (observed : list Instance) i :
  mains retiring (observed ++ [i]) =
    if negb (IsMain i) then mains retiring observed
    else if decide (i_Name i ∈ retiring) then (i_Name i, (mains retiring observed).2)
    else ((mains retiring observed).1, true).
Proof. unfold mains. rewrite foldl_app. simpl. by destruct (foldl _ _ _). Qed.

Lemma mains_staying observed :
  (mains retiring observed).2 = true ↔ staying_main declared observed.
Proof.
  unfold staying_main. induction observed as [|i observed IH] using rev_ind; [set_solver|].
  rewrite mains_snoc. setoid_rewrite elem_of_app. setoid_rewrite list_elem_of_singleton.
  destruct (IsMain i) eqn:Hm; simpl; [case_decide; simpl|]; rewrite ?IH.
  - naive_solver.
  - naive_solver.
  - split; [naive_solver|]. intros (j & [Hj| ->] & Hmj & ?); [naive_solver|by rewrite Hm in Hmj].
Qed.

Lemma mains_retiring_1 observed :
  (mains retiring observed).1 ≠ "" → retiring_main declared observed (mains retiring observed).1.
Proof.
  unfold retiring_main. induction observed as [|i observed IH] using rev_ind; [done|].
  rewrite mains_snoc. intros Hne. setoid_rewrite elem_of_app. setoid_rewrite list_elem_of_singleton.
  destruct (IsMain i) eqn:Hm; simpl in *; [case_decide; simpl in *|].
  - split; [done|]. exists i. rewrite Hm. naive_solver.
  - naive_solver.
  - naive_solver.
Qed.

Lemma mains_retiring_2 observed name :
  "" ∉ retiring → retiring_main declared observed name → (mains retiring observed).1 ≠ "".
Proof.
  intros Hne [Hr (i & Hi & Hm & Hn)].
  revert Hi. induction observed as [|j observed IH] using rev_ind; [set_solver|].
  rewrite mains_snoc, elem_of_app, list_elem_of_singleton. intros [Hi| <-].
  - destruct (IsMain j); simpl; [case_decide; simpl|]; [|by auto..]. intros E. congruence.
  - destruct (IsMain i); [|done]. simpl. rewrite decide_True by (by rewrite Hn).
    simpl. intros E. apply Hne. by rewrite <- E, Hn.
Qed.

Lemma mains_retiring_single observed name :
  "" ∉ retiring → single_main observed → retiring_main declared observed name →
  mains retiring observed = (name, false).
Proof.
  intros Hne Hs Hr. pose proof (mains_retiring_2 _ _ Hne Hr) as Hne'.
  pose proof (mains_retiring_1 _ Hne') as (_ & j & Hj & Hmj & Hnj).
  destruct Hr as [Hr (i & Hi & Hm & Hn)].
  assert ((mains retiring observed).1 = name) as <-
    by (rewrite <- Hnj, <- Hn; by apply Hs).
  destruct (mains retiring observed) as [rm []] eqn:E; [|done].
  assert (staying_main declared observed) as (k & Hk & Hmk & Hnk)
    by (apply mains_staying; by rewrite E).
  exfalso. apply Hnk. simpl in *. by rewrite (Hs k i), Hn.
Qed.
End mains.

Lemma elem_of_retiringNames declared name :
  name ∈ retiringNames declared ↔ ∃ i, i ∈ t_RetiringDataInstances declared ∧ d_Name i = name.
Proof. unfold retiringNames. rewrite elem_of_list_to_set, list_elem_of_fmap. naive_solver. Qed.

Lemma wf_retiring_ne t : wf_topology t → "" ∉ retiringNames t.
Proof.
  intros Hwf (i & Hi & Hn)%elem_of_retiringNames.
  eapply (wf_data_name_ne _ Hwf i); [|done]. set_solver.
Qed.

Lemma is_registered_spec (observed : list Instance) name :
  is_registered (index observed) name = true ↔ ∃ i, i ∈ observed ∧ i_Name i = name.
Proof. unfold is_registered. rewrite bool_decide_eq_true. apply index_by_is_Some. Qed.

Lemma declared_not_retiring t name :
  wf_topology t → name ∈ d_Name <$> DataInstances t → name ∉ retiringNames t.
Proof.
  intros Hwf Hs (i & Hi & <-)%elem_of_retiringNames.
  pose proof (wf_data_names _ Hwf) as Hnd. rewrite fmap_app, NoDup_app in Hnd.
  destruct Hnd as (_ & Hd & _). apply (Hd _ Hs). apply list_elem_of_fmap. eauto.
Qed.

(** ** The survivors of a handover *)

(** The rows a handover may be decided on: a view row and a lag row of the instance. *)
Definition caught_up_survivor (observed : list Instance) (lag : list ReplicationLag) (name : string) : Prop :=
  reachable observed name ∧ caught_up lag name.

Lemma is_handover_candidate_sound observed lag i :
  is_handover_candidate (index observed) (indexLag lag) i = true →
  caught_up_survivor observed lag (d_Name i).
Proof.
  unfold is_handover_candidate, caught_up_survivor.
  destruct (index observed !! d_Name i) as [o|] eqn:Eo; [|done].
  intros [Hup Hlag]%andb_true_iff. split; [|by apply caught_up_index].
  apply reachable_index. unfold index in Eo. by rewrite Eo.
Qed.

Lemma elem_of_handoverCandidates declared registered lag name :
  name ∈ handoverCandidates declared registered lag ↔
    ∃ i, name = d_Name i ∧ i ∈ DataInstances declared ∧ is_handover_candidate registered lag i = true.
Proof. apply elem_of_comprehension. Qed.

Lemma promotionTarget_Some declared registered :
  DataInstances declared ≠ [] →
  ∃ target, promotionTarget declared registered = Some target ∧
            target ∈ d_Name <$> DataInstances declared.
Proof.
  unfold promotionTarget. intros Hne.
  destruct (List.find _ _) as [i|] eqn:E.
  - apply find_Some_elem in E as [Hi _]. exists (d_Name i). split; [done|]. by apply list_elem_of_fmap; eauto.
  - destruct (DataInstances declared) as [|i l]; [done|]. simpl. exists (d_Name i). split; [done|]. by left.
Qed.

(** ** The commands of a plan *)

Section commands.
Context (declared : Topology) (observed : list Instance) (lag : list ReplicationLag).

Lemma handover_true :
  handover declared observed lag = true ↔
  retiringMain declared observed ≠ "" ∧ successors declared observed lag ≠ [].
Proof.
  unfold handover. rewrite andb_true_iff, negb_true_iff, bool_decide_eq_false, Nat.ltb_lt.
  destruct (successors _ _ _); simpl; split; intros []; split; auto; try done; lia.
Qed.

Lemma elem_of_successors name :
  name ∈ successors declared observed lag →
  name ∈ d_Name <$> DataInstances declared ∧ caught_up_survivor observed lag name.
Proof.
  unfold successors. case_decide; [set_solver|].
  rewrite elem_of_handoverCandidates. intros (i & -> & Hi & Hc).
  split; [apply list_elem_of_fmap; eauto|by apply is_handover_candidate_sound].
Qed.

(** The meaning of each command of a plan. *)
Definition in_plan (c : Command) : Prop :=
  match c with
  | AddCoordinator c => c ∈ Coordinators declared ∧ coordinatorRegistered (index observed) c = false
  | RegisterInstance i =>
      i ∈ DataInstances declared ∧ is_registered (index observed) (d_Name i) = false
  | UpdateCoordinatorBoltServer c =>
      c ∈ Coordinators declared ∧ bolt_differs (index observed) (c_Name c) (c_BoltServer c) = true
  | UpdateInstanceBoltServer i =>
      i ∈ DataInstances declared ∧ bolt_differs (index observed) (d_Name i) (d_BoltServer i) = true
  | DemoteInstance name =>
      handover declared observed lag = true ∧ name = retiringMain declared observed
  | SetInstanceToMain candidates restore =>
      hasMain declared observed = false ∧
      (handover declared observed lag = true ∧ restore = retiringMain declared observed ∧
         candidates = successors declared observed lag ∨
       retiringMain declared observed = "" ∧ restore = "" ∧
         ∃ target, promotionTarget declared (index observed) = Some target ∧ candidates = [target])
  | UnregisterInstance name =>
      ∃ i, i ∈ t_RetiringDataInstances declared ∧ d_Name i = name ∧
           is_registered (index observed) name = true ∧
           (name = retiringMain declared observed → handover declared observed lag = true)
  | RemoveCoordinator c =>
      c ∈ t_RetiringCoordinators declared ∧ c_Name c ≠ leaderName observed ∧
      coordinatorRegistered (index observed) c = true
  | YieldLeadership l =>
      l = leaderName observed ∧ l ≠ "" ∧ ∃ c, c ∈ t_RetiringCoordinators declared ∧ c_Name c = l
  end.

Lemma elem_of_additions c :
  c ∈ additions declared observed ↔ ∃ k, c = AddCoordinator k ∧ in_plan c.
Proof.
  unfold additions. rewrite elem_of_comprehension. setoid_rewrite negb_true_iff.
  split; [intros (k & -> & ?); eauto|]. intros (k & -> & ?). eauto.
Qed.

Lemma elem_of_registrations c :
  c ∈ registrations declared observed ↔ ∃ i, c = RegisterInstance i ∧ in_plan c.
Proof.
  unfold registrations. rewrite elem_of_comprehension. setoid_rewrite negb_true_iff.
  split; [intros (k & -> & ?); eauto|]. intros (k & -> & ?). eauto.
Qed.

Lemma elem_of_boltServerUpdates c :
  c ∈ boltServerUpdates declared (index observed) ↔
  (∃ k, c = UpdateCoordinatorBoltServer k ∧ in_plan c) ∨
  (∃ i, c = UpdateInstanceBoltServer i ∧ in_plan c).
Proof.
  unfold boltServerUpdates. rewrite elem_of_app, !elem_of_comprehension.
  split; (intros [(k & -> & ?)|(k & -> & ?)]; [left|right]; eauto).
Qed.

Lemma elem_of_demotion c :
  c ∈ demotion declared observed lag ↔ ∃ n, c = DemoteInstance n ∧ in_plan c.
Proof.
  unfold demotion. rewrite elem_of_if_singleton. split.
  - intros [? ->]. eexists. split; [done|]. by split.
  - intros (n & -> & ? & ->). done.
Qed.

Lemma elem_of_promotion c :
  c ∈ promotion declared observed lag ↔ ∃ cs r, c = SetInstanceToMain cs r ∧ in_plan c.
Proof.
  unfold promotion. destruct (hasMain declared observed) eqn:Hh; rewrite ?andb_false_r; simpl.
  { split; [by intros ?%elem_of_nil|]. intros (?&?&->&Hp&_). congruence. }
  rewrite !andb_true_r. destruct (handover declared observed lag) eqn:Hv.
  { rewrite list_elem_of_singleton. split.
    - intros ->. eexists _, _. split; [done|]. simpl. naive_solver.
    - intros (?&?&->&_&[(_&->&->)|(E&_)]); [done|].
      by apply handover_true in Hv as [? _]. }
  case_bool_decide as Hr; simpl.
  2: { split; [by intros ?%elem_of_nil|]. simpl. intros (?&?&->&?&[(?&_)|(?&_)]); congruence. }
  destruct (DataInstances declared) as [|i l] eqn:Ed.
  { split; [by intros ?%elem_of_nil|]. intros (?&?&->&_&[(?&_)|(_&_&t&Ht&_)]); [congruence|].
    unfold promotionTarget in Ht. by rewrite Ed in Ht. }
  destruct (promotionTarget_Some declared (index observed)) as (t & Ht & _); [by rewrite Ed|].
  simpl. unfold registered. rewrite Ht, list_elem_of_singleton. split.
  - intros ->. eexists _, _. split; [done|]. simpl. naive_solver.
  - intros (?&?&->&_&[(?&_)|(_&->&t'&Ht'&->)]); congruence.
Qed.

Lemma elem_of_unregistrations c :
  c ∈ unregistrations declared observed lag ↔ ∃ n, c = UnregisterInstance n ∧ in_plan c.
Proof.
  unfold unregistrations. rewrite elem_of_comprehension.
  setoid_rewrite andb_true_iff. setoid_rewrite negb_true_iff. setoid_rewrite andb_false_iff.
  setoid_rewrite bool_decide_eq_false. setoid_rewrite negb_false_iff. simpl. split.
  - intros (i & -> & Hi & Hr & Hh). eexists; split; [done|]. exists i. naive_solver.
  - intros (n & -> & i & Hi & <- & Hr & Hh). exists i. split_and!; [done..|].
    destruct (decide (d_Name i = retiringMain declared observed)); auto.
Qed.

Lemma elem_of_removals c :
  c ∈ removals declared observed ↔ ∃ k, c = RemoveCoordinator k ∧ in_plan c.
Proof.
  unfold removals. rewrite elem_of_comprehension.
  setoid_rewrite andb_true_iff. setoid_rewrite negb_true_iff.
  setoid_rewrite bool_decide_eq_false. split; [intros (k & -> & ?); eauto|].
  intros (k & -> & ?). eauto.
Qed.

Lemma elem_of_yield c :
  c ∈ yield declared observed ↔ ∃ l, c = YieldLeadership l ∧ in_plan c.
Proof.
  unfold yield, yieldFrom. destruct (existsb _ _) eqn:Ex.
  - apply existsb_true_iff in Ex as (k & Hk & Hn). apply bool_decide_eq_true in Hn.
    case_decide as Hl; [|rewrite list_elem_of_singleton]; split.
    + by intros ?%elem_of_nil.
    + intros (l & -> & -> & ? & _). done.
    + intros ->. eexists. split; [done|]. simpl. unfold leader in *. naive_solver.
    + intros (l & -> & -> & _). done.
  - split; [by intros ?%elem_of_nil|]. intros (l & -> & -> & ? & k & Hk & Hn).
    assert (existsb (λ c, bool_decide (c_Name c = leader observed))
      (t_RetiringCoordinators declared) = true) as E; [|congruence].
    apply existsb_true_iff. exists k. by rewrite bool_decide_eq_true.
Qed.

Lemma elem_of_Plan c : c ∈ Plan declared observed lag ↔ in_plan c.
Proof.
  unfold Plan. rewrite !elem_of_app, elem_of_additions, elem_of_registrations,
    elem_of_boltServerUpdates, elem_of_demotion, elem_of_promotion, elem_of_unregistrations,
    elem_of_removals, elem_of_yield.
  split; [intuition (repeat case_match; naive_solver)|].
  destruct c; intros; repeat first [by (left; eauto)|right]; eauto.
Qed.

(** A plan of nothing is a plan no command is in. *)
Lemma Plan_nil : Plan declared observed lag = [] ↔ ∀ c, ¬ in_plan c.
Proof.
  setoid_rewrite <- elem_of_Plan. destruct (Plan declared observed lag) as [|c l].
  - split; [|done]. intros _ c. apply not_elem_of_nil.
  - split; [done|]. intros H. exfalso. apply (H c). left.
Qed.
End commands.

(** ** Where commands sit in a plan *)

(** The commands ahead of the demotion, and the ones behind the promotion. *)
Definition plan_head (declared : Topology) (observed : list Instance) : list Command :=
  additions declared observed ++ registrations declared observed ++
  boltServerUpdates declared (index observed).
Definition plan_tail (declared : Topology) (observed : list Instance) (lag : list ReplicationLag) :=
  unregistrations declared observed lag ++ removals declared observed ++ yield declared observed.

Lemma Plan_split declared observed lag :
  Plan declared observed lag =
    (plan_head declared observed ++ demotion declared observed lag ++ promotion declared observed lag) ++
    plan_tail declared observed lag.
Proof. unfold Plan, plan_head, plan_tail. by rewrite <- !app_assoc. Qed.

(** [c ∉ segments], for segments of the plan that [lag] decides. *)
Ltac not_in_segment lag :=
  unfold plan_head, plan_tail; rewrite ?elem_of_app, ?(elem_of_additions _ _ lag), ?(elem_of_registrations _ _ lag),
    ?(elem_of_boltServerUpdates _ _ lag), ?elem_of_demotion, ?elem_of_promotion,
    ?elem_of_unregistrations, ?(elem_of_removals _ _ lag), ?(elem_of_yield _ _ lag);
  naive_solver.

Lemma unregistration_position declared observed lag pre post n :
  Plan declared observed lag = pre ++ UnregisterInstance n :: post →
  ∃ k, pre = plan_head declared observed ++ demotion declared observed lag ++
             promotion declared observed lag ++ k.
Proof.
  rewrite Plan_split. intros (k & -> & _)%app_split_notin; [|not_in_segment lag].
  exists k. by rewrite <- !app_assoc.
Qed.

Lemma demotion_position declared observed lag pre post n :
  Plan declared observed lag = pre ++ DemoteInstance n :: post →
  n = retiringMain declared observed ∧ handover declared observed lag = true ∧
  pre = plan_head declared observed ∧
  post = promotion declared observed lag ++ plan_tail declared observed lag.
Proof.
  intros E.
  assert (in_plan declared observed lag (DemoteInstance n)) as [Hh Hn]
    by (apply elem_of_Plan; rewrite E; set_solver).
  split_and!; [done..| |]; rewrite Plan_split in E; unfold demotion in E; rewrite Hh in E;
    rewrite <- !app_assoc in E; apply app_split_notin in E as (k & -> & E); try not_in_segment lag;
    (destruct k as [|c k]; injection E as E1 E2; [by rewrite ?app_nil_r|exfalso];
     assert (DemoteInstance n ∈ promotion declared observed lag ++ plan_tail declared observed lag)
       as Hin by (rewrite E2; set_solver); revert Hin; not_in_segment lag).
Qed.

Lemma yield_position declared observed lag pre post l :
  Plan declared observed lag = pre ++ YieldLeadership l :: post → post = [].
Proof.
  unfold Plan. rewrite !app_assoc. intros (k & _ & E)%app_split_notin; [|not_in_segment lag].
  unfold yield in E. case_decide; [by destruct k|].
  destruct k as [|? [|? k]]; by simplify_eq/=.
Qed.

Lemma is_registered_false (observed : list Instance) name :
  is_registered (index observed) name = false ↔ ∀ i, i ∈ observed → i_Name i ≠ name.
Proof.
  rewrite <- not_true_iff_false, is_registered_spec. naive_solver.
Qed.

Lemma coordinatorRegistered_spec (observed : list Instance) c :
  coordinatorRegistered (index observed) c = true ↔
    ∃ row, index observed !! c_Name c = Some row ∧ i_BoltServer row ≠ "".
Proof.
  unfold coordinatorRegistered. destruct (index observed !! c_Name c) as [row|].
  - rewrite negb_true_iff, bool_decide_eq_false. naive_solver.
  - naive_solver.
Qed.

Lemma bolt_differs_false (registered : gmap string Instance) name bolt row :
  registered !! name = Some row →
  bolt_differs registered name bolt = false ↔ i_BoltServer row = "" ∨ i_BoltServer row = bolt.
Proof.
  intros E. unfold bolt_differs. rewrite E, andb_false_iff, !negb_false_iff, !bool_decide_eq_true. done.
Qed.

(** ** A retirement example: three coordinators, [instance_0] stays, [instance_1] is the
    retiring MAIN *)

Module Example.
Definition coord (id : Z) : CoordinatorSpec :=
  mkCoordinatorSpec id (coordinatorName id ^^ ":7687") "cs" "ms".
Definition inst (name : string) : DataInstanceSpec :=
  mkDataInstanceSpec name (name ^^ ":7687") "ms" "rs".
Definition declared : Topology :=
  mkTopology [coord 0] [inst "instance_0"] [coord 1; coord 2] [inst "instance_1"].
Definition row (name role : string) : Instance := mkInstance name (name ^^ ":7687") "" "" "up" role.
Definition observed : list Instance :=
  [row "coordinator_0" "follower"; row "coordinator_1" "leader"; row "coordinator_2" "follower";
   row "instance_0" "replica"; row "instance_1" "main"].
Definition lag (behind : Z) : list ReplicationLag :=
  [mkReplicationLag "instance_0" [mkDatabaseLag "memgraph" 100 behind];
   mkReplicationLag "instance_1" [mkDatabaseLag "memgraph" 100 0]].

Lemma single : single_main observed.
Proof. by_decide. Qed.
Lemma wf : wf_topology declared.
Proof. by_decide. Qed.

Lemma retiring : retiring_main declared observed "instance_1".
Proof.
  split; [by apply elem_of_retiringNames; eexists; split; [left|]|].
  exists (row "instance_1" "main"). split; [|done].
  do 4 right. left.
Qed.
End Example.

(** ** Properties *)

Section plan_lemmas.
Context (declared : Topology) (observed : list Instance) (lag : list ReplicationLag).

Lemma retiringMain_eq name :
  wf_topology declared → single_main observed → retiring_main declared observed name →
  retiringMain declared observed = name ∧ hasMain declared observed = false.
Proof.
  intros Hwf Hs Hr. unfold retiringMain, hasMain.
  by rewrite (mains_retiring_single _ _ name (wf_retiring_ne _ Hwf) Hs Hr).
Qed.

Lemma hasMain_spec : hasMain declared observed = true ↔ staying_main declared observed.
Proof. apply mains_staying. Qed.

(** A MAIN that is staying leaves no retiring one. *)
Lemma retiringMain_none :
  single_main observed → staying_main declared observed → retiringMain declared observed = "".
Proof.
  intros Hs (i & Hi & Hm & Hn). destruct (decide (retiringMain declared observed = "")); [done|].
  unfold retiringMain in *.
  pose proof (mains_retiring_1 declared observed ltac:(done)) as [Hr (j & Hj & Hmj & Hnj)].
  exfalso. apply Hn. by rewrite (Hs i j), Hnj.
Qed.

(** Under one MAIN, the handover's demotion is followed at once by its promotion. *)
Lemma promotion_of_handover :
  single_main observed → handover declared observed lag = true →
  promotion declared observed lag =
    [SetInstanceToMain (successors declared observed lag) (retiringMain declared observed)].
Proof.
  intros Hs Hh. unfold promotion. rewrite Hh.
  destruct (hasMain declared observed) eqn:E; [|done].
  apply hasMain_spec in E. apply handover_true in Hh as [Hne _].
  by rewrite retiringMain_none in Hne.
Qed.
End plan_lemmas.

(** The two steps of a handover from [n], in order and adjacent: the survivors offered
    are declared, up and caught up, and [n] is the name the failure is restored to. *)
Definition hands_over (declared : Topology) (observed : list Instance) (lag : list ReplicationLag)
    (n : string) (steps : list Command) : Prop :=
  ∃ pre survivors post,
    steps = pre ++ DemoteInstance n :: SetInstanceToMain survivors n :: post ∧
    survivors ≠ [] ∧
    ∀ s, s ∈ survivors → s ∈ d_Name <$> DataInstances declared ∧ caught_up_survivor observed lag s.

Lemma hands_over_intro declared observed lag pre post :
  single_main observed → handover declared observed lag = true →
  hands_over declared observed lag (retiringMain declared observed)
    (pre ++ demotion declared observed lag ++ promotion declared observed lag ++ post).
Proof.
  intros Hs Hh. rewrite promotion_of_handover by done. unfold demotion. rewrite Hh.
  exists pre, (successors declared observed lag), post. split_and!; [done|by apply handover_true|].
  apply elem_of_successors.
Qed.

(** C13: a plan unregisters the retiring MAIN only after it has demoted it and moved MAIN to
    survivors that are declared, reported up and caught up on every database. *)
Theorem unregister_main_after_handover declared observed lag n pre post :
  wf_topology declared → single_main observed → retiring_main declared observed n →
  Plan declared observed lag = pre ++ UnregisterInstance n :: post →
  hands_over declared observed lag n pre.
Proof.
  intros Hwf Hs Hr E. destruct (retiringMain_eq _ _ n Hwf Hs Hr) as [Hn _].
  assert (in_plan declared observed lag (UnregisterInstance n)) as (i & _ & _ & _ & Hh)
    by (apply elem_of_Plan; rewrite E; set_solver).
  apply unregistration_position in E as (k & ->). rewrite <- Hn. apply hands_over_intro; auto.
Qed.

Lemma unregister_main_after_handover_witness :
  hands_over Example.declared Example.observed (Example.lag 0) "instance_1"
    [DemoteInstance "instance_1"; SetInstanceToMain ["instance_0"] "instance_1"].
Proof.
  apply (unregister_main_after_handover Example.declared Example.observed (Example.lag 0) "instance_1" _
    [RemoveCoordinator (Example.coord 2); YieldLeadership "coordinator_1"]).
  - apply Example.wf.
  - apply Example.single.
  - apply Example.retiring.
  - vm_compute. reflexivity.
Defined.

(** C14: a plan never removes the coordinator that leads: it yields leadership instead, of
    the leader and as its last command, so whatever a fresh leader refuses is planned on
    the next pass. *)
Theorem leader_yields_last declared observed lag :
  (∀ c, RemoveCoordinator c ∈ Plan declared observed lag → c_Name c ≠ leaderName observed) ∧
  (∀ pre l post, Plan declared observed lag = pre ++ YieldLeadership l :: post →
     post = [] ∧ l = leaderName observed ∧ l ∈ c_Name <$> t_RetiringCoordinators declared) ∧
  (leaderName observed ≠ "" → leaderName observed ∈ c_Name <$> t_RetiringCoordinators declared →
     YieldLeadership (leaderName observed) ∈ Plan declared observed lag).
Proof.
  setoid_rewrite list_elem_of_fmap. split_and!.
  - intros c Hc. by apply elem_of_Plan in Hc as (_ & ? & _).
  - intros pre l post E. split; [by eapply yield_position|].
    assert (in_plan declared observed lag (YieldLeadership l)) as (-> & _ & c & ? & ?)
      by (apply elem_of_Plan; rewrite E; set_solver). eauto.
  - intros Hne (c & Hn & Hc). apply elem_of_Plan. simpl. eauto.
Qed.

Lemma leader_yields_last_witness :
  YieldLeadership "coordinator_1" ∈ Plan Example.declared Example.observed (Example.lag 0) ∧
  (λ c : CoordinatorSpec, c_Name c ≠ "coordinator_1") (Example.coord 2).
Proof.
  destruct (leader_yields_last Example.declared Example.observed (Example.lag 0)) as (Hr & Hl & Hy).
  split.
  - apply Hy; vm_compute; [done|]. by left.
  - apply Hr. apply elem_of_Plan. simpl. split; [right; left|by split].
Defined.

(** A plan demotes only the retiring MAIN, and only as the first half of a handover:
    the promotion of its survivors is the very next command. *)
Theorem demotion_is_handover declared observed lag n :
  single_main observed → DemoteInstance n ∈ Plan declared observed lag →
  retiring_main declared observed n ∧
  hands_over declared observed lag n (Plan declared observed lag).
Proof.
  intros Hs [Hh ->]%elem_of_Plan. split.
  - apply mains_retiring_1. by apply handover_true in Hh as [? _].
  - rewrite Plan_split, <- !app_assoc. by apply hands_over_intro.
Qed.

Lemma demotion_is_handover_witness :
  retiring_main Example.declared Example.observed "instance_1" ∧
  hands_over Example.declared Example.observed (Example.lag 0) "instance_1"
    (Plan Example.declared Example.observed (Example.lag 0)).
Proof.
  apply (demotion_is_handover Example.declared Example.observed (Example.lag 0) "instance_1");
    [apply Example.single|]. apply elem_of_Plan. split; vm_compute; reflexivity.
Defined.

(** A MAIN the coordinators put on a staying instance is never overridden: no plan
    demotes or promotes while one is there; and what a plan promotes is always declared,
    never retiring. *)
Theorem staying_main_kept declared observed lag :
  wf_topology declared →
  (single_main observed → staying_main declared observed →
    ∀ c, c ∈ Plan declared observed lag →
      match c with SetInstanceToMain _ _ | DemoteInstance _ => False | _ => True end) ∧
  (∀ cs restore, SetInstanceToMain cs restore ∈ Plan declared observed lag →
     cs ≠ [] ∧ ∀ s, s ∈ cs → s ∈ d_Name <$> DataInstances declared ∧ s ∉ retiringNames declared).
Proof.
  intros Hwf. split.
  - intros Hs Hm c Hc%elem_of_Plan. destruct c; try done.
    + destruct Hc as [Hf _]. apply hasMain_spec in Hm. congruence.
    + destruct Hc as [[Hne _]%handover_true _]. by rewrite retiringMain_none in Hne.
  - intros cs restore (_ & Hcs)%elem_of_Plan.
    assert (cs ≠ [] ∧ ∀ s, s ∈ cs → s ∈ d_Name <$> DataInstances declared) as [Hne Hin].
    { destruct Hcs as [([_ ?]%handover_true & _ & ->)|(_ & _ & t & Ht & ->)].
      - split; [done|]. by intros s [??]%elem_of_successors.
      - split; [done|]. intros s ->%list_elem_of_singleton.
        destruct (promotionTarget_Some declared (index observed)) as (t' & Ht' & ?); [|congruence].
        intros E. unfold promotionTarget in Ht. by rewrite E in Ht. }
    split; [done|]. intros s Hs. split; [auto|]. by apply declared_not_retiring, Hin.
Qed.

Lemma staying_main_kept_witness :
  let moved := [Example.row "instance_0" "main"; Example.row "instance_1" "replica"] in
  (λ c, match c with SetInstanceToMain _ _ | DemoteInstance _ => False | _ => True end)
    (UnregisterInstance "instance_1") ∧
  UnregisterInstance "instance_1" ∈ Plan Example.declared moved [].
Proof.
  intros moved. assert (UnregisterInstance "instance_1" ∈ Plan Example.declared moved []) as Hin
    by (by_decide).
  split; [|done]. revert Hin. apply (staying_main_kept Example.declared moved []).
  - apply Example.wf.
  - by_decide.
  - exists (Example.row "instance_0" "main"). split_and!; [left|done|].
    by_decide.
Defined.

(** A retiring MAIN that has nobody to hand its role to: no declared instance is
    registered, up and caught up. *)
Definition waiting (declared : Topology) (observed : list Instance) (lag : list ReplicationLag)
    (n : string) : Prop :=
  retiring_main declared observed n ∧
  ∀ i, i ∈ DataInstances declared → is_handover_candidate (index observed) (indexLag lag) i = false.

(** The states of the cluster in which there is nothing left to do, or nothing that can
    be done yet. *)
Record settled (declared : Topology) (observed : list Instance) (lag : list ReplicationLag) : Prop := {
  settled_coordinators : ∀ c, c ∈ Coordinators declared →
    ∃ row, index observed !! c_Name c = Some row ∧ i_BoltServer row = c_BoltServer c;
  settled_instances : ∀ i, i ∈ DataInstances declared →
    ∃ row, index observed !! d_Name i = Some row ∧
           (i_BoltServer row = "" ∨ i_BoltServer row = d_BoltServer i);
  settled_main : DataInstances declared = [] ∨ staying_main declared observed ∨
    ∃ n, waiting declared observed lag n;
  settled_handover : ∀ n, retiring_main declared observed n → waiting declared observed lag n;
  settled_retired_instances : ∀ i, i ∈ t_RetiringDataInstances declared →
    is_registered (index observed) (d_Name i) = true → waiting declared observed lag (d_Name i);
  settled_retired_coordinators : ∀ c, c ∈ t_RetiringCoordinators declared →
    c_Name c ≠ leaderName observed ∧ coordinatorRegistered (index observed) c = false
}.

Section settled.
Context (declared : Topology) (observed : list Instance) (lag : list ReplicationLag).
Context (Hwf : wf_topology declared) (Hs : single_main observed).

Lemma retiringMain_ne_iff :
  retiringMain declared observed ≠ "" ↔ retiring_main declared observed (retiringMain declared observed).
Proof.
  split; [apply mains_retiring_1|]. apply mains_retiring_2, wf_retiring_ne, Hwf.
Qed.

Lemma successors_nil :
  retiringMain declared observed ≠ "" →
  successors declared observed lag = [] ↔
  ∀ i, i ∈ DataInstances declared → is_handover_candidate (index observed) (indexLag lag) i = false.
Proof.
  intros Hne. unfold successors. rewrite decide_False by done.
  unfold handoverCandidates. rewrite <- bfilter_nil_iff.
  by destruct (List.filter _ _).
Qed.

Lemma handover_false_iff :
  handover declared observed lag = false ↔
  ∀ n, retiring_main declared observed n → waiting declared observed lag n.
Proof.
  rewrite <- not_true_iff_false, handover_true. split.
  - intros Hn n Hr. split; [done|]. destruct (retiringMain_eq _ _ n Hwf Hs Hr) as [E _].
    assert (retiringMain declared observed ≠ "") as Hne
      by (apply retiringMain_ne_iff; by rewrite E).
    apply successors_nil; [done|]. apply dec_stable. tauto.
  - intros Hw [Hne Hsu]. apply Hsu, successors_nil; [done|].
    by apply (Hw (retiringMain declared observed)), retiringMain_ne_iff.
Qed.

Lemma Plan_nil_settled_1 : Plan declared observed lag = [] → settled declared observed lag.
Proof.
  rewrite Plan_nil. intros Hno.
  assert (handover declared observed lag = false) as Hh.
  { apply not_true_iff_false. intros Hh. by apply (Hno (DemoteInstance (retiringMain declared observed))). }
  pose proof (proj1 handover_false_iff Hh) as Hw.
  split; [| | |done| |].
  - intros c Hc. destruct (coordinatorRegistered (index observed) c) eqn:Er.
    2: { by destruct (Hno (AddCoordinator c)). }
    apply coordinatorRegistered_spec in Er as (row & Erow & Hb). exists row. split; [done|].
    pose proof (Hno (UpdateCoordinatorBoltServer c)) as Hu. simpl in Hu.
    assert (bolt_differs (index observed) (c_Name c) (c_BoltServer c) = false) as Hd
      by (apply not_true_iff_false; tauto).
    rewrite (bolt_differs_false _ _ _ row) in Hd by done. tauto.
  - intros i Hi. destruct (is_registered (index observed) (d_Name i)) eqn:Er.
    2: { by destruct (Hno (RegisterInstance i)). }
    unfold is_registered in Er. apply bool_decide_eq_true in Er as [row Erow]. exists row. split; [done|].
    pose proof (Hno (UpdateInstanceBoltServer i)) as Hu. simpl in Hu.
    rewrite <- (bolt_differs_false _ (d_Name i)) by done. apply not_true_iff_false. tauto.
  - destruct (decide (DataInstances declared = [])) as [|Hne]; [by left|right].
    destruct (hasMain declared observed) eqn:Hm; [left; by apply hasMain_spec|right].
    destruct (decide (retiringMain declared observed = "")) as [Hr|Hr].
    + destruct (promotionTarget_Some declared (index observed) Hne) as (t & Ht & _).
      destruct (Hno (SetInstanceToMain [t] "")). simpl. naive_solver.
    + eexists. by apply Hw, retiringMain_ne_iff.
  - intros i Hi Hr. apply Hw.
    destruct (decide (d_Name i = retiringMain declared observed)) as [E|E].
    + assert (d_Name i ≠ "") as Hne by (eapply wf_data_name_ne; [done|]; set_solver).
      rewrite E in *. by apply mains_retiring_1.
    + destruct (Hno (UnregisterInstance (d_Name i))). exists i. naive_solver.
  - intros c Hc. assert (c_Name c ≠ leaderName observed) as Hl.
    { intros El. apply (Hno (YieldLeadership (leaderName observed))). simpl.
      split_and!; [done| |by eauto]. by rewrite <- El. }
    split; [done|]. apply not_true_iff_false. intros Hr. by apply (Hno (RemoveCoordinator c)).
Qed.

Lemma Plan_nil_settled_2 : settled declared observed lag → Plan declared observed lag = [].
Proof.
  intros [Hc Hi Hm Hh Hrd Hrc]. apply handover_false_iff in Hh. apply Plan_nil.
  intros [c|i|c|i|cs r|n|n|c|l]; simpl.
  - intros [Hin Hf]. destruct (Hc c Hin) as (row & Hrow & Hb).
    assert (coordinatorRegistered (index observed) c = true); [|congruence].
    apply coordinatorRegistered_spec. exists row. split; [done|]. rewrite Hb.
    by eapply wf_coordinator_bolt.
  - intros [Hin Hf]. destruct (Hi i Hin) as (row & Hrow & Hb).
    unfold is_registered in Hf. rewrite Hrow in Hf. by apply bool_decide_eq_false in Hf as [].
  - intros [Hin Hf]. destruct (Hc c Hin) as (row & Hrow & Hb).
    assert (bolt_differs (index observed) (c_Name c) (c_BoltServer c) = false); [|congruence].
    rewrite bolt_differs_false by done. auto.
  - intros [Hin Hf]. destruct (Hi i Hin) as (row & Hrow & Hb).
    assert (bolt_differs (index observed) (d_Name i) (d_BoltServer i) = false); [|congruence].
    by rewrite bolt_differs_false by done.
  - intros (Hf & [(? & _)|(Hr & _ & t & Ht & _)]); [congruence|].
    destruct Hm as [Hm|[Hm|(n & Hn & _)]].
    + unfold promotionTarget in Ht. by rewrite Hm in Ht.
    + apply hasMain_spec in Hm. congruence.
    + destruct (retiringMain_eq _ _ n Hwf Hs Hn) as [E _].
      apply (proj2 retiringMain_ne_iff); [by rewrite E|done].
  - intros [? _]. congruence.
  - intros (i & Hin & <- & Hr & Hd). destruct (Hrd i Hin Hr) as [Hn _].
    destruct (retiringMain_eq _ _ _ Hwf Hs Hn) as [E _]. by rewrite Hd in Hh.
  - intros (Hin & _ & Hr). destruct (Hrc c Hin) as [_ ?]. congruence.
  - intros (-> & _ & c & Hin & Hn). by destruct (Hrc c Hin).
Qed.
End settled.

(** The plan is empty exactly in the settled states: every declared member registered
    at its declared address, MAIN on a staying instance, and everything retiring gone,
    save a retiring MAIN waiting for a survivor to catch up. *)
Theorem Plan_empty_iff_settled declared observed lag :
  wf_topology declared → single_main observed →
  Plan declared observed lag = [] ↔ settled declared observed lag.
Proof. split; [by apply Plan_nil_settled_1|by apply Plan_nil_settled_2]. Qed.

Lemma Plan_empty_iff_settled_witness :
  let behind := [Example.row "coordinator_0" "leader"; Example.row "instance_0" "replica";
                 Example.row "instance_1" "main"] in
  settled Example.declared behind (Example.lag 7) ∧ Retired Example.declared behind = false.
Proof.
  split; [|done]. apply Plan_empty_iff_settled; [apply Example.wf| |by vm_compute].
  by_decide.
Defined.

(** A cluster whose plan is empty has shed every retiring member, or it is a MAIN
    waiting for a survivor: the pass that sheds is never stuck on anything else. *)
Theorem shed_waits_only_for_survivor declared observed lag :
  wf_topology declared → single_main observed → Plan declared observed lag = [] →
  Retired declared observed = true ∨
  ∃ n, waiting declared observed lag n ∧
       ∀ i, i ∈ t_RetiringDataInstances declared →
            is_registered (index observed) (d_Name i) = true → d_Name i = n.
Proof.
  intros Hwf Hs Hp. apply Plan_nil_settled_1 in Hp as [_ _ _ _ Hrd Hrc]; [|done..].
  destruct (existsb (λ i, is_registered (index observed) (d_Name i)) (t_RetiringDataInstances declared)) eqn:E.
  - apply existsb_true_iff in E as (i & Hi & Hr). right. exists (d_Name i). split; [auto|].
    intros j Hj Hrj. destruct (Hrd i Hi Hr) as [Hn _], (Hrd j Hj Hrj) as [Hm _].
    apply (retiringMain_eq _ _ _ Hwf Hs) in Hn as [<- _], Hm as [<- _]. done.
  - left. unfold Retired. apply andb_true_iff. rewrite !forallb_true_iff. split.
    + intros i Hi. apply negb_true_iff, not_true_iff_false. intros Hr.
      apply not_true_iff_false in E. apply E, existsb_true_iff. eauto.
    + intros c Hc. apply negb_true_iff, Hrc, Hc.
Qed.

Lemma shed_waits_only_for_survivor_witness :
  let gone := [Example.row "coordinator_0" "leader"; Example.row "instance_0" "main"] in
  Retired Example.declared gone = true ∨
  ∃ n, waiting Example.declared gone [] n ∧
       ∀ i, i ∈ t_RetiringDataInstances Example.declared →
            is_registered (index gone) (d_Name i) = true → d_Name i = n.
Proof.
  apply shed_waits_only_for_survivor; [apply Example.wf| |by vm_compute].
  by_decide.
Defined.

(** The counting loop of [Registered]: no wrap-around below [2^31] members. *)
Lemma count_loop {A} (f : A → bool) (l : list A) :
  (Z.of_nat (length l) < 2 ^ 31)%Z →
  foldl (λ n x, if f x then wrap32 (n + 1) else n)%Z 0%Z l = Z.of_nat (length (List.filter f l)).
Proof.
  induction l as [|x l IH] using rev_ind; [done|]. rewrite length_app, foldl_app. simpl.
  intros Hl. rewrite IH by lia. rewrite List.filter_app, length_app. simpl.
  pose proof (List.filter_length_le f l). destruct (f x); simpl; [|lia].
  rewrite wrap32_id; [lia|unfold is_int32; lia].
Qed.

Lemma filter_length_full {A} (f : A → bool) (l : list A) :
  length (List.filter f l) = length l ↔ ∀ x, x ∈ l → f x = true.
Proof.
  rewrite <- forallb_true_iff. induction l as [|x l IH]; simpl; [done|].
  pose proof (List.filter_length_le f l). destruct (f x); simpl; [rewrite <- IH; lia|].
  split; [lia|done].
Qed.

(** The counts of [Registered] never exceed the declared ones, and reach them exactly
    when the plan has nobody left to add or register. *)
Theorem Registered_complete declared observed lag nc nd :
  (Z.of_nat (length (Coordinators declared)) < 2 ^ 31)%Z →
  (Z.of_nat (length (DataInstances declared)) < 2 ^ 31)%Z →
  Registered declared observed = (nc, nd) →
  (0 ≤ nc ≤ Z.of_nat (length (Coordinators declared)))%Z ∧
  (0 ≤ nd ≤ Z.of_nat (length (DataInstances declared)))%Z ∧
  ((nc = Z.of_nat (length (Coordinators declared)) ∧
    nd = Z.of_nat (length (DataInstances declared))) ↔
   ∀ c, c ∈ Plan declared observed lag →
     match c with AddCoordinator _ | RegisterInstance _ => False | _ => True end).
Proof.
  intros Hc Hd. unfold Registered. rewrite !count_loop by done. intros [= <- <-].
  pose proof (List.filter_length_le (coordinatorRegistered (index observed)) (Coordinators declared)).
  pose proof (List.filter_length_le (λ i, is_registered (index observed) (d_Name i)) (DataInstances declared)).
  split_and!; [lia..|]. rewrite !Nat2Z.inj_iff, !filter_length_full.
  setoid_rewrite elem_of_Plan. split.
  - intros [Hac Had] [c|i|c|i|cs r|n|n|c|l]; try done; intros [Hin Hf];
      [rewrite Hac in Hf|rewrite Had in Hf]; done.
  - intros Hno. split.
    + intros c Hin. destruct (coordinatorRegistered _ c) eqn:E; [done|]. by destruct (Hno (AddCoordinator c)).
    + intros i Hin. destruct (is_registered _ (d_Name i)) eqn:E; [done|]. by destruct (Hno (RegisterInstance i)).
Qed.

Lemma Registered_complete_witness :
  Registered Example.declared Example.observed = (1, 1)%Z ∧
  ∀ c, c ∈ Plan Example.declared Example.observed [] →
     match c with AddCoordinator _ | RegisterInstance _ => False | _ => True end.
Proof.
  split; [by vm_compute|].
  by apply (Registered_complete Example.declared Example.observed [] 1 1).
Defined.
