(* ===== verification/PlanRun.v ===== *)
(** * Package planner: running the planned commands

    The commands' [Run] and [String] methods, against the memgraph.Client interface as
    a typeclass over the state the calls act on: the client's theorems here hold for
    every implementation, and FakeMemgraph.v gives one. A call returns the state it
    leaves and its error, [None] for nil. The loop that runs a plan is the one at the end
    of [reconcileRegistration]. *)

From S2P Require Import Prelude GoStrings GoErrors Client Planner.

(** ** The interface (client.go) *)

Class ClusterClient (S : Type) := {
  client_AddCoordinator : CoordinatorSpec → S → S * option error;
  client_RegisterInstance : DataInstanceSpec → S → S * option error;
  client_UpdateCoordinatorBoltServer : Z → string → S → S * option error;
  client_UpdateInstanceBoltServer : string → string → S → S * option error;
  client_SetInstanceToMain : string → S → S * option error;
  client_DemoteInstance : string → S → S * option error;
  client_UnregisterInstance : string → S → S * option error;
  client_RemoveCoordinator : Z → S → S * option error;
  client_YieldLeadership : S → S * option error
}.

(** ** [Run] and [String] *)

Section Run.
Context {S : Type} `{ClusterClient S}.

(** The candidate loop of [SetInstanceToMain.Run]: the state, the refusals so far and
    whether a candidate was accepted. *)
Fixpoint try_candidates (candidates : list string) (errs : list error) (s : S)
    : S * list error * bool :=
  match candidates with
  | [] => (s, errs, false)
  | name :: candidates =>
      match client_SetInstanceToMain name s with
      | (s, Some err) => try_candidates candidates (errs ++ [wrap ("promoting " ^^ name) err]) s
      | (s, None) => (s, errs, true)
      end
  end.

Definition run_SetInstanceToMain (candidates : list string) (restore : string) (s : S)
    : S * option error :=
  match try_candidates candidates [] s with
  | (s, _, true) => (s, None)
  | (s, errs, false) =>
      if decide (restore = "") then (s, errors_Join errs)
      else match client_SetInstanceToMain restore s with
           | (s, Some err) =>
               (s, errors_Join (errs ++ [wrap ("restoring MAIN to " ^^ restore) err]))
           | (s, None) =>
               (s, Some (Errorf ("no promotion candidate was accepted, so MAIN was restored to the retiring instance "
                                   ^^ restore ^^ ": " ^^ wrapped_text (errors_Join errs))
                           (option_list (errors_Join errs))))
           end
  end.

Definition Run (c : Command) (s : S) : S * option error :=
  match c with
  | AddCoordinator c => client_AddCoordinator c s
  | RegisterInstance i => client_RegisterInstance i s
  | UpdateCoordinatorBoltServer c => client_UpdateCoordinatorBoltServer (c_ID c) (c_BoltServer c) s
  | UpdateInstanceBoltServer i => client_UpdateInstanceBoltServer (d_Name i) (d_BoltServer i) s
  | SetInstanceToMain candidates restore => run_SetInstanceToMain candidates restore s
  | DemoteInstance name => client_DemoteInstance name s
  | UnregisterInstance name => client_UnregisterInstance name s
  | RemoveCoordinator c => client_RemoveCoordinator (c_ID c) s
  | YieldLeadership _ => client_YieldLeadership s
  end.
End Run.

(** [SetInstanceToMain.String]. *)
Definition SetInstanceToMain_String (candidates : list string) (restore : string) : string :=
  let targets := if decide (restore = "") then candidates else candidates ++ [restore] in
  match targets with
  | [] => "SET INSTANCE TO MAIN (no candidate)"
  | [target] => "SET INSTANCE " ^^ target ^^ " TO MAIN"
  | target :: fallbacks =>
      "SET INSTANCE " ^^ target ^^ " TO MAIN (or, if refused: " ^^ Join fallbacks ", " ^^ ")"
  end.

Definition Command_String (c : Command) : string :=
  match c with
  | AddCoordinator c => "ADD COORDINATOR " ^^ Itoa (c_ID c)
  | RegisterInstance i => "REGISTER INSTANCE " ^^ d_Name i
  | UpdateCoordinatorBoltServer c =>
      "UPDATE CONFIG FOR COORDINATOR " ^^ Itoa (c_ID c) ^^ " (bolt_server " ^^ c_BoltServer c ^^ ")"
  | UpdateInstanceBoltServer i =>
      "UPDATE CONFIG FOR INSTANCE " ^^ d_Name i ^^ " (bolt_server " ^^ d_BoltServer i ^^ ")"
  | SetInstanceToMain candidates restore => SetInstanceToMain_String candidates restore
  | DemoteInstance name => "DEMOTE INSTANCE " ^^ name
  | UnregisterInstance name => "UNREGISTER INSTANCE " ^^ name
  | RemoveCoordinator c => "REMOVE COORDINATOR " ^^ Itoa (c_ID c)
  | YieldLeadership _ => "YIELD LEADERSHIP"
  end.

(** The loop over the plan at the end of [reconcileRegistration]: the first command the
    leader rejects ends it. *)
Fixpoint run_plan {S} `{ClusterClient S} (commands : list Command) (s : S) : S * option error :=
  match commands with
  | [] => (s, None)
  | command :: commands =>
      match Run command s with
      | (s, Some err) =>
          (s, Some (wrap ("executing registration command " ^^ Quote (Command_String command)) err))
      | (s, None) => run_plan commands s
      end
  end.

(** [yieldedLeader]: the leader of a plan's last command, when that is a yield. *)
Definition yieldedLeader (commands : list Command) : string :=
  match last commands with
  | Some (YieldLeadership l) => l
  | _ => ""
  end.

(** ** The outcome of a promotion *)

Section outcome.
Context {S : Type} `{ClusterClient S}.

(** The candidate a promotion settles on: [refused] are tried before it and refused,
    each from the state the last refusal left. *)
Inductive promotes : list string → S → string → S → Prop :=
| promotes_here name rest s s' :
    client_SetInstanceToMain name s = (s', None) → promotes (name :: rest) s name s'
| promotes_later name rest s s1 err target s' :
    client_SetInstanceToMain name s = (s1, Some err) →
    promotes rest s1 target s' → promotes (name :: rest) s target s'.

Inductive refuses : list string → S → list error → S → Prop :=
| refuses_nil s : refuses [] s [] s
| refuses_cons name rest s s1 err errs s' :
    client_SetInstanceToMain name s = (s1, Some err) →
    refuses rest s1 errs s' → refuses (name :: rest) s (wrap ("promoting " ^^ name) err :: errs) s'.

Lemma try_candidates_spec cands errs s :
  match try_candidates cands errs s with
  | (s', _, true) => ∃ target, promotes cands s target s'
  | (s', errs', false) => ∃ es, errs' = errs ++ es ∧ refuses cands s es s'
  end.
Proof.
  revert errs s. induction cands as [|n cands IH]; intros errs s; simpl.
  - exists []. rewrite app_nil_r. split; [done|constructor].
  - destruct (client_SetInstanceToMain n s) as [s1 [err|]] eqn:E.
    + specialize (IH (errs ++ [wrap ("promoting " ^^ n) err]) s1).
      destruct (try_candidates _ _ _) as [[s' errs'] []].
      * destruct IH as [t Ht]. exists t. by econstructor.
      * destruct IH as (es & -> & Hr). exists (wrap ("promoting " ^^ n) err :: es).
        rewrite <- app_assoc. split; [done|by econstructor].
    + exists n. by constructor.
Qed.

Lemma promotes_in cands s target s' :
  promotes cands s target s' → target ∈ cands ∧ ∃ s1, client_SetInstanceToMain target s1 = (s', None).
Proof. induction 1; split; [left|by eauto|right; naive_solver|naive_solver]. Qed.

Lemma refuses_not_promotes cands s es s' : refuses cands s es s' → ∀ t st, ¬ promotes cands s t st.
Proof.
  induction 1 as [s|n rest s s1 err errs s' E _ IH]; intros t st Hp;
    inversion Hp as [? ? ? ? E'|? ? ? s1' ? ? ? E' Hp']; subst; rewrite E in E'; [done|].
  simplify_eq. by apply (IH t st).
Qed.

Lemma refuses_nil_inv cands s es s' : refuses cands s es s' → es = [] → cands = [].
Proof. by destruct 1. Qed.
End outcome.

(** Running a promotion reports success exactly when a candidate was accepted (or there
    was neither a candidate nor a MAIN to restore): a rollback to the demoted MAIN always
    surfaces as an error, so the unregistrations behind it are not run; and whatever it
    answers, the cluster is left by an accepted promotion of a candidate or of [restore],
    or every one of them was refused in turn. *)
Theorem promotion_reports_rollback {S} `{ClusterClient S} candidates restore (s s' : S) err :
  run_SetInstanceToMain candidates restore s = (s', err) →
  (err = None ↔ (∃ target, promotes candidates s target s') ∨ (candidates = [] ∧ restore = "" ∧ s' = s)) ∧
  (err ≠ None → ∃ errs s1, refuses candidates s errs s1 ∧
     ((restore = "" ∧ s' = s1) ∨ (restore ≠ "" ∧ ∃ e, client_SetInstanceToMain restore s1 = (s', e)))).
Proof.
  unfold run_SetInstanceToMain. pose proof (try_candidates_spec candidates [] s) as Hspec.
  destruct (try_candidates candidates [] s) as [[s1 errs] []].
  - intros [= <- <-]. split; [|done]. split; [by left|done].
  - destruct Hspec as (es & -> & Hr). simpl.
    pose proof (refuses_not_promotes _ _ _ _ Hr) as Hnp.
    case_decide as Hrestore.
    + intros [= <- <-]. destruct es as [|e es]; simpl.
      * pose proof (refuses_nil_inv _ _ _ _ Hr eq_refl) as ->. inversion Hr. subst. naive_solver.
      * split; [|by eauto 10]. split; [done|]. intros [[t Ht]|(-> & _)]; [by apply Hnp in Ht|].
        inversion Hr.
    + destruct (client_SetInstanceToMain restore s1) as [s2 [e|]] eqn:E; intros [= <- <-].
      * split; [|by eauto 10]. unfold errors_Join. split; [by destruct es|].
        intros [[t Ht]|(_ & ? & _)]; [by apply Hnp in Ht|done].
      * split; [|by eauto 10]. split; [done|].
        intros [[t Ht]|(_ & ? & _)]; [by apply Hnp in Ht|done].
Qed.
