(* ===== verification/FakeMemgraph.v ===== *)
(** * The fake Memgraph of the controller's tests

    fake_memgraph_test.go: what the repository takes the coordinators' commands to do and to
    refuse. It implements the memgraph.Client interface of PlanRun.v, and the theorems run
    the planner against it. A state is the cluster as one open connection sees it; a
    connection is closed after its plan, so [closed] is not part of it. *)

From S2P Require Import Prelude GoStrings GoErrors Client Planner PlanRun.

(** ** Definitions *)

Record fakeClient := mkFakeClient {
  f_address : string;
  f_instances : list Instance;
  f_rejected : string → option error;
  f_executed : list string
}.

(** The text after the last [sep]: [s[strings.LastIndex(s, sep)+1:]]. *)
Fixpoint after_last (s : string) (sep : ascii) : option string :=
  match s with
  | "" => None
  | String c s =>
      match after_last s sep with
      | Some r => Some r
      | None => if decide (c = sep) then Some s else None
      end
  end.

(** [strconv.Atoi] with its errors, on a 64-bit machine. *)
Definition is_int64 (z : Z) : Prop := (- 2 ^ 63 ≤ z < 2 ^ 63)%Z.
Definition Atoi (s : string) : Z + error :=
  let refused reason := inr (Errorf ("strconv.Atoi: parsing " ^^ Quote s ^^ ": " ^^ reason) []) in
  let parse neg s :=
    match (if decide (s = "") then None else digits 0 s) with
    | None => refused "invalid syntax"
    | Some n =>
        let z := if (neg : bool) then (- Z.of_N n)%Z else Z.of_N n in
        if decide (is_int64 z) then inl z else refused "value out of range"
    end in
  match s with
  | String "+" s => parse false s
  | String "-" s => parse true s
  | _ => parse false s
  end.

Definition selfName (address : string) : string + error :=
  let pod := match Cut address "." with Some (pod, _) => pod | None => address end in
  match after_last pod "-" with
  | None => inr (Errorf ("fake memgraph: " ^^ address ^^ " is not a pod address") [])
  | Some suffix =>
      match Atoi suffix with
      | inr err => inr (wrap ("fake memgraph: " ^^ address ^^ " carries no pod ordinal") err)
      | inl ordinal => inl (coordinatorName ordinal)
      end
  end.

Definition hasInstance (instances : list Instance) (name : string) : bool :=
  existsb (λ i, bool_decide (i_Name i = name)) instances.

Definition refuse (what : string) : error := Errorf ("fake memgraph: " ^^ what) [].

(** A loop over the instances that acts on the first one [p] picks and returns: [f] is
    what takes its place, or the error returned. [None] when the loop runs off the end. *)
Fixpoint at_first (p : Instance → bool) (f : Instance → list Instance + error)
    (instances : list Instance) : option (list Instance + error) :=
  match instances with
  | [] => None
  | i :: rest =>
      if p i then Some (match f i with inl l => inl (l ++ rest) | inr e => inr e end)
      else match at_first p f rest with
           | Some (inl rest) => Some (inl (i :: rest))
           | r => r
           end
  end.
Definition is_named (name : string) (i : Instance) : bool := bool_decide (i_Name i = name).

Definition with_BoltServer (b : string) (i : Instance) : Instance :=
  mkInstance (i_Name i) b (i_CoordinatorServer i) (i_ManagementServer i) (i_Health i) (i_Role i).
Definition with_Role (r : string) (i : Instance) : Instance :=
  mkInstance (i_Name i) (i_BoltServer i) (i_CoordinatorServer i) (i_ManagementServer i) (i_Health i) r.

(** [execute]. *)
Definition execute (command : string) (apply : list Instance → list Instance + error) (s : fakeClient)
    : fakeClient * option error :=
  match f_rejected s command with
  | Some err => (s, Some err)
  | None =>
      match apply (f_instances s) with
      | inr err => (s, Some err)
      | inl instances =>
          (mkFakeClient (f_address s) instances (f_rejected s)
             (f_executed s ++ [f_address s ^^ ": " ^^ command]), None)
      end
  end.

(** [ShowInstances], on a connection whose address has no stale view. *)
Definition ShowInstances (s : fakeClient) : list Instance + error :=
  match selfName (f_address s) with
  | inr err => inr err
  | inl self =>
      inl (if hasInstance (f_instances s) self then f_instances s
           else f_instances s ++ [mkInstance self "" "" "" "up" RoleLeader])
  end.

Definition add_coordinator (address : string) (c : CoordinatorSpec) (instances : list Instance)
    : list Instance + error :=
  match at_first (is_named (c_Name c))
          (λ i, if decide (i_BoltServer i = "")
                then inl [mkInstance (i_Name i) (c_BoltServer c) (c_CoordinatorServer c)
                            (c_ManagementServer c) (i_Health i) (i_Role i)]
                else inr (refuse ("coordinator " ^^ c_Name c ^^ " already exists"))) instances with
  | Some r => r
  | None =>
      match selfName address with
      | inr err => inr err
      | inl self =>
          inl (instances ++ [mkInstance (c_Name c) (c_BoltServer c) (c_CoordinatorServer c)
                               (c_ManagementServer c) "up"
                               (if decide (c_Name c = self) then RoleLeader else RoleFollower)])
      end
  end.

Definition register_instance (i : DataInstanceSpec) (instances : list Instance) : list Instance + error :=
  if hasInstance instances (d_Name i)
  then inr (refuse ("instance " ^^ d_Name i ^^ " already registered"))
  else inl (instances ++ [mkInstance (d_Name i) (d_BoltServer i) "" (d_ManagementServer i) "up" RoleReplica]).

Definition or_refuse (r : option (list Instance + error)) (what : string) : list Instance + error :=
  match r with Some r => r | None => inr (refuse what) end.

Definition set_main (name : string) (instances : list Instance) : list Instance + error :=
  match List.find IsMain instances with
  | Some i => inr (refuse (i_Name i ^^ " is already MAIN"))
  | None => or_refuse (at_first (is_named name) (λ i, inl [with_Role RoleMain i]) instances)
              ("instance " ^^ name ^^ " is not registered")
  end.

Definition demote (name : string) (instances : list Instance) : list Instance + error :=
  or_refuse (at_first (is_named name)
               (λ i, if IsMain i then inl [with_Role RoleReplica i]
                     else inr (refuse ("instance " ^^ name ^^ " is not MAIN"))) instances)
    ("instance " ^^ name ^^ " is not registered").

Definition unregister (name : string) (instances : list Instance) : list Instance + error :=
  or_refuse (at_first (is_named name)
               (λ i, if IsMain i then inr (refuse ("instance " ^^ name ^^ " is MAIN")) else inl []) instances)
    ("instance " ^^ name ^^ " is not registered").

Definition remove_coordinator (name : string) (instances : list Instance) : list Instance + error :=
  or_refuse (at_first (is_named name)
               (λ i, if IsLeader i then inr (refuse (name ^^ " is the leader")) else inl []) instances)
    ("coordinator " ^^ name ^^ " is not a member").

Definition is_successor (self : string) (i : Instance) : bool :=
  HasPrefix (i_Name i) coordinatorNamePrefix && negb (bool_decide (i_Name i = self)).

(** Every row of [self] becomes a follower, and the first other coordinator the leader. *)
Definition yield_leadership (self : string) (instances : list Instance) : list Instance + error :=
  or_refuse (at_first (is_successor self) (λ i, inl [with_Role RoleLeader i])
               ((λ i, if is_named self i then with_Role RoleFollower i else i) <$> instances))
    (self ^^ " is the only coordinator, so leadership cannot be yielded").

#[export] Instance fake_client : ClusterClient fakeClient := {
  client_AddCoordinator c s :=
    execute ("ADD COORDINATOR " ^^ Itoa (c_ID c)) (add_coordinator (f_address s) c) s;
  client_RegisterInstance i s := execute ("REGISTER INSTANCE " ^^ d_Name i) (register_instance i) s;
  client_UpdateCoordinatorBoltServer id bolt s :=
    execute ("UPDATE CONFIG FOR COORDINATOR " ^^ Itoa id ^^ " bolt_server=" ^^ bolt)
      (λ instances, or_refuse
         (at_first (λ i, is_named (coordinatorName id) i && negb (bool_decide (i_BoltServer i = "")))
            (λ i, inl [with_BoltServer bolt i]) instances)
         ("coordinator " ^^ coordinatorName id ^^ " is not a member")) s;
  client_UpdateInstanceBoltServer name bolt s :=
    execute ("UPDATE CONFIG FOR INSTANCE " ^^ name ^^ " bolt_server=" ^^ bolt)
      (λ instances, or_refuse (at_first (is_named name) (λ i, inl [with_BoltServer bolt i]) instances)
         ("instance " ^^ name ^^ " is not registered")) s;
  client_SetInstanceToMain name s := execute ("SET INSTANCE " ^^ name ^^ " TO MAIN") (set_main name) s;
  client_DemoteInstance name s := execute ("DEMOTE INSTANCE " ^^ name) (demote name) s;
  client_UnregisterInstance name s := execute ("UNREGISTER INSTANCE " ^^ name) (unregister name) s;
  client_RemoveCoordinator id s :=
    execute ("REMOVE COORDINATOR " ^^ Itoa id) (remove_coordinator (coordinatorName id)) s;
  client_YieldLeadership s :=
    match selfName (f_address s) with
    | inr err => (s, Some err)
    | inl self => execute "YIELD LEADERSHIP" (yield_leadership self) s
    end
}.

(** ** The commands as operations on the rows by name

    Every command but a promotion and a yield reads and writes the one row of its
    [target]. [local_step] says what it makes of that row, [None] when it is refused;
    [local_run] shows that the client does exactly that. *)

Definition target (c : Command) : string :=
  match c with
  | AddCoordinator c | UpdateCoordinatorBoltServer c | RemoveCoordinator c => c_Name c
  | RegisterInstance i | UpdateInstanceBoltServer i => d_Name i
  | DemoteInstance name | UnregisterInstance name => name
  | SetInstanceToMain _ _ | YieldLeadership _ => ""
  end.

Definition local_step (self : string) (c : Command) (row : option Instance) : option (option Instance) :=
  match c, row with
  | AddCoordinator c, None =>
      Some (Some (mkInstance (c_Name c) (c_BoltServer c) (c_CoordinatorServer c) (c_ManagementServer c) "up"
                    (if decide (c_Name c = self) then RoleLeader else RoleFollower)))
  | AddCoordinator c, Some i =>
      if decide (i_BoltServer i = "")
      then Some (Some (mkInstance (i_Name i) (c_BoltServer c) (c_CoordinatorServer c)
                         (c_ManagementServer c) (i_Health i) (i_Role i)))
      else None
  | RegisterInstance i, None =>
      Some (Some (mkInstance (d_Name i) (d_BoltServer i) "" (d_ManagementServer i) "up" RoleReplica))
  | UpdateCoordinatorBoltServer c, Some i =>
      if decide (i_BoltServer i = "") then None else Some (Some (with_BoltServer (c_BoltServer c) i))
  | UpdateInstanceBoltServer d, Some i => Some (Some (with_BoltServer (d_BoltServer d) i))
  | DemoteInstance _, Some i => if IsMain i then Some (Some (with_Role RoleReplica i)) else None
  | UnregisterInstance _, Some i => if IsMain i then None else Some None
  | RemoveCoordinator _, Some i => if IsLeader i then None else Some None
  | _, _ => None
  end.

(** An open connection to [self], rejecting nothing of its own accord, with one row per name. *)
Record session (self : string) (s : fakeClient) : Prop := {
  session_self : selfName (f_address s) = inl self;
  session_accepts : ∀ command, f_rejected s command = None;
  session_names : NoDup (i_Name <$> f_instances s)
}.
Definition rows (s : fakeClient) : gmap string Instance := index (f_instances s).

(** ** Lemmas: lists of rows *)

Lemma index_split l name i :
  NoDup (i_Name <$> l) → index l !! name = Some i →
  ∃ l1 l2, l = l1 ++ i :: l2 ∧ i_Name i = name ∧ ∀ j, j ∈ l1 ++ l2 → i_Name j ≠ name.
Proof.
  intros Hnd Hi. apply index_by_Some_1 in Hi as [Hi Hn].
  apply list_elem_of_split in Hi as (l1 & l2 & ->). exists l1, l2. split; [done|]. split; [done|].
  rewrite fmap_app, fmap_cons in Hnd. apply NoDup_app in Hnd as (H1 & H2 & [H3 H4]%NoDup_cons).
  intros j [Hj|Hj]%elem_of_app Hjn.
  - apply (H2 name); [|rewrite <- Hn; left]. rewrite <- Hjn. by apply list_elem_of_fmap_2.
  - apply H3. rewrite Hn, <- Hjn. by apply list_elem_of_fmap_2.
Qed.

Lemma at_first_split p f l1 i l2 :
  (∀ j, j ∈ l1 → p j = false) → p i = true →
  at_first p f (l1 ++ i :: l2) = Some (match f i with inl l => inl (l1 ++ l ++ l2) | inr e => inr e end).
Proof.
  intros H1 Hi. induction l1 as [|j l1 IH]; simpl; [by rewrite Hi|].
  rewrite H1 by left. rewrite IH by (intros; apply H1; by right). by destruct (f i).
Qed.

Lemma at_first_None p f l : (∀ j, j ∈ l → p j = false) → at_first p f l = None.
Proof.
  intros H. induction l as [|j l IH]; simpl; [done|]. rewrite H by left. rewrite IH; [done|].
  intros; apply H; by right.
Qed.

Lemma index_replace l1 i i' l2 :
  NoDup (i_Name <$> l1 ++ i :: l2) → i_Name i' = i_Name i →
  NoDup (i_Name <$> l1 ++ i' :: l2) ∧
  index (l1 ++ i' :: l2) = <[i_Name i := i']> (index (l1 ++ i :: l2)).
Proof.
  intros Hnd Hn. assert (NoDup (i_Name <$> l1 ++ i' :: l2)) as Hnd'.
  { by rewrite fmap_app, fmap_cons, Hn, <- fmap_cons, <- fmap_app. }
  split; [done|]. apply map_eq. intros n. destruct (decide (n = i_Name i)) as [->|Hne].
  - rewrite lookup_insert_eq. apply index_by_NoDup; [done|]. split; [|done]. rewrite elem_of_app. right. left.
  - rewrite lookup_insert_ne by done. apply option_eq. intros j. unfold index. rewrite !index_by_NoDup by done.
    rewrite !elem_of_app, !elem_of_cons. split; intros [Hj <-]; (split; [|done]); naive_solver congruence.
Qed.

Lemma index_remove l1 i l2 :
  NoDup (i_Name <$> l1 ++ i :: l2) →
  NoDup (i_Name <$> l1 ++ l2) ∧ index (l1 ++ l2) = delete (i_Name i) (index (l1 ++ i :: l2)).
Proof.
  intros Hnd. assert (Hnd' := Hnd). rewrite fmap_app, fmap_cons, <- Permutation_middle in Hnd'.
  apply NoDup_cons in Hnd' as [Hni Hnd']. rewrite <- fmap_app in Hni, Hnd'. split; [done|].
  apply map_eq. intros n. destruct (decide (n = i_Name i)) as [->|Hne].
  - rewrite lookup_delete_eq. apply index_by_None. intros j Hj Hn. apply Hni. rewrite <- Hn.
    by apply list_elem_of_fmap_2.
  - rewrite lookup_delete_ne by done. apply option_eq. intros j. unfold index. rewrite !index_by_NoDup by done.
    rewrite !elem_of_app, !elem_of_cons. split; intros [Hj <-]; (split; [|done]); naive_solver congruence.
Qed.

Lemma index_append l i :
  NoDup (i_Name <$> l) → index l !! i_Name i = None →
  NoDup (i_Name <$> l ++ [i]) ∧ index (l ++ [i]) = <[i_Name i := i]> (index l).
Proof.
  intros Hnd Hi. unfold index in *. rewrite index_by_snoc. split; [|done]. rewrite fmap_app. simpl.
  rewrite index_by_None in Hi. apply NoDup_app. split; [done|]. split; [|apply NoDup_singleton].
  intros n (j & -> & Hj)%list_elem_of_fmap Hn%list_elem_of_singleton. by apply (Hi j).
Qed.

(** What the loop does to the row named [name]. *)
Lemma at_first_update p f l name i i' :
  NoDup (i_Name <$> l) → index l !! name = Some i → (∀ j, p j = true → i_Name j = name) → p i = true →
  f i = inl [i'] → i_Name i' = i_Name i →
  ∃ l', at_first p f l = Some (inl l') ∧ NoDup (i_Name <$> l') ∧ index l' = <[name := i']> (index l).
Proof.
  intros Hnd Hi Hp Hpi Hf Hn'. pose proof (index_split _ _ _ Hnd Hi) as (l1 & l2 & -> & <- & Hne).
  rewrite at_first_split; [|intros j Hj; destruct (p j) eqn:E; [|done];
    apply Hp in E; by destruct (Hne j); [set_solver|]|done].
  rewrite Hf. eexists. split; [done|]. by apply index_replace.
Qed.

Lemma at_first_delete p f l name i :
  NoDup (i_Name <$> l) → index l !! name = Some i → (∀ j, p j = true → i_Name j = name) → p i = true →
  f i = inl [] →
  ∃ l', at_first p f l = Some (inl l') ∧ NoDup (i_Name <$> l') ∧ index l' = delete name (index l).
Proof.
  intros Hnd Hi Hp Hpi Hf. pose proof (index_split _ _ _ Hnd Hi) as (l1 & l2 & -> & <- & Hne).
  rewrite at_first_split; [|intros j Hj; destruct (p j) eqn:E; [|done];
    apply Hp in E; by destruct (Hne j); [set_solver|]|done].
  rewrite Hf. eexists. split; [done|]. by apply index_remove.
Qed.

Lemma is_named_spec name i : is_named name i = true ↔ i_Name i = name.
Proof. apply bool_decide_eq_true. Qed.

Lemma at_first_absent f l name : index l !! name = None → at_first (is_named name) f l = None.
Proof.
  intros Hi. apply at_first_None. intros j Hj. apply bool_decide_eq_false.
  unfold index in Hi. rewrite index_by_None in Hi. by apply Hi.
Qed.

Lemma hasInstance_spec l name : hasInstance l name = bool_decide (is_Some (index l !! name)).
Proof.
  unfold hasInstance, index. apply eq_true_iff_eq. rewrite existsb_true_iff, bool_decide_eq_true, index_by_is_Some.
  setoid_rewrite bool_decide_eq_true. done.
Qed.

(** ** Lemmas: commands *)

Lemma execute_accepts self s command apply l :
  session self s → apply (f_instances s) = inl l → NoDup (i_Name <$> l) →
  ∃ s', execute command apply s = (s', None) ∧ session self s' ∧ f_address s' = f_address s ∧
        f_instances s' = l.
Proof.
  intros [Hself Hrej Hnd] Ha Hl. unfold execute. rewrite Hrej, Ha. eexists. split; [done|]. done.
Qed.

(** The row the loop of the goal picks, replaced ([at_first_update]) or deleted. *)
Ltac first_row lem :=
  match goal with
  | |- context [at_first ?p ?f ?l] =>
      edestruct (lem p f l) as (l' & E & ? & ?);
      [..|rewrite E; eexists; split_and!; [reflexivity|done|eassumption]];
      simpl; rewrite ?andb_true_iff, ?is_named_spec; eauto;
      try (intros j; rewrite ?andb_true_iff, ?is_named_spec; intuition congruence);
      try (split; [done|by rewrite bool_decide_eq_false_2]); try (repeat case_match; congruence)
  end.

(** A local command does to the rows what [local_step] says. *)
Lemma local_run self s c row' :
  session self s → local_step self c (rows s !! target c) = Some row' →
  ∃ s', Run c s = (s', None) ∧ session self s' ∧ f_address s' = f_address s ∧
        rows s' = partial_alter (λ _, row') (target c) (rows s).
Proof.
  intros Hs Hstep. assert (Hnd := session_names _ _ Hs).
  assert (∀ command apply, (∃ l', apply (f_instances s) = inl l' ∧ NoDup (i_Name <$> l') ∧
    index l' = partial_alter (λ _, row') (target c) (rows s)) →
    ∃ s', execute command apply s = (s', None) ∧ session self s' ∧ f_address s' = f_address s ∧
      rows s' = partial_alter (λ _, row') (target c) (rows s)) as Hgo.
  { intros command apply (l' & Ha & Hl & Hi).
    destruct (execute_accepts self s command apply l') as (s' & ? & ? & ? & E); auto.
    exists s'. unfold rows at 1. by rewrite E. }
  unfold rows in *. destruct (index (f_instances s) !! target c) as [i|] eqn:Hrow.
  - assert (i_Name i = target c) as Hn by (by apply index_by_Some_1 in Hrow as [_ ?]).
    destruct c; simpl in *; try discriminate; apply Hgo; clear Hgo;
      unfold add_coordinator, demote, unregister, remove_coordinator, or_refuse;
      repeat match type of Hstep with context [if ?b then _ else _] => destruct b eqn:? end; simplify_eq.
    + first_row at_first_update.
    + first_row at_first_update.
    + first_row at_first_update.
    + first_row at_first_update.
    + first_row at_first_delete.
    + first_row at_first_delete.
  - destruct c; simpl in *; simplify_eq; apply Hgo; clear Hgo;
      unfold add_coordinator, register_instance.
    + rewrite at_first_absent, (session_self _ _ Hs) by done. eexists. split; [done|]. by apply index_append.
    + rewrite hasInstance_spec, bool_decide_eq_false_2 by (rewrite Hrow; by intros []).
      eexists. split; [done|]. by apply index_append.
Qed.

Lemma run_plan_app cs ds (s s' : fakeClient) :
  run_plan cs s = (s', None) → run_plan (cs ++ ds) s = run_plan ds s'.
Proof.
  revert s. induction cs as [|c cs IH]; intros s; simpl; [by intros [= <-]|].
  destruct (Run c s) as [s1 [err|]]; [done|]. apply IH.
Qed.

(** Commands on rows of their own, none of them refused on the rows at the start: they all
    run, each does to its row what it would have done at the start, and the other rows stay. *)
Lemma run_locals self cs s :
  session self s → NoDup (target <$> cs) → (∀ c, c ∈ cs → local_step self c (rows s !! target c) ≠ None) →
  ∃ s', run_plan cs s = (s', None) ∧ session self s' ∧ f_address s' = f_address s ∧
    (∀ n, n ∉ target <$> cs → rows s' !! n = rows s !! n) ∧
    (∀ c, c ∈ cs → local_step self c (rows s !! target c) = Some (rows s' !! target c)).
Proof.
  revert s. induction cs as [|c cs IH]; intros s Hs Hnd Hok.
  { exists s. split_and!; auto. by intros c ?%elem_of_nil. }
  rewrite fmap_cons in Hnd. apply NoDup_cons in Hnd as [Hc Hnd].
  destruct (local_step self c (rows s !! target c)) as [row'|] eqn:Hstep; [|by destruct (Hok c); [left|]].
  destruct (local_run self s c row' Hs Hstep) as (s1 & Hrun & Hs1 & Ha1 & Hrows).
  assert (∀ n, n ≠ target c → rows s1 !! n = rows s !! n) as Hother.
  { intros n Hn. rewrite Hrows. by rewrite lookup_partial_alter_ne. }
  assert (∀ d, d ∈ cs → rows s1 !! target d = rows s !! target d) as Hrest.
  { intros d Hd. apply Hother. intros E. apply Hc. rewrite <- E. by apply list_elem_of_fmap_2. }
  destruct (IH s1) as (s' & Hrun' & Hs' & Ha' & Hframe & Heff); auto.
  { intros d Hd. rewrite Hrest by done. apply Hok. by right. }
  exists s'. simpl. rewrite Hrun. split_and!; auto; [congruence| |].
  - intros n [Hn ?]%not_elem_of_cons. rewrite Hframe by done. by apply Hother.
  - intros d [->|Hd]%elem_of_cons.
    + rewrite Hstep, Hframe by done. by rewrite Hrows, lookup_partial_alter_eq.
    + rewrite <- (Hrest d Hd). by apply Heff.
Qed.

(** A promotion is accepted when there is no MAIN and the instance is registered. *)
Lemma promote_run self s name i candidates restore :
  session self s → (∀ n j, rows s !! n = Some j → IsMain j = false) → rows s !! name = Some i →
  ∃ s', Run (SetInstanceToMain (name :: candidates) restore) s = (s', None) ∧ session self s' ∧
        f_address s' = f_address s ∧ rows s' = <[name := with_Role RoleMain i]> (rows s).
Proof.
  intros Hs Hmain Hi. assert (Hnd := session_names _ _ Hs).
  destruct (at_first_update (is_named name) (λ i, inl [with_Role RoleMain i]) (f_instances s) name i
              (with_Role RoleMain i)) as (l' & E & Hl & Hx); auto.
  { intros j. apply is_named_spec. }
  { apply is_named_spec. by apply index_by_Some_1 in Hi as [_ ?]. }
  destruct (execute_accepts self s ("SET INSTANCE " ^^ name ^^ " TO MAIN") (set_main name) l') as (s' & Hr & ? & ? & El);
    [done| |done|].
  { unfold set_main. rewrite E. rewrite (proj2 (find_None_iff _ _)); [done|]. intros j Hj.
    apply (Hmain (i_Name j)). by apply index_by_NoDup. }
  exists s'. unfold rows at 1. rewrite El. split_and!; auto. simpl. unfold run_SetInstanceToMain. simpl.
  by rewrite Hr.
Qed.

(** A yield is accepted when another coordinator has a row: it becomes the leader. *)
Lemma at_first_pick p g l :
  NoDup (i_Name <$> l) → (∃ i, i ∈ l ∧ p i = true) → (∀ i, i_Name (g i) = i_Name i) →
  ∃ i l', i ∈ l ∧ p i = true ∧ at_first p (λ i, inl [g i]) l = Some (inl l') ∧
    NoDup (i_Name <$> l') ∧ index l' = <[i_Name i := g i]> (index l).
Proof.
  intros Hnd Hex Hg. assert (∃ l1 i l2, l = l1 ++ i :: l2 ∧ p i = true ∧ ∀ j, j ∈ l1 → p j = false)
    as (l1 & i & l2 & -> & Hi & Hl1).
  { clear Hnd. induction l as [|j l IH]; [by destruct Hex as (? & ?%elem_of_nil & _)|].
    destruct (p j) eqn:E; [exists [], j, l; split_and!; auto; by intros ? ?%elem_of_nil|].
    destruct IH as (l1 & i & l2 & -> & ? & ?).
    { destruct Hex as (i & [->|?]%elem_of_cons & ?); [congruence|eauto]. }
    exists (j :: l1), i, l2. split_and!; auto. intros k [->|?]%elem_of_cons; auto. }
  exists i. eexists. rewrite at_first_split by done.
  split; [rewrite elem_of_app; right; left|]. do 2 (split; [done|]). by apply index_replace.
Qed.

Lemma index_fmap g l n :
  NoDup (i_Name <$> l) → (∀ i, i_Name (g i) = i_Name i) → index (g <$> l) !! n = g <$> index l !! n.
Proof.
  intros Hnd Hg. assert (i_Name <$> (g <$> l) = i_Name <$> l) as E.
  { rewrite <- list_fmap_compose. apply list_fmap_ext. intros. apply Hg. }
  apply option_eq. intros j. unfold index. rewrite index_by_NoDup by by rewrite E.
  rewrite fmap_Some. setoid_rewrite index_by_NoDup; [|done]. rewrite list_elem_of_fmap.
  split; [intros [(i & -> & Hi) <-]|intros (i & [Hi <-] & ->)]; rewrite ?Hg; eauto.
Qed.

Lemma yield_run self s l n :
  session self s → is_Some (rows s !! n) → HasPrefix n coordinatorNamePrefix = true → n ≠ self →
  ∃ s' successor i, Run (YieldLeadership l) s = (s', None) ∧ NoDup (i_Name <$> f_instances s') ∧
    f_rejected s' = f_rejected s ∧ successor ≠ self ∧ HasPrefix successor coordinatorNamePrefix = true ∧
    rows s !! successor = Some i ∧
    (∀ m, rows s' !! m = if decide (m = successor) then Some (with_Role RoleLeader i)
                         else if decide (m = self) then with_Role RoleFollower <$> rows s !! m
                         else rows s !! m).
Proof.
  intros Hs (i0 & Hi0) Hpre Hne. assert (Hnd := session_names _ _ Hs).
  set (g i := if is_named self i then with_Role RoleFollower i else i).
  assert (∀ i, i_Name (g i) = i_Name i) as Hg by (intros i; unfold g; by destruct (is_named self i)).
  destruct (at_first_pick (is_successor self) (with_Role RoleLeader) (g <$> f_instances s)) as (i & l' & Hi & Hp & E & Hl & Hx); [| |done|].
  { rewrite <- list_fmap_compose, (list_fmap_ext _ i_Name _); [done|]. intros. apply Hg. }
  { apply index_by_Some_1 in Hi0 as [Hi0 <-]. exists (g i0). split; [by apply list_elem_of_fmap_2|].
    unfold is_successor. rewrite Hg, Hpre. by rewrite bool_decide_eq_false_2. }
  apply list_elem_of_fmap in Hi as (j & -> & Hj). unfold is_successor in Hp. rewrite Hg in Hp, Hx.
  apply andb_true_iff in Hp as [Hpj Hpne%negb_true_iff%bool_decide_eq_false].
  assert (g j = j) as Egj. { unfold g, is_named. by rewrite bool_decide_eq_false_2. }
  rewrite Egj in Hx. eexists _, (i_Name j), j. simpl. rewrite (session_self _ _ Hs). unfold execute.
  rewrite (session_accepts _ _ Hs). unfold yield_leadership. fold g. rewrite E. simpl.
  split_and!; [done..|by apply index_by_NoDup|]. intros m. unfold rows. simpl. rewrite Hx.
  case_decide as Hm; [subst; by rewrite lookup_insert_eq|]. rewrite lookup_insert_ne, index_fmap by done.
  destruct (index (f_instances s) !! m) as [k|] eqn:Ek; simpl; [|by case_decide].
  apply index_by_Some_1 in Ek as [_ <-]. unfold g, is_named. case_decide; [by rewrite bool_decide_eq_true_2|].
  by rewrite bool_decide_eq_false_2.
Qed.

(** ** Witness: a promotion refused by everyone but the demoted MAIN *)

Module Example.
Definition rejecting (command : string) : option error :=
  if decide (command = "SET INSTANCE instance_0 TO MAIN") then Some (New "lagging") else None.
Definition demoted : fakeClient :=
  mkFakeClient "mg-coordinator-0.ns:7687"
    [mkInstance "instance_0" "d0:7687" "" "m0" "up" "replica"; mkInstance "instance_1" "d1:7687" "" "m1" "up" "replica"]
    rejecting [].
End Example.

Lemma promotion_reports_rollback_witness :
  ∃ s' err, run_SetInstanceToMain ["instance_0"] "instance_1" Example.demoted = (s', err) ∧
    err ≠ None ∧ ∃ errs s1, refuses ["instance_0"] Example.demoted errs s1.
Proof.
  destruct (run_SetInstanceToMain ["instance_0"] "instance_1" Example.demoted) as [s' err] eqn:E.
  assert (err ≠ None) as Herr by (intros ->; discriminate E).
  destruct (promotion_reports_rollback ["instance_0"] "instance_1" Example.demoted s' err E) as [_ H].
  destruct (H Herr) as (errs & s1 & Hr & _). exists s', err. split_and!; [done|done|by exists errs, s1].
Defined.
