(* ===== verification/Convergence.v ===== *)
(** * Registration converges

    The planner run against the fake Memgraph of the controller's tests: no command of a
    plan is refused, and the plan of the next pass has nothing left to do. A pass reads
    SHOW INSTANCES over a connection to the Raft leader, plans on it and runs the plan over
    the same connection, as reconcileRegistration does. *)

From S2P Require Import Prelude GoStrings GoErrors Client Planner PlanRun FakeMemgraph.

(** ** Definitions *)

(** A cluster as the leader [self] holds it: [self] is the one coordinator reported as
    leader, at most one instance as MAIN, and a coordinator's row has an address and never
    the MAIN role. *)
Record coherent (self : string) (s : fakeClient) : Prop := {
  coherent_session : session self s;
  coherent_leader : ∀ n i, rows s !! n = Some i → (IsLeader i = true) ↔ n = self;
  coherent_main : ∀ n m i j, rows s !! n = Some i → rows s !! m = Some j →
    IsMain i = true → IsMain j = true → n = m;
  coherent_coordinator : ∀ n i, rows s !! n = Some i → HasPrefix n coordinatorNamePrefix = true →
    IsMain i = false ∧ i_BoltServer i ≠ ""
}.

(** The names the operator gives data instances are not coordinators' names. *)
Definition data_names_apart (t : Topology) : Prop :=
  ∀ i, i ∈ DataInstances t ++ t_RetiringDataInstances t → HasPrefix (d_Name i) coordinatorNamePrefix = false.

(** ** Lemmas: roles *)

Lemma leader_not_main i : IsLeader i = true → IsMain i = true → False.
Proof. unfold IsLeader, IsMain, EqualFold. rewrite !bool_decide_eq_true. intros -> H. discriminate H. Qed.

Lemma HasPrefix_app p r : HasPrefix (p ^^ r) p = true.
Proof. apply bool_decide_eq_true. rewrite CutPrefix_app. eauto. Qed.

Lemma selfName_prefix address self : selfName address = inl self → HasPrefix self coordinatorNamePrefix = true.
Proof.
  unfold selfName. destruct (after_last _ _); [|done]. destruct (Atoi _); [|done].
  intros [= <-]. apply HasPrefix_app.
Qed.

Lemma c_Name_prefix c : HasPrefix (c_Name c) coordinatorNamePrefix = true.
Proof. apply HasPrefix_app. Qed.

(** ** Lemmas: members of a topology *)

Section topology.
Context (d : Topology) (Hwf : wf_topology d).

Lemma coordinator_unique k l :
  k ∈ Coordinators d ++ t_RetiringCoordinators d → l ∈ Coordinators d ++ t_RetiringCoordinators d →
  c_Name k = c_Name l → k = l.
Proof.
  intros Hk Hl E%c_Name_inj_id. by eapply (NoDup_fmap_unique c_ID); [apply (wf_coordinator_ids _ Hwf)|..].
Qed.

Lemma data_unique k l :
  k ∈ DataInstances d ++ t_RetiringDataInstances d → l ∈ DataInstances d ++ t_RetiringDataInstances d →
  d_Name k = d_Name l → k = l.
Proof.
  intros Hk Hl E. by eapply (NoDup_fmap_unique d_Name); [apply (wf_data_names _ Hwf)|..].
Qed.

Lemma coordinators_NoDup : NoDup (Coordinators d ++ t_RetiringCoordinators d).
Proof. eapply NoDup_fmap_1, (wf_coordinator_ids _ Hwf). Qed.
Lemma declared_coordinator_stays k :
  k ∈ Coordinators d → c_Name k ∉ c_Name <$> t_RetiringCoordinators d.
Proof.
  intros Hk (l & E & Hl)%list_elem_of_fmap. assert (k = l) as -> by (apply coordinator_unique; set_solver).
  pose proof coordinators_NoDup as (_ & Hnd & _)%NoDup_app. by apply (Hnd l).
Qed.
Lemma data_NoDup : NoDup (DataInstances d ++ t_RetiringDataInstances d).
Proof. eapply NoDup_fmap_1, (wf_data_names _ Hwf). Qed.
End topology.

(** ** Lemmas: the view of a pass *)

Section view.
Context (self : string) (s : fakeClient) (observed : list Instance).
Context (Hc : coherent self s) (Hv : ShowInstances s = inl observed).

Definition leader_row : Instance := mkInstance self "" "" "" "up" RoleLeader.

Lemma view_eq : observed = if hasInstance (f_instances s) self then f_instances s
                           else f_instances s ++ [leader_row].
Proof. unfold ShowInstances in Hv. rewrite (session_self _ _ (coherent_session _ _ Hc)) in Hv. by simplify_eq. Qed.

Lemma view_index n :
  index observed !! n = match rows s !! n with
                        | Some i => Some i
                        | None => if decide (n = self) then Some leader_row else None
                        end.
Proof.
  rewrite view_eq, hasInstance_spec. case_bool_decide as H.
  - unfold rows. destruct (index (f_instances s) !! n) eqn:E; [done|]. case_decide as Hn; [|done].
    subst. rewrite E in H. by destruct H.
  - apply eq_None_not_Some in H. unfold index, rows, index in *. rewrite index_by_snoc. simpl.
    destruct (decide (n = self)) as [->|Hne]; [by rewrite lookup_insert_eq, H|].
    rewrite lookup_insert_ne by done. by destruct (index_by _ _ !! n).
Qed.

Lemma view_row i : i ∈ observed → (rows s !! i_Name i = Some i) ∨ i = leader_row.
Proof.
  intros Hi. assert (∀ j, j ∈ f_instances s → rows s !! i_Name j = Some j) as Hrow.
  { intros j Hj. apply index_by_NoDup; [|done]. apply (session_names _ _ (coherent_session _ _ Hc)). }
  rewrite view_eq in Hi. destruct (hasInstance _ _); [auto|].
  apply elem_of_app in Hi as [Hi|Hi%list_elem_of_singleton]; auto.
Qed.

Lemma row_in_view n i : rows s !! n = Some i → i ∈ observed ∧ i_Name i = n.
Proof.
  intros H. apply index_by_Some_1. change (index observed !! n = Some i). by rewrite view_index, H.
Qed.

Lemma view_main i : i ∈ observed → IsMain i = true → rows s !! i_Name i = Some i.
Proof. intros [?| ->]%view_row Hm; [done|by vm_compute in Hm]. Qed.

Lemma view_single : single_main observed.
Proof.
  intros i j Hi Hj Hmi%Is_true_true Hmj%Is_true_true.
  eapply (coherent_main _ _ Hc _ _ i j); eauto using view_main.
Qed.

Lemma view_leader : leaderName observed = self.
Proof.
  assert (∀ i, i ∈ observed → IsLeader i = true → i_Name i = self) as Hl.
  { intros i [Hi| ->]%view_row HL; [|done]. by apply (coherent_leader _ _ Hc _ _ Hi). }
  unfold leaderName. destruct (List.find IsLeader observed) as [i|] eqn:E.
  - apply find_Some_elem in E as []. by apply Hl.
  - rewrite find_None_iff in E. exfalso. pose proof (view_index self) as Hself.
    assert (∃ i, i ∈ observed ∧ IsLeader i = true) as (i & Hi & HL); [|by rewrite E in HL].
    destruct (rows s !! self) as [i|] eqn:Er.
    + exists i. split; [by destruct (row_in_view _ _ Er)|]. by apply (coherent_leader _ _ Hc _ _ Er).
    + rewrite decide_True in Hself by done. exists leader_row.
      apply index_by_Some_1 in Hself as []. by split.
Qed.

Lemma view_retiring_main d n :
  retiring_main d observed n ↔ n ∈ retiringNames d ∧ ∃ i, rows s !! n = Some i ∧ IsMain i = true.
Proof.
  unfold retiring_main. split; intros [Hn (i & Hi & Hm)]; (split; [done|]).
  - destruct Hm as [Hm%Is_true_true <-]. eauto using view_main.
  - exists i. apply row_in_view in Hi as [? ?]. by split_and!; auto.
Qed.
End view.

(** ** Lemmas: local commands keep a cluster coherent *)

Lemma local_step_row self c row i' :
  local_step self c row = Some (Some i') → (∀ r, c = RegisterInstance r → d_Name r ≠ self) →
  match row with
  | Some i => (i_Role i' = i_Role i ∧ ∀ n, c ≠ DemoteInstance n) ∨
              ((∃ n, c = DemoteInstance n) ∧ IsMain i = true ∧ i_Role i' = RoleReplica)
  | None => IsMain i' = false ∧ ((IsLeader i' = true) ↔ target c = self)
  end.
Proof.
  intros H Hreg. destruct row as [row|]; destruct c; simpl in H; try discriminate;
    repeat match type of H with context [if ?b then _ else _] => destruct b eqn:? end; simplify_eq;
    simpl; try (left; by split); try (right; by eauto).
  - done.
  - by split.
  - split; [done|]. split; [done|]. intros E. by destruct (Hreg _ eq_refl).
Qed.

(** Commands that name coordinators and data instances as the operator does, and announce
    a coordinator somewhere. *)
Definition well_addressed (c : Command) : Prop :=
  match c with
  | AddCoordinator k | UpdateCoordinatorBoltServer k => c_BoltServer k ≠ ""
  | RegisterInstance i | UpdateInstanceBoltServer i => HasPrefix (d_Name i) coordinatorNamePrefix = false
  | _ => True
  end.

Lemma local_step_address self c row i' :
  local_step self c row = Some (Some i') → well_addressed c → HasPrefix (target c) coordinatorNamePrefix = true →
  i_BoltServer i' ≠ "" ∨ ∃ i, row = Some i ∧ i_BoltServer i' = i_BoltServer i.
Proof.
  intros H Hw Hp. destruct row as [row|]; destruct c; simpl in *; try discriminate;
    repeat match type of H with context [if ?b then _ else _] => destruct b eqn:? end; simplify_eq;
    simpl; eauto; congruence.
Qed.

(** What a run of local commands leaves in the row of [n]. *)
Lemma run_locals_row self cs s s' n :
  NoDup (target <$> cs) →
  (∀ n, n ∉ target <$> cs → rows s' !! n = rows s !! n) →
  (∀ c, c ∈ cs → local_step self c (rows s !! target c) = Some (rows s' !! target c)) →
  (rows s' !! n = rows s !! n ∧ ∀ c, c ∈ cs → target c ≠ n) ∨
  ∃ c, c ∈ cs ∧ target c = n ∧ local_step self c (rows s !! n) = Some (rows s' !! n).
Proof.
  intros Hnd Hframe Heff. destruct (decide (n ∈ target <$> cs)) as [Hn|Hn].
  - apply list_elem_of_fmap in Hn as (c & -> & Hc). right. exists c. auto.
  - left. split; [auto|]. intros c Hc <-. apply Hn. by apply list_elem_of_fmap_2.
Qed.

Lemma run_locals_coherent self cs s :
  coherent self s → NoDup (target <$> cs) →
  (∀ c, c ∈ cs → well_addressed c) →
  (∀ c, c ∈ cs → local_step self c (rows s !! target c) ≠ None) →
  ∃ s', run_plan cs s = (s', None) ∧ coherent self s' ∧ f_address s' = f_address s ∧
    (∀ n, n ∉ target <$> cs → rows s' !! n = rows s !! n) ∧
    (∀ c, c ∈ cs → local_step self c (rows s !! target c) = Some (rows s' !! target c)) ∧
    (∀ n i', rows s' !! n = Some i' → IsMain i' = true →
       (DemoteInstance n ∉ cs) ∧ ∃ i, rows s !! n = Some i ∧ IsMain i = true).
Proof.
  intros Hc Hnd Haddr Hok.
  assert (∀ i, RegisterInstance i ∈ cs → d_Name i ≠ self) as Hreg.
  { intros i Hi%Haddr E. simpl in Hi. rewrite E in Hi.
    by rewrite (selfName_prefix _ _ (session_self _ _ (coherent_session _ _ Hc))) in Hi. }
  destruct (run_locals self cs s (coherent_session _ _ Hc) Hnd Hok) as (s' & Hrun & Hs' & Ha & Hframe & Heff).
  assert (∀ n i', rows s' !! n = Some i' → ((IsLeader i' = true) ↔ n = self) ∧
    (IsMain i' = true → (DemoteInstance n ∉ cs) ∧ ∃ i, rows s !! n = Some i ∧ IsMain i = true)) as Hrow.
  { intros n i' Hi'. destruct (run_locals_row self cs s s' n Hnd Hframe Heff) as [[E Hn]|(c & Hcs & <- & Hstep)].
    - rewrite E in Hi'. split; [by apply (coherent_leader _ _ Hc _ _ Hi')|]. intros Hm. split; [|by eauto].
      intros Hd. by apply Hn in Hd.
    - rewrite Hi' in Hstep. pose proof (local_step_row _ _ _ _ Hstep) as Hr.
      specialize (Hr (λ i E, Hreg i (eq_ind _ (λ c, c ∈ cs) Hcs _ E))).
      destruct (rows s !! target c) as [i|] eqn:Hi; [|destruct Hr as [Hr1 Hr2]; split; [done|]; congruence].
      destruct Hr as [[Hrole Hnd']|((n & ->) & Hm & Hrole)].
      + pose proof (coherent_leader _ _ Hc _ _ Hi) as HL. unfold IsLeader, IsMain in *. rewrite Hrole.
        split; [done|]. intros Hm. split; [|by eauto]. intros Hd.
        destruct (Hnd' (target c)). eapply (NoDup_fmap_unique target); eauto.
      + unfold IsMain, IsLeader. rewrite Hrole. split; [|done]. split; [done|]. intros Hself.
        apply (coherent_leader _ _ Hc _ _ Hi) in Hself. by destruct (leader_not_main i). }
  exists s'. split_and!; auto.
  - split; [done|intros; by apply Hrow| |].
    + intros n m i j Hi Hj Hmi Hmj.
      apply Hrow in Hi as [_ Hi], Hj as [_ Hj]. destruct (Hi Hmi) as (_ & i0 & ? & ?), (Hj Hmj) as (_ & j0 & ? & ?).
      by eapply (coherent_main _ _ Hc).
    + intros n i' Hi' Hp. split.
      { destruct (IsMain i') eqn:Hm; [|done]. destruct (Hrow _ _ Hi') as [_ H].
        destruct (H Hm) as (_ & i & Hi & Hmi).
        destruct (coherent_coordinator _ _ Hc _ _ Hi Hp). congruence. }
      destruct (run_locals_row self cs s s' n Hnd Hframe Heff) as [[E _]|(c & Hcs & <- & Hstep)].
      { rewrite E in Hi'. by apply (coherent_coordinator _ _ Hc _ _ Hi'). }
      rewrite Hi' in Hstep. apply local_step_address in Hstep as [?|(i & Hi & ->)]; [done| |by apply Haddr|done].
      by apply (coherent_coordinator _ _ Hc _ _ Hi).
  - intros n i' Hi' Hm. destruct (Hrow _ _ Hi') as [_ H]. by apply H.
Qed.

(** ** Lemmas: the phases of a pass *)

Section pass.
Context (d : Topology) (self : string) (s : fakeClient) (observed : list Instance) (lag : list ReplicationLag).
Context (Hwf : wf_topology d) (Hnames : data_names_apart d).
Context (Hc : coherent self s) (Hv : ShowInstances s = inl observed).

Lemma self_prefix : HasPrefix self coordinatorNamePrefix = true.
Proof. eapply selfName_prefix, session_self, coherent_session, Hc. Qed.

Lemma data_ne_self i : i ∈ DataInstances d ++ t_RetiringDataInstances d → d_Name i ≠ self.
Proof. intros Hi E. apply Hnames in Hi. rewrite E, self_prefix in Hi. done. Qed.

Lemma data_ne_coordinator i c : i ∈ DataInstances d ++ t_RetiringDataInstances d → d_Name i ≠ c_Name c.
Proof. intros Hi E. apply Hnames in Hi. rewrite E, c_Name_prefix in Hi. done. Qed.

(** A row of the view other than the leader's stand-in is a row of the cluster. *)
Lemma view_row_of n i : index observed !! n = Some i → i_BoltServer i ≠ "" ∨ n ≠ self → rows s !! n = Some i.
Proof.
  rewrite (view_index self s observed Hc Hv). destruct (rows s !! n); [done|]. case_decide; [|done].
  intros [= <-] [[]|[]]; done.
Qed.

Lemma is_registered_row n : n ≠ self → is_registered (index observed) n = bool_decide (is_Some (rows s !! n)).
Proof.
  intros Hn. unfold is_registered. rewrite (view_index self s observed Hc Hv).
  destruct (rows s !! n); [done|]. by rewrite decide_False.
Qed.

Lemma bolt_differs_row n bolt :
  bolt_differs (index observed) n bolt = true → ∃ i, rows s !! n = Some i ∧ i_BoltServer i ≠ "" ∧ i_BoltServer i ≠ bolt.
Proof.
  unfold bolt_differs. destruct (index observed !! n) as [i|] eqn:E; [|done].
  rewrite andb_true_iff, !negb_true_iff, !bool_decide_eq_false. intros [H1 H2]. exists i. split; [|done].
  apply view_row_of; auto.
Qed.

(** The phases of the plan: the head adds, registers, re-announces and demotes; the tail
    unregisters and removes. *)
Definition head : list Command := plan_head d observed ++ demotion d observed lag.
Definition tail : list Command := unregistrations d observed lag ++ removals d observed.

Lemma elem_of_head c :
  c ∈ head ↔ in_plan d observed lag c ∧
    match c with
    | AddCoordinator _ | RegisterInstance _ | UpdateCoordinatorBoltServer _ | UpdateInstanceBoltServer _
    | DemoteInstance _ => True
    | _ => False
    end.
Proof.
  unfold head, plan_head. rewrite !elem_of_app, (elem_of_additions _ _ lag), (elem_of_registrations _ _ lag),
    (elem_of_boltServerUpdates _ _ lag), elem_of_demotion.
  destruct c; naive_solver.
Qed.

Lemma elem_of_tail c :
  c ∈ tail ↔ in_plan d observed lag c ∧
    match c with UnregisterInstance _ | RemoveCoordinator _ => True | _ => False end.
Proof.
  unfold tail. rewrite elem_of_app, elem_of_unregistrations, (elem_of_removals _ _ lag).
  destruct c; naive_solver.
Qed.

(** The MAIN a plan demotes: registered, and no coordinator. *)
Lemma demoted_main n :
  handover d observed lag = true → n = retiringMain d observed →
  n ∈ retiringNames d ∧ n ≠ self ∧ ∃ i, rows s !! n = Some i ∧ IsMain i = true.
Proof.
  intros [Hne _]%handover_true ->.
  apply retiringMain_ne_iff, (view_retiring_main self s observed Hc Hv) in Hne as [Hn Hm]; [|done].
  split_and!; auto. apply elem_of_retiringNames in Hn as (i & Hi & <-). apply data_ne_self. set_solver.
Qed.

Lemma head_enabled c : c ∈ head → local_step self c (rows s !! target c) ≠ None.
Proof.
  intros [Hp Hk]%elem_of_head. destruct c; try done; simpl in *.
  - destruct Hp as [Hc' Hreg]. destruct (rows s !! _) as [i|] eqn:E; [|done].
    case_decide as Hb; [done|]. unfold coordinatorRegistered in Hreg.
    rewrite (view_index self s observed Hc Hv), E, bool_decide_eq_false_2 in Hreg by done. done.
  - destruct Hp as [Hi Hreg]. rewrite is_registered_row in Hreg by (apply data_ne_self; set_solver).
    apply bool_decide_eq_false, eq_None_not_Some in Hreg. by rewrite Hreg.
  - destruct Hp as [Hi (i & -> & Hne & _)%bolt_differs_row]. by rewrite decide_False.
  - destruct Hp as [Hi (j & -> & Hne & _)%bolt_differs_row]. done.
  - destruct Hp as [Hh ->]. destruct (demoted_main _ Hh eq_refl) as (_ & _ & i & -> & ->). done.
Qed.

(** What a head command is, by the member it is about. *)
Definition for_coordinator (k : CoordinatorSpec) : Command :=
  if coordinatorRegistered (index observed) k then UpdateCoordinatorBoltServer k else AddCoordinator k.
Definition for_instance (i : DataInstanceSpec) : Command :=
  if is_registered (index observed) (d_Name i) then UpdateInstanceBoltServer i else RegisterInstance i.

Lemma head_kind c :
  c ∈ head →
  (∃ k, k ∈ Coordinators d ∧ c = for_coordinator k) ∨ (∃ i, i ∈ DataInstances d ∧ c = for_instance i) ∨
  (c = DemoteInstance (retiringMain d observed) ∧ retiringMain d observed ∈ retiringNames d).
Proof.
  unfold for_coordinator, for_instance.
  intros [Hp Hk]%elem_of_head. destruct c; try done; simpl in *.
  - destruct Hp as [? E]. left. eexists. by rewrite E.
  - destruct Hp as [? E]. right; left. eexists. by rewrite E.
  - destruct Hp as [? (i & Hi & Hb & _)%bolt_differs_row]. left. eexists. split; [done|].
    unfold coordinatorRegistered. by rewrite (view_index self s observed Hc Hv), Hi, bool_decide_eq_false_2.
  - destruct Hp as [? (j & Hj & _)%bolt_differs_row]. right; left. eexists. split; [done|].
    unfold is_registered. by rewrite (view_index self s observed Hc Hv), Hj, bool_decide_eq_true_2 by eauto.
  - right; right. destruct Hp as [Hh ->]. split; [done|]. by eapply demoted_main.
Qed.

Lemma for_coordinator_target k : target (for_coordinator k) = c_Name k.
Proof. unfold for_coordinator. by destruct (coordinatorRegistered _ _). Qed.
Lemma for_instance_target i : target (for_instance i) = d_Name i.
Proof. unfold for_instance. by destruct (is_registered _ _). Qed.

(** Two commands of a phase never share a row. *)
Lemma head_targets c c' : c ∈ head → c' ∈ head → target c = target c' → c = c'.
Proof.
  assert (∀ i, i ∈ DataInstances d → d_Name i ∉ retiringNames d) as Hstay.
  { intros i Hi. apply declared_not_retiring; [done|]. by apply list_elem_of_fmap_2. }
  assert (∀ k, c_Name k ∉ retiringNames d) as Hcoord.
  { intros k (i & Hi & E)%elem_of_retiringNames. revert E. apply data_ne_coordinator. set_solver. }
  intros [(k & Hk & ->)|[(i & Hi & ->)|[-> Hr]]]%head_kind [(l & Hl & ->)|[(j & Hj & ->)|[-> Hr']]]%head_kind;
    rewrite ?for_coordinator_target, ?for_instance_target; simpl; intros E.
  - f_equal. eapply coordinator_unique; set_solver.
  - symmetry in E. by apply data_ne_coordinator in E; [|set_solver].
  - rewrite <- E in Hr'. by apply Hcoord in Hr'.
  - by apply data_ne_coordinator in E; [|set_solver].
  - f_equal. eapply data_unique; set_solver.
  - rewrite <- E in Hr'. by apply Hstay in Hr'.
  - rewrite E in Hr. by apply Hcoord in Hr.
  - rewrite E in Hr. by apply Hstay in Hr.
  - done.
Qed.

Lemma comprehension_NoDup {A} (f : A → Command) (g : A → bool) (l : list A) :
  (∀ x y, f x = f y → x = y) → NoDup l → NoDup (f <$> List.filter g l).
Proof. intros Hf Hl. apply NoDup_fmap_2_strong; [intros; by apply Hf|by apply NoDup_bfilter]. Qed.

Lemma head_NoDup : NoDup (target <$> head).
Proof.
  apply NoDup_fmap_2_strong; [intros; by apply head_targets|].
  destruct (proj1 (NoDup_app _ _) (coordinators_NoDup d Hwf)) as (Hcs & _ & _).
  destruct (proj1 (NoDup_app _ _) (data_NoDup d Hwf)) as (His & _ & _).
  assert (∀ l k, NoDup l → NoDup k → (∀ c : Command, c ∈ l → c ∈ k → False) → NoDup (l ++ k)) as Happ.
  { intros l k Hl Hk Hd. apply NoDup_app. split; [done|]. split; [|done]. intros c ??. by eapply Hd. }
  unfold head, plan_head, boltServerUpdates, additions, registrations.
  repeat apply Happ; try (apply comprehension_NoDup; [congruence|done]).
  all: try (unfold demotion; destruct (handover _ _ _); [apply NoDup_singleton|constructor]).
  all: intros c; unfold demotion; rewrite ?elem_of_app, ?elem_of_comprehension, ?elem_of_if_singleton; naive_solver.
Qed.

(** *** After the head: every declared member is registered where it is declared *)

Record after_head (s1 : fakeClient) : Prop := {
  after_head_coherent : coherent self s1;
  after_head_address : f_address s1 = f_address s;
  after_head_frame : ∀ n, n ∉ target <$> head → rows s1 !! n = rows s !! n;
  after_head_effect : ∀ c, c ∈ head → local_step self c (rows s !! target c) = Some (rows s1 !! target c);
  after_head_mains : ∀ n i', rows s1 !! n = Some i' → IsMain i' = true →
    (DemoteInstance n ∉ head) ∧ ∃ i, rows s !! n = Some i ∧ IsMain i = true
}.

Lemma run_head : ∃ s1, run_plan head s = (s1, None) ∧ after_head s1.
Proof.
  destruct (run_locals_coherent self head s Hc head_NoDup) as (s1 & ? & ? & ? & ? & ? & ?).
  - intros c [Hp _]%elem_of_head. destruct c; simpl in *; try done.
    + apply (wf_coordinator_bolt _ Hwf). tauto.
    + apply Hnames. set_solver.
    + apply (wf_coordinator_bolt _ Hwf). tauto.
    + apply Hnames. set_solver.
  - apply head_enabled.
  - exists s1. split; [done|]. by split.
Qed.

Lemma row_ne_frame s1 n :
  after_head s1 → (∀ c, c ∈ head → target c ≠ n) → rows s1 !! n = rows s !! n.
Proof.
  intros H1 Hn. apply (after_head_frame _ H1). intros (c & -> & Hin)%list_elem_of_fmap. by apply (Hn c).
Qed.

Lemma head_coordinator k c : k ∈ Coordinators d → c ∈ head → target c = c_Name k → c = for_coordinator k.
Proof.
  intros Hk Hin. apply head_kind in Hin as [(l & Hl & ->)|[(j & Hj & ->)|[-> Hr]]];
    rewrite ?for_coordinator_target, ?for_instance_target; simpl; intros E.
  - f_equal. eapply coordinator_unique; set_solver.
  - by apply data_ne_coordinator in E; [|set_solver].
  - apply elem_of_retiringNames in Hr as (i & Hi & Hn). rewrite E in Hn.
    by apply data_ne_coordinator in Hn; [|set_solver].
Qed.

Lemma head_instance i c : i ∈ DataInstances d → c ∈ head → target c = d_Name i → c = for_instance i.
Proof.
  intros Hi Hin. apply head_kind in Hin as [(l & Hl & ->)|[(j & Hj & ->)|[-> Hr]]];
    rewrite ?for_coordinator_target, ?for_instance_target; simpl; intros E.
  - symmetry in E. by apply data_ne_coordinator in E; [|set_solver].
  - f_equal. eapply data_unique; set_solver.
  - rewrite E in Hr. exfalso. revert Hr. apply declared_not_retiring; [done|]. by apply list_elem_of_fmap_2.
Qed.

Lemma declared_coordinator_row s1 k :
  after_head s1 → k ∈ Coordinators d →
  ∃ row, rows s1 !! c_Name k = Some row ∧ i_BoltServer row = c_BoltServer k.
Proof.
  intros H1 Hk. destruct (coordinatorRegistered (index observed) k) eqn:Hreg.
  - pose proof Hreg as (row & Hrow & Hb)%coordinatorRegistered_spec.
    destruct (bolt_differs (index observed) (c_Name k) (c_BoltServer k)) eqn:Hd.
    + assert (UpdateCoordinatorBoltServer k ∈ head) as Hin by by apply elem_of_head.
      apply (after_head_effect _ H1) in Hin. simpl in Hin.
      destruct (rows s !! c_Name k) as [i|]; [|done]. case_decide; [done|]. injection Hin as <-. by eexists.
    + rewrite (row_ne_frame s1); [|done|].
      * exists row. split; [by apply view_row_of; auto|].
        apply (bolt_differs_false _ _ _ _ Hrow) in Hd as [?|?]; done.
      * intros c Hin E. pose proof (head_coordinator k c Hk Hin E) as ->. unfold for_coordinator in Hin.
        rewrite Hreg in Hin. apply elem_of_head in Hin as [[_ ?] _]. congruence.
  - assert (AddCoordinator k ∈ head) as Hin by by apply elem_of_head.
    apply (after_head_effect _ H1) in Hin. simpl in Hin.
    destruct (rows s !! c_Name k) as [i|]; [case_decide; [|done]|]; injection Hin as <-; by eexists.
Qed.

Lemma declared_instance_row s1 i :
  after_head s1 → i ∈ DataInstances d →
  ∃ row, rows s1 !! d_Name i = Some row ∧ (i_BoltServer row = "" ∨ i_BoltServer row = d_BoltServer i).
Proof.
  intros H1 Hi. destruct (is_registered (index observed) (d_Name i)) eqn:Hreg.
  - pose proof Hreg as Hrow. unfold is_registered in Hrow. apply bool_decide_eq_true in Hrow as [row Hrow].
    assert (rows s !! d_Name i = Some row) as Hs.
    { apply view_row_of; [done|]. right. apply data_ne_self. set_solver. }
    destruct (bolt_differs (index observed) (d_Name i) (d_BoltServer i)) eqn:Hd.
    + assert (UpdateInstanceBoltServer i ∈ head) as Hin by by apply elem_of_head.
      apply (after_head_effect _ H1) in Hin. simpl in Hin. rewrite Hs in Hin. injection Hin as <-.
      eexists. split; [done|]. by right.
    + exists row. rewrite (row_ne_frame s1); [split; [done|]; by apply (bolt_differs_false _ _ _ _ Hrow)|done|].
      intros c Hin E. pose proof (head_instance i c Hi Hin E) as ->. unfold for_instance in Hin.
      rewrite Hreg in Hin. apply elem_of_head in Hin as [[_ ?] _]. congruence.
  - assert (RegisterInstance i ∈ head) as Hin by by apply elem_of_head.
    apply (after_head_effect _ H1) in Hin. simpl in Hin.
    destruct (rows s !! d_Name i) as [j|]; [done|]. injection Hin as <-. eexists. split; [done|]. by right.
Qed.

(** *** The promotion *)

Lemma main_is_retiring n i :
  rows s !! n = Some i → IsMain i = true → n ∈ retiringNames d → retiringMain d observed = n.
Proof.
  intros Hi Hm Hn. apply retiringMain_eq; [done|by eapply view_single|].
  apply (view_retiring_main self s observed Hc Hv). eauto.
Qed.

Lemma main_is_staying n i :
  rows s !! n = Some i → IsMain i = true → n ∉ retiringNames d → hasMain d observed = true.
Proof.
  intros Hi Hm Hn. apply hasMain_spec. destruct (row_in_view self s observed Hc Hv n i Hi) as [Hin Hname].
  exists i. rewrite Hname. split_and!; auto.
Qed.

Lemma demotion_in_head :
  handover d observed lag = true → DemoteInstance (retiringMain d observed) ∈ head.
Proof. intros Hh. by apply elem_of_head. Qed.

Lemma no_main_after_head s1 :
  after_head s1 → hasMain d observed = false →
  (handover d observed lag = true ∨ retiringMain d observed = "") →
  ∀ n j, rows s1 !! n = Some j → IsMain j = false.
Proof.
  intros H1 Hno Hcase n j Hj. destruct (IsMain j) eqn:Hm; [|done].
  destruct (after_head_mains _ H1 _ _ Hj Hm) as (Hnd & i & Hi & Hmi).
  destruct (decide (n ∈ retiringNames d)) as [Hr|Hr];
    [|by pose proof (main_is_staying _ _ Hi Hmi Hr); congruence].
  pose proof (main_is_retiring _ _ Hi Hmi Hr) as Hn. destruct Hcase as [Hh|He].
  - destruct Hnd. rewrite <- Hn. by apply demotion_in_head.
  - rewrite He in Hn. subst n. by destruct (wf_retiring_ne d Hwf).
Qed.

(** The promotion leaves one declared instance MAIN, or nothing changed. *)
Definition promoted (s1 s2 : fakeClient) : Prop :=
  (promotion d observed lag = [] ∧ s2 = s1) ∨
  ∃ i row, i ∈ DataInstances d ∧ rows s1 !! d_Name i = Some row ∧
           rows s2 = <[d_Name i := with_Role RoleMain row]> (rows s1).

Lemma run_promotion s1 :
  after_head s1 →
  ∃ s2, run_plan (promotion d observed lag) s1 = (s2, None) ∧ coherent self s2 ∧
        f_address s2 = f_address s ∧ promoted s1 s2.
Proof.
  intros H1. destruct (promotion d observed lag) as [|c cs] eqn:Hp.
  { exists s1. split_and!; [done|apply H1|apply H1|by left]. }
  assert (∃ n candidates restore, promotion d observed lag = [SetInstanceToMain (n :: candidates) restore] ∧
    n ∈ d_Name <$> DataInstances d ∧ hasMain d observed = false ∧
    (handover d observed lag = true ∨ retiringMain d observed = "")) as (n & cands & restore & Hprom & Hn & Hno & Hcase).
  { unfold promotion in *. destruct (handover d observed lag) eqn:Hh; simpl in *.
    - destruct (hasMain d observed) eqn:Hm; simpl in *.
      { apply handover_true in Hh as [Hne _]. by rewrite bool_decide_eq_false_2 in Hp. }
      pose proof Hh as [_ Hs]%handover_true. destruct (successors d observed lag) as [|n ns] eqn:Es; [done|].
      exists n, ns, (retiringMain d observed). split_and!; auto.
      eapply elem_of_successors. rewrite Es. left.
    - case_bool_decide as He; [|done]. destruct (hasMain d observed); [done|]. simpl in *.
      destruct (promotionTarget_Some d (registered observed)) as (t & Ht & Hin).
      { by destruct (DataInstances d). }
      rewrite Ht in *. exists t, [], "". split_and!; auto. by destruct (0 <? _). }
  rewrite <- Hp, Hprom. apply list_elem_of_fmap in Hn as (i & -> & Hi).
  destruct (declared_instance_row s1 i H1 Hi) as (row & Hrow & _).
  pose proof (no_main_after_head s1 H1 Hno Hcase) as Hmains.
  destruct (promote_run self s1 (d_Name i) row cands restore) as (s2 & Hrun & Hs2 & Ha & Hrows);
    [apply coherent_session, H1|done|done|].
  exists s2. split_and!; [by simpl in *; rewrite Hrun| |rewrite Ha; apply H1|right; eauto].
  assert (d_Name i ≠ self) as Hne by (apply data_ne_self; set_solver). split; [done| | |].
  - intros n j. rewrite Hrows. destruct (decide (n = d_Name i)) as [->|?].
    + rewrite lookup_insert_eq. intros [= <-]. done.
    + rewrite lookup_insert_ne by done. apply (coherent_leader _ _ (after_head_coherent _ H1)).
  - intros n m j k. rewrite Hrows.
    destruct (decide (n = d_Name i)) as [->|?], (decide (m = d_Name i)) as [->|?];
      rewrite ?lookup_insert_eq, ?lookup_insert_ne by done; try done; intros Hj Hk Hmj Hmk.
    + by rewrite (Hmains _ _ Hk) in Hmk.
    + by rewrite (Hmains _ _ Hj) in Hmj.
    + by rewrite (Hmains _ _ Hj) in Hmj.
  - intros n j Hj Hpre. rewrite Hrows, lookup_insert_ne in Hj.
    + by apply (coherent_coordinator _ _ (after_head_coherent _ H1) _ _ Hj).
    + intros <-. rewrite Hnames in Hpre; [done|set_solver].
Qed.

(** *** The tail *)

(** The promotion leaves the rows of everyone but the declared instances. *)
Lemma promoted_frame s1 s2 n :
  promoted s1 s2 → (∀ i, i ∈ DataInstances d → d_Name i ≠ n) → rows s2 !! n = rows s1 !! n.
Proof.
  intros [[_ ->]|(i & row & Hi & _ & ->)] Hn; [done|]. rewrite lookup_insert_ne; [done|]. by apply Hn.
Qed.

Lemma retiring_ne_declared n i : n ∈ retiringNames d → i ∈ DataInstances d → d_Name i ≠ n.
Proof.
  intros Hn Hi <-. revert Hn. apply declared_not_retiring; [done|]. by apply list_elem_of_fmap_2.
Qed.

(** A retiring instance keeps its row up to the tail, demoted when it was MAIN and its role
    is handed over. *)
Lemma retiring_instance_row s1 n i :
  after_head s1 → n ∈ retiringNames d → rows s !! n = Some i →
  (n = retiringMain d observed → handover d observed lag = true) →
  ∃ j, rows s1 !! n = Some j ∧ IsMain j = false.
Proof.
  intros H1 Hn Hi Hmain. destruct (handover d observed lag && bool_decide (n = retiringMain d observed)) eqn:Hd.
  - apply andb_true_iff in Hd as [Hh ->%bool_decide_eq_true]. pose proof (demotion_in_head Hh) as Hin.
    apply (after_head_effect _ H1) in Hin. simpl in Hin. rewrite Hi in Hin.
    destruct (IsMain i); [|done]. injection Hin as <-. eauto.
  - rewrite (row_ne_frame s1 n H1).
    + exists i. split; [done|]. destruct (IsMain i) eqn:Hm; [|done].
      pose proof (main_is_retiring _ _ Hi Hm Hn) as Hr. rewrite Hmain, bool_decide_eq_true_2 in Hd by done. done.
    + intros c Hin E. pose proof Hin as [(l & Hl & ->)|[(j & Hj & ->)|[-> Hr]]]%head_kind.
      * rewrite for_coordinator_target in E. apply elem_of_retiringNames in Hn as (r & Hr & <-).
        symmetry in E. by apply data_ne_coordinator in E; [|set_solver].
      * rewrite for_instance_target in E. by apply (retiring_ne_declared n j).
      * simpl in E. apply elem_of_head in Hin as [[Hh _] _]. by rewrite Hh, bool_decide_eq_true_2 in Hd.
Qed.

Lemma retiring_coordinator_row s1 s2 k :
  after_head s1 → promoted s1 s2 → k ∈ t_RetiringCoordinators d → rows s2 !! c_Name k = rows s !! c_Name k.
Proof.
  intros H1 H2 Hk. rewrite (promoted_frame s1 s2 _ H2).
  - apply row_ne_frame; [done|]. intros c [(l & Hl & ->)|[(j & Hj & ->)|[-> Hr]]]%head_kind;
      rewrite ?for_coordinator_target, ?for_instance_target; simpl; intros E.
    + assert (l = k) as -> by (eapply coordinator_unique; set_solver).
      pose proof (coordinators_NoDup d Hwf) as (_ & Hnd & _)%NoDup_app. by apply (Hnd k).
    + by apply data_ne_coordinator in E; [|set_solver].
    + apply elem_of_retiringNames in Hr as (i & Hi & Hn). rewrite E in Hn.
      by apply data_ne_coordinator in Hn; [|set_solver].
  - intros i Hi. apply data_ne_coordinator. set_solver.
Qed.

Lemma tail_enabled s1 s2 c :
  after_head s1 → promoted s1 s2 → coherent self s2 → c ∈ tail → local_step self c (rows s2 !! target c) ≠ None.
Proof.
  intros H1 H2 Hc2 [Hp Hk]%elem_of_tail. destruct c; try done; simpl in *.
  - destruct Hp as (i & Hi & <- & Hreg & Hmain).
    assert (d_Name i ∈ retiringNames d) as Hn by (apply elem_of_retiringNames; eauto).
    rewrite is_registered_row in Hreg by (apply data_ne_self; set_solver).
    apply bool_decide_eq_true in Hreg as [row Hrow].
    destruct (retiring_instance_row s1 _ row H1 Hn Hrow Hmain) as (j & Hj & Hmj).
    rewrite (promoted_frame s1 s2 _ H2) by (intros; by apply retiring_ne_declared). by rewrite Hj, Hmj.
  - destruct Hp as (Hk' & Hl & Hreg). rewrite (retiring_coordinator_row s1 s2) by done.
    apply coordinatorRegistered_spec in Hreg as (row & Hrow & Hb).
    assert (rows s !! c_Name c = Some row) as Hrow' by (apply view_row_of; auto). rewrite Hrow'.
    rewrite (view_leader self s observed Hc Hv) in Hl. destruct (IsLeader row) eqn:HL; [|done].
    by apply (coherent_leader _ _ Hc _ _ Hrow') in HL.
Qed.

Lemma tail_NoDup : NoDup (target <$> tail).
Proof.
  apply NoDup_fmap_2_strong.
  - intros c c' [Hp Hk]%elem_of_tail [Hp' Hk']%elem_of_tail E. destruct c, c'; try done; simpl in *.
    + by subst.
    + destruct Hp as (i & Hi & <- & _). by apply data_ne_coordinator in E; [|set_solver].
    + destruct Hp' as (i & Hi & <- & _). symmetry in E. by apply data_ne_coordinator in E; [|set_solver].
    + f_equal. eapply coordinator_unique; set_solver.
  - destruct (proj1 (NoDup_app _ _) (coordinators_NoDup d Hwf)) as (_ & _ & Hcs).
    pose proof (data_NoDup d Hwf) as (_ & _ & His)%NoDup_app. apply NoDup_app. split_and!.
    + unfold unregistrations. apply NoDup_fmap_2_strong; [|by apply NoDup_bfilter].
      intros x y [Hx _]%elem_of_bfilter [Hy _]%elem_of_bfilter [= E]. eapply data_unique; set_solver.
    + intros c (n & -> & _)%elem_of_unregistrations (k & ? & _)%(elem_of_removals _ _ lag). done.
    + by apply comprehension_NoDup; [intros ?? [= ?]|].
Qed.

Lemma run_tail s1 s2 :
  after_head s1 → promoted s1 s2 → coherent self s2 →
  ∃ s3, run_plan tail s2 = (s3, None) ∧ coherent self s3 ∧ f_address s3 = f_address s2 ∧
    (∀ n, n ∉ target <$> tail → rows s3 !! n = rows s2 !! n) ∧
    (∀ c, c ∈ tail → rows s3 !! target c = None).
Proof.
  intros H1 H2 Hc2.
  destruct (run_locals_coherent self tail s2 Hc2 tail_NoDup) as (s3 & ? & ? & ? & ? & Heff & _).
  - intros c [_ ?]%elem_of_tail. by destruct c.
  - intros c Hin. by apply (tail_enabled s1).
  - exists s3. split_and!; auto. intros c Hin. specialize (Heff c Hin).
    apply elem_of_tail in Hin as [_ Hk]. destruct c; try done; simpl in *;
      destruct (rows s2 !! _) as [i|]; try done; [destruct (IsMain i)|destruct (IsLeader i)]; congruence.
Qed.

(** *** The pass as a whole *)

(** What a pass leaves of the rows. *)
Record pass_result (r : gmap string Instance) : Prop := {
  result_coordinators : ∀ k, k ∈ Coordinators d →
    ∃ row, r !! c_Name k = Some row ∧ i_BoltServer row = c_BoltServer k;
  result_instances : ∀ i, i ∈ DataInstances d →
    ∃ row, r !! d_Name i = Some row ∧ (i_BoltServer row = "" ∨ i_BoltServer row = d_BoltServer i);
  result_retired_instances : ∀ i, i ∈ t_RetiringDataInstances d →
    (d_Name i = retiringMain d observed → handover d observed lag = true) → r !! d_Name i = None;
  result_retired_coordinators : ∀ k, k ∈ t_RetiringCoordinators d → c_Name k ≠ self → r !! c_Name k = None;
  result_main : DataInstances d ≠ [] →
    (retiringMain d observed ≠ "" → handover d observed lag = true) →
    ∃ n row, r !! n = Some row ∧ IsMain row = true ∧ n ∉ retiringNames d
}.

Lemma not_in_tail n :
  (∀ i, i ∈ t_RetiringDataInstances d → d_Name i ≠ n) →
  (∀ k, k ∈ t_RetiringCoordinators d → c_Name k ≠ n) → n ∉ target <$> tail.
Proof.
  intros Hd Hk (c & -> & [Hp Hkind]%elem_of_tail)%list_elem_of_fmap. destruct c; try done; simpl in *.
  - destruct Hp as (i & Hi & E & _). by apply (Hd i).
  - destruct Hp as (Hin & _). by apply (Hk c).
Qed.

Lemma coordinator_not_in_tail k : k ∈ Coordinators d → c_Name k ∉ target <$> tail.
Proof.
  intros Hk. apply not_in_tail.
  - intros i Hi. apply data_ne_coordinator. set_solver.
  - intros l Hl E. assert (l = k) as -> by (eapply coordinator_unique; set_solver).
    pose proof (coordinators_NoDup d Hwf) as (_ & Hnd & _)%NoDup_app. by apply (Hnd k).
Qed.

Lemma instance_not_in_tail n : n ∉ retiringNames d → HasPrefix n coordinatorNamePrefix = false → n ∉ target <$> tail.
Proof.
  intros Hn Hp. apply not_in_tail.
  - intros i Hi E. apply Hn. apply elem_of_retiringNames. eauto.
  - intros k _ <-. by rewrite c_Name_prefix in Hp.
Qed.

(** A MAIN that stays keeps its role through the head. *)
Lemma staying_main_row s1 n i :
  after_head s1 → rows s !! n = Some i → IsMain i = true → n ∉ retiringNames d →
  ∃ j, rows s1 !! n = Some j ∧ IsMain j = true.
Proof.
  intros H1 Hi Hm Hn.
  destruct (run_locals_row self head s s1 n head_NoDup (after_head_frame _ H1) (after_head_effect _ H1))
    as [[E _]|(c & Hin & Ht & Hstep)]; [rewrite E; eauto|].
  rewrite Hi in Hstep. destruct (rows s1 !! n) as [j|] eqn:Hj.
  - exists j. split; [done|]. apply local_step_row in Hstep.
    + destruct Hstep as [[Hrole _]|((m & ->) & _)]; [unfold IsMain in *; by rewrite Hrole|].
      apply head_kind in Hin as [(k & _ & E)|[(k & _ & E)|[E Hr]]].
      * unfold for_coordinator in E. by destruct (coordinatorRegistered _ _).
      * unfold for_instance in E. by destruct (is_registered _ _).
      * injection E as ->. simpl in Ht. by subst.
    + intros r ->. apply elem_of_head in Hin as [[Hr _] _]. apply data_ne_self. set_solver.
  - exfalso. destruct c; simpl in Hstep; try discriminate;
      repeat match type of Hstep with context [if ?b then _ else _] => destruct b end; try discriminate;
      by apply elem_of_head in Hin as [_ []].
Qed.

Lemma promotion_nonempty :
  hasMain d observed = false → DataInstances d ≠ [] →
  (retiringMain d observed ≠ "" → handover d observed lag = true) → promotion d observed lag ≠ [].
Proof.
  intros Hm Hd Hh. unfold promotion. rewrite Hm. destruct (handover d observed lag) eqn:E; simpl; [done|].
  destruct (decide (retiringMain d observed = "")) as [He|He]; [|by specialize (Hh He)].
  rewrite bool_decide_eq_true_2 by done. destruct (promotionTarget_Some d (registered observed) Hd) as (t & -> & _).
  by destruct (DataInstances d).
Qed.

Lemma tail_result s1 s2 s3 :
  after_head s1 → promoted s1 s2 →
  (∀ n, n ∉ target <$> tail → rows s3 !! n = rows s2 !! n) → (∀ c, c ∈ tail → rows s3 !! target c = None) →
  pass_result (rows s3).
Proof.
  intros H1 H2 Hframe Hgone.
  assert (∀ n row, rows s1 !! n = Some row → ∃ row', rows s2 !! n = Some row' ∧
    i_BoltServer row' = i_BoltServer row ∧ (IsMain row = true → IsMain row' = true)) as Hprom.
  { intros n row Hrow. destruct H2 as [[_ ->]|(i & r & Hi & Hr & ->)]; [eauto|].
    destruct (decide (n = d_Name i)) as [->|?]; [|rewrite lookup_insert_ne by done; eauto].
    rewrite lookup_insert_eq. simplify_eq. eauto. }
  assert (∀ i, i ∈ DataInstances d → d_Name i ∉ target <$> tail) as Hdata.
  { intros i Hi. apply instance_not_in_tail; [|apply Hnames; set_solver].
    apply declared_not_retiring; [done|]. by apply list_elem_of_fmap_2. }
  split.
  - intros k Hk. destruct (declared_coordinator_row s1 k H1 Hk) as (row & Hrow & Hb).
    rewrite Hframe by by apply coordinator_not_in_tail. rewrite (promoted_frame s1 s2 _ H2); [eauto|].
    intros i Hi. apply data_ne_coordinator. set_solver.
  - intros i Hi. destruct (declared_instance_row s1 i H1 Hi) as (row & Hrow & Hb).
    rewrite Hframe by by apply Hdata. apply Hprom in Hrow as (row' & Hr & E & _).
    exists row'. by rewrite E.
  - intros i Hi Hmain. destruct (is_registered (index observed) (d_Name i)) eqn:Hreg.
    + apply (Hgone (UnregisterInstance (d_Name i))). apply elem_of_tail. split; [|done]. simpl. eauto.
    + assert (d_Name i ∈ retiringNames d) as Hn by (apply elem_of_retiringNames; eauto).
      destruct (decide (d_Name i ∈ target <$> tail)) as [Hin|Hin].
      * apply list_elem_of_fmap in Hin as (c & -> & Hin). by apply Hgone.
      * rewrite Hframe, (promoted_frame s1 s2 _ H2) by (try done; intros; by apply retiring_ne_declared).
        rewrite is_registered_row in Hreg by (apply data_ne_self; set_solver).
        apply bool_decide_eq_false, eq_None_not_Some in Hreg. rewrite (row_ne_frame s1 _ H1); [done|].
        intros c Hc' E. pose proof (head_enabled c Hc') as Hen. rewrite E, Hreg in Hen.
        apply head_kind in Hc' as [(l & Hl & ->)|[(j & Hj & ->)|[-> _]]]; [| |done].
        -- rewrite for_coordinator_target in E. symmetry in E. by apply data_ne_coordinator in E; [|set_solver].
        -- rewrite for_instance_target in E. by apply (retiring_ne_declared (d_Name i) j).
  - intros k Hk Hne. destruct (coordinatorRegistered (index observed) k) eqn:Hreg.
    + apply (Hgone (RemoveCoordinator k)). apply elem_of_tail. split; [|done]. simpl.
      by rewrite (view_leader self s observed Hc Hv).
    + destruct (decide (c_Name k ∈ target <$> tail)) as [Hin|Hin].
      * apply list_elem_of_fmap in Hin as (c & -> & Hin). by apply Hgone.
      * rewrite Hframe, (retiring_coordinator_row s1 s2) by done.
        destruct (rows s !! c_Name k) as [row|] eqn:Hrow; [|done].
        pose proof (coherent_coordinator _ _ Hc _ _ Hrow (c_Name_prefix k)) as [_ Hb].
        unfold coordinatorRegistered in Hreg. rewrite (view_index self s observed Hc Hv), Hrow in Hreg.
        by rewrite bool_decide_eq_false_2 in Hreg.
  - intros Hne Hh.
    assert (∃ n row, rows s2 !! n = Some row ∧ IsMain row = true ∧ (n ∉ retiringNames d) ∧
      HasPrefix n coordinatorNamePrefix = false) as (n & row & Hrow & Hm & Hn & Hp).
    { destruct (hasMain d observed) eqn:Hhas.
      - apply hasMain_spec in Hhas as (i & Hi & Him%Is_true_true & Hin).
        pose proof (view_main self s observed Hc Hv i Hi Him) as Hrow.
        destruct (staying_main_row s1 _ i H1 Hrow Him Hin) as (j & Hj & Hmj).
        apply Hprom in Hj as (j' & Hj' & _ & Hmj'). exists (i_Name i), j'. split_and!; auto.
        destruct (HasPrefix _ _) eqn:E; [|done].
        destruct (coherent_coordinator _ _ Hc _ _ Hrow E). congruence.
      - destruct H2 as [[E _]|(i & r & Hi & Hr & E)]; [by destruct (promotion_nonempty Hhas Hne Hh)|].
        exists (d_Name i), (with_Role RoleMain r). rewrite E, lookup_insert_eq. split_and!; try done.
        + apply declared_not_retiring; [done|]. by apply list_elem_of_fmap_2.
        + apply Hnames. set_solver. }
    exists n, row. rewrite Hframe by by apply instance_not_in_tail. done.
Qed.

Lemma Plan_phases :
  Plan d observed lag = head ++ promotion d observed lag ++ tail ++ yield d observed.
Proof. unfold Plan, head, plan_head, tail. by rewrite <- !app_assoc. Qed.

(** A retiring leader yields at the end; otherwise the tail is the end of the pass. *)
Lemma yield_cases :
  (yield d observed = [] ∧ self ∉ c_Name <$> t_RetiringCoordinators d) ∨
  (yield d observed = [YieldLeadership self] ∧ self ∈ c_Name <$> t_RetiringCoordinators d).
Proof.
  unfold yield, yieldFrom, leader. rewrite (view_leader self s observed Hc Hv).
  assert (self ≠ "") as Hne by (intros E; pose proof self_prefix as H; by rewrite E in H).
  destruct (existsb _ _) eqn:E.
  - right. rewrite decide_False by done. split; [done|].
    apply existsb_true_iff in E as (k & Hk & <-%bool_decide_eq_true). by apply list_elem_of_fmap_2.
  - left. split; [by rewrite decide_True|]. intros (k & -> & Hk)%list_elem_of_fmap.
    assert (existsb (λ c, bool_decide (c_Name c = c_Name k)) (t_RetiringCoordinators d) = true); [|congruence].
    apply existsb_true_iff. exists k. split; [done|]. by apply bool_decide_eq_true.
Qed.

Lemma run_pass :
  Coordinators d ≠ [] →
  ∃ s3 s4, run_plan (Plan d observed lag) s = (s4, None) ∧ coherent self s3 ∧ f_address s3 = f_address s ∧
    pass_result (rows s3) ∧
    (s4 = s3 ∧ (self ∉ c_Name <$> t_RetiringCoordinators d) ∨
     self ∈ c_Name <$> t_RetiringCoordinators d ∧ run_plan [YieldLeadership self] s3 = (s4, None)).
Proof.
  intros Hne. destruct run_head as (s1 & Hr1 & H1). destruct (run_promotion s1 H1) as (s2 & Hr2 & Hc2 & Ha2 & H2).
  destruct (run_tail s1 s2 H1 H2 Hc2) as (s3 & Hr3 & Hc3 & Ha3 & Hframe & Hgone).
  pose proof (tail_result s1 s2 s3 H1 H2 Hframe Hgone) as Hres.
  rewrite Plan_phases, (run_plan_app _ _ s s1 Hr1), (run_plan_app _ _ s1 s2 Hr2), (run_plan_app _ _ s2 s3 Hr3).
  exists s3. destruct yield_cases as [[-> Hself]|[-> Hself]].
  { exists s3. split_and!; auto. congruence. }
  destruct (Coordinators d) as [|k ks] eqn:Hk; [done|].
  assert (k ∈ Coordinators d) as Hin by (rewrite Hk; left).
  destruct (result_coordinators _ Hres k Hin) as (row & Hrow & _).
  destruct (yield_run self s3 self (c_Name k)) as (s4 & successor & i & Hrun & _);
    [apply Hc3|eauto|apply c_Name_prefix| |].
  { intros E. rewrite <- E in Hself. by eapply declared_coordinator_stays. }
  assert (run_plan [YieldLeadership self] s3 = (s4, None)) as Hy by (cbn [run_plan]; by rewrite Hrun).
  exists s4. rewrite Hy. split_and!; auto. congruence.
Qed.
End pass.

(** ** Lemmas: the next pass *)

(** A connection to another coordinator of the same cluster. *)
Definition reconnect (address : string) (s : fakeClient) : fakeClient :=
  mkFakeClient address (f_instances s) (f_rejected s) (f_executed s).

(** No retiring MAIN waits for a survivor. *)
Definition nothing_waits (d : Topology) (observed : list Instance) (lag : list ReplicationLag) : Prop :=
  ∀ n, ¬ waiting d observed lag n.

Lemma nothing_waits_handover d observed lag :
  wf_topology d → single_main observed → nothing_waits d observed lag →
  retiringMain d observed ≠ "" → handover d observed lag = true.
Proof.
  intros Hwf Hs Hn Hne. destruct (handover d observed lag) eqn:E; [done|].
  rewrite handover_false_iff in E by done. destruct (Hn (retiringMain d observed)).
  apply E. by apply retiringMain_ne_iff.
Qed.

Section next.
Context (d : Topology) (self : string) (observed : list Instance) (lag : list ReplicationLag) (r : gmap string Instance).
Context (Hwf : wf_topology d) (Hnames : data_names_apart d).
Context (Hres : pass_result d self observed lag r).
Context (Hh : retiringMain d observed ≠ "" → handover d observed lag = true).

Lemma retired_gone i : i ∈ t_RetiringDataInstances d → r !! d_Name i = None.
Proof.
  intros Hi. eapply result_retired_instances; [done|done|]. intros E. apply Hh. rewrite <- E.
  apply (wf_data_name_ne _ Hwf). set_solver.
Qed.

Lemma next_no_retiring_main self' s' observed' n :
  coherent self' s' → ShowInstances s' = inl observed' → rows s' = r → ¬ retiring_main d observed' n.
Proof.
  intros Hc' Hv' Hr Hm. apply (view_retiring_main self' s' observed' Hc' Hv') in Hm as [Hn (i & Hi & _)].
  apply elem_of_retiringNames in Hn as (j & Hj & <-). rewrite Hr, retired_gone in Hi; done.
Qed.

(** Once the leader is not retiring, the next plan is empty. *)
Lemma next_settled self' s' observed' lag' :
  coherent self' s' → ShowInstances s' = inl observed' → rows s' = r →
  (self' ∉ c_Name <$> t_RetiringCoordinators d) → (self ∉ c_Name <$> t_RetiringCoordinators d) →
  settled d observed' lag'.
Proof.
  intros Hc' Hv' Hr Hself' Hself.
  pose proof (λ n, view_index self' s' observed' Hc' Hv' n) as Hidx. rewrite Hr in Hidx.
  pose proof (λ n, next_no_retiring_main self' s' observed' n Hc' Hv' Hr) as Hno.
  assert (∀ k, k ∈ t_RetiringCoordinators d → r !! c_Name k = None) as Hgone.
  { intros k Hk. eapply result_retired_coordinators; [done|done|]. intros E. apply Hself. rewrite <- E.
    by apply list_elem_of_fmap_2. }
  split.
  - intros k Hk. destruct (result_coordinators _ _ _ _ _ Hres k Hk) as (row & Hrow & Hb).
    exists row. by rewrite Hidx, Hrow.
  - intros i Hi. destruct (result_instances _ _ _ _ _ Hres i Hi) as (row & Hrow & Hb).
    exists row. by rewrite Hidx, Hrow.
  - destruct (decide (DataInstances d = [])) as [?|Hne]; [by left|]. right; left.
    destruct (result_main _ _ _ _ _ Hres Hne Hh) as (n & row & Hrow & Hm & Hn).
    rewrite <- Hr in Hrow. destruct (row_in_view self' s' observed' Hc' Hv' n row Hrow) as [Hin <-].
    exists row. by split_and!; auto.
  - intros n Hm. by destruct (Hno n).
  - intros i Hi Hreg. exfalso. unfold is_registered in Hreg. rewrite Hidx, retired_gone in Hreg by done.
    rewrite decide_False in Hreg; [done|].
    intros E. pose proof (self_prefix self' s' Hc') as Hp. rewrite <- E, Hnames in Hp; [done|set_solver].
  - intros k Hk. rewrite (view_leader self' s' observed' Hc' Hv'). split.
    + intros E. apply Hself'. rewrite <- E. by apply list_elem_of_fmap_2.
    + unfold coordinatorRegistered. rewrite Hidx, Hgone by done. by case_decide.
Qed.

Lemma next_converged self' s' observed' :
  coherent self' s' → ShowInstances s' = inl observed' → rows s' = r →
  (self' ∉ c_Name <$> t_RetiringCoordinators d) → (self ∉ c_Name <$> t_RetiringCoordinators d) →
  Retired d observed' = true ∧ ∀ lag', Plan d observed' lag' = [].
Proof.
  intros Hc' Hv' Hr Hself' Hself.
  pose proof (λ lag', next_settled self' s' observed' lag' Hc' Hv' Hr Hself' Hself) as Hsettled.
  split; [|intros lag'; apply Plan_nil_settled_2; auto; by eapply view_single].
  unfold Retired. rewrite andb_true_iff, !forallb_true_iff. split.
  - intros i Hi. destruct (is_registered _ _) eqn:E; [|done]. exfalso.
    apply (settled_retired_instances _ _ _ (Hsettled [])) in E as [Hm _]; [|done].
    by apply (next_no_retiring_main self' s' observed' _ Hc' Hv' Hr) in Hm.
  - intros k Hk. by destruct (settled_retired_coordinators _ _ _ (Hsettled []) k Hk) as [_ ->].
Qed.
End next.

(** A change of roles among the coordinators' rows keeps what a pass has reached. *)
Lemma pass_result_roles d self observed lag r r' :
  pass_result d self observed lag r →
  (∀ n i, r !! n = Some i → ∃ j, r' !! n = Some j ∧ i_BoltServer j = i_BoltServer i ∧
     (IsMain i = true → IsMain j = true)) →
  (∀ n, r !! n = None → r' !! n = None) → pass_result d self observed lag r'.
Proof.
  intros [H1 H2 H3 H4 H5] Hsome Hnone. split; auto.
  - intros k Hk. destruct (H1 k Hk) as (row & Hrow & Hb). apply Hsome in Hrow as (j & -> & E & _).
    exists j. by rewrite E.
  - intros i Hi. destruct (H2 i Hi) as (row & Hrow & Hb). apply Hsome in Hrow as (j & -> & E & _).
    exists j. by rewrite E.
  - intros Hd Hh. destruct (H5 Hd Hh) as (n & row & Hrow & Hm & Hn). apply Hsome in Hrow as (j & ? & _ & Hj).
    exists n, j. auto.
Qed.

(** A yield moves leadership to another coordinator of the cluster, and changes nothing else. *)
Lemma yield_moves d self s s' observed lag n :
  coherent self s → pass_result d self observed lag (rows s) →
  is_Some (rows s !! n) → HasPrefix n coordinatorNamePrefix = true → n ≠ self →
  run_plan [YieldLeadership self] s = (s', None) →
  ∃ successor, (successor ∉ c_Name <$> t_RetiringCoordinators d) ∧ pass_result d self observed lag (rows s') ∧
    is_Some (rows s' !! successor) ∧ HasPrefix successor coordinatorNamePrefix = true ∧
    ∀ address, selfName address = inl successor → coherent successor (reconnect address s').
Proof.
  intros Hc Hres Hn Hp Hne Hrun.
  destruct (yield_run self s self n (coherent_session _ _ Hc) Hn Hp Hne)
    as (s2 & successor & i & Hrun2 & Hnd & Hrej & Hsne & Hsp & Hi & Hrows).
  assert (s2 = s') as -> by (cbn [run_plan] in Hrun; rewrite Hrun2 in Hrun; by simplify_eq).
  destruct (coherent_coordinator _ _ Hc _ _ Hi Hsp) as [Hinm Hib].
  assert (∀ m j, rows s' !! m = Some j → ∃ k, rows s !! m = Some k ∧ i_BoltServer j = i_BoltServer k ∧
    (IsMain j = true → IsMain k = true) ∧ (IsLeader j = true ↔ m = successor)) as Hback.
  { intros m j. rewrite Hrows. case_decide as Hm; [|case_decide as Hm'].
    - intros [= <-]. subst m. exists i. split_and!; done.
    - destruct (rows s !! m) as [k|]; [|done]. intros [= <-]. exists k. split_and!; done.
    - intros Hj. exists j. split_and!; auto. rewrite (coherent_leader _ _ Hc _ _ Hj). done. }
  exists successor. split; [|split; [|split; [rewrite Hrows, decide_True by done; eauto|split; [done|]]]].
  - intros (k & -> & Hk)%list_elem_of_fmap.
    by rewrite (result_retired_coordinators _ _ _ _ _ Hres k Hk Hsne) in Hi.
  - eapply pass_result_roles; [done| |].
    + intros m k Hk. rewrite Hrows. case_decide as Hm; [|case_decide as Hm'].
      * subst m. simplify_eq. eexists. split_and!; [done|done|congruence].
      * rewrite Hk. eexists. split_and!; [done|done|]. subst m. intros Hm''.
        pose proof (coherent_coordinator _ _ Hc _ _ Hk (self_prefix self s Hc)) as [? _]. congruence.
      * eauto.
    + intros m Hm. rewrite Hrows. rewrite decide_False by congruence. rewrite Hm. by case_decide.
  - intros address Ha. split.
    + split; simpl; [done|rewrite Hrej; apply Hc|done].
    + intros m j Hj. by apply Hback in Hj as (k & _ & _ & _ & ?).
    + intros m1 m2 j1 j2 Hj1 Hj2 H1 H2. apply Hback in Hj1 as (k1 & ? & _ & ? & _), Hj2 as (k2 & ? & _ & ? & _).
      eapply (coherent_main _ _ Hc m1 m2 k1 k2); auto.
    + intros m j Hj Hpm. apply Hback in Hj as (k & Hk & -> & Hm & _).
      destruct (coherent_coordinator _ _ Hc _ _ Hk Hpm) as [Hkm ?]. split; [|done].
      destruct (IsMain j); [|done]. rewrite Hm in Hkm; done.
Qed.

Lemma ShowInstances_total self s : coherent self s → ∃ observed, ShowInstances s = inl observed.
Proof. intros Hc. unfold ShowInstances. rewrite (session_self _ _ (coherent_session _ _ Hc)). eauto. Qed.

(** [self] leads the cluster, over whatever connection it is reached. *)
Definition leads (self : string) (s : fakeClient) : Prop :=
  ∀ address, selfName address = inl self → coherent self (reconnect address s).

Lemma coherent_leads self s : coherent self s → leads self s.
Proof. intros [[Hs Hr Hn] Hl Hm Hk] address Ha. by split. Qed.

(** The cluster after a pass: every declared coordinator is a member, and one leads. *)
Definition staffed (d : Topology) (self : string) (s : fakeClient) : Prop :=
  leads self s ∧ ∀ k, k ∈ Coordinators d → is_Some (rows s !! c_Name k).

(** One pass, and what the next one does over a connection to whoever leads then. *)
Lemma passes_settle d self s observed lag :
  wf_topology d → data_names_apart d → Coordinators d ≠ [] → coherent self s →
  ShowInstances s = inl observed → nothing_waits d observed lag →
  ∃ s1 self1, run_plan (Plan d observed lag) s = (s1, None) ∧ staffed d self1 s1 ∧
    (self1 = self ∨ is_Some (rows s1 !! self1) ∧ HasPrefix self1 coordinatorNamePrefix = true) ∧
    (self1 ∉ c_Name <$> t_RetiringCoordinators d) ∧
    ∀ s' observed1 lag1, f_instances s' = f_instances s1 → coherent self1 s' → ShowInstances s' = inl observed1 →
    ∃ s2, run_plan (Plan d observed1 lag1) s' = (s2, None) ∧ staffed d self1 s2 ∧
      ∀ s'' observed2, f_instances s'' = f_instances s2 → coherent self1 s'' → ShowInstances s'' = inl observed2 →
      Retired d observed2 = true ∧ ∀ lag2, Plan d observed2 lag2 = [].
Proof.
  intros Hwf Hnames Hne Hc Hv Hwait.
  pose proof (nothing_waits_handover d observed lag Hwf (view_single self s observed Hc Hv) Hwait) as Hh.
  assert (∀ self observed lag r k, pass_result d self observed lag r → k ∈ Coordinators d → is_Some (r !! c_Name k)) as Hmem.
  { intros self' ??? k Hr Hk. destruct (result_coordinators _ _ _ _ _ Hr k Hk) as (row & -> & _). eauto. }
  assert (∀ s s' : fakeClient, f_instances s' = f_instances s → rows s' = rows s) as Hrows by (by unfold rows; intros ? ? ->).
  destruct (run_pass d self s observed lag Hwf Hnames Hc Hv Hne) as (s3 & s4 & Hrun & Hc3 & Ha3 & Hres & Hcase).
  exists s4. destruct Hcase as [[-> Hself]|[Hself Hyield]].
  - exists self. split; [done|]. split; [split; [by apply coherent_leads|eauto]|]. split; [by left|]. split; [done|].
    intros s' observed1 lag1 Hi Hc' Hv1.
    assert (∀ s'' observed2, rows s'' = rows s3 → coherent self s'' → ShowInstances s'' = inl observed2 →
      Retired d observed2 = true ∧ ∀ lag2, Plan d observed2 lag2 = []) as Hend.
    { intros s'' observed2 Hr Hc2 Hv2. by eapply (next_converged d self observed lag (rows s3)). }
    destruct (Hend s' observed1) as [_ Hnil]; [by apply Hrows|done..|]. rewrite Hnil. exists s'. split; [done|].
    split; [split; [by apply coherent_leads|intros k Hk; rewrite (Hrows s3) by done; eauto]|].
    intros s'' observed2 Hi2. apply Hend. by rewrite (Hrows s'), (Hrows s3).
  - destruct (Coordinators d) as [|k ks] eqn:Hk; [done|]. rewrite <- Hk in *.
    assert (k ∈ Coordinators d) as Hin by (rewrite Hk; left).
    destruct (result_coordinators _ _ _ _ _ Hres k Hin) as (row & Hrow & _).
    destruct (yield_moves d self s3 s4 observed lag (c_Name k)) as (successor & Hsucc & Hres4 & Hsome & Hprefix & Hconn);
      [done|done|eauto|apply c_Name_prefix| |done|].
    { intros E. rewrite <- E in Hself. by eapply declared_coordinator_stays. }
    exists successor. split; [done|]. split; [split; [done|eauto]|]. split; [by right|]. split; [done|].
    intros s' observed1 lag1 Hi Hc4 Hv1.
    assert (retiringMain d observed1 = "") as Hnomain.
    { destruct (decide (retiringMain d observed1 = "")) as [|Hm]; [done|]. apply retiringMain_ne_iff in Hm; [|done].
      by eapply (next_no_retiring_main d self observed lag (rows s4)) in Hm; [..|apply Hrows]. }
    destruct (run_pass d successor s' observed1 lag1 Hwf Hnames Hc4 Hv1 Hne) as (s5 & s6 & Hrun6 & Hc5 & _ & Hres5 & Hcase).
    destruct Hcase as [[-> _]|[? _]]; [|done]. exists s5. split; [done|]. split; [split; [by apply coherent_leads|eauto]|].
    intros s'' observed2 Hi2 Hc2 Hv2.
    eapply (next_converged d successor observed1 lag1 (rows s5)); [done..|exact Hc2|exact Hv2|by apply Hrows|done|done].
Qed.

(** Nothing is left to register, move or shed on the view the connection serves. *)
Definition converged (d : Topology) (s : fakeClient) : Prop :=
  ∃ observed, ShowInstances s = inl observed ∧ Retired d observed = true ∧
              ∀ lag, Plan d observed lag = [].

(** ** Properties *)

(** C4: no command of a plan is refused: against the coordinators' own rules (an instance is
    registered once, MAIN is not unregistered, only one MAIN is promoted, the leader is not
    removed and only yields to another coordinator) the whole plan of a pass runs. *)
Theorem plan_never_refused d self s observed lag :
  wf_topology d → data_names_apart d → Coordinators d ≠ [] → coherent self s →
  ShowInstances s = inl observed →
  ∃ s', run_plan (Plan d observed lag) s = (s', None).
Proof.
  intros Hwf Hnames Hne Hc Hv. destruct (run_pass d self s observed lag Hwf Hnames Hc Hv Hne) as (s3 & s4 & H & _).
  eauto.
Qed.

(** C5: registration converges. When no retiring MAIN waits for a survivor, one pass is
    enough: on the view after it the planner plans nothing and every retiring member is shed.
    When the leader itself is retiring, that pass moves leadership to a coordinator that
    stays, and one more pass over a connection to it is enough. *)
Theorem registration_converges d self s observed lag :
  wf_topology d → data_names_apart d → Coordinators d ≠ [] → coherent self s →
  ShowInstances s = inl observed → nothing_waits d observed lag →
  ∃ s1, run_plan (Plan d observed lag) s = (s1, None) ∧
    ((self ∉ c_Name <$> t_RetiringCoordinators d) → converged d s1) ∧
    (self ∈ c_Name <$> t_RetiringCoordinators d →
     ∃ successor, (successor ∉ c_Name <$> t_RetiringCoordinators d) ∧
       ∀ address lag1, selfName address = inl successor →
       ∃ observed1 s2, ShowInstances (reconnect address s1) = inl observed1 ∧
         run_plan (Plan d observed1 lag1) (reconnect address s1) = (s2, None) ∧ converged d s2).
Proof.
  intros Hwf Hnames Hne Hc Hv Hwait.
  pose proof (nothing_waits_handover d observed lag Hwf (view_single self s observed Hc Hv) Hwait) as Hh.
  destruct (run_pass d self s observed lag Hwf Hnames Hc Hv Hne) as (s3 & s4 & Hrun & Hc3 & Ha3 & Hres & Hcase).
  exists s4. split; [done|]. destruct Hcase as [[-> Hself]|[Hself Hyield]].
  - split; [|done]. intros _. destruct (ShowInstances_total self s3 Hc3) as [observed1 Hv1].
    exists observed1. split; [done|]. by eapply (next_converged d self observed lag (rows s3)).
  - split; [done|]. intros _. destruct (Coordinators d) as [|k ks] eqn:Hk; [done|].
    assert (k ∈ Coordinators d) as Hin by (rewrite Hk; left).
    destruct (result_coordinators _ _ _ _ _ Hres k Hin) as (row & Hrow & _).
    destruct (yield_moves d self s3 s4 observed lag (c_Name k)) as (successor & Hsucc & Hres4 & _ & _ & Hconn);
      [done|done|eauto|apply c_Name_prefix| |done|].
    { intros E. rewrite <- E in Hself. by eapply declared_coordinator_stays. }
    exists successor. split; [done|]. intros address lag1 Ha. pose proof (Hconn address Ha) as Hc4.
    destruct (ShowInstances_total _ _ Hc4) as [observed1 Hv1].
    assert (retiringMain d observed1 = "") as Hnomain.
    { destruct (decide (retiringMain d observed1 = "")) as [|Hm]; [done|]. apply retiringMain_ne_iff in Hm; [|done].
      by eapply (next_no_retiring_main d self observed lag (rows s4)) in Hm. }
    rewrite <- Hk in Hne.
    destruct (run_pass d successor _ observed1 lag1 Hwf Hnames Hc4 Hv1 Hne) as (s5 & s6 & Hrun6 & Hc5 & _ & Hres5 & Hcase).
    destruct Hcase as [[-> _]|[? _]]; [|done]. exists observed1, s5. split_and!; [done|done|].
    destruct (ShowInstances_total _ _ Hc5) as [observed2 Hv2]. exists observed2. split; [done|].
    by eapply (next_converged d successor observed1 lag1 (rows s5)).
Qed.

(** ** Witness: a shrink that retires the MAIN and the Raft leader *)

(** Coherence read off the list of instances. *)
Lemma coherent_of_list self s :
  selfName (f_address s) = inl self → (∀ command, f_rejected s command = None) →
  NoDup (i_Name <$> f_instances s) →
  Forall (λ i, IsLeader i = bool_decide (i_Name i = self) ∧
    (HasPrefix (i_Name i) coordinatorNamePrefix = true → IsMain i = false ∧ i_BoltServer i ≠ "")) (f_instances s) →
  single_main (f_instances s) → coherent self s.
Proof.
  intros Hself Hrej Hnd Hall Hmain. rewrite Forall_forall in Hall.
  assert (∀ n i, rows s !! n = Some i → i ∈ f_instances s ∧ i_Name i = n) as Hrow by (intros; by apply index_by_Some_1).
  split; [done| | |].
  - intros n i [Hi <-]%Hrow. destruct (Hall i Hi) as [-> _]. apply bool_decide_eq_true.
  - intros n m i j [Hi <-]%Hrow [Hj <-]%Hrow Hmi Hmj. apply Hmain; auto.
  - intros n i [Hi <-]%Hrow. by apply Hall.
Qed.

Module Example.
Import Planner.Example.
Definition cluster : fakeClient :=
  mkFakeClient "mg-coordinator-1.mg-coordinator.ns.svc.cluster.local:7687" observed (λ _, None) [].

Lemma apart : data_names_apart declared.
Proof. intros i. revert i. apply Forall_forall. by_decide. Qed.

Lemma leads : coherent "coordinator_1" cluster.
Proof. apply coherent_of_list; [reflexivity|done|by_decide|by_decide|apply single]. Qed.

Lemma nothing_waiting : nothing_waits declared observed (lag 0).
Proof.
  intros n [_ Hw]. specialize (Hw (inst "instance_0")). vm_compute in Hw. discriminate Hw. left.
Qed.
End Example.

Lemma plan_never_refused_witness :
  ∃ s', run_plan (Plan Planner.Example.declared Planner.Example.observed (Planner.Example.lag 0)) Example.cluster = (s', None).
Proof.
  exact (plan_never_refused Planner.Example.declared "coordinator_1" Example.cluster Planner.Example.observed
    (Planner.Example.lag 0) Planner.Example.wf Example.apart ltac:(discriminate) Example.leads eq_refl).
Defined.

Lemma registration_converges_witness :
  ∃ s1, run_plan (Plan Planner.Example.declared Planner.Example.observed (Planner.Example.lag 0)) Example.cluster = (s1, None) ∧
    ∃ successor, (successor ∉ c_Name <$> t_RetiringCoordinators Planner.Example.declared) ∧
      ∀ address lag1, selfName address = inl successor →
      ∃ observed1 s2, ShowInstances (reconnect address s1) = inl observed1 ∧
        run_plan (Plan Planner.Example.declared observed1 lag1) (reconnect address s1) = (s2, None) ∧
        converged Planner.Example.declared s2.
Proof.
  destruct (registration_converges Planner.Example.declared "coordinator_1" Example.cluster Planner.Example.observed
    (Planner.Example.lag 0) Planner.Example.wf Example.apart ltac:(discriminate) Example.leads eq_refl
    Example.nothing_waiting) as (s1 & Hrun & _ & Hretiring).
  exists s1. split; [exact Hrun|]. apply Hretiring. by_decide.
Defined.
