(* ===== verification/Rollout.v ===== *)
(** * Package rollout: which pod a changed template restarts next

    [Next] of internal/rollout/rollout.go and what it is made of. The two loops over
    the instance map ([mainInstance], [leaderInstance]) take Go's unspecified order from
    [RangeOrder]; [pending[0]] is an option, [None] being the index panic. *)

From S2P Require Import Prelude GoStrings K8s Api Client.

(** ** Data *)

Inductive Action := Done | Wait | Delete.

#[export] Instance Action_eq_dec : EqDecision Action.
Proof. solve_decision. Defined.

Record Pod := mkPod {
  p_Name : string;
  p_UID : string;
  p_Instance : string;
  p_Ordinal : Z;
  p_RevisionHash : string;
  p_Current : bool;
  p_Ready : bool
}.

#[export] Instance Pod_eq_dec : EqDecision Pod.
Proof. solve_decision. Defined.

Definition zeroPod : Pod := mkPod "" "" "" 0 "" false false.

Record Role := mkRole {
  r_Replicas : Z;
  r_UpdateRevision : string;
  r_Stale : bool;
  r_Pods : list Pod
}.

Record Decision := mkDecision {
  de_Action : Action;
  de_Pod : Pod;
  de_Reason : string;
  de_Message : string
}.

#[export] Instance Decision_eq_dec : EqDecision Decision.
Proof. solve_decision. Defined.

(** ** Definitions *)

Definition index (observed : list Instance) : gmap string Instance := index_by i_Name observed.
Definition indexLag (lag : list ReplicationLag) : gmap string ReplicationLag := index_by l_Instance lag.

Definition waiting (reason message : string) : Decision := mkDecision Wait zeroPod reason message.
Definition restarting (pod : Pod) (message : string) : Decision :=
  mkDecision Delete pod ReasonRollingRestartInProgress message.

Definition is_outdated (role : Role) (pod : Pod) : bool :=
  negb (bool_decide (p_RevisionHash pod = "")) &&
  negb (bool_decide (p_RevisionHash pod = r_UpdateRevision role)) && negb (p_Current pod).

Definition outdated (role : Role) : list Pod :=
  if decide (r_UpdateRevision role = "") then []
  else List.filter (is_outdated role) (r_Pods role).

Definition is_updated (role : Role) (pod : Pod) : bool :=
  bool_decide (p_RevisionHash pod = r_UpdateRevision role) || p_Current pod.

Definition updated (role : Role) : list Pod :=
  if decide (r_UpdateRevision role = "") then []
  else List.filter (is_updated role) (r_Pods role).

Definition InProgress (role : Role) : bool := 0 <? length (outdated role).

(** The loop of [highestOrdinalExcept]: the candidate so far, [None] before the first. *)
Definition higher (instance : string) (next : option Pod) (pod : Pod) : option Pod :=
  if decide (p_Instance pod = instance) then next
  else match next with
       | None => Some pod
       | Some best => if (p_Ordinal best <? p_Ordinal pod)%Z then Some pod else next
       end.

Definition highestOrdinalExcept (pending : list Pod) (instance : string) : option Pod :=
  foldl (higher instance) None pending.

(** [present]: [None] when every pod of the role exists and is ready, the wait otherwise. *)
Definition present (role : Role) : option Decision :=
  if decide (wrap32 (Z.of_nat (length (r_Pods role))) ≠ r_Replicas role)
  then Some (waiting ReasonWorkloadsNotReady "Waiting for the pod restarted last to be recreated")
  else match List.find (λ pod, negb (p_Ready pod)) (r_Pods role) with
       | Some pod => Some (waiting ReasonWorkloadsNotReady
                             ("Waiting for pod " ^^ p_Name pod ^^ " to become ready"))
       | None => None
       end.

(** The body of the loop of [replicating]. *)
Definition replicating_pod (instances : gmap string Instance) (lags : gmap string ReplicationLag)
    (pod : Pod) : option Decision :=
  if negb (IsUp (instances !!? (p_Instance pod) | zeroInstance))
  then Some (waiting ReasonWorkloadsNotReady
               ("Waiting for restarted data instance " ^^ p_Instance pod ^^
                " to be reachable before restarting the next pod"))
  else if negb (IsCaughtUp (lags !!? (p_Instance pod) | zeroLag))
  then Some (waiting ReasonWaitingForCatchUp
               ("Waiting for restarted data instance " ^^ p_Instance pod ^^
                " to catch up with MAIN before restarting the next pod"))
  else None.

(** The first answer of a loop that returns at the first pod it has one for. *)
Fixpoint first_some {A B} (f : A → option B) (l : list A) : option B :=
  match l with
  | [] => None
  | x :: l => match f x with Some b => Some b | None => first_some f l end
  end.

Definition replicating (role : Role) (instances : gmap string Instance)
    (lags : gmap string ReplicationLag) : option Decision :=
  first_some (replicating_pod instances lags) (updated role).

Section Next.
Context {RO : RangeOrder}.

Definition mainInstance (instances : gmap string Instance) : string :=
  match List.find (λ '(_, i), IsMain i) (range instances) with Some (name, _) => name | None => "" end.
Definition leaderInstance (instances : gmap string Instance) : string :=
  match List.find (λ '(_, i), IsLeader i) (range instances) with Some (name, _) => name | None => "" end.

(** A data pod that could be promoted in MAIN's place: the test of the last loop of
    [nextDataInstance]. *)
Definition promotable (main : string) (instances : gmap string Instance)
    (lags : gmap string ReplicationLag) (pod : Pod) : bool :=
  negb (bool_decide (p_Instance pod = main)) &&
  IsUp (instances !!? (p_Instance pod) | zeroInstance) &&
  IsCaughtUp (lags !!? (p_Instance pod) | zeroLag).

(** The end of [nextDataInstance], once only the MAIN is left. *)
Definition restartMain (data : Role) (main : string) (mainPod : Pod)
    (instances : gmap string Instance) (lags : gmap string ReplicationLag) : Decision :=
  if decide (r_Replicas data = 1%Z)
  then restarting mainPod ("Restarting the only data instance pod " ^^ p_Name mainPod ^^
         ", which interrupts the cluster until it is back")
  else if negb (IsUp (instances !!? main | zeroInstance))
  then waiting ReasonWorkloadsNotReady ("Waiting for MAIN data instance " ^^ main ^^
         " to be reachable before restarting it")
  else match List.find (promotable main instances lags) (r_Pods data) with
       | Some pod => restarting mainPod ("Restarting MAIN data instance pod " ^^ p_Name mainPod ^^
                       " last; " ^^ p_Instance pod ^^ " is caught up and can be promoted in its place")
       | None => waiting ReasonNoCaughtUpSurvivor
                   ("Waiting for a data instance that is reachable and caught up with MAIN " ^^ main ^^
                    " before restarting it; the cluster keeps serving until one is")
       end.

Definition nextDataInstance (data : Role) (instances : gmap string Instance)
    (lags : gmap string ReplicationLag) : option Decision :=
  match present data with
  | Some wait => Some wait
  | None =>
      let main := mainInstance instances in
      if decide (main = "")
      then Some (waiting ReasonNoMainElected
                   "Waiting for a MAIN data instance before restarting any data pod")
      else
        let pending := outdated data in
        match highestOrdinalExcept pending main with
        | Some next =>
            match replicating data instances lags with
            | Some wait => Some wait
            | None => Some (restarting next ("Restarting data instance pod " ^^ p_Name next ^^
                              ", which is not MAIN"))
            end
        | None => mainPod ← hd_error pending; Some (restartMain data main mainPod instances lags)
        end
  end.

(** The body of the loop over the updated coordinators. *)
Definition coordinator_back (instances : gmap string Instance) (pod : Pod) : option Decision :=
  if negb (IsUp (instances !!? (p_Instance pod) | zeroInstance))
  then Some (waiting ReasonWorkloadsNotReady
               ("Waiting for restarted coordinator " ^^ p_Instance pod ^^
                " to be reachable before restarting the next one"))
  else None.

Definition nextCoordinator (coordinators : Role) (instances : gmap string Instance) : option Decision :=
  match present coordinators with
  | Some wait => Some wait
  | None =>
      match first_some (coordinator_back instances) (updated coordinators) with
      | Some wait => Some wait
      | None =>
          let leader := leaderInstance instances in
          if decide (leader = "")
          then Some (waiting ReasonNoCoordinatorLeader
                       "Waiting for the coordinators to elect a leader before restarting any coordinator pod")
          else
            let pending := outdated coordinators in
            match highestOrdinalExcept pending leader with
            | Some next => Some (restarting next ("Restarting coordinator pod " ^^ p_Name next ^^
                                   ", which does not hold Raft leadership"))
            | None => last ← hd_error pending;
                      Some (restarting last ("Restarting coordinator pod " ^^ p_Name last ^^
                        " last; it holds Raft leadership, so the surviving members elect a successor"))
            end
      end
  end.

Definition Next (data coordinators : Role) (observed : list Instance) (lag : list ReplicationLag)
    : option Decision :=
  let instances := index observed in
  let lags := indexLag lag in
  if r_Stale data
  then Some (waiting ReasonWorkloadsNotReady
               "Waiting for the data StatefulSet's status to describe its current pod template")
  else if r_Stale coordinators
  then Some (waiting ReasonWorkloadsNotReady
               "Waiting for the coordinator StatefulSet's status to describe its current pod template")
  else if 0 <? length (outdated data) then nextDataInstance data instances lags
  else if bool_decide (length (outdated coordinators) = 0)
  then Some (mkDecision Done zeroPod "" "")
  else match present data with
       | Some wait => Some wait
       | None => nextCoordinator coordinators instances
       end.
End Next.

(** ** Lemmas *)

(** The index panic is never reached: a role is only asked with outdated pods. *)
Lemma Next_total `{RangeOrder} data coordinators observed lag : is_Some (Next data coordinators observed lag).
Proof.
  unfold Next, nextDataInstance, nextCoordinator.
  destruct (outdated data) as [|d ds]; cbn [length Nat.ltb Nat.leb];
    [destruct (outdated coordinators) as [|c cs]; [by repeat case_match|case_bool_decide; [done|]]|];
    repeat case_match; cbn; eauto.
Qed.

Lemma elem_of_outdated role pod :
  pod ∈ outdated role ↔ r_UpdateRevision role ≠ "" ∧ pod ∈ r_Pods role ∧ is_outdated role pod = true.
Proof.
  unfold outdated. case_decide; [|rewrite elem_of_bfilter; tauto].
  split; [by intros ?%elem_of_nil|tauto].
Qed.

Lemma elem_of_updated role pod :
  pod ∈ updated role ↔ r_UpdateRevision role ≠ "" ∧ pod ∈ r_Pods role ∧ is_updated role pod = true.
Proof.
  unfold updated. case_decide; [|rewrite elem_of_bfilter; tauto].
  split; [by intros ?%elem_of_nil|tauto].
Qed.

Lemma InProgress_iff role : InProgress role = true ↔ outdated role ≠ [].
Proof. unfold InProgress. destruct (outdated role); simpl; split; done. Qed.

Lemma highestOrdinalExcept_snoc pending pod instance :
  highestOrdinalExcept (pending ++ [pod]) instance =
    higher instance (highestOrdinalExcept pending instance) pod.
Proof. unfold highestOrdinalExcept. by rewrite foldl_app. Qed.

Lemma highestOrdinalExcept_None pending instance :
  highestOrdinalExcept pending instance = None ↔ ∀ pod, pod ∈ pending → p_Instance pod = instance.
Proof.
  induction pending as [|p pending IH] using rev_ind; [set_solver|].
  rewrite highestOrdinalExcept_snoc. unfold higher. setoid_rewrite elem_of_app.
  setoid_rewrite list_elem_of_singleton. case_decide.
  - rewrite IH. naive_solver.
  - destruct (highestOrdinalExcept pending instance); [case_match|]; naive_solver.
Qed.

Lemma highestOrdinalExcept_Some pending instance pod :
  highestOrdinalExcept pending instance = Some pod →
  pod ∈ pending ∧ p_Instance pod ≠ instance ∧
  ∀ q, q ∈ pending → p_Instance q ≠ instance → (p_Ordinal q ≤ p_Ordinal pod)%Z.
Proof.
  revert pod. induction pending as [|p pending IH] using rev_ind; [done|]. intros pod.
  rewrite highestOrdinalExcept_snoc. unfold higher. setoid_rewrite elem_of_app.
  setoid_rewrite list_elem_of_singleton. case_decide as Hp.
  { intros (?&?&?)%IH. naive_solver. }
  destruct (highestOrdinalExcept pending instance) as [best|] eqn:E.
  - destruct (IH best eq_refl) as (Hb & Hne & Hmax). case_match eqn:Ho; intros [= <-]; bool_split.
    + split_and!; [by right|done|]. intros q [Hq| ->] Hqn; [|lia]. specialize (Hmax q Hq Hqn). lia.
    + split_and!; [by left|done|]. intros q [Hq| ->] Hqn; [auto|lia].
  - intros [= <-]. pose proof (proj1 (highestOrdinalExcept_None _ _) E) as Hall.
    split_and!; [by right|done|]. intros q [Hq| ->] Hqn; [by apply Hall in Hq|lia].
Qed.

Lemma first_some_None {A B} (f : A → option B) l :
  first_some f l = None ↔ ∀ x, x ∈ l → f x = None.
Proof.
  induction l as [|x l IH]; simpl; [set_solver|]. setoid_rewrite elem_of_cons.
  destruct (f x) eqn:E; [naive_solver congruence|]. rewrite IH. naive_solver.
Qed.

Lemma first_some_Some {A B} (f : A → option B) l b :
  first_some f l = Some b → ∃ x, x ∈ l ∧ f x = Some b.
Proof.
  induction l as [|x l IH]; simpl; [done|]. destruct (f x) eqn:E.
  - intros [= <-]. exists x. split; [left|done].
  - intros (y & ? & ?)%IH. exists y. split; [by right|done].
Qed.

(** Every pod of the role exists and is ready. *)
Definition whole (role : Role) : Prop :=
  wrap32 (Z.of_nat (length (r_Pods role))) = r_Replicas role ∧ ∀ pod, pod ∈ r_Pods role → p_Ready pod.

Lemma present_None role : present role = None ↔ whole role.
Proof.
  unfold present, whole. case_decide as Hn; [split; [done|by intros []]|].
  destruct (List.find _ _) as [pod|] eqn:E.
  - apply find_Some_elem in E as [Hin Hr]. apply negb_true_iff in Hr.
    split; [done|]. intros [_ Hall]. specialize (Hall pod Hin). by rewrite Hr in Hall.
  - rewrite find_None_iff in E. split; [|done]. intros _. split; [done|].
    intros pod Hin. apply E, negb_false_iff in Hin. by rewrite Hin.
Qed.

Lemma present_Some role d : present role = Some d → de_Action d = Wait.
Proof. unfold present. case_decide; [by intros [= <-]|]. case_match; [by intros [= <-]|done]. Qed.

Lemma replicating_None role observed lag :
  replicating role (index observed) (indexLag lag) = None →
  ∀ q, q ∈ updated role → reachable observed (p_Instance q) ∧ caught_up lag (p_Instance q).
Proof.
  unfold replicating. rewrite first_some_None. intros Hall q Hq. specialize (Hall q Hq).
  unfold replicating_pod in Hall. case_match eqn:Hu; [done|]. case_match eqn:Hc; [done|]. bool_split.
  split; [by apply reachable_index|by apply caught_up_index].
Qed.

Lemma replicating_Some role instances lags d :
  replicating role instances lags = Some d → de_Action d = Wait.
Proof.
  unfold replicating. intros (q & _ & Hq)%first_some_Some. unfold replicating_pod in Hq.
  repeat case_match; naive_solver.
Qed.

Lemma coordinators_back observed pods :
  first_some (coordinator_back (index observed)) pods = None →
  ∀ q, q ∈ pods → reachable observed (p_Instance q).
Proof.
  rewrite first_some_None. intros Hall q Hq. specialize (Hall q Hq). unfold coordinator_back in Hall.
  case_match eqn:Hu; [done|]. bool_split. by apply reachable_index.
Qed.

(** The rows of the view that hold a role, by name. *)
Definition reports_main (observed : list Instance) (name : string) : Prop :=
  name ≠ "" ∧ ∃ i, i ∈ observed ∧ i_Name i = name ∧ IsMain i.
Definition reports_leader (observed : list Instance) (name : string) : Prop :=
  name ≠ "" ∧ ∃ i, i ∈ observed ∧ i_Name i = name ∧ IsLeader i.

Section roles.
Context {RO : RangeOrder}.

Lemma find_range_Some (f : Instance → bool) observed name i :
  List.find (λ '(_, i), f i) (range (index observed)) = Some (name, i) →
  i ∈ observed ∧ i_Name i = name ∧ f i = true.
Proof.
  intros [Hin Hf]%find_Some_elem. rewrite elem_of_range in Hin. apply index_by_Some_1 in Hin. tauto.
Qed.

Lemma mainInstance_ne observed :
  mainInstance (index observed) ≠ "" → reports_main observed (mainInstance (index observed)).
Proof.
  unfold mainInstance, reports_main. destruct (List.find _ _) as [[name i]|] eqn:E; [|done].
  intros Hne. split; [done|]. apply find_range_Some in E as (?&?&Hm). exists i. by rewrite Hm.
Qed.

Lemma leaderInstance_ne observed :
  leaderInstance (index observed) ≠ "" → reports_leader observed (leaderInstance (index observed)).
Proof.
  unfold leaderInstance, reports_leader. destruct (List.find _ _) as [[name i]|] eqn:E; [|done].
  intros Hne. split; [done|]. apply find_range_Some in E as (?&?&Hm). exists i. by rewrite Hm.
Qed.
End roles.

(** ** What a deletion stands on *)

(** The data pod [pod] may go: [main] is what the view reports, every pod of the role is
    ready; if another instance is MAIN, every restarted pod is back in replication; if
    the pod runs MAIN it is the last one outstanding, and a survivor holds everything,
    unless there is no replica to have. *)
Definition data_pod_may_go (data : Role) (observed : list Instance) (lag : list ReplicationLag)
    (pod : Pod) : Prop :=
  whole data ∧ pod ∈ outdated data ∧ ∃ main, reports_main observed main ∧
    ((p_Instance pod ≠ main ∧
      (∀ q, q ∈ updated data → reachable observed (p_Instance q) ∧ caught_up lag (p_Instance q)) ∧
      (∀ q, q ∈ outdated data → p_Instance q ≠ main → (p_Ordinal q ≤ p_Ordinal pod)%Z)) ∨
     (p_Instance pod = main ∧
      (∀ q, q ∈ outdated data → p_Instance q = main) ∧
      (r_Replicas data = 1%Z ∨
       reachable observed main ∧
       ∃ q, q ∈ r_Pods data ∧ p_Instance q ≠ main ∧
            reachable observed (p_Instance q) ∧ caught_up lag (p_Instance q)))).

Definition coordinator_pod_may_go (data coordinators : Role) (observed : list Instance) (pod : Pod) : Prop :=
  outdated data = [] ∧ whole data ∧ whole coordinators ∧ pod ∈ outdated coordinators ∧
  (∀ q, q ∈ updated coordinators → reachable observed (p_Instance q)) ∧
  ∃ leader, reports_leader observed leader ∧
    (p_Instance pod = leader → ∀ q, q ∈ outdated coordinators → p_Instance q = leader).

Section deletions.
Context {RO : RangeOrder}.

Lemma restartMain_Delete data main mainPod observed lag d :
  restartMain data main mainPod (index observed) (indexLag lag) = d → de_Action d = Delete →
  de_Pod d = mainPod ∧
  (r_Replicas data = 1%Z ∨
   reachable observed main ∧
   ∃ q, q ∈ r_Pods data ∧ p_Instance q ≠ main ∧
        reachable observed (p_Instance q) ∧ caught_up lag (p_Instance q)).
Proof.
  unfold restartMain. case_decide; [by intros <-; auto|].
  case_match eqn:Hu; [by intros <-|]. bool_split. apply reachable_index in Hu.
  destruct (List.find _ _) as [q|] eqn:E; [|by intros <-]. intros <- _.
  apply find_Some_elem in E as [Hq Hp]. unfold promotable in Hp. bool_split.
  split; [done|right]. split; [done|]. exists q.
  split_and!; [done..|by apply reachable_index|by apply caught_up_index].
Qed.

Lemma nextDataInstance_Delete data observed lag d :
  nextDataInstance data (index observed) (indexLag lag) = Some d → de_Action d = Delete →
  data_pod_may_go data observed lag (de_Pod d).
Proof.
  unfold nextDataInstance. destruct (present data) as [w|] eqn:Hp.
  { intros [= <-]. by rewrite (present_Some _ _ Hp). }
  apply present_None in Hp. cbn zeta. case_decide as Hm; [by intros [= <-]|].
  apply mainInstance_ne in Hm. destruct (highestOrdinalExcept _ _) as [next|] eqn:Hh.
  - destruct (replicating _ _ _) as [w|] eqn:Hr.
    { intros [= <-]. by rewrite (replicating_Some _ _ _ _ Hr). }
    intros [= <-] _. apply highestOrdinalExcept_Some in Hh as (Hin & Hne & Hmax).
    split; [done|split; [done|]]. eexists. split; [done|left].
    split_and!; [done|by apply replicating_None|done].
  - rewrite highestOrdinalExcept_None in Hh. destruct (outdated data) as [|mainPod l] eqn:Eo; [done|].
    intros [= E] HD. destruct (restartMain_Delete _ _ _ _ _ _ E HD) as [-> Hs].
    split; [done|split; [rewrite Eo; left|]]. eexists. split; [done|right].
    rewrite Eo. split_and!; [apply Hh; left|done|done].
Qed.

Lemma nextCoordinator_Delete data coordinators observed d :
  outdated data = [] → whole data →
  nextCoordinator coordinators (index observed) = Some d → de_Action d = Delete →
  coordinator_pod_may_go data coordinators observed (de_Pod d).
Proof.
  intros Ho Hw. unfold nextCoordinator. destruct (present coordinators) as [w|] eqn:Hp.
  { intros [= <-]. by rewrite (present_Some _ _ Hp). }
  apply present_None in Hp.
  destruct (first_some _ _) as [w|] eqn:Hf.
  { intros [= <-]. apply first_some_Some in Hf as (q & _ & Hq). unfold coordinator_back in Hq.
    case_match; naive_solver. }
  cbn zeta. case_decide as Hl; [by intros [= <-]|]. apply leaderInstance_ne in Hl.
  destruct (highestOrdinalExcept _ _) as [next|] eqn:Hh.
  - intros [= <-] _. apply highestOrdinalExcept_Some in Hh as (Hin & Hne & _).
    split_and!; [done..|by apply coordinators_back|]. eexists. by split.
  - rewrite highestOrdinalExcept_None in Hh. destruct (outdated coordinators) as [|last l] eqn:Eo; [done|].
    intros [= <-] _. split_and!; [done..|rewrite Eo; left|by apply coordinators_back|].
    eexists. split; [done|]. intros _. by rewrite Eo.
Qed.
End deletions.

(** ** A roll under a healthy cluster *)

(** What the StatefulSet controller makes of the deletion of [pod]: the pod of that name
    comes back on the role's current revision, ready, under another uid. *)
Definition recreated (uid : string) (role : Role) (pod : Pod) : Pod :=
  mkPod (p_Name pod) uid (p_Instance pod) (p_Ordinal pod) (r_UpdateRevision role) (p_Current pod) true.
Definition recreate (uid : string) (role : Role) (name : string) : Role :=
  mkRole (r_Replicas role) (r_UpdateRevision role) (r_Stale role)
    ((λ pod, if decide (p_Name pod = name) then recreated uid role pod else pod) <$> r_Pods role).

(** One pass: the decision, and the recreation of the pod it deletes. *)
Definition pass `{RangeOrder} (uid : string) (view : list Instance * list ReplicationLag)
    (roles : Role * Role) : Role * Role :=
  match Next roles.1 roles.2 view.1 view.2 with
  | Some d => match de_Action d with
              | Delete => (recreate uid roles.1 (p_Name (de_Pod d)), recreate uid roles.2 (p_Name (de_Pod d)))
              | _ => roles
              end
  | None => roles
  end.

Fixpoint passes `{RangeOrder} (n : nat) (uid : nat → string)
    (views : nat → list Instance * list ReplicationLag) (roles : Role * Role) : Role * Role :=
  match n with
  | 0 => roles
  | S n => pass (uid n) (views n) (passes n uid views roles)
  end.

Definition left_to_do (roles : Role * Role) : nat :=
  length (outdated roles.1) + length (outdated roles.2).

(** The roles of a cluster whose pods are all ready and whose names identify a pod. *)
Record sound_roles (roles : Role * Role) : Prop := {
  sound_data_stale : r_Stale roles.1 = false;
  sound_coordinators_stale : r_Stale roles.2 = false;
  sound_data : whole roles.1;
  sound_coordinators : whole roles.2;
  sound_names : NoDup (p_Name <$> r_Pods roles.1 ++ r_Pods roles.2);
  sound_instances : NoDup (p_Instance <$> r_Pods roles.1)
}.

(** A view in which every member answers and is caught up, and both roles have their head. *)
Record healthy_view `{RangeOrder} (roles : Role * Role)
    (view : list Instance * list ReplicationLag) : Prop := {
  healthy_main : mainInstance (index view.1) ≠ "";
  healthy_leader : leaderInstance (index view.1) ≠ "";
  healthy_up : ∀ name, name ∈ p_Instance <$> r_Pods roles.1 ++ r_Pods roles.2 →
    IsUp (index view.1 !!? name | zeroInstance) = true;
  healthy_main_up : IsUp (index view.1 !!? (mainInstance (index view.1)) | zeroInstance) = true;
  healthy_lag : ∀ name, name ∈ p_Instance <$> r_Pods roles.1 →
    IsCaughtUp (indexLag view.2 !!? name | zeroLag) = true
}.

Section roll.
Context {RO : RangeOrder}.

Lemma recreate_map {A} (f : Pod → A) uid role name :
  (∀ pod, f (recreated uid role pod) = f pod) →
  f <$> r_Pods (recreate uid role name) = f <$> r_Pods role.
Proof.
  intros Hf. simpl. rewrite <- list_fmap_compose. apply list_fmap_ext. intros k pod _. simpl.
  case_decide; [apply Hf|done].
Qed.

Lemma whole_recreate uid role name : whole role → whole (recreate uid role name).
Proof.
  intros [Hl Hr]. split.
  - simpl. by rewrite length_fmap.
  - intros pod (q & -> & Hq)%list_elem_of_fmap. case_decide; [done|auto].
Qed.

Lemma sound_recreate uid roles name :
  sound_roles roles → sound_roles (recreate uid roles.1 name, recreate uid roles.2 name).
Proof.
  intros [? ? ? ? Hn Hi]. split; simpl; [done|done|by apply whole_recreate|by apply whole_recreate| |].
  - rewrite fmap_app. change (NoDup ((p_Name <$> r_Pods (recreate uid roles.1 name)) ++
      (p_Name <$> r_Pods (recreate uid roles.2 name)))).
    rewrite !recreate_map by done. by rewrite <- fmap_app.
  - change (NoDup (p_Instance <$> r_Pods (recreate uid roles.1 name))). by rewrite recreate_map.
Qed.

Lemma healthy_recreate uid roles name view :
  healthy_view roles view → healthy_view (recreate uid roles.1 name, recreate uid roles.2 name) view.
Proof.
  intros [? ? Hup ? Hlag]. split; [done|done| |done|]; simpl; intros n.
  - rewrite fmap_app. change (n ∈ (p_Instance <$> r_Pods (recreate uid roles.1 name)) ++
      (p_Instance <$> r_Pods (recreate uid roles.2 name)) → IsUp (index view.1 !!? n | zeroInstance) = true).
    rewrite !recreate_map by done. rewrite <- fmap_app. apply Hup.
  - change (n ∈ p_Instance <$> r_Pods (recreate uid roles.1 name) →
      IsCaughtUp (indexLag view.2 !!? n | zeroLag) = true). rewrite recreate_map by done. apply Hlag.
Qed.

(** Recreating a pod takes it, and nothing else, off the outstanding ones. *)
Lemma outdated_recreate uid role name :
  outdated (recreate uid role name) = List.filter (λ pod, negb (bool_decide (p_Name pod = name))) (outdated role).
Proof.
  assert (∀ pod, is_outdated role (recreated uid role pod) = false) as Hre.
  { intros pod. unfold is_outdated. simpl.
    by rewrite (bool_decide_eq_true_2 (r_UpdateRevision role = r_UpdateRevision role)), andb_false_r by done. }
  unfold outdated. cbn [recreate r_UpdateRevision]. case_decide as Hr; [done|].
  change (List.filter (is_outdated role) (r_Pods (recreate uid role name)) =
    List.filter (λ pod, negb (bool_decide (p_Name pod = name))) (List.filter (is_outdated role) (r_Pods role))).
  unfold recreate. cbn [r_Pods]. induction (r_Pods role) as [|pod pods IH]; [done|].
  cbn [fmap list_fmap]. destruct (decide (p_Name pod = name)) as [Hn|Hn]; cbn [List.filter].
  - rewrite Hre, IH.
    destruct (is_outdated role pod); [|done]. simpl. by rewrite bool_decide_eq_true_2 by done.
  - rewrite IH. destruct (is_outdated role pod); [|done]. simpl. by rewrite bool_decide_eq_false_2 by done.
Qed.

Lemma filter_name_notin pods name :
  (∀ pod, pod ∈ pods → p_Name pod ≠ name) →
  List.filter (λ pod, negb (bool_decide (p_Name pod = name))) pods = pods.
Proof.
  induction pods as [|pod pods IH]; [done|]. intros Hall. simpl.
  rewrite bool_decide_eq_false_2 by (apply Hall; left). simpl. f_equal. apply IH.
  intros q Hq. apply Hall. by right.
Qed.

Lemma filter_name_in pods pod :
  NoDup (p_Name <$> pods) → pod ∈ pods →
  S (length (List.filter (λ q, negb (bool_decide (p_Name q = p_Name pod))) pods)) = length pods.
Proof.
  induction pods as [|q pods IH]; [set_solver|]. cbn [fmap list_fmap]. intros [Hq Hnd]%NoDup_cons.
  rewrite elem_of_cons. intros Hin. simpl. destruct (decide (p_Name q = p_Name pod)) as [E|E].
  - rewrite bool_decide_eq_true_2 by done. simpl. f_equal. rewrite filter_name_notin; [done|].
    intros r Hr Hn. apply Hq. rewrite E, <- Hn. by apply list_elem_of_fmap_2.
  - rewrite bool_decide_eq_false_2 by done. simpl. f_equal. apply IH; [done|].
    destruct Hin as [->|]; done.
Qed.

Lemma outdated_names_NoDup role : NoDup (p_Name <$> r_Pods role) → NoDup (p_Name <$> outdated role).
Proof.
  unfold outdated. case_decide; [constructor|]. intros Hnd.
  induction (r_Pods role) as [|pod pods IH]; [done|]. cbn [fmap list_fmap] in Hnd.
  apply NoDup_cons in Hnd as [Hn Hnd]. simpl. case_match; [|auto]. cbn [fmap list_fmap].
  apply NoDup_cons. split; [|auto]. intros (q & E & [Hq _]%elem_of_bfilter)%list_elem_of_fmap.
  apply Hn. rewrite E. by apply list_elem_of_fmap_2.
Qed.

(** Deleting an outstanding pod leaves one pod less to do. *)
Lemma left_to_do_recreate uid roles pod :
  sound_roles roles → pod ∈ outdated roles.1 ++ outdated roles.2 →
  S (left_to_do (recreate uid roles.1 (p_Name pod), recreate uid roles.2 (p_Name pod))) = left_to_do roles.
Proof.
  intros [_ _ _ _ Hn _] Hin. rewrite fmap_app, NoDup_app in Hn. destruct Hn as (H1 & Hd & H2).
  unfold left_to_do. simpl. rewrite !outdated_recreate.
  apply elem_of_app in Hin as [Hin|Hin].
  - rewrite (filter_name_notin (outdated roles.2)), <- (filter_name_in (outdated roles.1) pod);
      [lia|by apply outdated_names_NoDup|done|].
    intros q Hq Hqn. apply elem_of_outdated in Hin as (_ & Hin & _), Hq as (_ & Hq & _).
    apply (Hd (p_Name pod)); [by apply list_elem_of_fmap_2|]. rewrite <- Hqn. by apply list_elem_of_fmap_2.
  - rewrite (filter_name_notin (outdated roles.1)), <- (filter_name_in (outdated roles.2) pod);
      [lia|by apply outdated_names_NoDup|done|].
    intros q Hq Hqn. apply elem_of_outdated in Hin as (_ & Hin & _), Hq as (_ & Hq & _).
    apply (Hd (p_Name q)); [by apply list_elem_of_fmap_2|]. rewrite Hqn. by apply list_elem_of_fmap_2.
Qed.
End roll.

Section progress.
Context {RO : RangeOrder}.

Lemma another_instance (role : Role) main :
  whole role → r_Replicas role ≠ 1%Z → NoDup (p_Instance <$> r_Pods role) → r_Pods role ≠ [] →
  ∃ q, q ∈ r_Pods role ∧ p_Instance q ≠ main.
Proof.
  intros [Hl _] Hr Hnd Hne. destruct (r_Pods role) as [|p [|q pods]]; [done|by rewrite <- Hl in Hr|].
  cbn [fmap list_fmap] in Hnd. apply NoDup_cons in Hnd as [Hp _].
  destruct (decide (p_Instance p = main)) as [E|E]; [|exists p; split; [left|done]].
  exists q. split; [right; left|]. intros E'. apply Hp. rewrite E, <- E'. left.
Qed.

Lemma data_progress roles view :
  sound_roles roles → healthy_view roles view → outdated roles.1 ≠ [] →
  ∃ d, nextDataInstance roles.1 (index view.1) (indexLag view.2) = Some d ∧
       de_Action d = Delete ∧ de_Pod d ∈ outdated roles.1.
Proof.
  intros [_ _ Hw _ _ Hi] [Hm _ Hup Hmu Hlag] Hne. unfold nextDataInstance.
  rewrite (proj2 (present_None _) Hw). cbn zeta. rewrite decide_False by done.
  assert (∀ q, q ∈ r_Pods roles.1 → p_Instance q ∈ p_Instance <$> r_Pods roles.1) as Hin
    by (intros; by apply list_elem_of_fmap_2).
  assert (∀ q, q ∈ r_Pods roles.1 → IsUp (index view.1 !!? (p_Instance q) | zeroInstance) = true) as Hup'
    by (intros; apply Hup; rewrite fmap_app; apply elem_of_app; auto).
  destruct (highestOrdinalExcept _ _) as [next|] eqn:Hh.
  - apply highestOrdinalExcept_Some in Hh as (Hnext & _ & _).
    assert (replicating roles.1 (index view.1) (indexLag view.2) = None) as ->; [|by eauto].
    apply first_some_None. intros q (_ & Hq & _)%elem_of_updated. unfold replicating_pod.
    by rewrite Hup', Hlag by auto.
  - rewrite highestOrdinalExcept_None in Hh. destruct (outdated roles.1) as [|p l] eqn:Eo; [done|]. simpl.
    eexists. split; [done|]. unfold restartMain. case_decide as Hr; [split; [done|left]|].
    rewrite Hmu. cbn [negb].
    destruct (another_instance roles.1 (mainInstance (index view.1))) as (q & Hq & Hqn); [done..| |].
    { assert (p ∈ outdated roles.1) as (_ & Hp & _)%elem_of_outdated by (rewrite Eo; left).
      intros E. rewrite E in Hp. by apply elem_of_nil in Hp. }
    destruct (List.find _ _) as [r|] eqn:Ef; [split; [done|left]|exfalso].
    rewrite find_None_iff in Ef. specialize (Ef q Hq). unfold promotable in Ef.
    by rewrite bool_decide_eq_false_2, Hup', Hlag in Ef by auto.
Qed.

Lemma coordinator_progress roles view :
  sound_roles roles → healthy_view roles view → outdated roles.2 ≠ [] →
  ∃ d, nextCoordinator roles.2 (index view.1) = Some d ∧
       de_Action d = Delete ∧ de_Pod d ∈ outdated roles.2.
Proof.
  intros [_ _ _ Hw _ _] [_ Hl Hup _ _] Hne. unfold nextCoordinator.
  rewrite (proj2 (present_None _) Hw).
  assert (first_some (coordinator_back (index view.1)) (updated roles.2) = None) as ->.
  { apply first_some_None. intros q (_ & Hq & _)%elem_of_updated. unfold coordinator_back.
    rewrite Hup; [done|]. rewrite fmap_app. apply elem_of_app. right. by apply list_elem_of_fmap_2. }
  cbn zeta. rewrite decide_False by done. destruct (highestOrdinalExcept _ _) as [next|] eqn:Hh.
  - apply highestOrdinalExcept_Some in Hh as (Hnext & _ & _). eauto.
  - destruct (outdated roles.2) as [|p l]; [done|]. simpl. eexists. split; [done|]. split; [done|left].
Qed.

Lemma Next_progress roles view :
  sound_roles roles → healthy_view roles view →
  ∃ d, Next roles.1 roles.2 view.1 view.2 = Some d ∧
    ((left_to_do roles = 0 ∧ de_Action d = Done) ∨
     (de_Action d = Delete ∧ de_Pod d ∈ outdated roles.1 ++ outdated roles.2)).
Proof.
  intros Hs Hh. pose proof Hs as [Hds Hcs Hw _ _ _]. unfold Next. rewrite Hds, Hcs.
  setoid_rewrite elem_of_app. unfold left_to_do. destruct (outdated roles.1) as [|p l] eqn:Ed.
  - simpl. case_bool_decide as Ec; [by eauto|].
    rewrite (proj2 (present_None _) Hw).
    destruct (coordinator_progress roles view) as (d & -> & ? & ?); [done..| |by eauto 10].
    intros E. by rewrite E in Ec.
  - simpl. destruct (data_progress roles view) as (d & -> & ? & ?); [done..|by rewrite Ed|].
    rewrite Ed in *. eauto 10.
Qed.

Lemma pass_progress uid roles view :
  sound_roles roles → healthy_view roles view →
  sound_roles (pass uid view roles) ∧
  left_to_do (pass uid view roles) = pred (left_to_do roles) ∧
  (∀ view', healthy_view roles view' → healthy_view (pass uid view roles) view').
Proof.
  intros Hs Hh. unfold pass. destruct (Next_progress roles view Hs Hh) as (d & -> & [[H0 ->]|[-> Hin]]).
  - split_and!; [done|lia|done].
  - split_and!; [by apply sound_recreate|by rewrite <- (left_to_do_recreate uid roles _ Hs Hin)|].
    intros. by apply healthy_recreate.
Qed.

Lemma passes_progress n uid views roles :
  sound_roles roles → (∀ k, healthy_view roles (views k)) →
  sound_roles (passes n uid views roles) ∧
  (∀ k, healthy_view (passes n uid views roles) (views k)) ∧
  left_to_do (passes n uid views roles) = left_to_do roles - n.
Proof.
  intros Hs Hh. induction n as [|n (IHs & IHh & IHn)]; simpl; [split_and!; [done..|lia]|].
  destruct (pass_progress (uid n) _ _ IHs (IHh n)) as (? & E & Hv).
  split_and!; [done|auto|rewrite E, IHn; lia].
Qed.
End progress.

(** ** Properties *)

(** C6: a pass deletes a pod only when that pod is outstanding, both StatefulSets' statuses
    describe their templates and every pod of its role is ready; a data pod that is not
    MAIN's only with everything already restarted back in replication; MAIN's pod only as
    the last data pod, with a reachable survivor that holds every transaction; and a
    coordinator's only once no data pod is outstanding, the leader's last. *)
Theorem Next_delete_safe `{RangeOrder} data coordinators observed lag d :
  Next data coordinators observed lag = Some d → de_Action d = Delete →
  r_Stale data = false ∧ r_Stale coordinators = false ∧
  (data_pod_may_go data observed lag (de_Pod d) ∨
   coordinator_pod_may_go data coordinators observed (de_Pod d)).
Proof.
  unfold Next. destruct (r_Stale data); [by intros [= <-]|].
  destruct (r_Stale coordinators); [by intros [= <-]|].
  destruct (outdated data) eqn:Ed.
  - simpl. case_bool_decide; [by intros [= <-]|].
    destruct (present data) as [w|] eqn:Hp; [by intros [= <-]; rewrite (present_Some _ _ Hp)|].
    apply present_None in Hp. intros Hn HD. split_and!; [done..|right]. by eapply nextCoordinator_Delete.
  - simpl. intros Hn HD. split_and!; [done..|left]. by eapply nextDataInstance_Delete.
Qed.

(** C7: a roll ends. While the members answer and are caught up on every pass, each pass
    restarts exactly one outstanding pod, so as many passes as there were outstanding
    pods leave none, and the next one answers [Done]. *)
Theorem roll_completes `{RangeOrder} uid views roles :
  sound_roles roles → (∀ k, healthy_view roles (views k)) →
  (∀ k, left_to_do (passes k uid views roles) = left_to_do roles - k) ∧
  ∀ k, left_to_do roles ≤ k →
    ∃ d, Next (passes k uid views roles).1 (passes k uid views roles).2 (views k).1 (views k).2 = Some d ∧
         de_Action d = Done.
Proof.
  intros Hs Hh. split; [intros k; by apply passes_progress|]. intros k Hk.
  destruct (passes_progress k uid views roles Hs Hh) as (Hs' & Hh' & Hn).
  destruct (Next_progress _ _ Hs' (Hh' k)) as (d & Hd & [[_ ?]|[_ Hin]]); [by eauto|].
  exfalso. unfold left_to_do in *. apply elem_of_app in Hin as [Hin|Hin];
    [destruct (outdated (passes k uid views roles).1)|destruct (outdated (passes k uid views roles).2)];
    simpl in *; try lia; by apply elem_of_nil in Hin.
Qed.

(** [Next] always decides, [pending[0]] never being out of range; it answers [Done]
    exactly when neither status is stale and no pod of either role is outstanding,
    however unhealthy the cluster is. *)
Theorem Next_done_iff `{RangeOrder} data coordinators observed lag :
  ∃ d, Next data coordinators observed lag = Some d ∧
    (de_Action d = Done ↔
     r_Stale data = false ∧ r_Stale coordinators = false ∧
     InProgress data = false ∧ InProgress coordinators = false).
Proof.
  unfold Next, InProgress. destruct (r_Stale data); [eexists; split; [done|]; naive_solver|].
  destruct (r_Stale coordinators); [eexists; split; [done|]; naive_solver|].
  destruct (outdated data) as [|p l] eqn:Ed; simpl.
  - destruct (outdated coordinators) as [|q k] eqn:Ec; simpl.
    { eexists. split; [done|]. naive_solver. }
    destruct (present data) as [w|] eqn:Hp.
    { eexists. split; [done|]. rewrite (present_Some _ _ Hp). naive_solver. }
    unfold nextCoordinator. destruct (present coordinators) as [w|] eqn:Hp'.
    { eexists. split; [done|]. rewrite (present_Some _ _ Hp'). naive_solver. }
    destruct (first_some _ _) as [w|] eqn:Hf.
    { apply first_some_Some in Hf as (r & _ & Hr). unfold coordinator_back in Hr.
      case_match; [|done]. simplify_eq. eexists. split; [done|]. naive_solver. }
    cbn zeta. case_decide; [eexists; split; [done|]; naive_solver|].
    destruct (highestOrdinalExcept _ _); [eexists; split; [done|]; naive_solver|].
    rewrite Ec. simpl. eexists; split; [done|]. naive_solver.
  - unfold nextDataInstance. destruct (present data) as [w|] eqn:Hp.
    { eexists. split; [done|]. rewrite (present_Some _ _ Hp). naive_solver. }
    cbn zeta. case_decide; [eexists; split; [done|]; naive_solver|].
    destruct (highestOrdinalExcept _ _).
    + destruct (replicating _ _ _) as [w|] eqn:Hr; [|eexists; split; [done|]; naive_solver].
      eexists. split; [done|]. rewrite (replicating_Some _ _ _ _ Hr). naive_solver.
    + rewrite Ed. simpl. eexists. split; [done|]. unfold restartMain.
      repeat case_match; naive_solver.
Qed.

Lemma find_range_unique (ro1 ro2 : RangeOrder) (f : Instance → bool) (instances : gmap string Instance) :
  (∀ n m i j, instances !! n = Some i → instances !! m = Some j → f i → f j → n = m) →
  List.find (λ '(_, i), f i) (@range ro1 _ instances) = List.find (λ '(_, i), f i) (@range ro2 _ instances).
Proof.
  intros Hu.
  assert (∀ (ro ro' : RangeOrder) x, List.find (λ '(_, i), f i) (@range ro _ instances) = Some x →
    List.find (λ '(_, i), f i) (@range ro' _ instances) = Some x) as Hsome.
  { intros ro ro' [n i] [Hin Hf]%find_Some_elem. apply elem_of_range in Hin.
    destruct (List.find _ (@range ro' _ instances)) as [[m j]|] eqn:E.
    - apply find_Some_elem in E as [Hm Hf']. apply elem_of_range in Hm.
      assert (n = m) as <- by (eapply Hu; [done|done|by rewrite Hf|by rewrite Hf']). congruence.
    - rewrite find_None_iff in E. apply elem_of_range in Hin as Hin'.
      by rewrite (E (n, i) Hin') in Hf. }
  destruct (List.find _ (@range ro1 _ instances)) as [x|] eqn:E1.
  - symmetry. by apply (Hsome ro1 ro2).
  - destruct (List.find _ (@range ro2 _ instances)) as [x|] eqn:E2; [|done].
    apply (Hsome ro2 ro1) in E2. congruence.
Qed.

(** The two loops over the instance map do not make the decision depend on Go's map
    order: in a view with one MAIN and one leader, every order gives the same one. *)
Theorem Next_order_independent (ro1 ro2 : RangeOrder) data coordinators observed lag :
  (∀ i j, i ∈ observed → j ∈ observed → IsMain i → IsMain j → i_Name i = i_Name j) →
  (∀ i j, i ∈ observed → j ∈ observed → IsLeader i → IsLeader j → i_Name i = i_Name j) →
  @Next ro1 data coordinators observed lag = @Next ro2 data coordinators observed lag.
Proof.
  intros Hm Hl.
  assert (@mainInstance ro1 (index observed) = @mainInstance ro2 (index observed)) as Em.
  { unfold mainInstance. rewrite (find_range_unique ro1 ro2); [done|].
    intros n m i j [Hi <-]%index_by_Some_1 [Hj <-]%index_by_Some_1. by apply Hm. }
  assert (@leaderInstance ro1 (index observed) = @leaderInstance ro2 (index observed)) as El.
  { unfold leaderInstance. rewrite (find_range_unique ro1 ro2); [done|].
    intros n m i j [Hi <-]%index_by_Some_1 [Hj <-]%index_by_Some_1. by apply Hl. }
  unfold Next, nextDataInstance, nextCoordinator. by rewrite Em, El.
Qed.

(** ** Two data instances and three coordinators on an old template *)

Module Example.
Definition pod (name instance : string) (ordinal : Z) (hash : string) (ready : bool) : Pod :=
  mkPod name ("uid-" ^^ name) instance ordinal hash false ready.
Definition data : Role := mkRole 2 "new" false
  [pod "db-data-0" "instance_0" 0 "old" true; pod "db-data-1" "instance_1" 1 "old" true].
Definition coordinators : Role := mkRole 3 "new" false
  [pod "db-coordinator-0" "coordinator_0" 0 "old" true; pod "db-coordinator-1" "coordinator_1" 1 "old" true;
   pod "db-coordinator-2" "coordinator_2" 2 "old" true].
Definition row (name role : string) : Instance := mkInstance name (name ^^ ":7687") "" "" "up" role.
Definition observed : list Instance :=
  [row "coordinator_0" "leader"; row "coordinator_1" "follower"; row "coordinator_2" "follower";
   row "instance_0" "main"; row "instance_1" "replica"].
Definition lag : list ReplicationLag :=
  [mkReplicationLag "instance_0" [mkDatabaseLag "memgraph" 9 0];
   mkReplicationLag "instance_1" [mkDatabaseLag "memgraph" 9 0]].

Lemma sound : sound_roles (data, coordinators).
Proof.
  split; [done|done|split; [done|]|split; [done|]|by_decide|by_decide];
    intros p Hp; repeat (apply elem_of_cons in Hp as [->|Hp]; [done|]); by apply elem_of_nil in Hp.
Qed.

Lemma healthy : healthy_view (data, coordinators) (observed, lag).
Proof.
  split; [by vm_compute|by vm_compute| |by vm_compute|];
    intros n Hn; simpl in Hn; repeat (apply elem_of_cons in Hn as [->|Hn]; [by vm_compute|]);
    by apply elem_of_nil in Hn.
Qed.
End Example.

Lemma Next_delete_safe_witness :
  data_pod_may_go Example.data Example.observed Example.lag
    (Example.pod "db-data-1" "instance_1" 1 "old" true) ∨
  coordinator_pod_may_go Example.data Example.coordinators Example.observed
    (Example.pod "db-data-1" "instance_1" 1 "old" true).
Proof.
  apply (Next_delete_safe Example.data Example.coordinators Example.observed Example.lag
    (restarting (Example.pod "db-data-1" "instance_1" 1 "old" true)
       "Restarting data instance pod db-data-1, which is not MAIN")); vm_compute; reflexivity.
Defined.

Lemma roll_completes_witness :
  let views := λ _ : nat, (Example.observed, Example.lag) in
  let roles := passes 5 (λ _, "fresh") views (Example.data, Example.coordinators) in
  left_to_do (Example.data, Example.coordinators) = 5 ∧
  ∃ d, Next roles.1 roles.2 Example.observed Example.lag = Some d ∧ de_Action d = Done.
Proof.
  split; [by vm_compute|].
  apply (roll_completes (λ _, "fresh") (λ _ : nat, (Example.observed, Example.lag))
    (Example.data, Example.coordinators)); [apply Example.sound|intros _; apply Example.healthy|by vm_compute].
Defined.

Lemma Next_order_independent_witness :
  @Next range_map_to_list Example.data Example.coordinators Example.observed Example.lag =
  @Next range_reversed Example.data Example.coordinators Example.observed Example.lag.
Proof.
  apply Next_order_independent; intros i j Hi Hj; unfold Example.observed in *;
  repeat (apply elem_of_cons in Hi as [->|Hi]; [try done|]); try (by apply elem_of_nil in Hi);
  repeat (apply elem_of_cons in Hj as [->|Hj]; [try done|]); by apply elem_of_nil in Hj.
Defined.

(** The serialisation is per role: with data pods outstanding, a data pod is deleted
    whatever state the coordinators' pods are in, so a pod of each role can be down at
    once. *)
Theorem data_restart_ignores_coordinators `{RangeOrder} data coordinators coordinators' observed lag :
  InProgress data = true → r_Stale coordinators = false → r_Stale coordinators' = false →
  Next data coordinators observed lag = Next data coordinators' observed lag.
Proof.
  intros Hd Hc Hc'. unfold Next. rewrite Hc, Hc'. unfold InProgress in Hd. by rewrite Hd.
Qed.

Lemma data_restart_ignores_coordinators_witness :
  let down := mkRole 3 "new" false
    [Example.pod "db-coordinator-0" "coordinator_0" 0 "old" true;
     Example.pod "db-coordinator-1" "coordinator_1" 1 "old" true;
     Example.pod "db-coordinator-2" "coordinator_2" 2 "new" false] in
  ¬ whole down ∧
  Next Example.data down Example.observed Example.lag =
    Some (restarting (Example.pod "db-data-1" "instance_1" 1 "old" true)
            "Restarting data instance pod db-data-1, which is not MAIN").
Proof.
  intros down. split.
  - intros [_ Hr]. apply (Hr (Example.pod "db-coordinator-2" "coordinator_2" 2 "new" false)). do 2 right. left.
  - transitivity (Next Example.data Example.coordinators Example.observed Example.lag).
    + by apply data_restart_ignores_coordinators.
    + vm_compute. reflexivity.
Defined.
