(* ===== verification/Volumes.v ===== *)
(** * Package volumes: growing the claims of a role

    internal/volumes/volumes.go: [Decide] and the reading of live objects it decides on
    ([TemplateSizes], [KeepLiveSizes], [Observe]). [resource.Quantity] is the interface
    [QuantityOrder]: a type with the comparison [Cmp]. Only the fields the package reads
    of a PersistentVolumeClaim and of a StatefulSet are modelled. *)

From S2P Require Import Prelude GoStrings GoErrors.

(** ** Quantities *)

(** [Quantity.Cmp] is a total preorder: two spellings of one amount compare equal. *)
Class QuantityOrder (Q : Type) := {
  zeroQuantity : Q;
  Cmp : Q → Q → comparison;
  Cmp_refl : ∀ a, Cmp a a = Eq;
  Cmp_flip : ∀ a b, Cmp b a = CompOpp (Cmp a b);
  Cmp_lt_trans : ∀ a b c, Cmp a b = Lt → Cmp b c ≠ Gt → Cmp a c = Lt;
  Cmp_le_trans : ∀ a b c, Cmp a b ≠ Gt → Cmp b c = Lt → Cmp a c = Lt
}.

(** [a.Cmp(b) < 0] and [a.Cmp(b) >= 0]. *)
Definition smaller {Q} `{QuantityOrder Q} (a b : Q) : bool :=
  match Cmp a b with Lt => true | _ => false end.
Definition at_least {Q} `{QuantityOrder Q} (a b : Q) : bool := negb (smaller a b).

(** Whole amounts: the quantities of the examples. *)
#[export] Program Instance quantity_Z : QuantityOrder Z := {| zeroQuantity := 0%Z; Cmp := Z.compare |}.
Next Obligation. intros. apply Z.compare_refl. Qed.
Next Obligation. intros. apply Z.compare_antisym. Qed.
Next Obligation. intros a b c. rewrite !Z.compare_lt_iff. intros ? Hbc%Z.compare_ngt_iff. lia. Qed.
Next Obligation. intros a b c Hab%Z.compare_ngt_iff. rewrite !Z.compare_lt_iff. lia. Qed.

(** Quantities compared by the amount a function reads off them. *)
Program Definition quantity_by {Q} (zero : Q) (amount : Q → Z) : QuantityOrder Q :=
  {| zeroQuantity := zero; Cmp a b := (amount a ?= amount b)%Z |}.
Next Obligation. intros. apply Z.compare_refl. Qed.
Next Obligation. intros. apply Z.compare_antisym. Qed.
Next Obligation. intros Q zero amount a b c. rewrite !Z.compare_lt_iff. intros ? Hbc%Z.compare_ngt_iff. lia. Qed.
Next Obligation. intros Q zero amount a b c Hab%Z.compare_ngt_iff. rewrite !Z.compare_lt_iff. lia. Qed.

Section quantities.
Context {Q : Type} `{QuantityOrder Q}.

Lemma smaller_irrefl a : smaller a a = false.
Proof. unfold smaller. by rewrite Cmp_refl. Qed.

Lemma smaller_asym a b : smaller a b = true → smaller b a = false.
Proof. unfold smaller. rewrite (Cmp_flip a b). by destruct (Cmp a b). Qed.

Lemma at_least_refl a : at_least a a = true.
Proof. unfold at_least. by rewrite smaller_irrefl. Qed.

Lemma at_least_trans a b c : at_least a b = true → at_least b c = true → at_least a c = true.
Proof.
  unfold at_least, smaller. pose proof (Cmp_lt_trans a c b) as Ht. pose proof (Cmp_flip b c) as Hf.
  destruct (Cmp a c), (Cmp a b), (Cmp b c); try done; cbn in *; rewrite Hf in Ht; naive_solver.
Qed.
End quantities.

(** ** Data *)

Section data.
Context {Q : Type}.

Record Claim := mkClaim {
  cl_Name : string;
  cl_Template : string;
  cl_Ordinal : Z;
  cl_Bound : bool;
  cl_Request : Q;
  cl_Capacity : Q;
  cl_ResizePending : bool;
  cl_Infeasible : string;
  cl_ResizeError : string
}.

Record Patch := mkPatch { pt_Claim : string; pt_Size : Q }.

Record VDecision := mkVDecision {
  vd_Patches : list Patch;
  vd_Recreate : bool;
  vd_Growing : list string;
  vd_Errors : list string;
  vd_Failed : list string
}.
End data.
Arguments Claim : clear implicits.
Arguments Patch : clear implicits.
Arguments VDecision : clear implicits.

Record VPod := mkVPod { vp_Name : string; vp_Ordinal : Z }.

Record VRole (Q : Type) := mkVRole {
  vr_StatefulSet : string;
  vr_Desired : gmap string Q;
  vr_Live : option (gmap string Q);
  vr_Claims : list (Claim Q);
  vr_Pods : list VPod
}.
Arguments mkVRole {Q}.
Arguments vr_StatefulSet {Q}.
Arguments vr_Desired {Q}.
Arguments vr_Live {Q}.
Arguments vr_Claims {Q}.
Arguments vr_Pods {Q}.

(** A claim template of a StatefulSet: its name and its storage request. *)
Record ClaimTemplate (Q : Type) := mkClaimTemplate { ct_Name : string; ct_Storage : option Q }.
Arguments mkClaimTemplate {Q}.
Arguments ct_Name {Q}.
Arguments ct_Storage {Q}.

Record PVCCondition := mkPVCCondition { pc_Type : string; pc_Status : string; pc_Message : string }.

(** The fields of a PersistentVolumeClaim [Observe] reads; the three quantities and
    statuses are the [storage] entries of their maps. *)
Record PersistentVolumeClaim (Q : Type) := mkPVC {
  pv_Name : string;
  pv_Phase : string;
  pv_Request : option Q;
  pv_Capacity : option Q;
  pv_Conditions : list PVCCondition;
  pv_AllocatedStatus : option string
}.
Arguments mkPVC {Q}.
Arguments pv_Name {Q}.
Arguments pv_Phase {Q}.
Arguments pv_Request {Q}.
Arguments pv_Capacity {Q}.
Arguments pv_Conditions {Q}.
Arguments pv_AllocatedStatus {Q}.

(** The values of the core/v1 API the package names. *)
Definition ClaimBound : string := "Bound".
Definition TrueStatus : string := "True".
Definition FileSystemResizePending : string := "FileSystemResizePending".
Definition ControllerResizeError : string := "ControllerResizeError".
Definition NodeResizeError : string := "NodeResizeError".
Definition ControllerResizeInProgress : string := "ControllerResizeInProgress".
Definition ControllerResizeInfeasible : string := "ControllerResizeInfeasible".
Definition NodeResizePending : string := "NodeResizePending".
Definition NodeResizeInProgress : string := "NodeResizeInProgress".
Definition NodeResizeInfeasible : string := "NodeResizeInfeasible".

(** ** [Decide] *)

Section Decide.
Context {RO : RangeOrder} {Q : Type} `{QuantityOrder Q}.

(** The pods by ordinal, the last one of an ordinal winning. *)
Definition podsByOrdinal (pods : list VPod) : gmap Z VPod :=
  foldl (λ m pod, <[vp_Ordinal pod := pod]> m) ∅ pods.

Definition named (pods : gmap Z VPod) (claim : Claim Q) : string :=
  match pods !! cl_Ordinal claim with
  | Some pod => cl_Name claim ^^ " (pod " ^^ vp_Name pod ^^ ")"
  | None => cl_Name claim
  end.

Definition mounted (pods : gmap Z VPod) (claim : Claim Q) : bool :=
  bool_decide (is_Some (pods !! cl_Ordinal claim)).

(** The case of the loop's [switch] a claim falls in. *)
Inductive verdict := Skipped | ToPatch (want : Q) | GivenUp | Full | StillGrowing | WaitingForMount.

Definition judge (desired : gmap string Q) (pods : gmap Z VPod) (claim : Claim Q) : verdict :=
  match desired !! cl_Template claim with
  | None => Skipped
  | Some want =>
      if negb (cl_Bound claim) then Skipped
      else if smaller (cl_Request claim) want then ToPatch want
      else if negb (bool_decide (cl_Infeasible claim = "")) then GivenUp
      else if at_least (cl_Capacity claim) (cl_Request claim) then Full
      else if mounted pods claim || negb (cl_ResizePending claim) then StillGrowing
      else WaitingForMount
  end.

(** The body of the loop. *)
Definition decide_claim (desired : gmap string Q) (pods : gmap Z VPod)
    (d : VDecision Q) (claim : Claim Q) : VDecision Q :=
  match judge desired pods claim with
  | Skipped | Full | WaitingForMount => d
  | ToPatch want =>
      mkVDecision (vd_Patches d ++ [mkPatch (cl_Name claim) want]) (vd_Recreate d)
        (vd_Growing d ++ [named pods claim]) (vd_Errors d) (vd_Failed d)
  | GivenUp =>
      mkVDecision (vd_Patches d) (vd_Recreate d) (vd_Growing d) (vd_Errors d)
        (vd_Failed d ++ [named pods claim ^^ ": " ^^ cl_Infeasible claim])
  | StillGrowing =>
      mkVDecision (vd_Patches d) (vd_Recreate d) (vd_Growing d ++ [named pods claim])
        (if decide (cl_ResizeError claim = "") then vd_Errors d
         else vd_Errors d ++ [cl_Name claim ^^ ": " ^^ cl_ResizeError claim]) (vd_Failed d)
  end.

Definition templatesGrew (desired live : gmap string Q) : bool :=
  existsb (λ '(name, size), match live !! name with
                            | Some current => smaller current size
                            | None => false
                            end) (range desired).

Definition Decide (role : VRole Q) : VDecision Q :=
  let pods := podsByOrdinal (vr_Pods role) in
  let decision := foldl (decide_claim (vr_Desired role) pods) (mkVDecision [] false [] [] [])
                    (SortByKey cl_Name (vr_Claims role)) in
  mkVDecision (vd_Patches decision)
    (match vr_Live role with
     | None => false
     | Some live => bool_decide (length (vd_Patches decision) = 0) && templatesGrew (vr_Desired role) live
     end)
    (vd_Growing decision) (vd_Errors decision) (vd_Failed decision).
End Decide.

(** ** Reading live objects *)

Section observe.
Context {Q : Type} `{QuantityOrder Q}.

Definition TemplateSizes (templates : list (ClaimTemplate Q)) : gmap string Q :=
  foldl (λ sizes t, <[ct_Name t := default zeroQuantity (ct_Storage t)]> sizes) ∅ templates.

(** [KeepLiveSizes]: the claim templates it leaves on the desired StatefulSet. *)
Definition KeepLiveSizes (desired : list (ClaimTemplate Q)) (live : option (list (ClaimTemplate Q)))
    : list (ClaimTemplate Q) :=
  match live with
  | None => desired
  | Some live =>
      let sizes := TemplateSizes live in
      (λ t, match sizes !! ct_Name t with
            | Some size => mkClaimTemplate (ct_Name t) (Some size)
            | None => t
            end) <$> desired
  end.

Definition collapse (message : string) : string := Join (Fields message) " ".

Definition infeasible (pvc : PersistentVolumeClaim Q) : string :=
  match pv_AllocatedStatus pvc with
  | None => ""
  | Some status =>
      let explain errorCondition :=
        match List.find (λ c, bool_decide (pc_Type c = errorCondition) && negb (bool_decide (pc_Message c = "")))
                (pv_Conditions pvc) with
        | Some c => status ^^ ": " ^^ collapse (pc_Message c)
        | None => status
        end in
      if decide (status = ControllerResizeInfeasible) then explain ControllerResizeError
      else if decide (status = NodeResizeInfeasible) then explain NodeResizeError
      else ""
  end.

Definition resizeError (pvc : PersistentVolumeClaim Q) : string :=
  let status := default "" (pv_AllocatedStatus pvc) in
  let report step :=
    match List.find (λ c, bool_decide (pc_Type c = step) && bool_decide (pc_Status c = TrueStatus) &&
                          negb (bool_decide (pc_Message c = ""))) (pv_Conditions pvc) with
    | Some c => collapse (pc_Message c)
    | None => ""
    end in
  if decide (status = ControllerResizeInProgress) then report ControllerResizeError
  else if decide (status = NodeResizePending ∨ status = NodeResizeInProgress) then report NodeResizeError
  else "".

Definition resizePending (pvc : PersistentVolumeClaim Q) : bool :=
  existsb (λ c, bool_decide (pc_Type c = FileSystemResizePending) && bool_decide (pc_Status c = TrueStatus))
    (pv_Conditions pvc) ||
  bool_decide (default "" (pv_AllocatedStatus pvc) = NodeResizePending).

(** The ordinal a claim of [template] names, when it names one in its canonical form. *)
Definition claimOrdinal (statefulSet template name : string) : option Z :=
  suffix ← CutPrefix name (template ^^ "-" ^^ statefulSet ^^ "-");
  ordinal ← ParseInt32 suffix;
  if (0 <=? ordinal)%Z && bool_decide (Itoa ordinal = suffix) then Some ordinal else None.

Definition observeClaim (pvc : PersistentVolumeClaim Q) (template : string) (ordinal : Z) : Claim Q :=
  mkClaim (pv_Name pvc) template ordinal (bool_decide (pv_Phase pvc = ClaimBound))
    (default zeroQuantity (pv_Request pvc)) (default zeroQuantity (pv_Capacity pvc))
    (resizePending pvc) (infeasible pvc)
    (if decide (infeasible pvc = "") then resizeError pvc else "").

Fixpoint Observe (statefulSet : string) (templates : list string) (pvc : PersistentVolumeClaim Q)
    : option (Claim Q) :=
  match templates with
  | [] => None
  | template :: templates =>
      match claimOrdinal statefulSet template (pv_Name pvc) with
      | Some ordinal => Some (observeClaim pvc template ordinal)
      | None => Observe statefulSet templates pvc
      end
  end.
End observe.

(** ** Lemmas *)

Section lemmas.
Context {RO : RangeOrder} {Q : Type} `{QuantityOrder Q}.
Implicit Types (claim : Claim Q) (role : VRole Q).

(** The claims of the role the loop leaves with a given verdict, in name order. *)
Definition patch_of (desired : gmap string Q) (pods : gmap Z VPod) (claim : Claim Q) : option (Patch Q) :=
  match judge desired pods claim with ToPatch want => Some (mkPatch (cl_Name claim) want) | _ => None end.
Definition growing_of (desired : gmap string Q) (pods : gmap Z VPod) (claim : Claim Q) : option string :=
  match judge desired pods claim with
  | ToPatch _ | StillGrowing => Some (named pods claim) | _ => None end.
Definition failed_of (desired : gmap string Q) (pods : gmap Z VPod) (claim : Claim Q) : option string :=
  match judge desired pods claim with
  | GivenUp => Some (named pods claim ^^ ": " ^^ cl_Infeasible claim) | _ => None end.

Lemma decide_fold desired pods claims d :
  let r := foldl (decide_claim desired pods) d claims in
  vd_Patches r = vd_Patches d ++ omap (patch_of desired pods) claims ∧
  vd_Growing r = vd_Growing d ++ omap (growing_of desired pods) claims ∧
  vd_Failed r = vd_Failed d ++ omap (failed_of desired pods) claims.
Proof.
  cbn zeta. revert d. induction claims as [|c claims IH]; intros d; simpl; [by rewrite !app_nil_r|].
  destruct (IH (decide_claim desired pods d c)) as (-> & -> & ->).
  unfold decide_claim, patch_of, growing_of, failed_of.
  destruct (judge desired pods c); simpl; by rewrite <- ?app_assoc.
Qed.

Lemma Decide_Patches role :
  vd_Patches (Decide role) =
    omap (patch_of (vr_Desired role) (podsByOrdinal (vr_Pods role))) (SortByKey cl_Name (vr_Claims role)).
Proof. unfold Decide. simpl. by destruct (decide_fold (vr_Desired role) (podsByOrdinal (vr_Pods role))
  (SortByKey cl_Name (vr_Claims role)) (mkVDecision [] false [] [] [])) as (-> & _). Qed.

Lemma Decide_Growing role :
  vd_Growing (Decide role) =
    omap (growing_of (vr_Desired role) (podsByOrdinal (vr_Pods role))) (SortByKey cl_Name (vr_Claims role)).
Proof. unfold Decide. simpl. by destruct (decide_fold (vr_Desired role) (podsByOrdinal (vr_Pods role))
  (SortByKey cl_Name (vr_Claims role)) (mkVDecision [] false [] [] [])) as (_ & -> & _). Qed.

Lemma Decide_Failed role :
  vd_Failed (Decide role) =
    omap (failed_of (vr_Desired role) (podsByOrdinal (vr_Pods role))) (SortByKey cl_Name (vr_Claims role)).
Proof. unfold Decide. simpl. by destruct (decide_fold (vr_Desired role) (podsByOrdinal (vr_Pods role))
  (SortByKey cl_Name (vr_Claims role)) (mkVDecision [] false [] [] [])) as (_ & _ & ->). Qed.

Lemma elem_of_omap_claims {A} (f : Claim Q → option A) role a :
  a ∈ omap f (SortByKey cl_Name (vr_Claims role)) ↔ ∃ claim, claim ∈ vr_Claims role ∧ f claim = Some a.
Proof. rewrite list_elem_of_omap. setoid_rewrite SortByKey_perm. naive_solver. Qed.

Lemma omap_claims_nil {A} (f : Claim Q → option A) role :
  omap f (SortByKey cl_Name (vr_Claims role)) = [] ↔ ∀ claim, claim ∈ vr_Claims role → f claim = None.
Proof.
  split.
  - intros E claim Hc. destruct (f claim) as [a|] eqn:Ef; [|done].
    assert (a ∈ omap f (SortByKey cl_Name (vr_Claims role))) as Hin by (apply elem_of_omap_claims; eauto).
    rewrite E in Hin. by apply elem_of_nil in Hin.
  - intros Hall. destruct (omap _ _) as [|a l] eqn:E; [done|].
    assert (a ∈ omap f (SortByKey cl_Name (vr_Claims role))) as (claim & Hc & Hf)%elem_of_omap_claims
      by (rewrite E; left). rewrite Hall in Hf; done.
Qed.

Lemma judge_ToPatch desired pods claim want :
  judge desired pods claim = ToPatch want ↔
  desired !! cl_Template claim = Some want ∧ cl_Bound claim = true ∧ smaller (cl_Request claim) want = true.
Proof.
  unfold judge. destruct (desired !! cl_Template claim) as [w|]; [|naive_solver].
  destruct (cl_Bound claim); simpl; [|naive_solver].
  destruct (smaller (cl_Request claim) w) eqn:E; [naive_solver|].
  repeat case_match; naive_solver congruence.
Qed.

Lemma templatesGrew_spec desired live :
  templatesGrew desired live = true ↔
  ∃ name size current, desired !! name = Some size ∧ live !! name = Some current ∧ smaller current size = true.
Proof.
  unfold templatesGrew. rewrite existsb_true_iff. split.
  - intros ([name size] & Hin%elem_of_range & Hs). destruct (live !! name) eqn:E; [|done]. eauto 10.
  - intros (name & size & current & Hd & Hl & Hs). exists (name, size). rewrite elem_of_range, Hl. done.
Qed.

Lemma TemplateSizes_snoc (l : list (ClaimTemplate Q)) t :
  TemplateSizes (l ++ [t]) = <[ct_Name t := default zeroQuantity (ct_Storage t)]> (TemplateSizes l).
Proof. unfold TemplateSizes. by rewrite foldl_app. Qed.
End lemmas.

(** ** Properties *)

(** The state of the role once the API server has accepted the patches: every claim asked
    to grow requests its new size. *)
Definition patched {Q} (patches : list (Patch Q)) (claim : Claim Q) : Claim Q :=
  match List.find (λ p, bool_decide (pt_Claim p = cl_Name claim)) patches with
  | Some p => mkClaim (cl_Name claim) (cl_Template claim) (cl_Ordinal claim) (cl_Bound claim) (pt_Size p)
                (cl_Capacity claim) (cl_ResizePending claim) (cl_Infeasible claim) (cl_ResizeError claim)
  | None => claim
  end.
Definition applyPatches {Q} (role : VRole Q) (patches : list (Patch Q)) : VRole Q :=
  mkVRole (vr_StatefulSet role) (vr_Desired role) (vr_Live role) (patched patches <$> vr_Claims role)
    (vr_Pods role).

(** A pass patches exactly the bound claims that ask for less than their template
    declares, each to the declared size: a patch never shrinks a claim, and never touches
    one no template names or one that is not bound. *)
Lemma patches_spec `{RangeOrder} {Q} `{QuantityOrder Q} (role : VRole Q) p :
  p ∈ vd_Patches (Decide role) ↔
  ∃ claim, claim ∈ vr_Claims role ∧ pt_Claim p = cl_Name claim ∧ cl_Bound claim = true ∧
    vr_Desired role !! cl_Template claim = Some (pt_Size p) ∧
    smaller (cl_Request claim) (pt_Size p) = true.
Proof.
  rewrite Decide_Patches, elem_of_omap_claims. unfold patch_of. split.
  - intros (claim & Hc & Hp). destruct (judge _ _ claim) eqn:E; simplify_eq.
    apply judge_ToPatch in E. naive_solver.
  - intros (claim & Hc & Hn & Hb & Hd & Hs). exists claim. split; [done|].
    rewrite (proj2 (judge_ToPatch _ _ claim (pt_Size p))) by done. rewrite <- Hn. by destruct p.
Qed.

(** A recreate: nothing is left to patch, and a declared size outgrew the live template. *)
Lemma recreate_spec `{RangeOrder} {Q} `{QuantityOrder Q} (role : VRole Q) :
  vd_Recreate (Decide role) = true →
  vd_Patches (Decide role) = [] ∧
  ∃ live name size current, vr_Live role = Some live ∧ vr_Desired role !! name = Some size ∧
    live !! name = Some current ∧ smaller current size = true.
Proof.
  unfold Decide. simpl. destruct (vr_Live role) as [live|]; simpl; [|done].
  intros [Hp Hg]%andb_true_iff. apply bool_decide_eq_true, length_zero_iff_nil in Hp.
  apply templatesGrew_spec in Hg as (?&?&?&?&?&?). split; [done|]. eauto 10.
Qed.

(** The StatefulSet is recreated only once no claim is left to patch, only when it
    exists, and only because a declared size is larger than the one it carries; and once
    it carries the declared sizes it is never recreated again. *)
Theorem recreate_once `{RangeOrder} {Q} `{QuantityOrder Q} (role : VRole Q) :
  (vd_Recreate (Decide role) = true →
     vd_Patches (Decide role) = [] ∧
     ∃ live name size current, vr_Live role = Some live ∧ vr_Desired role !! name = Some size ∧
       live !! name = Some current ∧ smaller current size = true) ∧
  (vr_Live role = Some (vr_Desired role) → vd_Recreate (Decide role) = false).
Proof.
  split; [apply recreate_spec|]. unfold Decide. simpl. intros ->. apply andb_false_iff. right.
  apply not_true_iff_false. intros (n & s & c & Hs & Hc & Hlt)%templatesGrew_spec. simplify_eq.
  by rewrite smaller_irrefl in Hlt.
Qed.

(** One round of accepted patches is enough: with claims of distinct names, the next
    pass has nothing to patch, so it is free to recreate the StatefulSet. *)
Theorem patches_converge `{RangeOrder} {Q} `{QuantityOrder Q} (role : VRole Q) :
  NoDup (cl_Name <$> vr_Claims role) →
  vd_Patches (Decide (applyPatches role (vd_Patches (Decide role)))) = [].
Proof.
  intros Hnd. remember (vd_Patches (Decide role)) as ps eqn:Eps. rewrite Decide_Patches in Eps.
  rewrite Decide_Patches. apply omap_claims_nil.
  intros claim' (claim & -> & Hc)%list_elem_of_fmap. simpl.
  unfold patch_of at 1. destruct (judge _ _ _) eqn:Ej; try done. exfalso.
  apply judge_ToPatch in Ej as (Hd & Hb & Hs). unfold patched in *.
  destruct (List.find _ _) as [p|] eqn:Ef; simpl in *.
  - apply find_Some_elem in Ef as [Hp Hn]. apply bool_decide_eq_true in Hn.
    rewrite Eps, elem_of_omap_claims in Hp. destruct Hp as (claim2 & Hc2 & Hp).
    unfold patch_of in Hp. destruct (judge _ _ claim2) eqn:Ej2; simplify_eq.
    apply judge_ToPatch in Ej2 as (Hd2 & _ & _). simpl in *.
    assert (claim = claim2) as ->; [|simplify_eq; by rewrite smaller_irrefl in Hs].
    apply list_elem_of_lookup in Hc as [i Hi], Hc2 as [j Hj].
    assert (i = j) as ->; [|congruence].
    eapply (NoDup_lookup _ _ _ (cl_Name claim) Hnd); rewrite list_lookup_fmap; [by rewrite Hi|].
    rewrite Hj. simpl. by rewrite Hn.
  - rewrite find_None_iff in Ef.
    assert (mkPatch (cl_Name claim) want ∈ ps) as Hin.
    { rewrite Eps, elem_of_omap_claims. exists claim. split; [done|]. unfold patch_of.
      by rewrite (proj2 (judge_ToPatch _ _ claim want)). }
    apply Ef in Hin. simpl in Hin. by rewrite bool_decide_eq_true_2 in Hin.
Qed.

(** A claim is settled: it asks for at least its declared size, no provider has given up on
    it, and its filesystem holds what it asks for, or only waits for a pod to mount it. *)
Definition claim_settled {Q} `{QuantityOrder Q} (role : VRole Q) (claim : Claim Q) : Prop :=
  ∀ want, vr_Desired role !! cl_Template claim = Some want → cl_Bound claim = true →
    at_least (cl_Request claim) want = true ∧ cl_Infeasible claim = "" ∧
    (at_least (cl_Capacity claim) (cl_Request claim) = true ∨
     podsByOrdinal (vr_Pods role) !! cl_Ordinal claim = None ∧ cl_ResizePending claim = true).

(** The resize of a role is reported done, with nothing growing and nothing failed,
    exactly when every bound claim of its templates is settled; in particular a claim
    retained beyond the replica count never holds it back once its volume has grown. *)
Theorem resize_done_iff `{RangeOrder} {Q} `{QuantityOrder Q} (role : VRole Q) :
  (vd_Growing (Decide role) = [] ∧ vd_Failed (Decide role) = []) ↔
  ∀ claim, claim ∈ vr_Claims role → claim_settled role claim.
Proof.
  rewrite Decide_Growing, Decide_Failed, !omap_claims_nil.
  transitivity (∀ claim, claim ∈ vr_Claims role →
    growing_of (vr_Desired role) (podsByOrdinal (vr_Pods role)) claim = None ∧
    failed_of (vr_Desired role) (podsByOrdinal (vr_Pods role)) claim = None).
  { split; [intros [H1 H2] c Hc; auto|intros Ha; split; intros c Hc; apply Ha, Hc]. }
  apply forall_proper. intros claim.
  enough (growing_of (vr_Desired role) (podsByOrdinal (vr_Pods role)) claim = None ∧
    failed_of (vr_Desired role) (podsByOrdinal (vr_Pods role)) claim = None ↔ claim_settled role claim) by tauto.
  unfold growing_of, failed_of, claim_settled, judge, mounted, at_least.
  destruct (vr_Desired role !! cl_Template claim) as [want|]; [|naive_solver].
  destruct (cl_Bound claim); simpl; [|naive_solver].
  destruct (smaller (cl_Request claim) want) eqn:Es; simpl.
  { split; [by intros [? _]|]. intros Hs. destruct (Hs want) as (Hf & _); [done..|]. by rewrite Es in Hf. }
  case_bool_decide as Hi; simpl.
  2: { split; [by intros [_ ?]|]. intros Hs. destruct (Hs want) as (_ & Hf & _); done. }
  destruct (smaller (cl_Capacity claim) (cl_Request claim)); simpl.
  2: { split; [|done]. intros _ w [= <-] _. rewrite Es. auto. }
  destruct (podsByOrdinal (vr_Pods role) !! cl_Ordinal claim) as [pod|] eqn:Ep; simpl.
  { split; [by intros [? _]|]. intros Hs. destruct (Hs want) as (_ & _ & [?|[? _]]); done. }
  destruct (cl_ResizePending claim); simpl.
  - split; [|done]. intros _ w [= <-] _. rewrite Es. auto.
  - split; [by intros [? _]|]. intros Hs. destruct (Hs want) as (_ & _ & [?|[_ ?]]); done.
Qed.

(** The name the StatefulSet controller gives a claim. *)
Definition claimName (template statefulSet : string) (ordinal : Z) : string :=
  template ^^ "-" ^^ statefulSet ^^ "-" ^^ Itoa ordinal.

Lemma claimOrdinal_spec statefulSet template name ordinal :
  claimOrdinal statefulSet template name = Some ordinal ↔
  name = claimName template statefulSet ordinal ∧ (0 ≤ ordinal)%Z ∧ is_int32 ordinal.
Proof.
  unfold claimOrdinal, claimName.
  assert (∀ s, template ^^ "-" ^^ statefulSet ^^ "-" ^^ s = (template ^^ "-" ^^ statefulSet ^^ "-") ^^ s) as E
    by (intros; by rewrite !app_assoc_s).
  rewrite E. split.
  - destruct (CutPrefix name _) as [suffix|] eqn:Ec; simpl; [|done]. apply CutPrefix_Some in Ec as ->.
    destruct (ParseInt32 suffix) as [z|] eqn:Ep; simpl; [|done].
    apply ParseInt32_range in Ep. case_match eqn:Eb; [|done]. intros [= <-].
    apply andb_true_iff in Eb as [Hz%Z.leb_le Hi%bool_decide_eq_true]. by rewrite Hi.
  - intros (-> & Hz & Hr). rewrite CutPrefix_app. simpl. rewrite ParseInt32_Itoa by done. simpl.
    rewrite bool_decide_eq_true_2 by done. by rewrite (proj2 (Z.leb_le _ _) Hz).
Qed.

(** Reading a claim back: [Observe] accepts exactly the claims whose name the
    StatefulSet controller gives for one of the templates and an ordinal, whole and in its
    canonical decimal form, and reports that template, that ordinal and the live sizes. *)
Theorem Observe_roundtrip {Q} `{QuantityOrder Q} statefulSet templates (pvc : PersistentVolumeClaim Q) :
  (∀ claim, Observe statefulSet templates pvc = Some claim →
     cl_Name claim = pv_Name pvc ∧ cl_Template claim ∈ templates ∧
     pv_Name pvc = claimName (cl_Template claim) statefulSet (cl_Ordinal claim) ∧
     (0 ≤ cl_Ordinal claim)%Z ∧
     cl_Request claim = default zeroQuantity (pv_Request pvc) ∧
     cl_Capacity claim = default zeroQuantity (pv_Capacity pvc)) ∧
  (Observe statefulSet templates pvc = None ↔
   ∀ template ordinal, template ∈ templates → (0 ≤ ordinal)%Z → is_int32 ordinal →
     pv_Name pvc ≠ claimName template statefulSet ordinal).
Proof.
  induction templates as [|t templates [IH1 IH2]]; simpl; [split; [done|set_solver]|].
  destruct (claimOrdinal statefulSet t (pv_Name pvc)) as [o|] eqn:E.
  - apply claimOrdinal_spec in E as (Hn & Hz & Hr). split.
    + intros claim [= <-]. simpl. split_and!; [done|left|done..].
    + split; [done|]. intros Hall. exfalso. apply (Hall t o); [left|done..].
  - assert (∀ o, (0 ≤ o)%Z → is_int32 o → pv_Name pvc ≠ claimName t statefulSet o) as Hno.
    { intros o Hz Hr Hn. assert (claimOrdinal statefulSet t (pv_Name pvc) = Some o) as E'
        by (by apply claimOrdinal_spec). congruence. }
    split.
    + intros claim (?&?&?)%IH1. split_and!; [done|by right|tauto..].
    + rewrite IH2. split; [intros Hall u o Hu%elem_of_cons|]; [naive_solver|].
      intros Hall u o Hu. apply Hall. by right.
Qed.

Lemma TemplateSizes_lookup {Q} `{QuantityOrder Q} (l : list (ClaimTemplate Q)) name size :
  TemplateSizes l !! name = Some size →
  ∃ t, t ∈ l ∧ ct_Name t = name ∧ default zeroQuantity (ct_Storage t) = size.
Proof.
  induction l as [|t l IH] using rev_ind; [done|]. rewrite TemplateSizes_snoc.
  setoid_rewrite elem_of_app. setoid_rewrite list_elem_of_singleton.
  destruct (decide (ct_Name t = name)) as [<-|?].
  - rewrite lookup_insert_eq. naive_solver.
  - rewrite lookup_insert_ne by done. naive_solver.
Qed.

(** An apply restates the sizes the live StatefulSet already has: every template
    [KeepLiveSizes] leaves that the live one also carries has the live size, its name is
    untouched, and no claim template then reads as grown against the live ones. *)
Theorem KeepLiveSizes_restates `{RangeOrder} {Q} `{QuantityOrder Q} (desired live : list (ClaimTemplate Q)) :
  (∀ name size, TemplateSizes (KeepLiveSizes desired (Some live)) !! name = Some size →
     TemplateSizes live !! name = Some size ∨ TemplateSizes live !! name = None) ∧
  ct_Name <$> KeepLiveSizes desired (Some live) = ct_Name <$> desired ∧
  templatesGrew (TemplateSizes (KeepLiveSizes desired (Some live))) (TemplateSizes live) = false.
Proof.
  assert (∀ name size, TemplateSizes (KeepLiveSizes desired (Some live)) !! name = Some size →
     TemplateSizes live !! name = Some size ∨ TemplateSizes live !! name = None) as Hkeep.
  { intros name size (t' & (t & -> & Ht)%list_elem_of_fmap & Hn & Hs)%TemplateSizes_lookup.
    destruct (TemplateSizes live !! ct_Name t) as [s|] eqn:E; simpl in *; subst; [by left; rewrite E|by right]. }
  split_and!; [done| |].
  - unfold KeepLiveSizes. rewrite <- list_fmap_compose. apply list_fmap_ext. intros i t _. simpl.
    by destruct (TemplateSizes live !! ct_Name t).
  - apply not_true_iff_false. intros (n & s & c & Hs & Hc & Hlt)%templatesGrew_spec.
    apply Hkeep in Hs as [Hs|Hs]; simplify_eq. by rewrite smaller_irrefl in Hlt.
Qed.

(** ** A data role grown from 10 to 20 *)

Module Example.
Definition claim (ordinal request capacity : Z) : Claim Z :=
  mkClaim (claimName "lib" "db-data" ordinal) "lib" ordinal true request capacity false "" "".
Definition role : VRole Z :=
  mkVRole "db-data" {[ "lib" := 20%Z ]} (Some {[ "lib" := 10%Z ]}) [claim 1 10 10; claim 0 20 10]
    [mkVPod "db-data-0" 0; mkVPod "db-data-1" 1].
Definition grown : VRole Z :=
  mkVRole "db-data" {[ "lib" := 20%Z ]} (Some {[ "lib" := 10%Z ]}) [claim 1 20 20; claim 0 20 20] [].
End Example.

Example Decide_example :
  vd_Patches (Decide Example.role) = [mkPatch "lib-db-data-1" 20%Z] ∧
  vd_Growing (Decide Example.role) = ["lib-db-data-0 (pod db-data-0)"; "lib-db-data-1 (pod db-data-1)"].
Proof. vm_compute. done. Qed.

Lemma recreate_once_witness :
  vd_Recreate (Decide Example.grown) = true ∧ vd_Patches (Decide Example.grown) = [].
Proof.
  assert (vd_Recreate (Decide Example.grown) = true) as Hr by (vm_compute; reflexivity).
  split; [exact Hr|]. exact (proj1 (proj1 (recreate_once Example.grown) Hr)).
Defined.

Lemma patches_converge_witness :
  vd_Patches (Decide Example.role) ≠ [] ∧
  vd_Patches (Decide (applyPatches Example.role (vd_Patches (Decide Example.role)))) = [].
Proof.
  split; [by vm_compute|]. apply (patches_converge Example.role). by_decide.
Defined.
