(* ===== verification/Settings.v ===== *)
(** * Package settings: run-time settings and the classification of flags

    internal/settings/settings.go and secrets.go. A settings view is a map from setting name
    to value; the loops over maps take their order from [RangeOrder], and the theorems show
    the order does not show in the result. *)

From S2P Require Import Prelude GoStrings.

(** ** Definitions *)

Definition alsoLogToStderr : string := "also_log_to_stderr".
Definition schedulerFlag : string := "scheduler".

(** The rows of [runtimeSettings], flag name to setting name. *)
Definition runtimeSettings_rows : list (string * string) :=
  [("bolt_server_name_for_init", "server.name");
   ("query_execution_timeout_sec", "query.timeout");
   ("hops_limit_partial_results", "hops_limit_partial_results");
   ("log_level", "log.level");
   (alsoLogToStderr, "log.to_stderr");
   ("cartesian_product_enabled", "cartesian-product-enabled");
   ("debug_query_plans", "debug-query-plans");
   ("storage_gc_aggressive", "storage-gc-aggressive");
   ("storage_omit_vector_index_properties_on_return", "storage.omit_vector_index_properties_on_return");
   ("timezone", "timezone");
   ("storage_snapshot_interval", "storage.snapshot.interval");
   ("file_download_conn_timeout_sec", "file.download_conn_timeout_sec");
   ("storage_access_timeout_sec", "storage.access_timeout_sec");
   ("log_min_duration_ms", "log.min_duration_ms");
   ("log_failed_queries", "log.failed_queries");
   ("log_query_plan", "log.query_plan")].
Definition runtimeSettings : gmap string string := list_to_map runtimeSettings_rows.

Arguments runtimeSettings : simpl never.

Definition Normalize (flag : string) : string := ReplaceAll (TrimLeft flag "-") "-" "_".

Definition Setting (flag : string) : option string := runtimeSettings !! Normalize flag.
Arguments Setting : simpl never.
Definition IsRuntime (flag : string) : bool :=
  match Setting flag with Some _ => true | None => false end.
Arguments IsRuntime : simpl never.

Record Change := mkChange { ch_Setting : string; ch_Value : string }.

#[export] Instance Change_eq_dec : EqDecision Change.
Proof. solve_decision. Defined.

(** A desired setting the view does not hold at its value. *)
Definition differs (observed : gmap string string) (setting value : string) : bool :=
  negb (bool_decide (observed !! setting = Some value)).

Section Plan.
Context {RO : RangeOrder}.

Definition Diff (desired observed : gmap string string) : list Change :=
  SortByKey ch_Setting
    ((λ '(setting, value), mkChange setting value) <$>
       List.filter (λ '(setting, value), differs observed setting value) (range desired)).

Definition desired_settings (flags : gmap string string) : gmap string string :=
  foldl (λ desired '(flag, value),
           match Setting flag with
           | Some setting => <[setting := value]> desired
           | None => desired
           end) ∅ (range flags).

Definition Plan (flags observed : gmap string string) : list Change :=
  Diff (desired_settings flags) observed.
End Plan.

Definition hiddenFlags (name : string) : bool :=
  bool_decide (name = alsoLogToStderr) || bool_decide (name = schedulerFlag).

Record Classification := mkClassification {
  cf_Flags : list string;
  cf_CoordinatorSettings : list string;
  cf_Unknown : list string
}.

Definition hasKey (view : gmap string string) (name : string) : bool :=
  bool_decide (is_Some (view !! name)).

Inductive key_class := IsFlag | IsCoordinatorSetting | IsUnknown.

#[export] Instance key_class_eq_dec : EqDecision key_class.
Proof. solve_decision. Defined.

(** The [switch] of [Classify]. *)
Definition classOf (config coordinatorSettings : gmap string string) (name : string) : key_class :=
  if hiddenFlags name then IsFlag
  else if hasKey config name then IsFlag
  else if hasKey coordinatorSettings name then IsCoordinatorSetting
  else IsUnknown.

Definition classify_key (config coordinatorSettings : gmap string string) (c : Classification)
    (key : string) : Classification :=
  let name := Normalize key in
  match classOf config coordinatorSettings name with
  | IsFlag => mkClassification (cf_Flags c ++ [name]) (cf_CoordinatorSettings c) (cf_Unknown c)
  | IsCoordinatorSetting => mkClassification (cf_Flags c) (cf_CoordinatorSettings c ++ [name]) (cf_Unknown c)
  | IsUnknown => mkClassification (cf_Flags c) (cf_CoordinatorSettings c) (cf_Unknown c ++ [name])
  end.

Definition Classify (keys : list string) (config coordinatorSettings : gmap string string) : Classification :=
  let c := foldl (classify_key config coordinatorSettings) (mkClassification [] [] []) keys in
  mkClassification (SortStrings (cf_Flags c)) (SortStrings (cf_CoordinatorSettings c))
    (SortStrings (cf_Unknown c)).

(** ** The license and AWS settings (secrets.go) *)

Definition LicenseSetting : string := "enterprise.license".
Definition OrganizationSetting : string := "organization.name".
Definition AWSAccessKeySetting : string := "aws.access_key".
Definition AWSSecretKeySetting : string := "aws.secret_key".
Definition AWSRegionSetting : string := "aws.region".
Definition AWSEndpointURLSetting : string := "aws.endpoint_url".

Definition License (license organization : string) (observed : gmap string string) : list Change :=
  (if decide ((observed !!? OrganizationSetting | "") ≠ organization)
   then [mkChange OrganizationSetting organization] else []) ++
  (if decide ((observed !!? LicenseSetting | "") ≠ license)
   then [mkChange LicenseSetting license] else []).

(** ** Issuing changes *)

(** What a settings view reports once the instance has accepted the changes, in order. *)
Definition issue (observed : gmap string string) (changes : list Change) : gmap string string :=
  foldl (λ m c, <[ch_Setting c := ch_Value c]> m) observed changes.

(** ** Lemmas *)

Lemma free_of_ReplaceAll s (old new : ascii) : old ≠ new → free_of old (ReplaceAll s old new) = true.
Proof.
  intros Hne. unfold free_of. induction s as [|c s IH]; [done|]. simpl.
  case_decide; simpl; rewrite IH, andb_true_r; by rewrite bool_decide_eq_false_2 by congruence.
Qed.

Lemma TrimLeft_free s c : free_of c s = true → TrimLeft s c = s.
Proof.
  destruct s as [|d s]; [done|]. unfold free_of. simpl. intros [Hd _]%andb_true_iff.
  apply negb_true_iff, bool_decide_eq_false in Hd. by rewrite decide_False by congruence.
Qed.

Lemma ReplaceAll_free s old new : free_of old s = true → ReplaceAll s old new = s.
Proof.
  unfold free_of. induction s as [|d s IH]; [done|]. simpl. intros [Hd Hs]%andb_true_iff.
  apply negb_true_iff, bool_decide_eq_false in Hd. rewrite decide_False by congruence. f_equal. auto.
Qed.

Lemma Normalize_idem flag : Normalize (Normalize flag) = Normalize flag.
Proof.
  unfold Normalize. set (s := ReplaceAll (TrimLeft flag "-") "-" "_").
  assert (free_of "-" s = true) as Hf by (by apply free_of_ReplaceAll).
  by rewrite (TrimLeft_free s), ReplaceAll_free.
Qed.

Lemma Setting_Normalize flag : Setting (Normalize flag) = Setting flag.
Proof. unfold Setting. by rewrite Normalize_idem. Qed.

(** No two flags are the same setting. *)
Lemma runtimeSettings_inj f g setting :
  runtimeSettings !! f = Some setting → runtimeSettings !! g = Some setting → f = g.
Proof.
  assert (NoDup runtimeSettings_rows.*1) as H1 by by_decide.
  assert (NoDup runtimeSettings_rows.*2) as H2 by by_decide.
  unfold runtimeSettings. rewrite <- !elem_of_list_to_map by done. intros Hf Hg.
  apply list_elem_of_lookup in Hf as [i Hi], Hg as [j Hj].
  assert (i = j) as ->; [|congruence].
  eapply (NoDup_lookup _ _ _ setting H2); rewrite list_lookup_fmap; [by rewrite Hi|by rewrite Hj].
Qed.

Section Diff.
Context {RO : RangeOrder}.

Lemma elem_of_Diff desired observed c :
  c ∈ Diff desired observed ↔
  desired !! ch_Setting c = Some (ch_Value c) ∧ observed !! ch_Setting c ≠ Some (ch_Value c).
Proof.
  unfold Diff. rewrite SortByKey_perm, list_elem_of_fmap. setoid_rewrite elem_of_bfilter. unfold differs. split.
  - intros ([s v] & -> & Hin & Hd). apply elem_of_range in Hin. bool_split. done.
  - intros [Hd Ho]. exists (ch_Setting c, ch_Value c). split; [by destruct c|].
    split; [by apply elem_of_range|]. apply negb_true_iff. by apply bool_decide_eq_false.
Qed.

Lemma Diff_keys desired observed : NoDup (ch_Setting <$> Diff desired observed).
Proof.
  unfold Diff. rewrite SortByKey_perm, <- list_fmap_compose.
  pose proof (NoDup_range_fst desired) as Hnd. induction (range desired) as [|[s v] l IH]; [constructor|].
  cbn [fmap list_fmap] in Hnd. apply NoDup_cons in Hnd as [Hs Hnd]. simpl.
  destruct (differs observed s v); [|auto]. cbn [fmap list_fmap]. apply NoDup_cons. split; [|auto].
  intros ([s' v'] & E & [Hin _]%elem_of_bfilter)%list_elem_of_fmap. simpl in E. subst.
  apply Hs. by apply (list_elem_of_fmap_2 fst) in Hin.
Qed.

Lemma issue_snoc observed changes c :
  issue observed (changes ++ [c]) = <[ch_Setting c := ch_Value c]> (issue observed changes).
Proof. unfold issue. by rewrite foldl_app. Qed.

Lemma issue_lookup_notin observed changes k :
  k ∉ ch_Setting <$> changes → issue observed changes !! k = observed !! k.
Proof.
  induction changes as [|c changes IH] using rev_ind; [done|]. rewrite issue_snoc, fmap_app.
  intros Hk. rewrite lookup_insert_ne by set_solver. apply IH. set_solver.
Qed.

Lemma issue_lookup_in observed changes c :
  NoDup (ch_Setting <$> changes) → c ∈ changes → issue observed changes !! ch_Setting c = Some (ch_Value c).
Proof.
  induction changes as [|d changes IH] using rev_ind; [set_solver|]. rewrite issue_snoc, fmap_app.
  intros (Hnd & Hd & _)%NoDup_app [Hc|Hc]%elem_of_app.
  - assert (ch_Setting d ≠ ch_Setting c) as Hne.
    { intros E. apply (Hd (ch_Setting c)); [by apply list_elem_of_fmap_2|]. rewrite <- E. left. }
    rewrite lookup_insert_ne by done. auto.
  - apply list_elem_of_singleton in Hc as ->. by rewrite lookup_insert_eq.
Qed.

Lemma issue_Diff desired observed k :
  issue observed (Diff desired observed) !! k =
    match desired !! k with Some v => Some v | None => observed !! k end.
Proof.
  destruct (desired !! k) as [v|] eqn:Hd.
  - destruct (decide (observed !! k = Some v)) as [Ho|Ho].
    + rewrite issue_lookup_notin; [done|]. intros (c & -> & [Hc Hn]%elem_of_Diff)%list_elem_of_fmap. congruence.
    + apply (issue_lookup_in _ _ (mkChange k v)); [apply Diff_keys|]. by apply elem_of_Diff.
  - apply issue_lookup_notin. intros (c & -> & [Hc Hn]%elem_of_Diff)%list_elem_of_fmap. congruence.
Qed.
End Diff.

Lemma Diff_order_independent (ro1 ro2 : RangeOrder) desired observed :
  @Diff ro1 desired observed = @Diff ro2 desired observed.
Proof.
  unfold Diff. apply SortByKey_cong.
  - pose proof (@Diff_keys ro1 desired observed) as Hk. unfold Diff in Hk. by rewrite SortByKey_perm in Hk.
  - apply fmap_Permutation.
    assert (@range ro1 _ desired ≡ₚ @range ro2 _ desired) as Hp by (by rewrite !range_perm).
    induction Hp; simpl; [done| | |by etransitivity].
    + case_match; by rewrite ?IHHp.
    + repeat case_match; try done. constructor.
Qed.

(** Admission lets no spec spell one flag twice. *)
Definition spelled_once (flags : gmap string string) : Prop :=
  ∀ f g, is_Some (flags !! f) → is_Some (flags !! g) → Normalize f = Normalize g → f = g.

#[export] Instance spelled_once_dec flags : Decision (spelled_once flags).
Proof.
  apply (iff_decision _ (Forall (λ x, Forall (λ y, Normalize x.1 = Normalize y.1 → x.1 = y.1)
    (map_to_list flags)) (map_to_list flags))).
  unfold spelled_once. rewrite Forall_forall. setoid_rewrite Forall_forall. split.
  - intros Hso [f v] Hf%elem_of_map_to_list [g w] Hg%elem_of_map_to_list. simpl. apply Hso; eauto.
  - intros Hall f g [v Hf%elem_of_map_to_list] [w Hg%elem_of_map_to_list]. apply (Hall (f, v) Hf (g, w) Hg).
Defined.

Lemma desired_settings_spec `{RangeOrder} flags setting value :
  spelled_once flags →
  desired_settings flags !! setting = Some value ↔
  ∃ flag, flags !! flag = Some value ∧ Setting flag = Some setting.
Proof.
  intros Hso. unfold desired_settings.
  assert (∀ l, (∀ kv, kv ∈ l → flags !! kv.1 = Some kv.2) →
    foldl (λ desired '(flag, value), match Setting flag with
             | Some setting => <[setting := value]> desired | None => desired end) (∅ : gmap string string) l !! setting = Some value ↔
    ∃ flag, (flag, value) ∈ l ∧ Setting flag = Some setting) as Hl.
  2: { rewrite Hl by (intros [k v]; apply elem_of_range). by setoid_rewrite elem_of_range. }
  intros l. induction l as [|[f v] l IH] using rev_ind; intros Hin.
  { simpl. rewrite lookup_empty. split; [done|]. by intros (? & ?%elem_of_nil & _). }
  assert (flags !! f = Some v) as Hf by (apply (Hin (f, v)); apply elem_of_app; right; left).
  assert (∀ kv, kv ∈ l → flags !! kv.1 = Some kv.2) as Hin' by (intros kv ?; apply Hin, elem_of_app; by left).
  rewrite foldl_app. cbn [foldl]. setoid_rewrite elem_of_app. setoid_rewrite list_elem_of_singleton.
  destruct (Setting f) as [s|] eqn:Es; [destruct (decide (s = setting)) as [->|Hne]|].
  - rewrite lookup_insert_eq. split; [intros [= ->]; eauto|]. intros (g & [Hg|Hg] & Hs); [|congruence].
    apply Hin' in Hg. simpl in Hg.
    assert (f = g) as <-; [|congruence].
    apply Hso; [by rewrite Hf|by rewrite Hg|]. unfold Setting in *. by eapply runtimeSettings_inj.
  - rewrite lookup_insert_ne by done. rewrite (IH Hin'). split; intros (g & Hg & Hs); exists g; [by auto|].
    destruct Hg; [done|congruence].
  - rewrite (IH Hin'). split; intros (g & Hg & Hs); exists g; [by auto|]. destruct Hg; [done|congruence].
Qed.

Lemma classify_fold config coordinatorSettings keys c :
  let r := foldl (classify_key config coordinatorSettings) c keys in
  let has k name := bool_decide (classOf config coordinatorSettings name = k) in
  cf_Flags r = cf_Flags c ++ List.filter (has IsFlag) (Normalize <$> keys) ∧
  cf_CoordinatorSettings r = cf_CoordinatorSettings c ++ List.filter (has IsCoordinatorSetting) (Normalize <$> keys) ∧
  cf_Unknown r = cf_Unknown c ++ List.filter (has IsUnknown) (Normalize <$> keys).
Proof.
  cbn zeta. revert c. induction keys as [|k keys IH]; intros c; simpl; [by rewrite !app_nil_r|].
  destruct (IH (classify_key config coordinatorSettings c k)) as (-> & -> & ->).
  unfold classify_key. by destruct (classOf config coordinatorSettings (Normalize k)); simpl;
    rewrite <- ?app_assoc.
Qed.

(** ** Properties *)

(** Issuing a diff brings the view to the desired settings and changes nothing else;
    the next diff is then empty, and each setting is issued at most once, in name order. *)
Theorem Diff_converges `{RangeOrder} desired observed :
  (∀ k, issue observed (Diff desired observed) !! k =
     match desired !! k with Some v => Some v | None => observed !! k end) ∧
  Diff desired (issue observed (Diff desired observed)) = [] ∧
  NoDup (ch_Setting <$> Diff desired observed) ∧ Sorted (key_le ch_Setting) (Diff desired observed).
Proof.
  split_and!; [intros; apply issue_Diff| |apply Diff_keys|apply SortByKey_sorted].
  destruct (Diff desired (issue _ _)) as [|c l] eqn:E; [done|].
  assert (c ∈ Diff desired (issue observed (Diff desired observed))) as [Hd Ho]%elem_of_Diff
    by (rewrite E; left).
  rewrite issue_Diff, Hd in Ho. done.
Qed.

(** With every flag spelled once, a plan sets exactly the run-time flags of the spec
    whose setting the instance reports at another value or not at all: a startup-only
    flag, and a setting no flag asks for, is never touched; and the plan does not depend
    on Go's map order. *)
Theorem Plan_exact `{RangeOrder} flags observed c :
  spelled_once flags →
  c ∈ Plan flags observed ↔
  ∃ flag, flags !! flag = Some (ch_Value c) ∧ Setting flag = Some (ch_Setting c) ∧
          observed !! ch_Setting c ≠ Some (ch_Value c).
Proof. intros Hso. unfold Plan. rewrite elem_of_Diff, desired_settings_spec by done. naive_solver. Qed.

Lemma Plan_exact_witness :
  mkChange "log.level" "DEBUG" ∈ Plan {[ "log-level" := "DEBUG"; "data_directory" := "/d" ]} {[ "log.level" := "INFO" ]}.
Proof.
  apply (Plan_exact {[ "log-level" := "DEBUG"; "data_directory" := "/d" ]} {[ "log.level" := "INFO" ]}
    (mkChange "log.level" "DEBUG")).
  - by_decide.
  - exists "log-level". split_and!; by vm_compute.
Defined.

Lemma License_nil license organization observed :
  (observed !!? LicenseSetting | "") = license → (observed !!? OrganizationSetting | "") = organization →
  License license organization observed = [].
Proof. intros Hl Ho. unfold License. rewrite !decide_False by tauto. done. Qed.

Lemma issue_License license organization observed k :
  (issue observed (License license organization observed) !!? k | "") =
    if decide (k = LicenseSetting) then license
    else if decide (k = OrganizationSetting) then organization else (observed !!? k | "").
Proof.
  unfold License, issue. rewrite foldl_app.
  destruct (decide ((observed !!? OrganizationSetting | "") ≠ organization)) as [Ho|Ho%dec_stable],
    (decide ((observed !!? LicenseSetting | "") ≠ license)) as [Hl|Hl%dec_stable]; simpl;
    repeat (case_decide; subst); rewrite ?lookup_insert_eq, ?lookup_insert_ne, ?lookup_insert_eq by done; done.
Qed.

(** Applying the license diff leaves an instance reporting the Secret's license and
    organization, after which there is nothing to apply; the organization is always set
    before the license, and only what differs is set. *)
Theorem License_converges license organization observed :
  let after := issue observed (License license organization observed) in
  (after !!? LicenseSetting | "") = license ∧ (after !!? OrganizationSetting | "") = organization ∧
  License license organization after = [] ∧
  (∀ k, k ≠ LicenseSetting → k ≠ OrganizationSetting → after !! k = observed !! k) ∧
  (ch_Setting <$> License license organization observed) `sublist_of` [OrganizationSetting; LicenseSetting].
Proof.
  cbn zeta. split_and!.
  - by rewrite issue_License.
  - by rewrite issue_License.
  - apply License_nil; by rewrite issue_License.
  - intros k Hl Ho. apply issue_lookup_notin. unfold License.
    do 2 case_decide; simpl; set_solver.
  - unfold License. do 2 case_decide; simpl;
      repeat first [apply sublist_skip|apply sublist_cons|apply sublist_nil_l].
Qed.

Lemma classOf_spec config coordinatorSettings name k :
  classOf config coordinatorSettings name = k ↔
  match k with
  | IsFlag => hiddenFlags name = true ∨ is_Some (config !! name)
  | IsCoordinatorSetting =>
      hiddenFlags name = false ∧ config !! name = None ∧ is_Some (coordinatorSettings !! name)
  | IsUnknown => hiddenFlags name = false ∧ config !! name = None ∧ coordinatorSettings !! name = None
  end.
Proof.
  unfold classOf, hasKey.
  destruct (config !! name), (coordinatorSettings !! name), (hiddenFlags name), k; simpl; naive_solver.
Qed.

(** Three filters on the values of one function rearrange a list. *)
Lemma partition3 (f : string → key_class) (l : list string) :
  List.filter (λ x, bool_decide (f x = IsFlag)) l ++
  List.filter (λ x, bool_decide (f x = IsCoordinatorSetting)) l ++
  List.filter (λ x, bool_decide (f x = IsUnknown)) l ≡ₚ l.
Proof.
  induction l as [|x l IH]; [done|]. simpl. destruct (f x); simpl.
  - by constructor.
  - rewrite <- Permutation_middle. by constructor.
  - rewrite app_assoc, <- Permutation_middle, <- app_assoc. by constructor.
Qed.

Lemma Classify_Normalize keys config coordinatorSettings :
  Classify (Normalize <$> keys) config coordinatorSettings = Classify keys config coordinatorSettings.
Proof.
  assert (Normalize <$> (Normalize <$> keys) = Normalize <$> keys) as E.
  { rewrite <- list_fmap_compose. apply list_fmap_ext. intros i k _. apply Normalize_idem. }
  unfold Classify.
  destruct (classify_fold config coordinatorSettings (Normalize <$> keys) (mkClassification [] [] [])) as (-> & -> & ->),
    (classify_fold config coordinatorSettings keys (mkClassification [] [] [])) as (-> & -> & ->). by rewrite E.
Qed.

Lemma elem_of_class config coordinatorSettings k l name :
  name ∈ SortStrings (List.filter (λ x, bool_decide (classOf config coordinatorSettings x = k)) l) ↔
  name ∈ l ∧ classOf config coordinatorSettings name = k.
Proof. by rewrite elem_of_SortStrings, elem_of_bfilter, bool_decide_eq_true. Qed.

(** The classification is a partition of the keys: every key lands in exactly one
    list, under its canonical name, by the running version's own account, a hidden flag
    always as a flag; every list is sorted, and the spelling of a key does not matter. *)
Theorem Classify_partition keys config coordinatorSettings :
  let c := Classify keys config coordinatorSettings in
  cf_Flags c ++ cf_CoordinatorSettings c ++ cf_Unknown c ≡ₚ Normalize <$> keys ∧
  Sorted String.le (cf_Flags c) ∧ Sorted String.le (cf_CoordinatorSettings c) ∧ Sorted String.le (cf_Unknown c) ∧
  (∀ name, name ∈ cf_Flags c ↔ name ∈ Normalize <$> keys ∧
     (hiddenFlags name = true ∨ is_Some (config !! name))) ∧
  (∀ name, name ∈ cf_CoordinatorSettings c ↔ name ∈ Normalize <$> keys ∧
     hiddenFlags name = false ∧ config !! name = None ∧ is_Some (coordinatorSettings !! name)) ∧
  (∀ name, name ∈ cf_Unknown c ↔ name ∈ Normalize <$> keys ∧
     hiddenFlags name = false ∧ config !! name = None ∧ coordinatorSettings !! name = None) ∧
  Classify (Normalize <$> keys) config coordinatorSettings = c.
Proof.
  cbn zeta. rewrite Classify_Normalize. unfold Classify. cbn [cf_Flags cf_CoordinatorSettings cf_Unknown].
  destruct (classify_fold config coordinatorSettings keys (mkClassification [] [] [])) as (-> & -> & ->).
  cbn [cf_Flags cf_CoordinatorSettings cf_Unknown app].
  split_and!; [|apply SortStrings_sorted..| | | |done].
  { rewrite !SortStrings_perm. apply partition3. }
  all: intros name; by rewrite elem_of_class, classOf_spec.
Qed.
