(* ===== verification/Expectations.v ===== *)
(** * Package expectations: the writes the cache has not shown back yet

    internal/expectations/expectations.go. The mutex makes each method one step, so the
    concurrent object is a sequence of [Expect] and [Satisfied] calls; the theorem compares
    it with the specification that never forgets a write. *)

From S2P Require Import Prelude GoStrings.

(** ** Definitions *)

Abbreviation NamespacedName := (string * string)%type.

Record written := mkWritten { w_uid : string; w_generation : Z }.

(** The part of a cached StatefulSet that is compared: its UID and generation. *)
Record Cached := mkCached { ca_UID : string; ca_Generation : Z }.

Abbreviation StatefulSets := (gmap NamespacedName written).

Definition Expect (expected : StatefulSets) (name : NamespacedName) (uid : string) (generation : Z)
    : StatefulSets :=
  <[name := mkWritten uid generation]> expected.

(** The condition under which a cached copy is no older than a write. *)
Definition caught_up_with (want : written) (cached : option Cached) : bool :=
  match cached with
  | None => true
  | Some c => negb (bool_decide (ca_UID c = w_uid want)) || (w_generation want <=? ca_Generation c)%Z
  end.

Definition Satisfied (expected : StatefulSets) (name : NamespacedName) (cached : option Cached)
    : StatefulSets * bool :=
  match expected !! name with
  | None => (expected, true)
  | Some want =>
      if caught_up_with want cached then (delete name expected, true) else (expected, false)
  end.

(** ** The specification: every last write is remembered *)

Inductive Op :=
| OpExpect (name : NamespacedName) (uid : string) (generation : Z)
| OpSatisfied (name : NamespacedName) (cached : option Cached).

(** The answers of a sequence of calls, in order. *)
Fixpoint run (expected : StatefulSets) (ops : list Op) : list bool :=
  match ops with
  | [] => []
  | OpExpect name uid generation :: ops => run (Expect expected name uid generation) ops
  | OpSatisfied name cached :: ops =>
      let '(expected, answer) := Satisfied expected name cached in answer :: run expected ops
  end.

(** The answer of [Satisfied]. *)
Definition trusted (expected : StatefulSets) (name : NamespacedName) (cached : option Cached) : bool :=
  match expected !! name with Some want => caught_up_with want cached | None => true end.

(** The specification keeps every last write, and distrusts an older generation of its
    object. *)
Definition up_to_date (last : StatefulSets) (name : NamespacedName) (cached : option Cached) : bool :=
  match last !! name, cached with
  | Some want, Some c => negb (bool_decide (ca_UID c = w_uid want ∧ (ca_Generation c < w_generation want)%Z))
  | _, _ => true
  end.

Fixpoint run_spec (last : StatefulSets) (ops : list Op) : list bool :=
  match ops with
  | [] => []
  | OpExpect name uid generation :: ops => run_spec (<[name := mkWritten uid generation]> last) ops
  | OpSatisfied name cached :: ops => up_to_date last name cached :: run_spec last ops
  end.

(** What the calls so far read of each name, the newest first. *)
Abbreviation Reads := (gmap NamespacedName (list (option Cached))).

(** A read that can follow others in an informer cache, which shows the versions of a name in
    the order they were written, though it may skip some: the name may be absent, its object
    not created yet or deleted, and another object may take it; but an object that was shown
    comes back only while nothing else was shown since, and at no older generation. *)
Definition in_order (reads : list (option Cached)) (cached : option Cached) : Prop :=
  ∀ c earlier, cached = Some c → Some earlier ∈ reads → ca_UID earlier = ca_UID c →
    ∃ last, head reads = Some (Some last) ∧ ca_UID last = ca_UID c ∧ (ca_Generation last ≤ ca_Generation c)%Z.

(** The cache has shown the object of the UID. *)
Definition shown (reads : list (option Cached)) (uid : string) : Prop :=
  ∃ c, Some c ∈ reads ∧ ca_UID c = uid.

(** The calls of a process whose cache moves forward, and which expects writes of objects it
    has read: a pass applies over the StatefulSet it read. *)
Fixpoint cache_moves_forward (past : Reads) (ops : list Op) : Prop :=
  match ops with
  | [] => True
  | OpExpect name uid _ :: ops => shown (past !!! name) uid ∧ cache_moves_forward past ops
  | OpSatisfied name cached :: ops =>
      in_order (past !!! name) cached ∧ cache_moves_forward (<[name := cached :: past !!! name]> past) ops
  end.

(** ** The simulation *)

(** The write was of an object the cache has shown, and the last read is caught up with it. *)
Definition outrun (reads : list (option Cached)) (want : written) : Prop :=
  shown reads (w_uid want) ∧ ∃ last, head reads = Some last ∧ caught_up_with want last = true.

(** The object holds the specification's write of a name, or has forgotten one the reads have
    outrun. *)
Definition simulates (expected spec : StatefulSets) (past : Reads) : Prop :=
  ∀ name,
    (∀ want, spec !! name = Some want → shown (past !!! name) (w_uid want)) ∧
    (expected !! name = spec !! name ∨
     (expected !! name = None ∧ ∃ want, spec !! name = Some want ∧ outrun (past !!! name) want)).

Lemma up_to_date_trusted last name cached : up_to_date last name cached = trusted last name cached.
Proof.
  unfold up_to_date, trusted. destruct (last !! name) as [want|], cached as [c|]; [|done..]. cbn. apply eq_iff_eq_true.
  rewrite negb_true_iff, bool_decide_eq_false, orb_true_iff, negb_true_iff, bool_decide_eq_false, Z.leb_le.
  destruct (decide (ca_UID c = w_uid want)); [|naive_solver]. split; [right; apply Z.le_ngt; naive_solver|].
  intros [?|?] [_ ?]; [done|lia].
Qed.

Lemma trusted_Some expected name want cached :
  expected !! name = Some want → trusted expected name cached = caught_up_with want cached.
Proof. intros E. unfold trusted. by rewrite E. Qed.

Lemma shown_cons cached reads uid : shown reads uid → shown (cached :: reads) uid.
Proof. intros (c & Hc & E). exists c. split; [by right|done]. Qed.

Lemma simulates_empty : simulates ∅ ∅ ∅.
Proof. intros name. rewrite lookup_empty. split; [done|by left]. Qed.

Lemma simulates_Expect expected spec past name uid generation :
  shown (past !!! name) uid → simulates expected spec past →
  simulates (Expect expected name uid generation) (<[name := mkWritten uid generation]> spec) past.
Proof.
  intros Hshown Hs n. unfold Expect. destruct (decide (name = n)) as [<-|Hne].
  - rewrite !lookup_insert_eq. split; [by intros want [= <-]|by left].
  - rewrite !lookup_insert_ne by done. apply Hs.
Qed.

(** A read in order is caught up with what the reads have outrun. *)
Lemma outrun_in_order reads want cached :
  outrun reads want → in_order reads cached → caught_up_with want cached = true.
Proof.
  intros ((earlier & Hin & Eu) & last & Hhead & Hc) Ho. destruct cached as [c|]; [|done]. cbn.
  apply orb_true_iff. destruct (decide (ca_UID c = w_uid want)) as [E|Hne];
    [right|left; by rewrite bool_decide_eq_false_2].
  destruct (Ho c earlier eq_refl Hin) as (newest & Hnewest & En & Hle); [congruence|].
  rewrite Hhead in Hnewest. injection Hnewest as ->. cbn in Hc. rewrite bool_decide_eq_true_2 in Hc by congruence.
  cbn in Hc. apply Z.leb_le. apply Z.leb_le in Hc. lia.
Qed.

Lemma simulates_Satisfied expected spec past name cached :
  in_order (past !!! name) cached → simulates expected spec past →
  (Satisfied expected name cached).2 = trusted spec name cached ∧
  simulates (Satisfied expected name cached).1 spec (<[name := cached :: past !!! name]> past).
Proof.
  intros Ho Hs. assert (∀ n, n ≠ name → ∀ expected' : StatefulSets, expected' !! n = expected !! n →
    (∀ want, spec !! n = Some want → shown (<[name := cached :: past !!! name]> past !!! n) (w_uid want)) ∧
    (expected' !! n = spec !! n ∨ (expected' !! n = None ∧ ∃ want, spec !! n = Some want ∧
       outrun (<[name := cached :: past !!! name]> past !!! n) want))) as Hother.
  { intros n Hne expected' ->. rewrite lookup_total_insert_ne by done. apply Hs. }
  destruct (Hs name) as [Hshown Hname]. unfold Satisfied.
  assert (∀ want, spec !! name = Some want → shown (cached :: past !!! name) (w_uid want)) as Hshown'
    by (intros; by apply shown_cons, Hshown).
  assert (∀ forgotten want, spec !! name = Some want → caught_up_with want cached = true → forgotten !! name = None →
    (∀ n, n ≠ name → forgotten !! n = expected !! n) → simulates forgotten spec (<[name := cached :: past !!! name]> past))
    as Hforget.
  { intros forgotten want Ew Hc Hnone Hkept n. destruct (decide (n = name)) as [->|Hne]; [|by apply Hother; [|apply Hkept]].
    rewrite lookup_total_insert_eq. split; [exact Hshown'|]. right. split; [done|]. exists want. split; [done|].
    split; [by apply Hshown'|by exists cached]. }
  assert (expected !! name = spec !! name → simulates expected spec (<[name := cached :: past !!! name]> past)) as Hkeep.
  { intros E n. destruct (decide (n = name)) as [->|Hne]; [|by apply Hother].
    rewrite lookup_total_insert_eq. split; [exact Hshown'|by left]. }
  destruct Hname as [E|(E & want & Ew & Hout)].
  - destruct (expected !! name) as [want|] eqn:Ee; symmetry in E.
    + rewrite (trusted_Some _ _ want _ E). destruct (caught_up_with want cached) eqn:Ec; (split; [done|]).
      * apply (Hforget _ want); [done|done|apply lookup_delete_eq|]. intros n Hne. cbn. by rewrite lookup_delete_ne.
      * by apply Hkeep.
    + split; [unfold trusted; by rewrite E|by apply Hkeep].
  - rewrite E, (trusted_Some _ _ want _ Ew). assert (caught_up_with want cached = true) as Hc by (by eapply outrun_in_order).
    split; [done|]. by apply (Hforget _ want).
Qed.

(** ** Property *)

(** C37: forgetting a satisfied write loses nothing: against a cache that shows each
    StatefulSet's versions in the order they were written, absences, deletions and recreations
    under the same name included, every sequence of [Expect] and [Satisfied] calls from the
    zero value, of writes to objects the process has read, answers as if the last write of
    every StatefulSet were remembered forever: a cached copy is distrusted exactly when it is
    an older generation of the object last written. *)
Theorem Satisfied_refines_memory ops :
  cache_moves_forward ∅ ops → run ∅ ops = run_spec ∅ ops.
Proof.
  intros Hm. assert (∀ expected spec past, simulates expected spec past → cache_moves_forward past ops →
    run expected ops = run_spec spec ops) as Hsim; [|by eapply Hsim; [apply simulates_empty|]].
  clear Hm. induction ops as [|[name uid generation|name cached] ops IH]; intros expected spec past Hs Hm; cbn; [done| |].
  - destruct Hm as [Hshown Hm]. eapply IH; [|exact Hm]. by apply simulates_Expect.
  - destruct Hm as [Ho Hm]. destruct (simulates_Satisfied _ _ _ _ _ Ho Hs) as [E Hs'].
    destruct (Satisfied expected name cached) as [expected' answer]. cbn in *. rewrite E, up_to_date_trusted. f_equal. by eapply IH.
Qed.

(** Not created yet, then read at 6; a shrink at 7, read back at 6, at 7, gone, and created
    again. *)
Lemma Satisfied_refines_memory_witness :
  let name := ("default", "db-data") in
  let ops := [OpSatisfied name None; OpSatisfied name (Some (mkCached "u" 6)); OpExpect name "u" 7;
              OpSatisfied name (Some (mkCached "u" 6)); OpSatisfied name (Some (mkCached "u" 7));
              OpSatisfied name None; OpSatisfied name (Some (mkCached "v" 1))] in
  run ∅ ops = [true; true; false; true; true; true] ∧ run_spec ∅ ops = [true; true; false; true; true; true].
Proof.
  intros name ops. assert (run ∅ ops = [true; true; false; true; true; true]) as E by (vm_compute; reflexivity).
  split; [exact E|]. rewrite <- (Satisfied_refines_memory ops); [exact E|].
  subst ops. cbn [cache_moves_forward]. rewrite !lookup_total_insert_eq, lookup_total_empty.
  split_and!; try done; [|exists (mkCached "u" 6); split; [left|done]|..];
    intros c earlier [= <-] Hin Eu; repeat (apply elem_of_cons in Hin as [[= ->]|Hin]);
    try (by apply elem_of_nil in Hin); try (by vm_compute in Eu); by exists (mkCached "u" 6).
Defined.
