(* ===== verification/Resources.v ===== *)
(** * Package resources: the normalized spec, the names and the labels

    internal/resources/resources.go: [normalize], which resolves every optional field of a
    spec to its default, and the names, labels and Secrets every builder shares; with the
    defaults the CRD schema writes ([schemaDefaults]), which normalizing agrees with, and
    lemmas on the labels and selectors. *)

From S2P Require Import Prelude GoStrings K8s Api.

(** ** Names, labels *)

Definition coordinatorComponent : string := "coordinator".
Definition dataComponent : string := "data".
Definition ManagedByLabel : string := "app.kubernetes.io/managed-by".
Definition ManagedByValue : string := "memgraph-operator".
Definition NameLabel : string := "app.kubernetes.io/name".
Definition NameValue : string := "memgraph".
Definition instanceLabel : string := "app.kubernetes.io/instance".
Definition componentLabel : string := "app.kubernetes.io/component".
Definition boltPortName : string := "bolt".
Definition managementPortName : string := "management".
Definition coordinatorPortName : string := "coordinator".
Definition replicationPortName : string := "replication".
Definition metricsPortName : string := "metrics".
Definition configMapKind : string := "ConfigMap".

Definition CoordinatorName (name : string) : string := name ^^ "-" ^^ coordinatorComponent.
Definition DataName (name : string) : string := name ^^ "-" ^^ dataComponent.

Definition selectorLabels (name component : string) : gmap string string :=
  {[ NameLabel := NameValue; instanceLabel := name; componentLabel := component ]}.

(** [labels]: [maps.Copy] overwrites, so a later copy wins. *)
Definition labels (name component : string) (custom : gmap string string) : gmap string string :=
  <[ManagedByLabel := ManagedByValue]> (selectorLabels name component ∪ custom).

Definition CoordinatorPodSelector (name : string) : gmap string string :=
  selectorLabels name coordinatorComponent.
Definition DataPodSelector (name : string) : gmap string string := selectorLabels name dataComponent.

Definition ClusterNameOf (labels : gmap string string) : string :=
  if decide ((labels !!? NameLabel | "") ≠ NameValue) then "" else labels !!? instanceLabel | "".

Definition ClusterNameOfMemgraphPod (labels : gmap string string) : string :=
  let component := labels !!? componentLabel | "" in
  if decide (component = coordinatorComponent ∨ component = dataComponent) then ClusterNameOf labels
  else "".

(** ** The normalized spec *)

Record normalizedSecurityContext := mkNSecurityContext {
  nsc_runAsUser : option Z;
  nsc_runAsGroup : option Z;
  nsc_fsGroup : option Z
}.

Record normalizedPodAntiAffinity := mkNPodAntiAffinity {
  npa_typ : string;
  npa_scope : string;
  npa_topologyKey : string
}.

Record normalizedGrafanaDashboard := mkNGrafanaDashboard {
  ngd_labels : gmap string string;
  ngd_annotations : gmap string string
}.

Record normalizedServiceMonitor := mkNServiceMonitor {
  nsm_labels : gmap string string;
  nsm_annotations : gmap string string;
  nsm_interval : string
}.

Record normalizedGateway := mkNGateway {
  ngw_className : string;
  ngw_dataPortBase : Z;
  ngw_labels : gmap string string;
  ngw_annotations : gmap string string
}.

Record normalizedExternalRole := mkNExternalRole {
  ner_labels : gmap string string;
  ner_annotations : gmap string string
}.

Record normalizedExternal := mkNExternal {
  nex_typ : string;
  nex_coordinators : normalizedExternalRole;
  nex_data : normalizedExternalRole;
  nex_gateway : normalizedGateway
}.

Record normalizedProbe := mkNProbe {
  npr_failureThreshold : Z;
  npr_timeoutSeconds : Z;
  npr_periodSeconds : Z
}.

Section normalized.
Context `{Kube}.

Record normalizedVector := mkNVector {
  nve_image : string;
  nve_pullPolicy : string;
  nve_logsEndpoint : string;
  nve_authSecret : string;
  nve_extraLabels : gmap string string;
  nve_resources : ResourceRequirements
}.

Record normalizedVMAgent := mkNVMAgent {
  nva_image : string;
  nva_pullPolicy : string;
  nva_remoteWriteURL : string;
  nva_basicAuthSecret : string;
  nva_scrapeInterval : string;
  nva_externalLabels : gmap string string;
  nva_resources : ResourceRequirements
}.

Record normalizedMonitoring := mkNMonitoring {
  nmo_serviceMonitor : option normalizedServiceMonitor;
  nmo_grafanaDashboard : option normalizedGrafanaDashboard;
  nmo_vmagent : option normalizedVMAgent;
  nmo_vector : option normalizedVector
}.

Record normalizedStorage := mkNStorage {
  nst_libSize : Quantity;
  nst_libAccessMode : string;
  nst_libClass : option string;
  nst_fileLogging : bool
}.

Record normalizedCoreDumps := mkNCoreDumps {
  ncd_enabled : bool;
  ncd_size : Quantity;
  ncd_class : option string;
  ncd_configurePattern : bool;
  ncd_uploader : option CoreDumpsUploaderSpec
}.

Record normalizedRole := mkNRole {
  nro_storage : normalizedStorage;
  nro_coreDumps : normalizedCoreDumps;
  nro_resources : ResourceRequirements;
  nro_podLabels : gmap string string;
  nro_statefulSetLabels : gmap string string;
  nro_serviceLabels : gmap string string;
  nro_env : list KEnvVar;
  nro_flags : gmap string string;
  nro_extraVolumes : list Volume;
  nro_extraMounts : list VolumeMount;
  nro_userContainers : list Container;
  nro_initContainers : list Container;
  nro_scheduling : RoleSchedulingSpec
}.

Record normalizedSpec := mkNSpec {
  n_coordinators : Z;
  n_dataInstances : Z;
  n_image : string;
  n_pullPolicy : string;
  n_secretName : string;
  n_licenseKey : string;
  n_organizationKey : string;
  n_clusterDomain : string;
  n_retentionPolicy : string;
  n_readinessProbe : normalizedProbe;
  n_coordinatorRole : normalizedRole;
  n_dataRole : normalizedRole;
  n_external : normalizedExternal;
  n_monitoring : normalizedMonitoring;
  n_boltTLSSecret : string;
  n_intraClusterTLSSecret : string;
  n_awsCredentialsSecret : string;
  n_podAntiAffinity : option normalizedPodAntiAffinity;
  n_maxMapCount : Z;
  n_fixOwnership : bool;
  n_fips : bool;
  n_securityContext : normalizedSecurityContext
}.

(** The per-role pieces of a spec, gathered. *)
Record roleSpec := mkRoleSpec {
  ros_storage : RoleStorageSpec;
  ros_coreDumps : normalizedCoreDumps;
  ros_resources : ResourceRequirements;
  ros_labels : RoleLabelsSpec;
  ros_env : list EnvVar;
  ros_flags : gmap string FlagValue;
  ros_extraVolumes : list Volume;
  ros_extraMounts : list VolumeMount;
  ros_userContainers : list Container;
  ros_initContainers : list Container;
  ros_scheduling : RoleSchedulingSpec
}.
End normalized.

(** ** [normalize] *)

(** The ["if x == empty { x = fallback }"] of the defaults. *)
Definition orDefault (configured fallback : string) : string :=
  if decide (configured = "") then fallback else configured.

Definition intOrDefault (configured : option Z) (fallback : Z) : Z :=
  match configured with None => fallback | Some configured => configured end.

Definition imageRef (image : ImageSpec) : string :=
  if bool_decide (is_Repository image = "") && bool_decide (is_Tag image = "") then DefaultImageReference
  else orDefault (is_Repository image) DefaultImageRepository ^^ ":" ^^
       orDefault (is_Tag image) DefaultImageTag.

Definition normalizeProbe (spec : ReadinessProbeSpec) : normalizedProbe :=
  mkNProbe (intOrDefault (rp_FailureThreshold spec) DefaultProbeFailureThreshold)
    (intOrDefault (rp_TimeoutSeconds spec) DefaultProbeTimeoutSeconds)
    (intOrDefault (rp_PeriodSeconds spec) DefaultProbePeriodSeconds).

(** [FlagValue] is a string type, so the copy is the map itself. *)
Definition normalizeFlags (spec : gmap string FlagValue) : gmap string string := spec.

Definition normalizeEnv `{Kube} (spec : list EnvVar) : list KEnvVar :=
  (λ variable, mkKEnvVar (ev_Name variable) (ev_Value variable) None) <$> spec.

Definition normalizeSecurityContext (spec : option PodSecurityContextSpec) : normalizedSecurityContext :=
  match spec with
  | None => mkNSecurityContext (Some DefaultRunAsUser) (Some DefaultRunAsGroup) (Some DefaultFSGroup)
  | Some spec => mkNSecurityContext (sc_RunAsUser spec) (sc_RunAsGroup spec) (sc_FSGroup spec)
  end.

Definition normalizeMaxMapCount (spec : option SysctlInitContainerSpec) : Z :=
  match spec with
  | None => 0
  | Some spec => if (0 <? si_MaxMapCount spec)%Z then si_MaxMapCount spec else DefaultMaxMapCount
  end.

(** [normalizedSecurityContext.chownTarget]. *)
Definition chownTarget (c : normalizedSecurityContext) : option (Z * Z) :=
  uid ← nsc_runAsUser c;
  match nsc_runAsGroup c, nsc_fsGroup c with
  | Some gid, _ => Some (uid, gid)
  | None, Some gid => Some (uid, gid)
  | None, None => None
  end.

Section normalize.
Context `{Kube}.

Definition normalizeStorage (spec : RoleStorageSpec) : normalizedStorage :=
  mkNStorage (match st_LibPVCSize spec with Some size => size | None => MustParse DefaultLibPVCSize end)
    (orDefault (st_LibStorageAccessMode spec) DefaultStorageAccessMode)
    (st_LibStorageClassName spec)
    (negb (bool_decide (st_LogFile spec = LogFileNone))).

Definition normalizeCoreDumps (shared : CoreDumpsSpec) (role : option RoleCoreDumpsSpec)
    : normalizedCoreDumps :=
  mkNCoreDumps (match role with Some _ => true | None => false end)
    (match role ≫= cd_Size with Some size => size | None => MustParse DefaultCoreDumpsSize end)
    (cd_StorageClassName shared)
    (negb (bool_decide (cd_CorePattern shared = CorePatternNode)))
    (cd_Uploader shared).

Definition normalizeRole (role : roleSpec) : normalizedRole :=
  mkNRole (normalizeStorage (ros_storage role)) (ros_coreDumps role) (ros_resources role)
    (rl_PodLabels (ros_labels role)) (rl_StatefulSetLabels (ros_labels role))
    (rl_ServiceLabels (ros_labels role)) (normalizeEnv (ros_env role)) (normalizeFlags (ros_flags role))
    (ros_extraVolumes role) (ros_extraMounts role) (ros_userContainers role)
    (ros_initContainers role) (ros_scheduling role).

Definition normalizeVMAgent (block : VMAgentRemoteSpec) : normalizedVMAgent :=
  mkNVMAgent
    (orDefault (vi_Repository (va_Image block)) DefaultVMAgentImageRepository ^^ ":" ^^
     orDefault (vi_Tag (va_Image block)) DefaultVMAgentImageTag)
    (orDefault (vi_PullPolicy (va_Image block)) DefaultImagePullPolicy)
    (rw_URL (va_RemoteWrite block))
    (match rw_BasicAuth (va_RemoteWrite block) with
     | Some auth => sr_Name (ba_SecretRef auth) | None => "" end)
    (orDefault (va_ScrapeInterval block) DefaultVMAgentScrapeInterval)
    (va_ExternalLabels block) (va_Resources block).

Definition normalizeVector (block : VectorRemoteSpec) : normalizedVector :=
  mkNVector
    (orDefault (xi_Repository (vr_Image block)) DefaultVectorImageRepository ^^ ":" ^^
     orDefault (xi_Tag (vr_Image block)) DefaultVectorImageTag)
    (orDefault (xi_PullPolicy (vr_Image block)) DefaultImagePullPolicy)
    (vr_LogsEndpoint block)
    (match vr_Auth block with Some auth => sr_Name (ba_SecretRef auth) | None => "" end)
    (vr_ExtraLabels block) (vr_Resources block).

Definition zeroExternal : normalizedExternal :=
  mkNExternal "" (mkNExternalRole ∅ ∅) (mkNExternalRole ∅ ∅) (mkNGateway "" 0 ∅ ∅).

Definition normalizeExternal (spec : option ExternalAccessSpec) : normalizedExternal :=
  match spec with
  | None => zeroExternal
  | Some block =>
      mkNExternal (orDefault (ea_Type block) ExternalAccessLoadBalancer)
        (mkNExternalRole (er_Labels (ea_Coordinators block)) (er_Annotations (ea_Coordinators block)))
        (mkNExternalRole (er_Labels (ea_Data block)) (er_Annotations (ea_Data block)))
        (mkNGateway (gw_GatewayClassName (ea_Gateway block))
           (intOrDefault (gw_DataPortBase (ea_Gateway block)) DefaultGatewayDataPortBase)
           (gw_Labels (ea_Gateway block)) (gw_Annotations (ea_Gateway block)))
  end.

Definition normalizeMonitoring (spec : option MonitoringSpec) : normalizedMonitoring :=
  mkNMonitoring
    (block ← spec; monitor ← mo_ServiceMonitor block;
     Some (mkNServiceMonitor (sm_Labels monitor) (sm_Annotations monitor) (sm_Interval monitor)))
    (block ← spec; dashboard ← mo_GrafanaDashboard block;
     Some (mkNGrafanaDashboard
             (if decide (gd_Labels dashboard = ∅)
              then {[ DefaultGrafanaDashboardLabel := DefaultGrafanaDashboardValue ]}
              else gd_Labels dashboard)
             (gd_Annotations dashboard)))
    (block ← spec; normalizeVMAgent <$> mo_VMAgentRemote block)
    (block ← spec; normalizeVector <$> mo_VectorRemote block).

Definition normalizePodAntiAffinity (rule : PodAntiAffinitySpec) : normalizedPodAntiAffinity :=
  mkNPodAntiAffinity (orDefault (pa_Type rule) DefaultPodAntiAffinityType)
    (orDefault (pa_Scope rule) DefaultPodAntiAffinityScope)
    (orDefault (pa_TopologyKey rule) DefaultPodAntiAffinityTopologyKey).

Definition normalize (spec : MemgraphDBClusterSpec) : normalizedSpec :=
  mkNSpec
    (intOrDefault (sp_Coordinators spec) DefaultCoordinatorCount)
    (intOrDefault (sp_DataInstances spec) DefaultDataInstanceCount)
    (imageRef (sp_Image spec))
    (orDefault (is_PullPolicy (sp_Image spec)) DefaultImagePullPolicy)
    (orDefault (ss_Name (sp_Secrets spec)) DefaultSecretName)
    (orDefault (ss_LicenseKey (sp_Secrets spec)) DefaultLicenseSecretKey)
    (orDefault (ss_OrganizationKey (sp_Secrets spec)) DefaultOrganizationSecretKey)
    (orDefault (sp_ClusterDomain spec) DefaultClusterDomain)
    (orDefault (st_RetentionPolicy (sp_Storage spec)) DefaultStorageRetention)
    (normalizeProbe (sp_ReadinessProbe spec))
    (normalizeRole (mkRoleSpec (st_Coordinators (sp_Storage spec))
      (normalizeCoreDumps (sp_CoreDumps spec) (cd_Coordinators (sp_CoreDumps spec)))
      (rs_Coordinators (sp_Resources spec)) (ls_Coordinators (sp_Labels spec))
      (ee_Coordinators (sp_ExtraEnv spec)) (fs_Coordinators (sp_Flags spec))
      (xv_Coordinators (sp_ExtraVolumes spec)) (xm_Coordinators (sp_ExtraVolumeMounts spec))
      (uc_Coordinators (sp_UserContainers spec)) (ic_Coordinators (sp_InitContainers spec))
      (sd_Coordinators (sp_Scheduling spec))))
    (normalizeRole (mkRoleSpec (st_Data (sp_Storage spec))
      (normalizeCoreDumps (sp_CoreDumps spec) (cd_Data (sp_CoreDumps spec)))
      (rs_Data (sp_Resources spec)) (ls_Data (sp_Labels spec))
      (ee_Data (sp_ExtraEnv spec)) (fs_Data (sp_Flags spec))
      (xv_Data (sp_ExtraVolumes spec)) (xm_Data (sp_ExtraVolumeMounts spec))
      (uc_Data (sp_UserContainers spec)) (ic_Data (sp_InitContainers spec))
      (sd_Data (sp_Scheduling spec))))
    (normalizeExternal (sp_ExternalAccess spec))
    (normalizeMonitoring (sp_Monitoring spec))
    (match sp_TLS spec ≫= tls_Bolt with Some tls => sr_Name (bt_SecretRef tls) | None => "" end)
    (match sp_TLS spec ≫= tls_IntraCluster with Some tls => sr_Name (it_SecretRef tls) | None => "" end)
    (match sp_AWSCredentials spec with Some aws => sr_Name (ac_SecretRef aws) | None => "" end)
    (normalizePodAntiAffinity <$> sd_PodAntiAffinity (sp_Scheduling spec))
    (normalizeMaxMapCount (sp_SysctlInitContainer spec))
    (match sp_FixOwnershipInitContainer spec with Some _ => true | None => false end)
    (match sp_FIPS spec with Some _ => true | None => false end)
    (normalizeSecurityContext (sp_SecurityContext spec)).
End normalize.

(** ** The license and AWS Secrets *)

Record LicenseSecret := mkLicenseSecret {
  lc_Name : string;
  lc_LicenseKey : string;
  lc_OrganizationKey : string
}.

Definition LicenseSecretOf `{Kube} (spec : MemgraphDBClusterSpec) : LicenseSecret :=
  let spec := normalize spec in
  mkLicenseSecret (n_secretName spec) (n_licenseKey spec) (n_organizationKey spec).

Definition AWSCredentialsSecretOf `{Kube} (spec : MemgraphDBClusterSpec) : string :=
  n_awsCredentialsSecret (normalize spec).

(** ** The schema defaults *)

(** What admission writes into an absent field: the [+kubebuilder:default] markers of
    memgraphdbcluster_types.go. *)
Definition default_probe (p : ReadinessProbeSpec) : ReadinessProbeSpec :=
  mkReadinessProbeSpec (Some (intOrDefault (rp_FailureThreshold p) 20))
    (Some (intOrDefault (rp_TimeoutSeconds p) 10)) (Some (intOrDefault (rp_PeriodSeconds p) 5)).

Definition default_image (i : ImageSpec) : ImageSpec :=
  mkImageSpec (orDefault (is_Repository i) "docker.io/memgraph/memgraph")
    (orDefault (is_Tag i) "3.13.0-relwithdebinfo") (orDefault (is_PullPolicy i) "IfNotPresent").

Definition default_secrets (s : SecretsSpec) : SecretsSpec :=
  mkSecretsSpec (orDefault (ss_Name s) "memgraph-secrets")
    (orDefault (ss_LicenseKey s) "MEMGRAPH_ENTERPRISE_LICENSE")
    (orDefault (ss_OrganizationKey s) "MEMGRAPH_ORGANIZATION_NAME").

Definition default_anti_affinity (r : PodAntiAffinitySpec) : PodAntiAffinitySpec :=
  mkPodAntiAffinitySpec (orDefault (pa_Type r) "preferred") (orDefault (pa_Scope r) "role")
    (orDefault (pa_TopologyKey r) "kubernetes.io/hostname").

(** The gateway block is there: [omitzero] leaves an empty one out. *)
Definition has_gateway (g : ExternalAccessGatewaySpec) : bool :=
  negb (bool_decide (gw_GatewayClassName g = "" ∧ gw_DataPortBase g = None ∧ gw_Labels g = ∅ ∧ gw_Annotations g = ∅)).

Definition default_external (e : ExternalAccessSpec) : ExternalAccessSpec :=
  mkExternalAccessSpec (ea_Type e) (ea_Coordinators e) (ea_Data e)
    (if has_gateway (ea_Gateway e)
     then mkExternalAccessGatewaySpec (gw_GatewayClassName (ea_Gateway e))
            (Some (intOrDefault (gw_DataPortBase (ea_Gateway e)) 9000))
            (gw_Labels (ea_Gateway e)) (gw_Annotations (ea_Gateway e))
     else ea_Gateway e).

Section defaults.
Context `{Kube}.

Definition default_storage (s : RoleStorageSpec) : RoleStorageSpec :=
  mkRoleStorageSpec (Some (default (MustParse "10Gi") (st_LibPVCSize s)))
    (orDefault (st_LibStorageAccessMode s) "ReadWriteOnce") (st_LibStorageClassName s)
    (orDefault (st_LogFile s) "LibClaim").

Definition default_uploader (u : CoreDumpsUploaderSpec) : CoreDumpsUploaderSpec :=
  mkCoreDumpsUploaderSpec (cu_Image u) (orDefault (cu_PullPolicy u) "IfNotPresent") (cu_Command u) (cu_Args u) (cu_Env u)
    (cu_EnvFromSecrets u) (cu_Resources u).

Definition default_core_dumps (c : CoreDumpsSpec) : CoreDumpsSpec :=
  let size r := mkRoleCoreDumpsSpec (Some (default (MustParse "10Gi") (cd_Size r))) in
  mkCoreDumpsSpec (size <$> cd_Coordinators c) (size <$> cd_Data c) (cd_StorageClassName c)
    (orDefault (cd_CorePattern c) "Operator") (default_uploader <$> cd_Uploader c).

Definition default_vmagent (v : VMAgentRemoteSpec) : VMAgentRemoteSpec :=
  mkVMAgentRemoteSpec
    (mkVMAgentImageSpec (orDefault (vi_Repository (va_Image v)) "docker.io/victoriametrics/vmagent")
       (orDefault (vi_Tag (va_Image v)) "v1.139.0") (orDefault (vi_PullPolicy (va_Image v)) "IfNotPresent"))
    (va_RemoteWrite v) (orDefault (va_ScrapeInterval v) "15s") (va_ExternalLabels v) (va_Resources v).

Definition default_vector (v : VectorRemoteSpec) : VectorRemoteSpec :=
  mkVectorRemoteSpec
    (mkVectorImageSpec (orDefault (xi_Repository (vr_Image v)) "docker.io/timberio/vector")
       (orDefault (xi_Tag (vr_Image v)) "0.49.0-debian") (orDefault (xi_PullPolicy (vr_Image v)) "IfNotPresent"))
    (vr_LogsEndpoint v) (vr_Auth v) (vr_ExtraLabels v) (vr_Resources v).

Definition default_monitoring (m : MonitoringSpec) : MonitoringSpec :=
  mkMonitoringSpec (mo_ServiceMonitor m)
    ((λ g, mkGrafanaDashboardSpec
             (if decide (gd_Labels g = ∅) then {[ "grafana_dashboard" := "1" ]} else gd_Labels g)
             (gd_Annotations g)) <$> mo_GrafanaDashboard m)
    (default_vmagent <$> mo_VMAgentRemote m) (default_vector <$> mo_VectorRemote m).

Definition schemaDefaults (s : MemgraphDBClusterSpec) : MemgraphDBClusterSpec :=
  mkSpec (Some (intOrDefault (sp_Coordinators s) 3)) (Some (intOrDefault (sp_DataInstances s) 2))
    (default_image (sp_Image s)) (default_secrets (sp_Secrets s)) (sp_AWSCredentials s)
    (mkStorageSpec (orDefault (st_RetentionPolicy (sp_Storage s)) "Retain")
       (default_storage (st_Coordinators (sp_Storage s))) (default_storage (st_Data (sp_Storage s))))
    (default_core_dumps (sp_CoreDumps s))
    ((λ c, mkSysctlInitContainerSpec (if decide (si_MaxMapCount c = 0%Z) then 524288 else si_MaxMapCount c))
       <$> sp_SysctlInitContainer s)
    (Some (default (mkPodSecurityContextSpec (Some 101%Z) (Some 103%Z) (Some 103%Z)) (sp_SecurityContext s)))
    (sp_FixOwnershipInitContainer s) (orDefault (sp_ClusterDomain s) "cluster.local")
    (default_probe (sp_ReadinessProbe s)) (sp_Resources s) (sp_Labels s)
    (mkSchedulingSpec (default_anti_affinity <$> sd_PodAntiAffinity (sp_Scheduling s))
       (sd_Coordinators (sp_Scheduling s)) (sd_Data (sp_Scheduling s)))
    (sp_ExtraEnv s) (sp_Flags s) (sp_ExtraVolumes s) (sp_ExtraVolumeMounts s) (sp_UserContainers s)
    (sp_InitContainers s) (default_external <$> sp_ExternalAccess s) (default_monitoring <$> sp_Monitoring s)
    (sp_TLS s) (sp_FIPS s).

(** The fields of a spec that have a default, present where the block that holds them is. *)
Definition defaulted_texts (s : MemgraphDBClusterSpec) : list string :=
  [is_Repository (sp_Image s); is_Tag (sp_Image s); is_PullPolicy (sp_Image s);
   ss_Name (sp_Secrets s); ss_LicenseKey (sp_Secrets s); ss_OrganizationKey (sp_Secrets s);
   sp_ClusterDomain s; st_RetentionPolicy (sp_Storage s);
   st_LibStorageAccessMode (st_Coordinators (sp_Storage s)); st_LibStorageAccessMode (st_Data (sp_Storage s));
   st_LogFile (st_Coordinators (sp_Storage s)); st_LogFile (st_Data (sp_Storage s)); cd_CorePattern (sp_CoreDumps s)] ++
  from_option (λ u, [cu_PullPolicy u]) [] (cd_Uploader (sp_CoreDumps s)) ++
  from_option (λ r, [pa_Type r; pa_Scope r; pa_TopologyKey r]) [] (sd_PodAntiAffinity (sp_Scheduling s)) ++
  from_option (λ v, [vi_Repository (va_Image v); vi_Tag (va_Image v); vi_PullPolicy (va_Image v); va_ScrapeInterval v]) []
    ((sp_Monitoring s) ≫= mo_VMAgentRemote) ++
  from_option (λ v, [xi_Repository (vr_Image v); xi_Tag (vr_Image v); xi_PullPolicy (vr_Image v)]) []
    (sp_Monitoring s ≫= mo_VectorRemote).

Definition defaulted_numbers (s : MemgraphDBClusterSpec) : list (option Z) :=
  [sp_Coordinators s; sp_DataInstances s; rp_FailureThreshold (sp_ReadinessProbe s);
   rp_TimeoutSeconds (sp_ReadinessProbe s); rp_PeriodSeconds (sp_ReadinessProbe s)] ++
  from_option (λ e, if has_gateway (ea_Gateway e) then [gw_DataPortBase (ea_Gateway e)] else []) [] (sp_ExternalAccess s).

Definition defaulted_sizes (s : MemgraphDBClusterSpec) : list (option Quantity) :=
  [st_LibPVCSize (st_Coordinators (sp_Storage s)); st_LibPVCSize (st_Data (sp_Storage s))] ++
  from_option (λ r, [cd_Size r]) [] (cd_Coordinators (sp_CoreDumps s)) ++
  from_option (λ r, [cd_Size r]) [] (cd_Data (sp_CoreDumps s)).

(** No field with a default is absent. *)
Definition complete (s : MemgraphDBClusterSpec) : Prop :=
  Forall (λ text, text ≠ "") (defaulted_texts s) ∧ Forall is_Some (defaulted_numbers s) ∧ Forall is_Some (defaulted_sizes s) ∧
  (si_MaxMapCount <$> sp_SysctlInitContainer s) ≠ Some 0%Z ∧ is_Some (sp_SecurityContext s) ∧
  (gd_Labels <$> (sp_Monitoring s ≫= mo_GrafanaDashboard)) ≠ Some ∅.

(** A role with the uploader's pull policy filled in: the builder of the sidecar resolves it,
    so [normalize] passes it through as it is. *)
Definition with_uploader_policy (role : normalizedRole) : normalizedRole :=
  let dumps := nro_coreDumps role in
  mkNRole (nro_storage role)
    (mkNCoreDumps (ncd_enabled dumps) (ncd_size dumps) (ncd_class dumps) (ncd_configurePattern dumps)
       (default_uploader <$> ncd_uploader dumps))
    (nro_resources role) (nro_podLabels role) (nro_statefulSetLabels role) (nro_serviceLabels role) (nro_env role)
    (nro_flags role) (nro_extraVolumes role) (nro_extraMounts role) (nro_userContainers role) (nro_initContainers role)
    (nro_scheduling role).

Definition with_uploader_policies (n : normalizedSpec) : normalizedSpec :=
  mkNSpec (n_coordinators n) (n_dataInstances n) (n_image n) (n_pullPolicy n) (n_secretName n) (n_licenseKey n)
    (n_organizationKey n) (n_clusterDomain n) (n_retentionPolicy n) (n_readinessProbe n)
    (with_uploader_policy (n_coordinatorRole n)) (with_uploader_policy (n_dataRole n)) (n_external n) (n_monitoring n)
    (n_boltTLSSecret n) (n_intraClusterTLSSecret n) (n_awsCredentialsSecret n) (n_podAntiAffinity n) (n_maxMapCount n)
    (n_fixOwnership n) (n_fips n) (n_securityContext n).
End defaults.

Lemma orDefault_idem s d : orDefault (orDefault s d) d = orDefault s d.
Proof. unfold orDefault. repeat case_decide; congruence. Qed.

Lemma orDefault_ne s d : d ≠ "" → orDefault s d ≠ "".
Proof. unfold orDefault. by case_decide. Qed.

Lemma imageRef_spec i :
  imageRef i = orDefault (is_Repository i) DefaultImageRepository ^^ ":" ^^ orDefault (is_Tag i) DefaultImageTag.
Proof.
  unfold imageRef, orDefault. destruct (decide (is_Repository i = "")), (decide (is_Tag i = ""));
    by rewrite ?bool_decide_eq_true_2, ?bool_decide_eq_false_2, ?andb_false_r by done.
Qed.

Section defaults_lemmas.
Context `{Kube}.

Lemma normalizeStorage_default s : normalizeStorage (default_storage s) = normalizeStorage s.
Proof.
  unfold normalizeStorage, default_storage. simpl. rewrite (orDefault_idem _ DefaultStorageAccessMode).
  f_equal. unfold orDefault. by case_decide as E; [rewrite E|].
Qed.

Lemma normalizeCoreDumps_default c r :
  normalizeCoreDumps (default_core_dumps c)
    ((λ r, mkRoleCoreDumpsSpec (Some (default (MustParse "10Gi") (cd_Size r)))) <$> r) =
  let dumps := normalizeCoreDumps c r in
  mkNCoreDumps (ncd_enabled dumps) (ncd_size dumps) (ncd_class dumps) (ncd_configurePattern dumps)
    (default_uploader <$> ncd_uploader dumps).
Proof.
  unfold normalizeCoreDumps, default_core_dumps. simpl.
  f_equal; [by destruct r|by destruct r as [[[]]|]|]. unfold orDefault. by case_decide as E; [rewrite E|].
Qed.

Lemma normalizeMonitoring_default m :
  normalizeMonitoring (default_monitoring <$> m) = normalizeMonitoring m.
Proof.
  destruct m as [m|]; [|done]. unfold normalizeMonitoring, default_monitoring. simpl. f_equal.
  - destruct (mo_GrafanaDashboard m) as [g|]; [|done]. simpl. repeat case_decide; done.
  - destruct (mo_VMAgentRemote m) as [v|]; [|done]. simpl. unfold normalizeVMAgent, default_vmagent. simpl.
    by rewrite !(orDefault_idem _ DefaultVMAgentImageRepository), !(orDefault_idem _ DefaultVMAgentImageTag),
      !(orDefault_idem _ DefaultImagePullPolicy), !(orDefault_idem _ DefaultVMAgentScrapeInterval).
  - destruct (mo_VectorRemote m) as [v|]; [|done]. simpl. unfold normalizeVector, default_vector. simpl.
    by rewrite !(orDefault_idem _ DefaultVectorImageRepository), !(orDefault_idem _ DefaultVectorImageTag),
      !(orDefault_idem _ DefaultImagePullPolicy).
Qed.

Lemma normalizeMaxMapCount_default c :
  normalizeMaxMapCount
    ((λ c, mkSysctlInitContainerSpec (if decide (si_MaxMapCount c = 0%Z) then 524288 else si_MaxMapCount c)) <$> c) =
  normalizeMaxMapCount c.
Proof. destruct c as [c|]; [|done]. simpl. case_decide as E; [by rewrite E|done]. Qed.
End defaults_lemmas.

(** [normalize] of a spec that passed admission. *)
Lemma normalize_defaulted `{Kube} spec : normalize (schemaDefaults spec) = with_uploader_policies (normalize spec).
Proof.
  unfold normalize, schemaDefaults, with_uploader_policies. cbn -[orDefault normalizeCoreDumps normalizeStorage normalizeRole
    normalizeMonitoring normalizeMaxMapCount normalizeExternal default_core_dumps imageRef].
  rewrite normalizeMonitoring_default, normalizeMaxMapCount_default, !imageRef_spec. f_equal.
  - cbn -[orDefault]. by rewrite (orDefault_idem _ DefaultImageRepository), (orDefault_idem _ DefaultImageTag).
  - by rewrite (orDefault_idem _ DefaultImagePullPolicy).
  - apply orDefault_idem.
  - apply orDefault_idem.
  - apply orDefault_idem.
  - apply orDefault_idem.
  - apply orDefault_idem.
  - unfold normalizeRole. cbn -[normalizeStorage default_storage normalizeCoreDumps default_core_dumps].
    rewrite normalizeStorage_default. unfold with_uploader_policy. f_equal. apply normalizeCoreDumps_default.
  - unfold normalizeRole. cbn -[normalizeStorage default_storage normalizeCoreDumps default_core_dumps].
    rewrite normalizeStorage_default. unfold with_uploader_policy. f_equal. apply normalizeCoreDumps_default.
  - destruct (sp_ExternalAccess spec) as [e|]; [|done]. unfold normalizeExternal, default_external. simpl.
    by destruct (has_gateway (ea_Gateway e)).
  - destruct (sd_PodAntiAffinity (sp_Scheduling spec)) as [r|]; [|done]. simpl. f_equal.
    unfold normalizePodAntiAffinity, default_anti_affinity. cbn -[orDefault].
    by rewrite (orDefault_idem _ DefaultPodAntiAffinityType), (orDefault_idem _ DefaultPodAntiAffinityScope),
      (orDefault_idem _ DefaultPodAntiAffinityTopologyKey).
  - by destruct (sp_SecurityContext spec).
Qed.

(** The schema leaves no default out, and nothing else alone. *)
Lemma orDefault_kept s d : s ≠ "" → orDefault s d = s.
Proof. unfold orDefault. by case_decide. Qed.

Ltac complete_texts := repeat (apply Forall_cons; split; [by apply orDefault_ne|]); apply Forall_nil_2.

Lemma schemaDefaults_complete `{Kube} spec : complete (schemaDefaults spec).
Proof.
  unfold complete, schemaDefaults, defaulted_texts, defaulted_numbers, defaulted_sizes. cbn -[orDefault has_gateway].
  repeat split.
  - repeat (apply Forall_cons; split; [by apply orDefault_ne|]). repeat apply Forall_app_2.
    + destruct (cd_Uploader _); cbn -[orDefault]; complete_texts.
    + destruct (sd_PodAntiAffinity _); cbn -[orDefault]; complete_texts.
    + destruct (sp_Monitoring spec) as [m|]; [|apply Forall_nil_2]. cbn. destruct (mo_VMAgentRemote m); cbn -[orDefault]; complete_texts.
    + destruct (sp_Monitoring spec) as [m|]; [|apply Forall_nil_2]. cbn. destruct (mo_VectorRemote m); cbn -[orDefault]; complete_texts.
  - repeat (apply Forall_cons; split; [by eexists|]). destruct (sp_ExternalAccess spec) as [e|]; [|apply Forall_nil_2].
    unfold default_external. cbn -[has_gateway]. destruct (has_gateway (ea_Gateway e)) eqn:Eg.
    + unfold has_gateway at 1. cbn. rewrite bool_decide_eq_false_2 by naive_solver. by apply Forall_singleton.
    + rewrite Eg. apply Forall_nil_2.
  - repeat (apply Forall_cons; split; [by eexists|]).
    destruct (cd_Coordinators _), (cd_Data _); repeat (apply Forall_cons; split; [by eexists|]); apply Forall_nil_2.
  - destruct (sp_SysctlInitContainer spec) as [c|]; [|done]. cbn. by case_decide; intros [=].
  - by eexists.
  - destruct (sp_Monitoring spec) as [m|]; [|done]. cbn. destruct (mo_GrafanaDashboard m) as [g|]; [|done]. cbn.
    by case_decide; intros [=].
Qed.

Lemma Forall_app_sizes {A} (P : A → Prop) l1 l2 l3 :
  Forall P (l1 ++ l2 ++ l3) → Forall P l1 ∧ Forall P l2 ∧ Forall P l3.
Proof. by rewrite !Forall_app. Qed.

Lemma Forall_app_texts {A} (P : A → Prop) l1 l2 l3 l4 l5 :
  Forall P (l1 ++ l2 ++ l3 ++ l4 ++ l5) → Forall P l1 ∧ Forall P l2 ∧ Forall P l3 ∧ Forall P l4 ∧ Forall P l5.
Proof. by rewrite !Forall_app. Qed.

Ltac kept H :=
  rewrite ?Forall_cons in H; destruct_and? H;
  repeat match goal with H : is_Some _ |- _ => destruct H as [? ?]; simplify_eq/= end;
  rewrite ?orDefault_kept by done.

Lemma default_uploader_kept `{Kube} u : cu_PullPolicy u ≠ "" → default_uploader u = u.
Proof. destruct u. intros Hp. unfold default_uploader. cbn -[orDefault] in *. by rewrite orDefault_kept. Qed.

Lemma default_external_kept e :
  Forall is_Some (if has_gateway (ea_Gateway e) then [gw_DataPortBase (ea_Gateway e)] else []) → default_external e = e.
Proof.
  destruct e as [? ? ? []]. unfold default_external. cbn -[has_gateway]. destruct (has_gateway _); [|done].
  intros Hp. by kept Hp.
Qed.

Lemma default_vmagent_kept `{Kube} v :
  Forall (λ text, text ≠ "") [vi_Repository (va_Image v); vi_Tag (va_Image v); vi_PullPolicy (va_Image v); va_ScrapeInterval v] →
  default_vmagent v = v.
Proof. destruct v as [[] ? ? ? ?]. unfold default_vmagent. cbn -[orDefault]. intros Hp. by kept Hp. Qed.

Lemma default_vector_kept `{Kube} v :
  Forall (λ text, text ≠ "") [xi_Repository (vr_Image v); xi_Tag (vr_Image v); xi_PullPolicy (vr_Image v)] →
  default_vector v = v.
Proof. destruct v as [[] ? ? ? ?]. unfold default_vector. cbn -[orDefault]. intros Hp. by kept Hp. Qed.

Lemma default_monitoring_kept `{Kube} m :
  (gd_Labels <$> mo_GrafanaDashboard m) ≠ Some ∅ →
  default_vmagent <$> mo_VMAgentRemote m = mo_VMAgentRemote m → default_vector <$> mo_VectorRemote m = mo_VectorRemote m →
  default_monitoring m = m.
Proof.
  destruct m as [? g ? ?]. unfold default_monitoring. cbn. intros Hg -> ->. f_equal.
  destruct g as [[l a]|]; [|done]. cbn in *. rewrite decide_False; [done|congruence].
Qed.

Lemma complete_schemaDefaults `{Kube} spec : complete spec → schemaDefaults spec = spec.
Proof.
  destruct spec as [coordinators data image secrets aws storage dumps sysctl sc fix' domain probe res labels sched env flags
    vols mounts user init ext mon tls fips].
  destruct image, secrets, storage as [? [] []], dumps as [cc cd class pattern up], probe, sched as [aa ? ?].
  unfold complete, defaulted_texts, defaulted_numbers, defaulted_sizes.
  intros ((Ht & Hup & Haa & Hva & Hve)%Forall_app_texts & (Hn & Hext)%Forall_app & (Hs & Hcc & Hcd)%Forall_app_sizes &
    Hm & Hsc & Hg). cbn -[has_gateway] in *.
  assert (default_external <$> ext = ext) as Eext.
  { destruct ext as [e|]; [|done]. cbn -[has_gateway]. f_equal. by apply default_external_kept. }
  assert (default_uploader <$> up = up) as Eup.
  { destruct up as [u|]; [|done]. cbn in *. f_equal. apply default_uploader_kept. by kept Hup. }
  assert (default_anti_affinity <$> aa = aa) as Eaa.
  { destruct aa as [[]|]; [|done]. unfold default_anti_affinity. cbn -[orDefault] in *. by kept Haa. }
  assert (default_monitoring <$> mon = mon) as Emon.
  { destruct mon as [m|]; [|done]. cbn in *. f_equal. apply default_monitoring_kept; [done| |].
    - destruct (mo_VMAgentRemote m); [|done]. cbn in *. f_equal. by apply default_vmagent_kept.
    - destruct (mo_VectorRemote m); [|done]. cbn in *. f_equal. by apply default_vector_kept. }
  assert (default_core_dumps (mkCoreDumpsSpec cc cd class pattern up) = mkCoreDumpsSpec cc cd class pattern up) as Ecd.
  { unfold default_core_dumps. cbn -[orDefault]. rewrite Eup. clear -Ht Hcc Hcd.
    destruct cc as [[]|], cd as [[]|]; cbn -[orDefault] in *; kept Hcc; kept Hcd; by kept Ht. }
  assert ((λ c, mkSysctlInitContainerSpec (if decide (si_MaxMapCount c = 0%Z) then 524288%Z else si_MaxMapCount c)) <$> sysctl =
    sysctl) as Esysctl.
  { destruct sysctl as [[]|]; [|done]. cbn in *. rewrite decide_False; [done|congruence]. }
  clear Hup Haa Hva Hve Hext Hcc Hcd Hm Hg Eup. kept Ht. kept Hn. kept Hs.
  unfold schemaDefaults, default_image, default_secrets, default_storage, default_probe. cbn -[orDefault default_core_dumps].
  by rewrite Eext, Eaa, Emon, Ecd, Esysctl, !orDefault_kept by done.
Qed.

Lemma lookup_selectorLabels name component k :
  selectorLabels name component !! k =
    if decide (k = NameLabel) then Some NameValue
    else if decide (k = instanceLabel) then Some name
    else if decide (k = componentLabel) then Some component else None.
Proof.
  unfold selectorLabels. destruct (decide (k = NameLabel)) as [->|H1]; [by rewrite lookup_insert_eq|].
  rewrite lookup_insert_ne by done. destruct (decide (k = instanceLabel)) as [->|H2]; [by rewrite lookup_insert_eq|].
  rewrite lookup_insert_ne by done. case_decide; [subst; apply lookup_singleton_eq|by apply lookup_singleton_ne].
Qed.

Lemma selector_component name component : selectorLabels name component !! componentLabel = Some component.
Proof. by rewrite lookup_selectorLabels. Qed.

Lemma lookup_labels name component custom k :
  labels name component custom !! k =
    if decide (k = ManagedByLabel) then Some ManagedByValue
    else match selectorLabels name component !! k with Some v => Some v | None => custom !! k end.
Proof.
  unfold labels. case_decide as Hk; [subst; apply lookup_insert_eq|]. rewrite lookup_insert_ne by done.
  rewrite lookup_union. destruct (selectorLabels name component !! k), (custom !! k); done.
Qed.

(** No custom label can detach an object from its cluster: the operator's identity
    labels win every collision, so the role's selector always matches and the cluster and
    role are read back from the labels; every other custom label is kept. *)
Lemma labels_identity name component custom :
  selectorLabels name component ⊆ labels name component custom ∧
  labels name component custom !! ManagedByLabel = Some ManagedByValue ∧
  (∀ k, k ∉ [ManagedByLabel; NameLabel; instanceLabel; componentLabel] →
     labels name component custom !! k = custom !! k) ∧
  ClusterNameOf (labels name component custom) = name ∧
  ClusterNameOfMemgraphPod (labels name component custom) =
    (if decide (component = coordinatorComponent ∨ component = dataComponent) then name else "").
Proof.
  assert (ClusterNameOf (labels name component custom) = name) as Hc.
  { unfold ClusterNameOf. by rewrite !lookup_labels, !lookup_selectorLabels. }
  split_and!; [|by rewrite lookup_labels| |done|].
  - apply map_subseteq_spec. intros k v Hk. rewrite lookup_labels. case_decide as E; [|by rewrite Hk].
    subst. by rewrite lookup_selectorLabels in Hk.
  - intros k Hk. rewrite !not_elem_of_cons in Hk. destruct Hk as (?&?&?&?&_).
    by rewrite lookup_labels, lookup_selectorLabels, !decide_False by done.
  - unfold ClusterNameOfMemgraphPod. by rewrite Hc, lookup_labels, lookup_selectorLabels.
Qed.
