(* ===== verification/Topology.v ===== *)
(** * Package resources: the declared topology

    internal/resources/topology.go: which members the spec declares and which a lowered count
    retires, their names and addresses by pod ordinal, and the endpoints the operator dials.
    The topology is the planner's input: [topology_wf] discharges [Planner.wf_topology]. *)

From S2P Require Import Prelude GoStrings GoErrors K8s Api Client Planner Resources.

(** ** Names and ordinals *)

Definition CoordinatorID (ordinal : Z) : Z := ordinal.
Definition CoordinatorInstanceName (ordinal : Z) : string :=
  c_Name (mkCoordinatorSpec (CoordinatorID ordinal) "" "" "").
Definition DataInstanceName (ordinal : Z) : string := "instance_" ^^ Itoa ordinal.
Definition PodName (statefulSet : string) (ordinal : Z) : string := statefulSet ^^ "-" ^^ Itoa ordinal.

Definition CoordinatorOrdinal (name : string) : Z + error := CoordinatorIDFromName name.

(** The scan error the result wraps is left out, as in [CoordinatorIDFromName]. *)
Definition DataInstanceOrdinal (name : string) : Z + error :=
  match Sscanf_ordinal "instance_" name with
  | Some ordinal => inl ordinal
  | None => inr (Errorf ("parsing data instance name " ^^ Quote name) [])
  end.

(** ** Addresses *)

Definition hostPort (host : string) (port : Z) : string := host ^^ ":" ^^ Itoa port.

Definition podFQDNSuffix (namespace serviceName clusterDomain : string) : string :=
  serviceName ^^ "." ^^ namespace ^^ ".svc." ^^ clusterDomain.

Definition podFQDN (namespace serviceName clusterDomain : string) (ordinal : Z) : string :=
  serviceName ^^ "-" ^^ Itoa ordinal ^^ "." ^^ podFQDNSuffix namespace serviceName clusterDomain.

Definition announcedBolt (fqdn externalBolt : string) : string :=
  if decide (externalBolt = "") then hostPort fqdn BoltPort else externalBolt.

(** The external addresses known so far (external.go): the coordinators' shared one, and
    one per data ordinal. *)
Record ExternalAddresses := mkExternalAddresses {
  ex_Coordinators : string;
  ex_Data : gmap Z string
}.

Record Endpoint := mkEndpoint {
  ep_Name : string;
  ep_Pod : string;
  ep_Address : string;
  ep_TLS : bool
}.

#[export] Instance Endpoint_eq_dec : EqDecision Endpoint.
Proof. solve_decision. Defined.

(** ** The topology *)

Section topology.
Context `{Kube} {L : Type}.
Implicit Types (cluster : MemgraphDBCluster L).

Definition coordinator cluster (spec : normalizedSpec) (ordinal : Z) (externalBolt : string)
    : CoordinatorSpec :=
  let fqdn := podFQDN (m_Namespace (Meta cluster)) (CoordinatorName (m_Name (Meta cluster)))
                (n_clusterDomain spec) ordinal in
  mkCoordinatorSpec (CoordinatorID ordinal) (announcedBolt fqdn externalBolt)
    (hostPort fqdn CoordinatorPort) (hostPort fqdn ManagementPort).

Definition dataInstance cluster (spec : normalizedSpec) (ordinal : Z) (externalBolt : string)
    : DataInstanceSpec :=
  let fqdn := podFQDN (m_Namespace (Meta cluster)) (DataName (m_Name (Meta cluster)))
                (n_clusterDomain spec) ordinal in
  mkDataInstanceSpec (DataInstanceName ordinal) (announcedBolt fqdn externalBolt)
    (hostPort fqdn ManagementPort) (hostPort fqdn ReplicationPort).

Definition DeclaredCoordinators cluster : Z := n_coordinators (normalize (Spec cluster)).
Definition DeclaredDataInstances cluster : Z := n_dataInstances (normalize (Spec cluster)).

Definition DeclaredTopology cluster (external : ExternalAddresses) : Topology :=
  let spec := normalize (Spec cluster) in
  mkTopology
    ((λ ordinal, coordinator cluster spec ordinal (ex_Coordinators external)) <$>
       ordinals (n_coordinators spec))
    ((λ ordinal, dataInstance cluster spec ordinal (ex_Data external !!? ordinal | "")) <$>
       ordinals (n_dataInstances spec))
    [] [].

Definition endpoints cluster (statefulSet : string) (running : Z) (instanceName : Z → string)
    : list Endpoint :=
  let spec := normalize (Spec cluster) in
  (λ ordinal,
     mkEndpoint (instanceName ordinal) (PodName statefulSet ordinal)
       (hostPort (podFQDN (m_Namespace (Meta cluster)) statefulSet (n_clusterDomain spec) ordinal) BoltPort)
       (negb (bool_decide (n_boltTLSSecret spec = "")))) <$> ordinals running.

Definition CoordinatorEndpoints cluster (running : Z) : list Endpoint :=
  endpoints cluster (CoordinatorName (m_Name (Meta cluster))) running CoordinatorInstanceName.
Definition DataEndpoints cluster (running : Z) : list Endpoint :=
  endpoints cluster (DataName (m_Name (Meta cluster))) running DataInstanceName.

(** The ordinals [declared, applied) of a shrink. *)
Definition RetiringCoordinators cluster (applied : Z) : list CoordinatorSpec :=
  let spec := normalize (Spec cluster) in
  if (applied <=? n_coordinators spec)%Z then []
  else (λ ordinal, coordinator cluster spec ordinal "") <$>
         seqZ (n_coordinators spec) (applied - n_coordinators spec).

Definition RetiringDataInstances cluster (applied : Z) : list DataInstanceSpec :=
  let spec := normalize (Spec cluster) in
  if (applied <=? n_dataInstances spec)%Z then []
  else (λ ordinal, dataInstance cluster spec ordinal "") <$>
         seqZ (n_dataInstances spec) (applied - n_dataInstances spec).

(** The topology of a pass, as the start of [reconcileRegistration] completes it. *)
Definition passTopology cluster (external : ExternalAddresses) (appliedCoordinators appliedData : Z)
    : Topology :=
  let topology := DeclaredTopology cluster external in
  mkTopology (Coordinators topology) (DataInstances topology)
    (RetiringCoordinators cluster appliedCoordinators) (RetiringDataInstances cluster appliedData).
End topology.

(** ** Lemmas *)

Lemma DataInstanceName_inj x y : DataInstanceName x = DataInstanceName y → x = y.
Proof. intros H. apply Itoa_inj. by apply app_inj_l_s in H. Qed.

Lemma announcedBolt_ne fqdn external : announcedBolt fqdn external ≠ "".
Proof.
  unfold announcedBolt, hostPort. case_decide; [|done]. destruct fqdn; [done|]. by rewrite app_cons_s.
Qed.

Lemma PodName_inj sts x y : PodName sts x = PodName sts y → x = y.
Proof. unfold PodName. intros E. by do 2 apply app_inj_l_s in E; apply Itoa_inj. Qed.

(** No pod runs in both roles. *)
Lemma PodName_roles cluster o o' : PodName (CoordinatorName cluster) o ≠ PodName (DataName cluster) o'.
Proof. unfold PodName, CoordinatorName, DataName. intros E. rewrite !app_assoc_s in E. by apply app_inj_l_s in E. Qed.

(** Consecutive ordinal ranges make one. *)
Lemma ordinals_app (n m : Z) : (0 ≤ n ≤ m)%Z → ordinals n ++ seqZ n (m - n) = ordinals m.
Proof. intros. unfold ordinals. replace m with (n + (m - n))%Z at 2 by lia. by rewrite seqZ_app by lia. Qed.

Section topology_lemmas.
Context `{Kube} {L : Type}.
Implicit Types (cluster : MemgraphDBCluster L).

Lemma coordinator_ids cluster external applied :
  (0 ≤ DeclaredCoordinators cluster)%Z →
  c_ID <$> Coordinators (DeclaredTopology cluster external) ++ RetiringCoordinators cluster applied =
    ordinals (Z.max (DeclaredCoordinators cluster) applied).
Proof.
  unfold DeclaredCoordinators, DeclaredTopology, RetiringCoordinators. cbn [Coordinators].
  set (n := n_coordinators _). intros Hn. rewrite fmap_app, <- list_fmap_compose.
  case_match eqn:E; [apply Z.leb_le in E|apply Z.leb_gt in E].
  - rewrite app_nil_r, Z.max_l by lia. apply (list_fmap_id (seqZ _ _)).
  - rewrite <- list_fmap_compose, Z.max_r, <- (ordinals_app n applied) by lia. f_equal; apply (list_fmap_id (seqZ _ _)).
Qed.

Lemma data_names cluster external applied :
  (0 ≤ DeclaredDataInstances cluster)%Z →
  d_Name <$> DataInstances (DeclaredTopology cluster external) ++ RetiringDataInstances cluster applied =
    DataInstanceName <$> ordinals (Z.max (DeclaredDataInstances cluster) applied).
Proof.
  unfold DeclaredDataInstances, DeclaredTopology, RetiringDataInstances. cbn [DataInstances].
  set (n := n_dataInstances _). intros Hn. rewrite fmap_app, <- list_fmap_compose.
  case_match eqn:E; [apply Z.leb_le in E|apply Z.leb_gt in E].
  - by rewrite app_nil_r, Z.max_l by lia.
  - rewrite <- list_fmap_compose, Z.max_r, <- (ordinals_app n applied) by lia. by rewrite fmap_app.
Qed.

Lemma elem_of_data cluster external applied i :
  (0 ≤ DeclaredDataInstances cluster)%Z →
  i ∈ DataInstances (DeclaredTopology cluster external) ++ RetiringDataInstances cluster applied →
  ∃ ordinal, d_Name i = DataInstanceName ordinal.
Proof.
  intros Hn Hi. apply (list_elem_of_fmap_2 d_Name) in Hi. rewrite data_names in Hi by done.
  apply list_elem_of_fmap in Hi as (o & -> & _). by exists o.
Qed.
End topology_lemmas.

(** ** Properties *)

(** A member's name and the ordinal of its pod determine each other: over int32
    ordinals, reading back the name of a coordinator or of a data instance gives the
    ordinal it was made from. *)
Theorem ordinal_roundtrip ordinal :
  (0 ≤ ordinal)%Z → is_int32 ordinal →
  CoordinatorOrdinal (CoordinatorInstanceName ordinal) = inl ordinal ∧
  DataInstanceOrdinal (DataInstanceName ordinal) = inl ordinal.
Proof.
  intros Hz Hr. unfold CoordinatorOrdinal, CoordinatorIDFromName, DataInstanceOrdinal.
  change (CoordinatorInstanceName ordinal) with (coordinatorNamePrefix ^^ Itoa ordinal).
  unfold DataInstanceName. by rewrite !Sscanf_ordinal_Itoa.
Qed.

Lemma ordinal_roundtrip_witness :
  CoordinatorOrdinal "coordinator_2" = inl 2%Z ∧ DataInstanceOrdinal "instance_2" = inl 2%Z.
Proof. apply (ordinal_roundtrip 2); [lia|unfold is_int32; lia]. Defined.

(** The topology a pass plans against is well formed, whatever the external addresses
    and the applied counts: distinct ids and names, no empty name, no data instance named
    like a coordinator, an address for every declared member; and its retiring members are
    exactly the ordinals from the declared count up to the applied one. *)
Theorem passTopology_wf `{Kube} {L} (cluster : MemgraphDBCluster L) external coordinators data :
  (0 ≤ DeclaredCoordinators cluster)%Z → (0 ≤ DeclaredDataInstances cluster)%Z →
  let t := passTopology cluster external coordinators data in
  wf_topology t ∧
  c_ID <$> Coordinators t ++ t_RetiringCoordinators t = ordinals (Z.max (DeclaredCoordinators cluster) coordinators) ∧
  d_Name <$> DataInstances t ++ t_RetiringDataInstances t =
    DataInstanceName <$> ordinals (Z.max (DeclaredDataInstances cluster) data) ∧
  length (Coordinators t) = Z.to_nat (DeclaredCoordinators cluster) ∧
  length (DataInstances t) = Z.to_nat (DeclaredDataInstances cluster).
Proof.
  intros Hc Hd. cbn zeta. unfold passTopology.
  split_and!; cbn [Coordinators DataInstances t_RetiringCoordinators t_RetiringDataInstances];
    [|by apply coordinator_ids|by apply data_names|
     by unfold DeclaredTopology; cbn [Coordinators DataInstances]; rewrite length_fmap; apply length_seqZ|
     by unfold DeclaredTopology; cbn [Coordinators DataInstances]; rewrite length_fmap; apply length_seqZ].
  split; cbn [Coordinators DataInstances t_RetiringCoordinators t_RetiringDataInstances].
  - rewrite data_names by done. apply NoDup_fmap_2; [intros ??; apply DataInstanceName_inj|apply NoDup_seqZ].
  - rewrite coordinator_ids by done. apply NoDup_seqZ.
  - intros i Hi. apply elem_of_data in Hi as [o ->]; done.
  - intros i c Hi _. apply elem_of_data in Hi as [o ->]; done.
  - unfold DeclaredTopology. intros c (o & -> & _)%list_elem_of_fmap. apply announcedBolt_ne.
  - unfold DeclaredTopology. intros c (o & -> & _)%list_elem_of_fmap. apply announcedBolt_ne.
Qed.

Lemma passTopology_wf_witness :
  wf_topology (passTopology (Api.Example.cluster (Some 3%Z) (Some 1%Z))
    (mkExternalAddresses "" ∅) 5 2) ∧
  t_RetiringDataInstances (passTopology (Api.Example.cluster (Some 3%Z) (Some 1%Z))
    (mkExternalAddresses "" ∅) 5 2) ≠ [].
Proof.
  split; [|by vm_compute].
  apply (passTopology_wf (Api.Example.cluster (Some 3%Z) (Some 1%Z)) (mkExternalAddresses "" ∅) 5 2);
    vm_compute; done.
Defined.
