(* ===== verification/Flags.v ===== *)
(** * Package resources: the flag file and its annotation

    internal/resources/flags.go. The hash is a parameter: [digest v] stands for the first
    sixteen hexadecimal characters of the SHA-256 of [v] ([sha256.Sum256], [hex.EncodeToString]),
    of which the theorems use that it is not empty and holds no newline; injectivity is
    never assumed. *)

From S2P Require Import Prelude GoStrings Settings K8s Api Resources.

(** ** Definitions *)

Definition FlagFileKey : string := "memgraph.flags".
Definition flagsVolumeName : string := "flags".
Definition flagsMountPath : string := "/etc/memgraph-flags".
Definition flagFilePath : string := flagsMountPath ^^ "/" ^^ FlagFileKey.
Definition FlagsAnnotation : string := "memgraph.com/flags".
Definition TemplateHashAnnotation : string := "memgraph.com/template-hash".
Definition flagsComponent : string := "flags".

Definition SystemUserPasswordKey : string := "password".
Definition SystemUserHashKey : string := "hash".
Definition systemUserComponent : string := "system-user".
Definition systemUserMountPath : string := "/etc/memgraph/system-user".
Definition systemUserHashFlag : string := "system_user_internal_hash_file".

Definition CoordinatorFlagsName (name : string) : string := CoordinatorName name ^^ "-" ^^ flagsComponent.
Definition DataFlagsName (name : string) : string := DataName name ^^ "-" ^^ flagsComponent.

Definition defaultFlags : gmap string string :=
  {[ "log_level" := "INFO"; "also_log_to_stderr" := "true"; "log_retention_days" := "35";
     systemUserHashFlag := systemUserMountPath ^^ "/" ^^ SystemUserHashKey ]}.

(** [slices.Sorted(maps.Keys(m))]. *)
Definition SortedKeys `{RangeOrder} {V} (m : gmap string V) : list string := SortStrings (range m).*1.

Section flags.
Context {RO : RangeOrder} (digest : string → string).

Definition roleFlags (flags : gmap string string) : gmap string string :=
  foldl (λ merged key, <[Normalize key := flags !!? key | ""]> merged) defaultFlags (SortedKeys flags).

Definition flagFile (flags : gmap string string) : string :=
  foldr (λ key rest, "--" ^^ key ^^ "=" ^^ (flags !!? key | "") ^^ String newline rest) ""
    (SortedKeys flags).

Definition flagsDigests (flags : gmap string string) : string :=
  foldr (λ key rest, if IsRuntime key then rest
                     else key ^^ "=" ^^ digest (flags !!? key | "") ^^ String newline rest) ""
    (SortedKeys flags).

Definition parse_line (digests : gmap string string) (line : string) : gmap string string :=
  match Cut line "=" with
  | Some (key, digest) => if decide (key = "") then digests else <[key := digest]> digests
  | None => digests
  end.

Definition ParseFlagsDigests (annotation : string) : gmap string string :=
  foldl parse_line ∅ (Split annotation newline).

(** The two loops of [ChangedFlags]. *)
Definition ChangedFlags (before after : string) : list string :=
  let old := ParseFlagsDigests before in
  let current := ParseFlagsDigests after in
  let changed1 := foldl (λ (changed : gmap string bool) '(key, digest),
                           if decide ((old !!? key | "") ≠ digest) then <[key := true]> changed else changed)
                    ∅ (range current) in
  let changed2 := foldl (λ changed '(key, _),
                           match current !! key with
                           | None => <[key := true]> changed
                           | Some _ => changed
                           end) changed1 (range old) in
  SortedKeys changed2.
End flags.

Definition CoordinatorFlags `{RangeOrder} `{Kube} (spec : MemgraphDBClusterSpec) : gmap string string :=
  roleFlags (nro_flags (n_coordinatorRole (normalize spec))).
Definition DataFlags `{RangeOrder} `{Kube} (spec : MemgraphDBClusterSpec) : gmap string string :=
  roleFlags (nro_flags (n_dataRole (normalize spec))).

(** [PodTemplateHash]: a template is its annotations and the rest of it; the JSON encoding
    and its hash are parameters. *)
Definition PodTemplateHash {B} (digest : string → string) (marshal : gmap string string → B → option string)
    (annotations : gmap string string) (rest : B) : string :=
  match marshal (delete TemplateHashAnnotation (delete FlagsAnnotation annotations)) rest with
  | Some encoded => digest encoded
  | None => "unhashable"
  end.

(** The flag names admission accepts: [^[A-Za-z][A-Za-z0-9_-]*$]. *)
Definition is_letter (c : ascii) : bool :=
  let n := nat_of_ascii c in (65 <=? n) && (n <=? 90) || (97 <=? n) && (n <=? 122).
Definition is_flag_char (c : ascii) : bool :=
  let n := nat_of_ascii c in is_letter c || (48 <=? n) && (n <=? 57) || (n =? 95) || (n =? 45).
Definition flag_name (key : string) : bool :=
  match key with "" => false | String c s => is_letter c && all_chars is_flag_char s end.

(** ** Lemmas *)

Section lemmas.
Context {RO : RangeOrder}.

Lemma elem_of_SortedKeys {V} (m : gmap string V) k : k ∈ SortedKeys m ↔ is_Some (m !! k).
Proof.
  unfold SortedKeys. rewrite elem_of_SortStrings, list_elem_of_fmap. split.
  - intros ([k' v] & -> & Hin%elem_of_range). eauto.
  - intros [v Hv]. exists (k, v). by rewrite elem_of_range.
Qed.

Lemma NoDup_SortedKeys {V} (m : gmap string V) : NoDup (SortedKeys m).
Proof. unfold SortedKeys. rewrite SortStrings_perm. apply NoDup_range_fst. Qed.

(** A file of one line per element, split back into its lines. *)
Lemma Split_lines {A} (line : A → string) (l : list A) :
  (∀ x, x ∈ l → free_of newline (line x) = true) →
  Split (foldr (λ x rest, line x ^^ String newline rest) "" l) newline = (line <$> l) ++ [""].
Proof.
  induction l as [|x l IH]; intros Hl; [done|]. cbn [foldr].
  rewrite Split_app by (rewrite Hl by left; done). rewrite IH by (intros; apply Hl; by right). done.
Qed.

Lemma free_of_app c s t : free_of c (s ^^ t) = free_of c s && free_of c t.
Proof. apply all_chars_app. Qed.

Lemma parse_lines (key value : string → string) (l : list string) m k :
  (∀ x, x ∈ l → key x ≠ "" ∧ free_of "=" (key x) = true) → NoDup (key <$> l) →
  foldl parse_line m ((λ x, key x ^^ String "=" (value x)) <$> l) !! k =
    match List.find (λ x, bool_decide (key x = k)) l with Some x => Some (value x) | None => m !! k end.
Proof.
  revert m. induction l as [|x l IH]; intros m Hl Hnd; [done|]. cbn [fmap list_fmap foldl].
  cbn [fmap list_fmap] in Hnd. apply NoDup_cons in Hnd as [Hx Hnd].
  destruct (Hl x) as [Hne Hf]; [left|].
  rewrite IH by (done || intros; apply Hl; by right). simpl.
  unfold parse_line. rewrite Cut_app by (by rewrite Hf). rewrite decide_False by done.
  case_bool_decide as E; subst.
  - destruct (List.find _ l) as [y|] eqn:Ef; [|by rewrite lookup_insert_eq].
    apply find_Some_elem in Ef as [Hy Hk]. apply bool_decide_eq_true in Hk.
    destruct Hx. rewrite <- Hk. by apply list_elem_of_fmap_2.
  - destruct (List.find _ l); [done|]. by rewrite lookup_insert_ne.
Qed.

Definition startup_keys (flags : gmap string string) : list string :=
  List.filter (λ key, negb (IsRuntime key)) (SortedKeys flags).

Lemma flagsDigests_lines digest flags :
  flagsDigests digest flags =
    foldr (λ key rest, (key ^^ String "=" (digest (flags !!? key | ""))) ^^ String newline rest) ""
      (startup_keys flags).
Proof.
  unfold flagsDigests, startup_keys. induction (SortedKeys flags) as [|k l IH]; [done|].
  cbn [foldr List.filter]. rewrite IH. destruct (IsRuntime k); [done|]. cbn [foldr negb].
  rewrite !app_assoc_s. done.
Qed.

Lemma startup_keys_spec flags k : k ∈ startup_keys flags ↔ is_Some (flags !! k) ∧ IsRuntime k = false.
Proof. unfold startup_keys. by rewrite elem_of_bfilter, elem_of_SortedKeys, negb_true_iff. Qed.

(** The annotation depends on the digests of the startup-only flags alone. *)
Lemma flagsDigests_same digest flags flags' :
  (∀ k, IsRuntime k = false → digest <$> flags !! k = digest <$> flags' !! k) →
  flagsDigests digest flags = flagsDigests digest flags'.
Proof.
  intros Hd. rewrite !flagsDigests_lines.
  assert (startup_keys flags = startup_keys flags') as ->.
  { apply (Sorted_unique String.le); [apply bfilter_sorted, SortStrings_sorted..|].
    apply NoDup_Permutation; [apply NoDup_bfilter, NoDup_SortedKeys..|]. intros k. rewrite !startup_keys_spec.
    split; intros [Hs Hr]; specialize (Hd k Hr); (split; [|done]); destruct (flags !! k), (flags' !! k); try done; by destruct Hs. }
  assert (∀ k, k ∈ startup_keys flags' → digest (flags !!? k | "") = digest (flags' !!? k | "")) as Hk.
  { intros k [Hs Hr]%startup_keys_spec. specialize (Hd k Hr). destruct Hs as [v Hv]. rewrite Hv in Hd |- *.
    destruct (flags !! k); simplify_eq/=; congruence. }
  induction (startup_keys flags') as [|k l IH]; [done|]. cbn [foldr].
  rewrite IH by (intros; apply Hk; by right). by rewrite Hk by left.
Qed.

Lemma flag_chars_free s c : all_chars is_flag_char s = true → is_flag_char c = false → free_of c s = true.
Proof.
  unfold free_of. induction s as [|d s IH]; [done|]. simpl. intros [Hd Hs]%andb_true_iff Hc.
  rewrite IH by done. rewrite bool_decide_eq_false_2; [done|]. intros ->. congruence.
Qed.

Lemma flag_name_chars key : flag_name key = true → key ≠ "" ∧ all_chars is_flag_char key = true.
Proof.
  destruct key as [|c s]; [done|]. simpl. intros [Hc ->]%andb_true_iff. split; [done|].
  unfold is_flag_char. by rewrite Hc.
Qed.

Lemma Normalize_flag_name key : flag_name key = true → flag_name (Normalize key) = true.
Proof.
  destruct key as [|c s]; [done|]. simpl. intros [Hc Hs]%andb_true_iff. unfold Normalize. simpl.
  assert (c ≠ "-"%char) as Hne by (intros ->; done). rewrite decide_False by done. simpl.
  rewrite decide_False, Hc by done. simpl. clear Hc Hne.
  induction s as [|d s IH]; [done|]. simpl in *. apply andb_true_iff in Hs as [Hd Hs].
  rewrite (IH Hs), andb_true_r. case_decide; [done|]. done.
Qed.
End lemmas.

Section properties.
Context {RO : RangeOrder}.

Lemma roleFlags_fold (flags : gmap string string) (l : list string) (m : gmap string string) k :
  (∀ f g, f ∈ l → g ∈ l → Normalize f = Normalize g → f = g) → NoDup l →
  foldl (λ merged key, <[Normalize key := flags !!? key | ""]> merged) m l !! k =
    match List.find (λ f, bool_decide (Normalize f = k)) l with
    | Some f => Some (flags !!? f | "")
    | None => m !! k
    end.
Proof.
  revert m. induction l as [|f l IH]; intros m Hinj Hnd; [done|]. apply NoDup_cons in Hnd as [Hf Hnd].
  cbn [foldl]. rewrite IH; [|intros; apply Hinj; by auto using list_elem_of_further|done]. simpl.
  case_bool_decide as E.
  - destruct (List.find _ l) as [g|] eqn:Eg; [|by rewrite <- E, lookup_insert_eq].
    apply find_Some_elem in Eg as [Hg Hk]. apply bool_decide_eq_true in Hk.
    destruct Hf. rewrite (Hinj f g); [done|left|by right|congruence].
  - destruct (List.find _ l); [done|]. by rewrite lookup_insert_ne.
Qed.

Lemma roleFlags_lookup flags k :
  spelled_once flags →
  roleFlags flags !! k =
    match List.find (λ f, bool_decide (Normalize f = k)) (SortedKeys flags) with
    | Some f => flags !! f
    | None => defaultFlags !! k
    end.
Proof.
  intros Hso. unfold roleFlags. rewrite roleFlags_fold; [|by setoid_rewrite elem_of_SortedKeys|apply NoDup_SortedKeys].
  destruct (List.find _ _) as [f|] eqn:E; [|done].
  apply find_Some_elem in E as [[v Hv]%elem_of_SortedKeys _]. by rewrite Hv.
Qed.

Lemma roleFlags_names flags k :
  (∀ f, is_Some (flags !! f) → flag_name f = true) → is_Some (roleFlags flags !! k) → flag_name k = true.
Proof.
  intros Hn. unfold roleFlags.
  assert (∀ l (m : gmap string string), (∀ f, f ∈ l → flag_name f = true) →
    (∀ k, is_Some (m !! k) → flag_name k = true) →
    is_Some (foldl (λ merged key, <[Normalize key := flags !!? key | ""]> merged) m l !! k) → flag_name k = true) as Hl.
  { induction l as [|f l IH]; intros m Hf Hm; [apply Hm|]. apply IH; [intros; apply Hf; by right|].
    intros j [<-|[_ Hj]]%lookup_insert_is_Some; [|by apply Hm]. apply Normalize_flag_name, Hf. left. }
  apply Hl; [intros f Hf; by apply Hn, elem_of_SortedKeys|]. intros j Hj. unfold defaultFlags in Hj.
  rewrite !lookup_insert_is_Some, lookup_singleton_is_Some in Hj.
  by destruct Hj as [<-|[_ [<-|[_ [<-|[_ <-]]]]]].
Qed.

Lemma parse_startup digest flags k :
  (∀ f, is_Some (flags !! f) → flag_name f = true) → (∀ v, free_of newline (digest v) = true) →
  ParseFlagsDigests (flagsDigests digest flags) !! k =
    if IsRuntime k then None else digest <$> flags !! k.
Proof.
  intros Hn Hd. unfold ParseFlagsDigests. rewrite flagsDigests_lines.
  assert (∀ x, x ∈ startup_keys flags → is_Some (flags !! x) ∧ IsRuntime x = false) as Hs.
  { intros x [Hx Hr]%elem_of_bfilter. rewrite elem_of_SortedKeys in Hx. by apply negb_true_iff in Hr. }
  rewrite Split_lines.
  2: { intros x Hx. apply Hs in Hx as [Hx _]. apply Hn, flag_name_chars in Hx as [_ Hx].
       rewrite free_of_app, (flag_chars_free x newline) by done. cbn [andb]. apply Hd. }
  rewrite foldl_app. match goal with |- context [foldl parse_line ?m [""]] =>
    change (foldl parse_line m [""]) with m end.
  rewrite (parse_lines (λ x, x) (λ x, digest (flags !!? x | ""))).
  2: { intros x Hx. apply Hs in Hx as [Hx _]. apply Hn, flag_name_chars in Hx as [Hne Hx].
       split; [done|]. by apply flag_chars_free. }
  2: { rewrite list_fmap_id. unfold startup_keys. apply NoDup_bfilter, NoDup_SortedKeys. }
  rewrite lookup_empty. destruct (List.find _ _) as [x|] eqn:E.
  - apply find_Some_elem in E as [Hx E]. apply bool_decide_eq_true in E as ->.
    apply Hs in Hx as [[v Hv] ->]. by rewrite Hv.
  - rewrite find_None_iff in E. destruct (IsRuntime k) eqn:Hr; [done|].
    destruct (flags !! k) eqn:Ek; [|done].
    assert (k ∈ startup_keys flags) as Hk.
    { apply elem_of_bfilter. rewrite elem_of_SortedKeys, Ek, Hr. eauto. }
    apply E in Hk. by rewrite bool_decide_eq_true_2 in Hk.
Qed.

Lemma elem_of_ChangedFlags before after k :
  k ∈ ChangedFlags before after ↔
  (∃ d, ParseFlagsDigests after !! k = Some d ∧ (ParseFlagsDigests before !!? k | "") ≠ d) ∨
  (is_Some (ParseFlagsDigests before !! k) ∧ ParseFlagsDigests after !! k = None).
Proof.
  unfold ChangedFlags. set (old := ParseFlagsDigests before). set (current := ParseFlagsDigests after).
  rewrite elem_of_SortedKeys.
  assert (∀ (p : string → string → Prop) `{∀ k d, Decision (p k d)} (l : list (string * string)) (m : gmap string bool),
    is_Some (foldl (λ changed '(key, d), if decide (p key d) then <[key := true]> changed else changed) m l !! k) ↔
    is_Some (m !! k) ∨ ∃ d, (k, d) ∈ l ∧ p k d) as Hl.
  { intros p Hp l. induction l as [|[j d] l IH]; intros m; cbn [foldl].
    { split; [by left|]. intros [?|(? & ?%elem_of_nil & _)]; done. }
    rewrite IH. setoid_rewrite elem_of_cons. case_decide as Hd.
    - rewrite lookup_insert_is_Some'. split; [intros [[->|?]|(?&?&?)]|intros [?|(?&[[= -> ->]|?]&?)]]; eauto 6.
    - split; [intros [?|(?&?&?)]|intros [?|(?&[[= -> ->]|?]&?)]]; eauto 6; done. }
  assert (∀ (l : list (string * string)) (m : gmap string bool),
    foldl (λ changed '(key, _), match current !! key with None => <[key := true]> changed | Some _ => changed end) m l =
    foldl (λ changed '(key, d), if decide (current !! key = None) then <[key := true]> changed else changed) m l) as Hm.
  { intros l. induction l as [|[j d] l IH]; intros m; [done|]. cbn [foldl].
    rewrite IH. destruct (current !! j) eqn:Ej; [by rewrite decide_False by done|by rewrite decide_True]. }
  rewrite Hm, (Hl (λ k _, current !! k = None)), (Hl (λ k d, (old !!? k | "") ≠ d)).
  setoid_rewrite elem_of_range. rewrite lookup_empty. unfold is_Some. naive_solver.
Qed.
End properties.

(** ** Properties *)

(** The flags a role runs with: with every flag of the spec spelled once, each key of
    the file is the spec's value under any spelling of it, or else the operator's default,
    and nothing else is in the file; every name in it is one gflags can read. *)
Theorem roleFlags_exact `{RangeOrder} flags :
  spelled_once flags → (∀ f, is_Some (flags !! f) → flag_name f = true) →
  (∀ f v, flags !! f = Some v → roleFlags flags !! Normalize f = Some v) ∧
  (∀ k, (∀ f, is_Some (flags !! f) → Normalize f ≠ k) → roleFlags flags !! k = defaultFlags !! k) ∧
  (∀ k, is_Some (roleFlags flags !! k) → flag_name k = true).
Proof.
  intros Hso Hn. split_and!.
  - intros f v Hf. rewrite roleFlags_lookup by done. destruct (List.find _ _) as [g|] eqn:E.
    + apply find_Some_elem in E as [Hg E]. apply bool_decide_eq_true in E.
      rewrite elem_of_SortedKeys in Hg. rewrite <- Hf. f_equal. apply Hso; eauto.
    + rewrite find_None_iff in E. assert (f ∈ SortedKeys flags) as Hin by (rewrite elem_of_SortedKeys, Hf; eauto).
      apply E in Hin. by rewrite bool_decide_eq_true_2 in Hin.
  - intros k Hk. rewrite roleFlags_lookup by done. destruct (List.find _ _) as [g|] eqn:E; [|done].
    apply find_Some_elem in E as [Hg E]. apply bool_decide_eq_true in E.
    rewrite elem_of_SortedKeys in Hg. by apply Hk in Hg.
  - intros k. by apply roleFlags_names.
Qed.

(** The annotation reads back as the digests of the startup-only flags and of nothing
    else, so a change to a run-time flag leaves it as it is. *)
Theorem flagsDigests_roundtrip `{RangeOrder} digest flags :
  (∀ f, is_Some (flags !! f) → flag_name f = true) → (∀ v, free_of newline (digest v) = true) →
  (∀ k, ParseFlagsDigests (flagsDigests digest flags) !! k =
     if IsRuntime k then None else digest <$> flags !! k) ∧
  (∀ k v, is_Some (flags !! k) → IsRuntime k = true →
     flagsDigests digest (<[k := v]> flags) = flagsDigests digest flags).
Proof.
  intros Hn Hd. split; [intros; by apply parse_startup|]. intros k v Hk Hr. rewrite !flagsDigests_lines.
  assert (startup_keys (<[k:=v]> flags) = startup_keys flags) as ->.
  { unfold startup_keys. f_equal. unfold SortedKeys. apply SortStrings_unique, NoDup_Permutation;
      [apply NoDup_range_fst..|]. intros x. pose proof (elem_of_SortedKeys flags x) as H1.
    pose proof (elem_of_SortedKeys (<[k:=v]> flags) x) as H2. unfold SortedKeys in H1, H2.
    rewrite elem_of_SortStrings in H1, H2. rewrite H1, H2, lookup_insert_is_Some'. naive_solver. }
  assert (∀ x, x ∈ startup_keys flags → x ≠ k) as Hs.
  { intros x [_ Hx]%elem_of_bfilter ->. by rewrite Hr in Hx. }
  induction (startup_keys flags) as [|x l IH]; [done|]. cbn [foldr].
  rewrite IH by (intros; apply Hs; by right). by rewrite lookup_insert_ne by (intros ->; apply (Hs x); [left|done]).
Qed.

(** A digest of the right shape: eight bytes in hexadecimal would do; here, the length. *)
Definition digest_example (v : string) : string := "d" ^^ Itoa (Z.of_nat (String.length v)).

Lemma digest_example_line v : free_of newline (digest_example v) = true.
Proof.
  unfold digest_example. rewrite free_of_app. simpl.
  set (n := Z.of_nat _). assert (0 ≤ n)%Z as Hn by lia. clearbody n.
  assert (Itoa n = pretty (Z.to_N n)) as -> by (by destruct n).
  pose proof (digits_pretty (Z.to_N n)) as Hd. revert Hd. generalize (pretty (Z.to_N n)) as s, 0%N as a.
  unfold free_of. induction s as [|c s IH]; intros a; [done|]. simpl.
  destruct (digit c) as [d|] eqn:Ed; simpl; [|done]. intros Hs. rewrite (IH _ Hs), andb_true_r.
  rewrite bool_decide_eq_false_2; [done|]. intros ->. done.
Qed.

(** What a pod is measured by: the keys that changed between two annotations the
    operator wrote are exactly the startup-only flags added, removed or given a value of
    another digest, and the run-time flags never among them. *)
Theorem ChangedFlags_exact `{RangeOrder} digest before after k :
  (∀ f, is_Some (before !! f) → flag_name f = true) → (∀ f, is_Some (after !! f) → flag_name f = true) →
  (∀ v, free_of newline (digest v) = true) → (∀ v, digest v ≠ "") →
  k ∈ ChangedFlags (flagsDigests digest before) (flagsDigests digest after) ↔
  IsRuntime k = false ∧ digest <$> before !! k ≠ digest <$> after !! k.
Proof.
  intros Hb Ha Hd Hne. rewrite elem_of_ChangedFlags, !parse_startup by done.
  destruct (IsRuntime k); [split; [intros [(?&?&_)|[[? ?] _]]; done|by intros [? _]]|].
  destruct (before !! k) as [v|], (after !! k) as [w|]; simpl.
  - split; [intros [(d & [= <-] & Hvw)|[_ ?]]; [|done]; split; [done|congruence]|].
    intros [_ Hvw]. left. exists (digest w). split; [done|]. congruence.
  - split; [done|]. intros _. right. eauto.
  - split; [done|]. intros _. left. exists (digest w). split; [done|]. by intros E%eq_sym%Hne.
  - split; [intros [(?&?&_)|[[? ?] _]]; done|by intros [_ ?]].
Qed.

(** ** Examples *)

Module Example.
Definition before : gmap string string := {[ "log_level" := "INFO"; "bolt_num_workers" := "8" ]}.
Definition after : gmap string string := {[ "log_level" := "DEBUG"; "bolt_num_workers" := "16" ]}.

Lemma names (m : gmap string string) :
  Forall (λ kv, flag_name kv.1 = true) (map_to_list m) → ∀ f, is_Some (m !! f) → flag_name f = true.
Proof.
  rewrite Forall_forall. intros Hm f [v Hv]. apply (Hm (f, v)). by apply elem_of_map_to_list.
Qed.
End Example.

Lemma roleFlags_exact_witness :
  roleFlags {[ "log-level" := "DEBUG" ]} !! "log_level" = Some "DEBUG" ∧
  roleFlags {[ "log-level" := "DEBUG" ]} !! "log_retention_days" = Some "35".
Proof.
  destruct (roleFlags_exact {[ "log-level" := "DEBUG" ]}) as (H1 & H2 & _).
  - by_decide.
  - apply Example.names. by_decide.
  - split; [exact (H1 "log-level" "DEBUG" eq_refl)|].
    rewrite H2; [reflexivity|]. intros f <-%lookup_singleton_is_Some. done.
Defined.

Lemma flagsDigests_roundtrip_witness :
  ParseFlagsDigests (flagsDigests digest_example Example.before) !! "bolt_num_workers" = Some "d1" ∧
  flagsDigests digest_example (<["log_level" := "DEBUG"]> Example.before) = flagsDigests digest_example Example.before.
Proof.
  destruct (flagsDigests_roundtrip digest_example Example.before) as [H1 H2].
  - apply Example.names. by_decide.
  - apply digest_example_line.
  - split; [rewrite H1; reflexivity|]. apply H2; [by eexists|reflexivity].
Defined.

Lemma ChangedFlags_exact_witness :
  "bolt_num_workers" ∈ ChangedFlags (flagsDigests digest_example Example.before)
    (flagsDigests digest_example Example.after).
Proof.
  apply (ChangedFlags_exact digest_example).
  - apply Example.names. by_decide.
  - apply Example.names. by_decide.
  - apply digest_example_line.
  - done.
  - split; [reflexivity|]. vm_compute. discriminate.
Defined.
