(* ===== verification/Vector.v ===== *)
(** * Package resources: the Vector sidecar

    internal/resources/vector.go: the configuration ConfigMap, the sidecar container and its
    volumes. [yaml.Marshal] is a parameter, which its comment says cannot fail on this
    struct; a builder read without its block is [None], the nil dereference. *)

From S2P Require Import Prelude GoStrings K8s Api Resources.

(** ** Security contexts (statefulset.go) *)

Definition restrictedSecurityContext : SecurityContext :=
  mkSecurityContext None (Some false) ["ALL"] [] (Some true) None (Some true) SeccompProfileTypeRuntimeDefault.

(** ** Definitions *)

Definition MonitoringLabel : string := "memgraph.com/monitoring".
Definition MonitoringValue : string := "true".

Definition vectorComponent : string := "vector".
Definition VectorConfigKey : string := "vector.yaml".
Definition vectorConfigVolume : string := "vector-config".
Definition vectorConfigPath : string := "/etc/vector/config".
Definition vectorDataVolume : string := "vector-data".
Definition vectorDataPath : string := "/vector-data".
Definition vectorRoleEnv : string := "ROLE".
Definition vectorPodEnv : string := "POD_NAME".
Definition vectorNamespaceEnv : string := "POD_NAMESPACE".
Definition vectorUsernameEnv : string := "LOGS_USERNAME".
Definition vectorPasswordEnv : string := "LOGS_PASSWORD".
Definition vectorJob : string := "memgraph".
Definition vectorConnectTimeoutSecs : Z := 86400.

Definition vectorRemap : string :=
  quoting (unlines
    ["level = 'unknown'";
     "parsed, err = parse_json(.message)";
     "if err == null && is_object(parsed) {";
     "  level = downcase(to_string(parsed.level) ?? 'unknown')";
     "  .message = to_string(parsed.message) ?? .message";
     "}";
     "if level == 'warning' {";
     "  level = 'warn'";
     "} else if level == 'critical' {";
     "  level = 'fatal'";
     "}";
     ".level = level";
     ""]).

Definition VectorConfigName (name : string) : string := name ^^ "-" ^^ vectorComponent ^^ "-config".

Record vectorTLS := mkVectorTLS { vx_Enabled : bool; vx_VerifyCertificate : bool; vx_VerifyHostname : bool }.

Record vectorWebsocket := mkVectorWebsocket {
  vw_Type : string;
  vw_URI : string;
  vw_ConnectTimeoutSecs : Z;
  vw_TLS : option vectorTLS
}.

Record vectorTransform := mkVectorTransform { vf_Type : string; vf_Inputs : list string; vf_Source : string }.

Record vectorBasicAuth := mkVectorBasicAuth { vb_Strategy : string; vb_User : string; vb_Password : string }.

Record vectorLoki := mkVectorLoki {
  vl_Type : string;
  vl_Inputs : list string;
  vl_Endpoint : string;
  vl_HealthcheckEnabled : bool;
  vl_Auth : option vectorBasicAuth;
  vl_EncodingCodec : string;
  vl_Labels : gmap string string;
  vl_RemoveLabelFields : bool
}.

Record vectorConfig := mkVectorConfig {
  vc_DataDir : string;
  vc_Sources : gmap string vectorWebsocket;
  vc_Transforms : gmap string vectorTransform;
  vc_Sinks : gmap string vectorLoki
}.

(** ["${" + name + "}"]. *)
Definition interpolated (name : string) : string := "${" ^^ name ^^ "}".

Definition lokiLabels (extra : gmap string string) : gmap string string :=
  <["level" := "{{ level }}"]> (<["pod" := interpolated vectorPodEnv]>
    (<["namespace" := interpolated vectorNamespaceEnv]> (<["role" := interpolated vectorRoleEnv]>
      (<["job" := vectorJob]> (<["app" := vectorJob]> extra))))).

Definition vectorVolumes `{Kube} (name : string) : list Volume :=
  [mkVolume vectorConfigVolume (ConfigMapVolume (VectorConfigName name)); mkVolume vectorDataVolume EmptyDir].

Section vector.
Context `{Kube} {L : Type} (marshal : vectorConfig → string).
Implicit Types (cluster : MemgraphDBCluster L).

Definition UsesVector cluster : bool :=
  match sp_Monitoring (Spec cluster) with
  | Some monitoring => match mo_VectorRemote monitoring with Some _ => true | None => false end
  | None => false
  end.

Definition vectorSource (spec : normalizedSpec) : vectorWebsocket :=
  if decide (n_boltTLSSecret spec = "")
  then mkVectorWebsocket "websocket" ("ws://127.0.0.1:" ^^ Itoa MonitoringPort) vectorConnectTimeoutSecs None
  else mkVectorWebsocket "websocket" ("wss://127.0.0.1:" ^^ Itoa MonitoringPort) vectorConnectTimeoutSecs
         (Some (mkVectorTLS true false false)).

Definition vectorSink (block : normalizedVector) : vectorLoki :=
  mkVectorLoki "loki" ["logs"] (nve_logsEndpoint block) false
    (if decide (nve_authSecret block = "") then None
     else Some (mkVectorBasicAuth "basic" (interpolated vectorUsernameEnv) (interpolated vectorPasswordEnv)))
    "text" (lokiLabels (nve_extraLabels block)) true.

Definition VectorConfigMap cluster : option KConfigMap :=
  let spec := normalize (Spec cluster) in
  let name := m_Name (Meta cluster) in
  block ← nmo_vector (n_monitoring spec);
  let config := mkVectorConfig vectorDataPath {[ vectorJob := vectorSource spec ]}
                  {[ "logs" := mkVectorTransform "remap" [vectorJob] vectorRemap ]} {[ "loki" := vectorSink block ]} in
  Some (mkKConfigMap
          (mkKMeta (VectorConfigName name) (m_Namespace (Meta cluster))
             (<[MonitoringLabel := MonitoringValue]> (labels name vectorComponent ∅)) ∅)
          {[ VectorConfigKey := marshal config ]}).
End vector.

Definition vectorSidecar `{Kube} (component : string) (block : normalizedVector) : Container :=
  let from env path := mkKEnvVar env "" (Some (inl (FieldRef path))) in
  let credential env key := mkKEnvVar env "" (Some (inl (SecretKeyRef (nve_authSecret block) key))) in
  mkContainer vectorComponent (nve_image block) (nve_pullPolicy block) []
    ["--config"; vectorConfigPath ^^ "/" ^^ VectorConfigKey]
    ([mkKEnvVar vectorRoleEnv component None; from vectorPodEnv "metadata.name";
      from vectorNamespaceEnv "metadata.namespace"] ++
     (if decide (nve_authSecret block = "") then []
      else [credential vectorUsernameEnv BasicAuthUsernameKey; credential vectorPasswordEnv BasicAuthPasswordKey]))
    [] [] (Some (nve_resources block))
    [mkVolumeMount vectorConfigVolume vectorConfigPath true noRest;
     mkVolumeMount vectorDataVolume vectorDataPath false noRest]
    None (Some (inl restrictedSecurityContext)) noRest.
