(* ===== verification/Workloads.v ===== *)
(** * Package resources: the StatefulSets and what they mount

    internal/resources/statefulset.go, with service.go's headless Services, the flag
    ConfigMaps of flags.go and the Secrets of systemuser.go: every object a pass applies
    for the two roles, from the normalized spec and a replica count. [digest] and [marshal]
    are the SHA-256 and the JSON encoding behind the template's annotations, as in Flags.v. *)

From S2P Require Import Prelude GoStrings Settings K8s Api Volumes Resources Topology Flags Vector.

(** ** Constants *)

Definition memgraphBinary : string := "/usr/lib/memgraph/memgraph".
Definition dataDirectory : string := "/var/lib/memgraph/mg_data".
Definition logFile : string := "/var/lib/memgraph/logs/memgraph.log".
Definition libMountPath : string := "/var/lib/memgraph".
Definition tmpMountPath : string := "/tmp".
Definition coreDumpsMountPath : string := "/var/core/memgraph".
Definition listenAddress : string := "0.0.0.0".
Definition libVolumeName : string := "lib-storage".
Definition coreDumpsVolumeName : string := "core-dumps".
Definition tmpVolumeName : string := "tmp".
Definition boltTLSVolumeName : string := "bolt-tls".
Definition boltTLSMountPath : string := "/etc/memgraph/ssl".
Definition intraClusterTLSVolumeName : string := "intra-cluster-tls".
Definition intraClusterTLSMountPath : string := "/etc/memgraph/intra_cluster_tls".
Definition caKey : string := "ca.crt".
Definition containerName : string := "memgraph".
Definition sysctlContainerName : string := "init-sysctl".
Definition corePatternContainerName : string := "init-core-pattern".
Definition uploaderContainerName : string := "core-dumps-uploader".
Definition fixOwnershipContainerName : string := "init-fix-perms".
Definition terminationGracePeriod : Z := 300.
Definition fipsModeArg : string := "--fips-mode=true".
Definition secretKind : string := "Secret".

(** ** Command lines *)

Definition shellCommand (script : string) : list string := ["/bin/sh"; "-ec"; script].

Definition coordinatorStartScript (fqdnSuffix : string) : string :=
  quoting (unlines
    ["ordinal='${POD_NAME##*-}'";
     "exec " ^^ memgraphBinary ^^ " \";
     "  --coordinator-id='$ordinal' \";
     "  --coordinator-hostname='${POD_NAME}."]) ^^ fqdnSuffix ^^
  quoting (unlines
    ["' \";
     "  --coordinator-port=" ^^ Itoa CoordinatorPort ^^ " \";
     "  '$@'"]).

Definition sysctlScript (maxMapCount : Z) : string :=
  quoting (unlines
    ["want=" ^^ Itoa maxMapCount ^^ "; have=$(cat /proc/sys/vm/max_map_count)";
     "if [ '$have' -lt '$want' ]; then echo '$want' | tee /proc/sys/vm/max_map_count; " ^^
     "else echo 'vm.max_map_count is $have, keeping it'; fi"]).

Section builders.
Context `{RangeOrder} `{Kube}.

(** ** The Memgraph container *)

Definition commonArgs (spec : normalizedSpec) (role : normalizedRole) : list string :=
  let logDestination := if nst_fileLogging (nro_storage role) then logFile else "" in
  ["--flag-file=" ^^ flagFilePath;
   "--bolt-port=" ^^ Itoa BoltPort;
   "--bolt-address=" ^^ listenAddress;
   "--management-port=" ^^ Itoa ManagementPort;
   "--metrics-port=" ^^ Itoa MetricsPort;
   "--metrics-format=OpenMetrics";
   "--monitoring-address=" ^^ listenAddress;
   "--monitoring-port=" ^^ Itoa MonitoringPort;
   "--data-directory=" ^^ dataDirectory;
   "--log-file=" ^^ logDestination] ++
  (if decide (n_boltTLSSecret spec = "") then []
   else ["--bolt-cert-file=" ^^ boltTLSMountPath ^^ "/" ^^ TLSCertKey;
         "--bolt-key-file=" ^^ boltTLSMountPath ^^ "/" ^^ TLSPrivateKeyKey]) ++
  (if decide (n_intraClusterTLSSecret spec = "") then []
   else ["--cluster-cert-file=" ^^ intraClusterTLSMountPath ^^ "/" ^^ TLSCertKey;
         "--cluster-key-file=" ^^ intraClusterTLSMountPath ^^ "/" ^^ TLSPrivateKeyKey;
         "--cluster-ca-file=" ^^ intraClusterTLSMountPath ^^ "/" ^^ caKey]) ++
  (if n_fips spec then [fipsModeArg] else []).

(** [RunsInFIPSMode] on the containers of a pod, by name and arguments. *)
Fixpoint RunsInFIPSMode (containers : list (string * list string)) : bool :=
  match containers with
  | [] => false
  | (name, args) :: containers =>
      if decide (name = containerName) then bool_decide (fipsModeArg ∈ args) else RunsInFIPSMode containers
  end.

Definition mount (name path : string) (readOnly : bool) : VolumeMount := mkVolumeMount name path readOnly noRest.

Definition systemUserVolumeMount : VolumeMount := mount systemUserComponent systemUserMountPath true.

Definition volumeMounts (spec : normalizedSpec) (role : normalizedRole) : list VolumeMount :=
  [mount libVolumeName libMountPath false; mount flagsVolumeName flagsMountPath true; systemUserVolumeMount;
   mount tmpVolumeName tmpMountPath false] ++
  (if ncd_enabled (nro_coreDumps role) then [mount coreDumpsVolumeName coreDumpsMountPath false] else []) ++
  (if decide (n_boltTLSSecret spec = "") then [] else [mount boltTLSVolumeName boltTLSMountPath true]) ++
  (if decide (n_intraClusterTLSSecret spec = "") then []
   else [mount intraClusterTLSVolumeName intraClusterTLSMountPath true]) ++
  nro_extraMounts role.

Definition memgraphContainer (spec : normalizedSpec) (role : normalizedRole)
    (command args : list string) (env : list KEnvVar) (ports : list ContainerPort) (probe : Probe) : Container :=
  mkContainer containerName (n_image spec) (n_pullPolicy spec) command args env [] ports
    (Some (nro_resources role)) (volumeMounts spec role) (Some probe) (Some (inl restrictedSecurityContext)) noRest.

Definition tcpProbe (port : Z) (timings : normalizedProbe) : Probe :=
  mkProbe (TCPSocket port) (npr_failureThreshold timings) (npr_timeoutSeconds timings) (npr_periodSeconds timings).

(** ** Init containers and sidecars *)

Definition privilegedRootSecurityContext : SecurityContext :=
  mkSecurityContext (Some true) (Some true) [] [] (Some true) (Some 0%Z) (Some false) SeccompProfileTypeRuntimeDefault.

Definition chownSecurityContext : SecurityContext :=
  mkSecurityContext None (Some false) ["ALL"] ["CHOWN"] (Some true) (Some 0%Z) (Some false)
    SeccompProfileTypeRuntimeDefault.

Definition initContainer (name : string) (spec : normalizedSpec) (script : string) (mounts : list VolumeMount)
    (context : SecurityContext) : Container :=
  mkContainer name (n_image spec) (n_pullPolicy spec) (shellCommand script) [] [] [] [] None mounts None
    (Some (inl context)) noRest.

Definition sysctlInitContainer (spec : normalizedSpec) : Container :=
  initContainer sysctlContainerName spec (sysctlScript (n_maxMapCount spec)) [] privilegedRootSecurityContext.

Definition corePatternInitContainer (spec : normalizedSpec) : Container :=
  let pattern := coreDumpsMountPath ^^ "/core.%e.%p.%t.%s" in
  initContainer corePatternContainerName spec ("echo '" ^^ pattern ^^ "' | tee /proc/sys/kernel/core_pattern") []
    privilegedRootSecurityContext.

Definition fixOwnershipInitContainer (spec : normalizedSpec) (role : normalizedRole) (uid gid : Z) : Container :=
  let mounts := mount libVolumeName libMountPath false ::
                (if ncd_enabled (nro_coreDumps role) then [mount coreDumpsVolumeName coreDumpsMountPath false] else []) in
  let line m := "chown -R " ^^ Itoa uid ^^ ":" ^^ Itoa gid ^^ " " ^^ vm_MountPath m in
  initContainer fixOwnershipContainerName spec (unlines (line <$> mounts)) mounts chownSecurityContext.

Definition uploaderSidecar (uploader : CoreDumpsUploaderSpec) : Container :=
  mkContainer uploaderContainerName (cu_Image uploader) (orDefault (cu_PullPolicy uploader) DefaultImagePullPolicy)
    (cu_Command uploader) (cu_Args uploader)
    (mkKEnvVar EnvCoreDumpsDir coreDumpsMountPath None :: normalizeEnv (cu_Env uploader)) (cu_EnvFromSecrets uploader) []
    (Some (cu_Resources uploader))
    [mount coreDumpsVolumeName coreDumpsMountPath true; mount tmpVolumeName tmpMountPath false] None
    (Some (inl restrictedSecurityContext)) noRest.

Definition userContainer (c : Container) : Container :=
  match co_SecurityContext c with
  | Some _ => c
  | None =>
      mkContainer (co_Name c) (co_Image c) (co_ImagePullPolicy c) (co_Command c) (co_Args c) (co_Env c)
        (co_EnvFromSecrets c) (co_Ports c) (co_Resources c) (co_VolumeMounts c) (co_ReadinessProbe c)
        (Some (inl restrictedSecurityContext)) (co_Rest c)
  end.

Definition podContainers (component : string) (spec : normalizedSpec) (role : normalizedRole) (memgraph : Container)
    : list Container :=
  [memgraph] ++
  (if ncd_enabled (nro_coreDumps role)
   then match ncd_uploader (nro_coreDumps role) with Some uploader => [uploaderSidecar uploader] | None => [] end
   else []) ++
  (match nmo_vector (n_monitoring spec) with Some block => [vectorSidecar component block] | None => [] end) ++
  (userContainer <$> nro_userContainers role).

Definition podInitContainers (spec : normalizedSpec) (role : normalizedRole) : list Container :=
  (if (0 <? n_maxMapCount spec)%Z then [sysctlInitContainer spec] else []) ++
  (if ncd_enabled (nro_coreDumps role) && ncd_configurePattern (nro_coreDumps role)
   then [corePatternInitContainer spec] else []) ++
  (match chownTarget (n_securityContext spec) with
   | Some (uid, gid) => if n_fixOwnership spec then [fixOwnershipInitContainer spec role uid gid] else []
   | None => []
   end) ++
  (userContainer <$> nro_initContainers role).

(** ** Volumes and claims *)

Definition flagsVolume (name : string) : Volume := mkVolume flagsVolumeName (ConfigMapVolume name).

Definition SystemUserSecretName (name : string) : string := name ^^ "-" ^^ systemUserComponent.
Definition SystemUserHashSecretName (name : string) : string := SystemUserSecretName name ^^ "-hash".

Definition systemUserVolume (name : string) : Volume :=
  mkVolume systemUserComponent
    (SecretVolume (SystemUserHashSecretName name) [mkKeyToPath SystemUserHashKey SystemUserHashKey]).

(** The [KeyToPath] of a key mounted under its own name. *)
Definition itself (key : string) : KeyToPath := mkKeyToPath key key.

Definition podVolumes (name : string) (spec : normalizedSpec) (role : normalizedRole) (flagsConfigMap : string)
    : list Volume :=
  [flagsVolume flagsConfigMap; systemUserVolume name; mkVolume tmpVolumeName EmptyDir] ++
  (if decide (n_boltTLSSecret spec = "") then []
   else [mkVolume boltTLSVolumeName
           (SecretVolume (n_boltTLSSecret spec) [itself TLSCertKey; itself TLSPrivateKeyKey])]) ++
  (if decide (n_intraClusterTLSSecret spec = "") then []
   else [mkVolume intraClusterTLSVolumeName
           (SecretVolume (n_intraClusterTLSSecret spec) [itself TLSCertKey; itself TLSPrivateKeyKey; itself caKey])]) ++
  (match nmo_vector (n_monitoring spec) with Some _ => vectorVolumes name | None => [] end) ++
  nro_extraVolumes role.

Definition volumeClaimTemplate (name : string) (size : Quantity) (accessMode : string) (class : option string)
    : ClaimTemplateSpec := mkClaimTemplateSpec name accessMode class size.

Definition volumeClaimTemplates (role : normalizedRole) : list ClaimTemplateSpec :=
  let storage := nro_storage role in
  [volumeClaimTemplate libVolumeName (nst_libSize storage) (nst_libAccessMode storage) (nst_libClass storage)] ++
  (if ncd_enabled (nro_coreDumps role)
   then [volumeClaimTemplate coreDumpsVolumeName (ncd_size (nro_coreDumps role)) ReadWriteOnce
           (ncd_class (nro_coreDumps role))]
   else []).

Definition retentionType (policy : string) : string :=
  if decide (policy = RetentionPolicyDelete) then "Delete" else "Retain".

(** ** Scheduling *)

Definition podAffinity (name component : string) (spec : normalizedSpec) (role : normalizedRole)
    : option PodAntiAffinity :=
  let anti :=
    match n_podAntiAffinity spec with
    | None => mkPodAntiAffinity [] []
    | Some rule =>
        let selector := selectorLabels name component in
        let selector := if decide (npa_scope rule = PodAntiAffinityScopeCluster)
                        then delete componentLabel selector else selector in
        let term := mkPodAffinityTerm (Some (mkLabelSelector selector noRest)) (npa_topologyKey rule) noRest in
        if decide (npa_typ rule = PodAntiAffinityRequired) then mkPodAntiAffinity [term] []
        else mkPodAntiAffinity [] [(PodAntiAffinityWeight, term)]
    end in
  let anti :=
    match sd_RolePodAntiAffinity (nro_scheduling role) with
    | None => anti
    | Some own => mkPodAntiAffinity (aa_Required anti ++ aa_Required own) (aa_Preferred anti ++ aa_Preferred own)
    end in
  match aa_Required anti, aa_Preferred anti with
  | [], [] => None
  | _, _ => Some anti
  end.

Definition spreadConstraints (name component : string) (role : normalizedRole) : list TopologySpreadConstraint :=
  (λ c, match sc_LabelSelector c with
        | Some _ => c
        | None => mkSpreadConstraint (Some (mkLabelSelector (selectorLabels name component) noRest)) (sc_Rest c)
        end) <$> sd_TopologySpreadConstraints (nro_scheduling role).
End builders.

(** ** The StatefulSets *)

Section statefulSets.
Context `{RangeOrder} `{Kube} {L : Type} (digest : string → string)
  (marshal : gmap string string → gmap string string * PodSpec → option string).
Implicit Types (cluster : MemgraphDBCluster L).

(** [podFQDNSuffix(cluster, serviceName, spec)]. *)
Definition clusterFQDNSuffix cluster (serviceName : string) (spec : normalizedSpec) : string :=
  podFQDNSuffix (m_Namespace (Meta cluster)) serviceName (n_clusterDomain spec).

Definition buildPodSpec cluster (component name : string) (spec : normalizedSpec) (role : normalizedRole)
    (container : Container) : PodSpec :=
  let context := n_securityContext spec in
  mkPodSpec (Some terminationGracePeriod) None (podInitContainers spec role)
    (podContainers component spec role container)
    (mkPodSecurityContext (nsc_runAsUser context) (nsc_runAsGroup context) (nsc_fsGroup context) (Some true)
       SeccompProfileTypeRuntimeDefault)
    (podVolumes (m_Name (Meta cluster)) spec role (name ^^ "-" ^^ flagsComponent))
    (sd_NodeSelector (nro_scheduling role)) (sd_Tolerations (nro_scheduling role))
    (spreadConstraints (m_Name (Meta cluster)) component role)
    (podAffinity (m_Name (Meta cluster)) component spec role)
    (sd_PriorityClassName (nro_scheduling role)).

Definition buildStatefulSet cluster (component name : string) (spec : normalizedSpec) (role : normalizedRole)
    (replicas : Z) (container : Container) : StatefulSetSpec :=
  let podLabels := labels (m_Name (Meta cluster)) component (nro_podLabels role) in
  let podSpec := buildPodSpec cluster component name spec role container in
  let annotations := {[ FlagsAnnotation := flagsDigests digest (roleFlags (nro_flags role)) ]} in
  mkStatefulSetSpec
    (mkKMeta name (m_Namespace (Meta cluster))
       (labels (m_Name (Meta cluster)) component (nro_statefulSetLabels role)) ∅)
    replicas name ParallelPodManagement OnDeleteStatefulSetStrategyType
    (selectorLabels (m_Name (Meta cluster)) component)
    (retentionType (n_retentionPolicy spec)) (retentionType (n_retentionPolicy spec)) (volumeClaimTemplates role)
    (mkPodTemplateSpec podLabels
       (<[TemplateHashAnnotation := PodTemplateHash digest marshal annotations (podLabels, podSpec)]> annotations)
       podSpec).

Definition port (name : string) (number : Z) : ContainerPort := mkContainerPort name number.

Definition CoordinatorStatefulSet cluster (replicas : Z) : StatefulSetSpec :=
  let spec := normalize (Spec cluster) in
  let role := n_coordinatorRole spec in
  let name := CoordinatorName (m_Name (Meta cluster)) in
  let container :=
    memgraphContainer spec role
      (shellCommand (coordinatorStartScript (clusterFQDNSuffix cluster name spec)))
      (containerName :: commonArgs spec role)
      (mkKEnvVar EnvPodName "" (Some (inl (FieldRef "metadata.name"))) :: nro_env role)
      [port boltPortName BoltPort; port managementPortName ManagementPort; port coordinatorPortName CoordinatorPort;
       port metricsPortName MetricsPort]
      (tcpProbe CoordinatorPort (n_readinessProbe spec)) in
  buildStatefulSet cluster coordinatorComponent name spec role replicas container.

Definition DataStatefulSet cluster (replicas : Z) : StatefulSetSpec :=
  let spec := normalize (Spec cluster) in
  let role := n_dataRole spec in
  let container :=
    memgraphContainer spec role [] (commonArgs spec role) (nro_env role)
      [port boltPortName BoltPort; port managementPortName ManagementPort; port replicationPortName ReplicationPort;
       port metricsPortName MetricsPort]
      (tcpProbe BoltPort (n_readinessProbe spec)) in
  buildStatefulSet cluster dataComponent (DataName (m_Name (Meta cluster))) spec role replicas container.

(** The claim templates as volumes.go reads them. *)
Definition claimTemplates (sts : StatefulSetSpec) : list (ClaimTemplate Quantity) :=
  (λ t, mkClaimTemplate (ts_Name t) (Some (ts_Storage t))) <$> sf_VolumeClaimTemplates sts.

(** ** Services, flag files and Secrets *)

Definition headlessService cluster (component name : string) (custom : gmap string string) (ports : list (string * Z))
    : KService :=
  mkKService
    (mkKMeta name (m_Namespace (Meta cluster)) (labels (m_Name (Meta cluster)) component custom) ∅)
    "" ClusterIPNone (selectorLabels (m_Name (Meta cluster)) component) true ports.

Definition CoordinatorHeadlessService cluster : KService :=
  headlessService cluster coordinatorComponent (CoordinatorName (m_Name (Meta cluster)))
    (nro_serviceLabels (n_coordinatorRole (normalize (Spec cluster))))
    [(boltPortName, BoltPort); (managementPortName, ManagementPort); (coordinatorPortName, CoordinatorPort);
     (metricsPortName, MetricsPort)].

Definition DataHeadlessService cluster : KService :=
  headlessService cluster dataComponent (DataName (m_Name (Meta cluster)))
    (nro_serviceLabels (n_dataRole (normalize (Spec cluster))))
    [(boltPortName, BoltPort); (managementPortName, ManagementPort); (replicationPortName, ReplicationPort);
     (metricsPortName, MetricsPort)].

Definition flagsConfigMap cluster (component name : string) (role : normalizedRole) : KConfigMap :=
  mkKConfigMap (mkKMeta name (m_Namespace (Meta cluster)) (labels (m_Name (Meta cluster)) component ∅) ∅)
    {[ FlagFileKey := flagFile (roleFlags (nro_flags role)) ]}.

Definition CoordinatorFlagsConfigMap cluster : KConfigMap :=
  flagsConfigMap cluster coordinatorComponent (CoordinatorFlagsName (m_Name (Meta cluster)))
    (n_coordinatorRole (normalize (Spec cluster))).

Definition DataFlagsConfigMap cluster : KConfigMap :=
  flagsConfigMap cluster dataComponent (DataFlagsName (m_Name (Meta cluster)))
    (n_dataRole (normalize (Spec cluster))).

Definition systemUserSecret cluster (name key value : string) : KSecret :=
  mkKSecret (mkKMeta name (m_Namespace (Meta cluster)) (labels (m_Name (Meta cluster)) systemUserComponent ∅) ∅)
    SecretTypeOpaque {[ key := value ]}.

Definition SystemUserSecret cluster (password : string) : KSecret :=
  systemUserSecret cluster (SystemUserSecretName (m_Name (Meta cluster))) SystemUserPasswordKey password.

Definition SystemUserHashSecret cluster (hash : string) : KSecret :=
  systemUserSecret cluster (SystemUserHashSecretName (m_Name (Meta cluster))) SystemUserHashKey hash.
End statefulSets.

(** ** Lemmas *)

(** A true disjunct. *)
Ltac pick := first [reflexivity | left; pick | right; pick].

(** A role's normalized spec with other flags. *)
Definition role_with_flags `{Kube} (role : normalizedRole) (flags : gmap string string) : normalizedRole :=
  mkNRole (nro_storage role) (nro_coreDumps role) (nro_resources role) (nro_podLabels role)
    (nro_statefulSetLabels role) (nro_serviceLabels role) (nro_env role) flags (nro_extraVolumes role)
    (nro_extraMounts role) (nro_userContainers role) (nro_initContainers role) (nro_scheduling role).

(** A cluster with other flags, and nothing else changed. *)
Definition spec_with_flags `{Kube} (s : MemgraphDBClusterSpec) (flags : FlagsSpec) : MemgraphDBClusterSpec :=
  mkSpec (sp_Coordinators s) (sp_DataInstances s) (sp_Image s) (sp_Secrets s) (sp_AWSCredentials s) (sp_Storage s)
    (sp_CoreDumps s) (sp_SysctlInitContainer s) (sp_SecurityContext s) (sp_FixOwnershipInitContainer s)
    (sp_ClusterDomain s) (sp_ReadinessProbe s) (sp_Resources s) (sp_Labels s) (sp_Scheduling s) (sp_ExtraEnv s) flags
    (sp_ExtraVolumes s) (sp_ExtraVolumeMounts s) (sp_UserContainers s) (sp_InitContainers s) (sp_ExternalAccess s)
    (sp_Monitoring s) (sp_TLS s) (sp_FIPS s).
Definition with_flags `{Kube} {L} (cluster : MemgraphDBCluster L) (flags : FlagsSpec) : MemgraphDBCluster L :=
  mkCluster (Meta cluster) (spec_with_flags (Spec cluster) flags) (Status_ cluster).

(** Every flag name of a map is one admission accepts. *)
Definition flag_names (flags : gmap string string) : Prop := ∀ f, is_Some (flags !! f) → flag_name f = true.

Section flags.
Context `{RangeOrder} `{Kube} {L : Type} (digest : string → string)
  (marshal : gmap string string → gmap string string * PodSpec → option string).
Implicit Types (cluster : MemgraphDBCluster L).

(** The parts of a StatefulSet its flags reach are the two annotations, and the second of
    them leaves the first out. *)
Lemma buildStatefulSet_flags cluster component name spec role flags replicas container :
  flagsDigests digest (roleFlags flags) = flagsDigests digest (roleFlags (nro_flags role)) →
  buildStatefulSet digest marshal cluster component name spec (role_with_flags role flags) replicas container =
  buildStatefulSet digest marshal cluster component name spec role replicas container.
Proof. intros E. unfold buildStatefulSet. cbn [role_with_flags nro_flags]. by rewrite E. Qed.

(** The sidecar resolves the uploader's pull policy, in the spec or not. *)
Lemma podContainers_uploader component spec role memgraph :
  podContainers component (with_uploader_policies spec) (with_uploader_policy role) memgraph =
  podContainers component spec role memgraph.
Proof.
  unfold podContainers. cbn. destruct (ncd_uploader _) as [u|]; [|done]. cbn. unfold uploaderSidecar, default_uploader.
  cbn -[orDefault]. by rewrite (orDefault_idem _ DefaultImagePullPolicy).
Qed.

Lemma buildStatefulSet_uploader cluster component name spec role replicas container :
  buildStatefulSet digest marshal cluster component name (with_uploader_policies spec) (with_uploader_policy role) replicas
    container =
  buildStatefulSet digest marshal cluster component name spec role replicas container.
Proof. unfold buildStatefulSet, buildPodSpec. by rewrite podContainers_uploader. Qed.

Lemma with_flags_coordinators cluster flags replicas :
  CoordinatorStatefulSet digest marshal (with_flags cluster flags) replicas =
  let spec := normalize (Spec cluster) in
  let role := n_coordinatorRole spec in
  let name := CoordinatorName (m_Name (Meta cluster)) in
  buildStatefulSet digest marshal cluster coordinatorComponent name spec (role_with_flags role (fs_Coordinators flags))
    replicas
    (memgraphContainer spec role (shellCommand (coordinatorStartScript (clusterFQDNSuffix cluster name spec)))
      (containerName :: commonArgs spec role)
      (mkKEnvVar EnvPodName "" (Some (inl (FieldRef "metadata.name"))) :: nro_env role)
      [port boltPortName BoltPort; port managementPortName ManagementPort; port coordinatorPortName CoordinatorPort;
       port metricsPortName MetricsPort]
      (tcpProbe CoordinatorPort (n_readinessProbe spec))).
Proof. reflexivity. Qed.

Lemma with_flags_data cluster flags replicas :
  DataStatefulSet digest marshal (with_flags cluster flags) replicas =
  let spec := normalize (Spec cluster) in
  let role := n_dataRole spec in
  buildStatefulSet digest marshal cluster dataComponent (DataName (m_Name (Meta cluster))) spec
    (role_with_flags role (fs_Data flags)) replicas
    (memgraphContainer spec role [] (commonArgs spec role) (nro_env role)
      [port boltPortName BoltPort; port managementPortName ManagementPort; port replicationPortName ReplicationPort;
       port metricsPortName MetricsPort]
      (tcpProbe BoltPort (n_readinessProbe spec))).
Proof. reflexivity. Qed.

(** The flags annotation of a template. *)
Lemma te_flags cluster component name spec role replicas container :
  te_Annotations (sf_Template (buildStatefulSet digest marshal cluster component name spec role replicas container))
    !! FlagsAnnotation = Some (flagsDigests digest (roleFlags (nro_flags role))).
Proof. cbn [buildStatefulSet sf_Template te_Annotations]. by rewrite lookup_insert_ne, lookup_singleton_eq. Qed.

Lemma digests_iff flags flags' :
  flag_names flags → flag_names flags' → (∀ v, free_of newline (digest v) = true) →
  flagsDigests digest (roleFlags flags) = flagsDigests digest (roleFlags flags') ↔
  ∀ k, IsRuntime k = false → digest <$> roleFlags flags !! k = digest <$> roleFlags flags' !! k.
Proof.
  intros Hf Hf' Hd. split; [|apply flagsDigests_same]. intros E k Hk.
  assert (∀ fl, flag_names fl → ParseFlagsDigests (flagsDigests digest (roleFlags fl)) !! k = digest <$> roleFlags fl !! k) as Hp.
  { intros fl Hfl. rewrite parse_startup by (done || intros f Hs; by eapply roleFlags_names). by rewrite Hk. }
  by rewrite <- !Hp, E by done.
Qed.
End flags.


(** An element a decision procedure keeps out of a list. *)
Lemma not_elem_of_list_by_decide (x : string) (l : list string) :
  bool_decide (x ∉ l) → x ∉ l.
Proof. apply bool_decide_unpack. Qed.

(** ** Where the mounts lead *)

Section mounts.
Context `{RangeOrder} `{Kube} {L : Type} (digest : string → string)
  (marshal : gmap string string → gmap string string * PodSpec → option string).
Implicit Types (cluster : MemgraphDBCluster L) (role : normalizedRole) (spec : normalizedSpec).

Definition template_containers (sts : StatefulSetSpec) : list Container :=
  ps_InitContainers (te_Spec (sf_Template sts)) ++ ps_Containers (te_Spec (sf_Template sts)).

(** The volume a mount names is one of the pod's, or a claim of the StatefulSet. *)
Definition resolves (sts : StatefulSetSpec) (m : VolumeMount) : Prop :=
  vm_Name m ∈ (vo_Name <$> ps_Volumes (te_Spec (sf_Template sts))) ++ (ts_Name <$> sf_VolumeClaimTemplates sts).

Definition from_user role (c : Container) : Prop :=
  c ∈ userContainer <$> (nro_initContainers role ++ nro_userContainers role).

Lemma buildStatefulSet_containers cluster component name spec role replicas container c :
  c ∈ template_containers (buildStatefulSet digest marshal cluster component name spec role replicas container) ↔
  c = container ∨ from_user role c ∨
  ((0 < n_maxMapCount spec)%Z ∧ c = sysctlInitContainer spec) ∨
  (ncd_enabled (nro_coreDumps role) = true ∧ ncd_configurePattern (nro_coreDumps role) = true ∧
     c = corePatternInitContainer spec) ∨
  (n_fixOwnership spec = true ∧ ∃ uid gid, chownTarget (n_securityContext spec) = Some (uid, gid) ∧
     c = fixOwnershipInitContainer spec role uid gid) ∨
  (ncd_enabled (nro_coreDumps role) = true ∧ ∃ uploader, ncd_uploader (nro_coreDumps role) = Some uploader ∧
     c = uploaderSidecar uploader) ∨
  (∃ block, nmo_vector (n_monitoring spec) = Some block ∧ c = vectorSidecar component block).
Proof.
  unfold template_containers, from_user.
  cbn [buildStatefulSet sf_Template te_Spec buildPodSpec ps_InitContainers ps_Containers].
  unfold podInitContainers, podContainers. rewrite !fmap_app, !elem_of_app, list_elem_of_singleton.
  rewrite !elem_of_when, Z.ltb_lt, andb_true_iff, !elem_of_match_option.
  assert (c ∈ (if ncd_enabled (nro_coreDumps role)
               then match ncd_uploader (nro_coreDumps role) with Some uploader => [uploaderSidecar uploader] | None => [] end
               else []) ↔
    ncd_enabled (nro_coreDumps role) = true ∧ ∃ uploader, ncd_uploader (nro_coreDumps role) = Some uploader ∧
      c = uploaderSidecar uploader) as ->.
  { destruct (ncd_enabled _), (ncd_uploader _) as [u|]; rewrite ?list_elem_of_singleton, ?elem_of_nil; naive_solver. }
  assert (c ∈ match chownTarget (n_securityContext spec) with
              | Some (uid, gid) => if n_fixOwnership spec then [fixOwnershipInitContainer spec role uid gid] else []
              | None => []
              end ↔
    n_fixOwnership spec = true ∧ ∃ uid gid, chownTarget (n_securityContext spec) = Some (uid, gid) ∧
      c = fixOwnershipInitContainer spec role uid gid) as ->.
  { destruct (chownTarget _) as [[uid gid]|], (n_fixOwnership spec); rewrite ?list_elem_of_singleton, ?elem_of_nil;
      naive_solver. }
  tauto.
Qed.
(** The mounts of the Memgraph container, and the names they resolve through. *)
Lemma volumeMounts_resolve cluster component name spec role replicas container m :
  m ∈ volumeMounts spec role → m ∈ nro_extraMounts role ∨
  resolves (buildStatefulSet digest marshal cluster component name spec role replicas container) m.
Proof.
  unfold volumeMounts, resolves.
  cbn [buildStatefulSet sf_Template te_Spec buildPodSpec ps_Volumes sf_VolumeClaimTemplates]. unfold podVolumes, volumeClaimTemplates.
  rewrite !elem_of_app, !elem_of_unless, elem_of_when, !list_elem_of_singleton, !elem_of_cons, elem_of_nil.
  intros [[->|[->|[->|[->|[]]]]]|[[He ->]|[[Hn ->]|[[Hn ->]|Hm]]]]; [right..|by left];
    rewrite ?fmap_app; try rewrite (decide_False _ _ Hn); rewrite ?He, ?elem_of_app; cbn [fmap list_fmap vo_Name vm_Name mount
      systemUserVolumeMount flagsVolume systemUserVolume volumeClaimTemplate ts_Name].
  all: repeat (rewrite !elem_of_cons || rewrite !elem_of_app); pick.
Qed.

Lemma containers_resolve cluster component name spec role replicas command args env ports probe c :
  let sts := buildStatefulSet digest marshal cluster component name spec role replicas
               (memgraphContainer spec role command args env ports probe) in
  c ∈ template_containers sts →
  from_user role c ∨ ∀ m, m ∈ co_VolumeMounts c → m ∈ nro_extraMounts role ∨ resolves sts m.
Proof.
  intros sts Hc. apply buildStatefulSet_containers in Hc as
    [->|[Hu|[[_ ->]|[[He [_ ->]]|[[_ (uid & gid & _ & ->)]|[[He (u & _ & ->)]|(block & Hb & ->)]]]]]]; [right|by left|right..];
    intros m.
  - apply volumeMounts_resolve.
  - by intros ?%elem_of_nil.
  - by intros ?%elem_of_nil.
  - cbn [fixOwnershipInitContainer initContainer co_VolumeMounts]. intros Hm.
    apply (volumeMounts_resolve cluster component name spec role replicas
      (memgraphContainer spec role command args env ports probe)). unfold volumeMounts.
    rewrite elem_of_cons, elem_of_when in Hm. rewrite !elem_of_app, elem_of_when. destruct Hm as [->|[He ->]]; [left; left|auto].
  - cbn [uploaderSidecar co_VolumeMounts]. intros [->|[->|[]%elem_of_nil]%elem_of_cons]%elem_of_cons; right.
    + unfold resolves, sts. apply elem_of_app. right. cbn [buildStatefulSet sf_VolumeClaimTemplates]. unfold volumeClaimTemplates.
      rewrite He. by right; left.
    + unfold resolves, sts. apply elem_of_app. left. cbn [buildStatefulSet sf_Template te_Spec buildPodSpec ps_Volumes].
      unfold podVolumes. rewrite fmap_app. apply elem_of_app. left. by right; right; left.
  - intros Hm. right. unfold resolves, sts. apply elem_of_app. left.
    cbn [buildStatefulSet sf_Template te_Spec buildPodSpec ps_Volumes]. unfold podVolumes. rewrite Hb, !fmap_app, !elem_of_app.
    do 3 right. left. cbn [vectorSidecar co_VolumeMounts] in Hm. apply elem_of_cons in Hm as [->|[->|[]%elem_of_nil]%elem_of_cons].
    + by left.
    + by right; left.
Qed.
End mounts.

(** The two StatefulSets of a cluster, with the role and the component each is built from. *)
Inductive built `{RangeOrder} `{Kube} {L} digest marshal (cluster : MemgraphDBCluster L) (replicas : Z) :
    StatefulSetSpec → normalizedRole → string → Prop :=
| built_coordinators :
    built digest marshal cluster replicas (CoordinatorStatefulSet digest marshal cluster replicas)
      (n_coordinatorRole (normalize (Spec cluster))) coordinatorComponent
| built_data :
    built digest marshal cluster replicas (DataStatefulSet digest marshal cluster replicas)
      (n_dataRole (normalize (Spec cluster))) dataComponent.

Lemma built_shape `{RangeOrder} `{Kube} {L} digest marshal (cluster : MemgraphDBCluster L) replicas sts role component :
  built digest marshal cluster replicas sts role component →
  ∃ command first env ports probe name, first ∈ [[]; [containerName]] ∧
    sts = buildStatefulSet digest marshal cluster component name (normalize (Spec cluster)) role replicas
      (memgraphContainer (normalize (Spec cluster)) role command (first ++ commonArgs (normalize (Spec cluster)) role)
         env ports probe).
Proof. intros []; [eexists _, [containerName], _, _, _, _|eexists _, [], _, _, _, _]; (split; [|reflexivity]); [right; left|left]. Qed.

(** A pod of a template, by what [RunsInFIPSMode] reads of it. *)
Definition pod_containers `{Kube} (sts : StatefulSetSpec) : list (string * list string) :=
  (λ c, (co_Name c, co_Args c)) <$> ps_Containers (te_Spec (sf_Template sts)).

(** A claim template without its size. *)
Definition unsized `{Kube} (t : ClaimTemplateSpec) : string * string * option string :=
  (ts_Name t, ts_AccessMode t, ts_StorageClassName t).

Section claims.
Context `{RangeOrder} `{Kube} `{QuantityOrder Quantity}.

(** Templates of the same names, restated at the live sizes, are the live ones. *)
Lemma KeepLiveSizes_same_names (desired live : list (ClaimTemplate Quantity)) :
  NoDup (ct_Name <$> live) → ct_Name <$> desired = ct_Name <$> live → (∀ t, t ∈ live → is_Some (ct_Storage t)) →
  KeepLiveSizes desired (Some live) = live.
Proof.
  intros Hnd Hn Hs. unfold KeepLiveSizes.
  assert (∀ t, t ∈ live → TemplateSizes live !! ct_Name t = Some (default zeroQuantity (ct_Storage t))) as Hl.
  { clear Hn Hs. induction live as [|t live IH] using rev_ind; [by intros t ?%elem_of_nil|].
    intros u. rewrite TemplateSizes_snoc. rewrite fmap_app in Hnd. apply NoDup_app in Hnd as (Hnd & Hx & _).
    intros [Hu| ->%list_elem_of_singleton]%elem_of_app; [|by rewrite lookup_insert_eq].
    rewrite lookup_insert_ne; [by apply IH|]. intros E. apply (Hx (ct_Name u)); [by apply list_elem_of_fmap_2|].
    rewrite <- E. left. }
  clear Hnd. revert desired Hn Hl. generalize (TemplateSizes live) as sizes. intros sizes.
  induction live as [|t live IH]; intros [|d desired] Hn Hl; try done. cbn in Hn. injection Hn as Hd Hn. cbn [fmap list_fmap].
  rewrite Hd, Hl by left. f_equal; [|by apply IH; [intros; apply Hs; by right| |intros; apply Hl; by right]].
  destruct (Hs t) as [q Hq]; [left|]. destruct t as [n o]. cbn in *. by rewrite Hq.
Qed.

Lemma claimTemplates_names role : NoDup (ts_Name <$> volumeClaimTemplates role).
Proof.
  unfold volumeClaimTemplates. destruct (ncd_enabled _); cbn;
    repeat constructor; rewrite ?list_elem_of_singleton; [done|by intros ?%elem_of_nil..].
Qed.

(** The claim templates of two roles that agree but for sizes. *)
Lemma KeepLiveSizes_unsized (old new : StatefulSetSpec) :
  NoDup (ts_Name <$> sf_VolumeClaimTemplates old) →
  unsized <$> sf_VolumeClaimTemplates new = unsized <$> sf_VolumeClaimTemplates old →
  KeepLiveSizes (claimTemplates new) (Some (claimTemplates old)) = claimTemplates old.
Proof.
  intros Hnd E. apply (f_equal (fmap (λ x : string * string * option string, x.1.1))) in E.
  rewrite <- !list_fmap_compose in E. apply KeepLiveSizes_same_names; unfold claimTemplates.
  - by rewrite <- list_fmap_compose.
  - by rewrite <- !list_fmap_compose.
  - intros t (u & -> & _)%list_elem_of_fmap. done.
Qed.
End claims.

(** ** Properties *)

(** C26: a change to a role's flags changes its StatefulSet exactly when it changes the
    digest of a flag that is not run-time settable, and it never changes the template hash:
    an edit of run-time flags alone gives the pods no new revision to roll to, and a pod is
    spared a restart on the strength of a hash no flag can move. *)
Theorem flags_reach_the_template `{RangeOrder} `{Kube} {L} digest marshal (cluster : MemgraphDBCluster L) flags replicas :
  let cluster' := with_flags cluster flags in
  flag_names (fs_Coordinators (sp_Flags (Spec cluster))) → flag_names (fs_Data (sp_Flags (Spec cluster))) →
  flag_names (fs_Coordinators flags) → flag_names (fs_Data flags) → (∀ v, free_of newline (digest v) = true) →
  let hash sts := te_Annotations (sf_Template sts) !! TemplateHashAnnotation in
  let same f f' := ∀ k, IsRuntime k = false → digest <$> f !! k = digest <$> f' !! k in
  let coordinators := CoordinatorStatefulSet digest marshal in
  let data := DataStatefulSet digest marshal in
  (coordinators cluster' replicas = coordinators cluster replicas ↔
     same (CoordinatorFlags (Spec cluster')) (CoordinatorFlags (Spec cluster))) ∧
  (data cluster' replicas = data cluster replicas ↔ same (DataFlags (Spec cluster')) (DataFlags (Spec cluster))) ∧
  hash (coordinators cluster' replicas) = hash (coordinators cluster replicas) ∧
  hash (data cluster' replicas) = hash (data cluster replicas).
Proof.
  intros cluster' Hc Hd Hc' Hd' Hn hash same coordinators data. unfold same, coordinators, data, cluster', hash.
  assert (∀ c n spec role fl ctr, flag_names (nro_flags role) → flag_names fl →
    let build r := buildStatefulSet digest marshal cluster c n spec r replicas ctr in
    (build (role_with_flags role fl) = build role ↔
       ∀ k, IsRuntime k = false → digest <$> roleFlags fl !! k = digest <$> roleFlags (nro_flags role) !! k) ∧
    te_Annotations (sf_Template (build (role_with_flags role fl))) !! TemplateHashAnnotation =
    te_Annotations (sf_Template (build role)) !! TemplateHashAnnotation) as Hbuild.
  { intros c n spec role fl ctr Hr Hf build. unfold build. rewrite <- digests_iff by done. split; [split|].
    - intros E. apply (f_equal (λ sts, te_Annotations (sf_Template sts) !! FlagsAnnotation)) in E.
      rewrite !te_flags in E. by injection E.
    - apply buildStatefulSet_flags.
    - cbn [buildStatefulSet sf_Template te_Annotations]. rewrite !lookup_insert_eq. unfold PodTemplateHash.
      by rewrite !delete_singleton_eq. }
  rewrite with_flags_coordinators, with_flags_data.
  split; [|split; [|split]]; by apply Hbuild.
Qed.

(** C30: a template is well formed: in every container the operator builds, every mount but
    the role's own extra mounts names a volume of the pod or a claim of the StatefulSet,
    whichever of the core dumps, TLS, ownership and Vector blocks the spec carries. *)
Theorem mounts_resolve `{RangeOrder} `{Kube} {L} digest marshal (cluster : MemgraphDBCluster L) replicas sts role component c :
  built digest marshal cluster replicas sts role component → c ∈ template_containers sts →
  from_user role c ∨ ∀ m, m ∈ co_VolumeMounts c → m ∈ nro_extraMounts role ∨ resolves sts m.
Proof.
  intros (command & first & env & ports & probe & name & _ & ->)%built_shape. apply containers_resolve.
Qed.

(** C29: privilege is only ever asked for: a container of a template that is not a user's
    runs under the restricted security context, but for the init containers, which are
    privileged for a node setting the spec turns on, or hold CAP_CHOWN to fix the ownership
    it asks to fix; no container goes without a security context, and the pod never runs as
    root by default. *)
Theorem privilege_is_asked_for `{RangeOrder} `{Kube} {L} digest marshal (cluster : MemgraphDBCluster L) replicas sts role
    component c :
  built digest marshal cluster replicas sts role component → c ∈ template_containers sts →
  let spec := normalize (Spec cluster) in
  px_RunAsNonRoot (ps_SecurityContext (te_Spec (sf_Template sts))) = Some true ∧
  is_Some (co_SecurityContext c) ∧
  (from_user role c ∨
   co_SecurityContext c = Some (inl restrictedSecurityContext) ∨
   (co_SecurityContext c = Some (inl privilegedRootSecurityContext) ∧
    ((co_Name c = sysctlContainerName ∧ is_Some (sp_SysctlInitContainer (Spec cluster))) ∨
     (co_Name c = corePatternContainerName ∧ ncd_enabled (nro_coreDumps role) = true ∧
      cd_CorePattern (sp_CoreDumps (Spec cluster)) ≠ CorePatternNode))) ∨
   (co_SecurityContext c = Some (inl chownSecurityContext) ∧ is_Some (sp_FixOwnershipInitContainer (Spec cluster)))).
Proof.
  intros Hb Hc spec.
  assert (ncd_configurePattern (nro_coreDumps role) = true → cd_CorePattern (sp_CoreDumps (Spec cluster)) ≠ CorePatternNode) as Hp.
  { destruct Hb; cbn; intros Hx%negb_true_iff%bool_decide_eq_false; done. }
  pose proof Hb as (command & first & env & ports & probe & name & _ & ->)%built_shape.
  split; [done|]. apply buildStatefulSet_containers in Hc as
    [->|[Hu|[[Hm ->]|[(He & Hcp & ->)|[[Hf (uid & gid & _ & ->)]|[[He (u & _ & ->)]|(block & Hv & ->)]]]]]].
  - split; [done|]. by right; left.
  - split; [|by left]. apply list_elem_of_fmap in Hu as (u & -> & _). unfold userContainer.
    destruct (co_SecurityContext u) eqn:E; [by rewrite E|done].
  - split; [done|]. right; right; left. split; [done|]. left. split; [done|]. fold spec in Hm.
    unfold spec in Hm. cbn [normalize n_maxMapCount] in Hm. destruct (sp_SysctlInitContainer _); done.
  - split; [done|]. right; right; left. split; [done|]. right. split; [done|]. split; [done|by apply Hp].
  - split; [done|]. right; right; right. split; [done|]. cbn [normalize n_fixOwnership] in Hf.
    by destruct (sp_FixOwnershipInitContainer _).
  - split; [done|]. by right; left.
  - split; [done|]. by right; left.
Qed.

(** What a pod says of FIPS mode is what its template was built with: [RunsInFIPSMode]
    of a pod created from either template is whether the spec has the fips block. *)
Theorem RunsInFIPSMode_template `{RangeOrder} `{Kube} {L} digest marshal (cluster : MemgraphDBCluster L) replicas sts role component :
  built digest marshal cluster replicas sts role component →
  RunsInFIPSMode (pod_containers sts) = true ↔ is_Some (sp_FIPS (Spec cluster)).
Proof.
  intros (command & first & env & ports & probe & name & Hfirst & ->)%built_shape.
  unfold pod_containers. cbn [buildStatefulSet sf_Template te_Spec buildPodSpec ps_Containers].
  unfold podContainers. cbn [app fmap list_fmap RunsInFIPSMode memgraphContainer co_Name co_Args].
  rewrite decide_True by done. rewrite bool_decide_eq_true, elem_of_app. unfold commonArgs.
  rewrite !elem_of_app, !elem_of_unless, elem_of_when. split.
  - intros [Hin|[Hin|[[_ Hin]|[[_ Hin]|[Hf _]]]]].
    + exfalso. repeat (apply elem_of_cons in Hfirst as [->|Hfirst]); try by apply elem_of_nil in Hfirst.
      * by apply elem_of_nil in Hin.
      * by apply list_elem_of_singleton in Hin.
    + exfalso. revert Hin. destruct (nst_fileLogging _); apply not_elem_of_list_by_decide; vm_compute; exact I.
    + exfalso. revert Hin. apply not_elem_of_list_by_decide; vm_compute; exact I.
    + exfalso. revert Hin. apply not_elem_of_list_by_decide; vm_compute; exact I.
    + cbn [normalize n_fips] in Hf. by destruct (sp_FIPS _).
  - intros [f Hf]. right; right; right; right. cbn [normalize n_fips]. by rewrite Hf.
Qed.

(** Two versions of a cluster whose claim templates differ in sizes alone: every field of a
    StatefulSet Kubernetes refuses to change is the same, and the claim templates of the
    new one, restated at the live sizes, are the live ones. *)
Lemma unsized_keeps_immutables `{RangeOrder} `{Kube} `{QuantityOrder Quantity} {L} digest marshal
    (old new : MemgraphDBCluster L) replicas replicas' :
  Meta new = Meta old →
  (∀ role, role ∈ [n_coordinatorRole; n_dataRole] →
     unsized <$> volumeClaimTemplates (role (normalize (Spec new))) =
     unsized <$> volumeClaimTemplates (role (normalize (Spec old)))) →
  ∀ sts sts', (sts, sts') ∈ [(CoordinatorStatefulSet digest marshal old replicas,
                              CoordinatorStatefulSet digest marshal new replicas');
                             (DataStatefulSet digest marshal old replicas,
                              DataStatefulSet digest marshal new replicas')] →
    sf_Meta sts' = mkKMeta (km_Name (sf_Meta sts)) (km_Namespace (sf_Meta sts)) (km_Labels (sf_Meta sts'))
                     (km_Annotations (sf_Meta sts)) ∧
    sf_Selector sts' = sf_Selector sts ∧ sf_ServiceName sts' = sf_ServiceName sts ∧
    sf_PodManagementPolicy sts' = sf_PodManagementPolicy sts ∧
    KeepLiveSizes (claimTemplates sts') (Some (claimTemplates sts)) = claimTemplates sts.
Proof.
  intros HM Hroles sts sts' Hin.
  assert (unsized <$> sf_VolumeClaimTemplates sts' = unsized <$> sf_VolumeClaimTemplates sts ∧
          NoDup (ts_Name <$> sf_VolumeClaimTemplates sts)) as [Hu Hnd].
  { apply elem_of_cons in Hin as [[= -> ->]|[= -> ->]%list_elem_of_singleton]; (split; [|apply claimTemplates_names]);
      apply Hroles; [left|right; left]. }
  pose proof (KeepLiveSizes_unsized _ _ Hnd Hu) as Hk. revert Hu Hk.
  apply elem_of_cons in Hin as [[= -> ->]|[= -> ->]%list_elem_of_singleton]; intros Hu Hk;
    cbn [CoordinatorStatefulSet DataStatefulSet buildStatefulSet sf_Meta sf_Selector sf_ServiceName sf_PodManagementPolicy
      km_Name km_Namespace km_Labels km_Annotations]; rewrite ?HM; done.
Qed.

(** The pods of a role are found by its selector and by no other role's: the template's
    labels satisfy the StatefulSet's own selector whatever labels the spec adds, the two
    roles' selectors never match one pod, and a pod's labels name its cluster back. *)
Theorem roles_select_their_pods `{RangeOrder} `{Kube} {L} digest marshal (cluster : MemgraphDBCluster L) replicas sts role component :
  built digest marshal cluster replicas sts role component →
  let name := m_Name (Meta cluster) in
  let podLabels := te_Labels (sf_Template sts) in
  sf_Selector sts = selectorLabels name component ∧
  (∀ other, other ∈ [CoordinatorPodSelector name; DataPodSelector name] → other ⊆ podLabels ↔ other = sf_Selector sts) ∧
  ClusterNameOfMemgraphPod podLabels = name ∧
  (∀ k, k ∉ [ManagedByLabel; NameLabel; instanceLabel; componentLabel] → podLabels !! k = nro_podLabels role !! k).
Proof.
  intros Hb name podLabels.
  assert (component = coordinatorComponent ∨ component = dataComponent) as Hcomp by (destruct Hb; auto).
  apply built_shape in Hb as (command & first & env & ports & probe & sname & _ & ->).
  cbn [buildStatefulSet sf_Selector]. unfold podLabels.
  change (te_Labels (sf_Template (buildStatefulSet digest marshal cluster component sname (normalize (Spec cluster)) role
    replicas (memgraphContainer (normalize (Spec cluster)) role command (first ++ commonArgs (normalize (Spec cluster)) role)
      env ports probe)))) with (labels name component (nro_podLabels role)).
  destruct (labels_identity name component (nro_podLabels role)) as (Hs & _ & Hk & _ & Hn).
  split; [done|]. split; [|split; [by rewrite Hn, decide_True|done]].
  intros other Hother. split; [|by intros ->].
  intros Hsub. enough (∃ c, other = selectorLabels name c) as [c ->].
  { f_equal. pose proof (lookup_weaken _ _ componentLabel c (selector_component name c) Hsub) as Hl.
    rewrite lookup_labels, decide_False, selector_component in Hl by done. congruence. }
  apply elem_of_cons in Hother as [Ho|Ho%list_elem_of_singleton]; [by exists coordinatorComponent|by exists dataComponent].
Qed.

(** The mounts of the Memgraph container but the role's extra ones. *)
Definition operatorMounts `{Kube} (spec : normalizedSpec) (role : normalizedRole) : list VolumeMount :=
  [mount libVolumeName libMountPath false; mount flagsVolumeName flagsMountPath true; systemUserVolumeMount;
   mount tmpVolumeName tmpMountPath false] ++
  (if ncd_enabled (nro_coreDumps role) then [mount coreDumpsVolumeName coreDumpsMountPath false] else []) ++
  (if decide (n_boltTLSSecret spec = "") then [] else [mount boltTLSVolumeName boltTLSMountPath true]) ++
  (if decide (n_intraClusterTLSSecret spec = "") then []
   else [mount intraClusterTLSVolumeName intraClusterTLSMountPath true]).

(** The paths admission keeps extraVolumeMounts off. *)
Definition deniedMountPaths : list string := ["/var/lib/memgraph"; "/var/core/memgraph"; "/tmp"].

Lemma operatorMounts_NoDup `{Kube} spec role : NoDup (vm_MountPath <$> operatorMounts spec role).
Proof.
  unfold operatorMounts. destruct (ncd_enabled _), (decide (n_boltTLSSecret spec = "")), (decide (n_intraClusterTLSSecret spec = ""));
    apply (bool_decide_unpack _); vm_compute; exact I.
Qed.

(** Two mounts of the Memgraph container share a path exactly when an extra mount takes one
    of the operator's. *)
Lemma mount_paths_iff `{Kube} (spec : normalizedSpec) (role : normalizedRole) :
  NoDup (vm_MountPath <$> nro_extraMounts role) →
  NoDup (vm_MountPath <$> volumeMounts spec role) ↔
  ∀ m, m ∈ nro_extraMounts role → vm_MountPath m ∉ vm_MountPath <$> operatorMounts spec role.
Proof.
  intros Hx. assert (volumeMounts spec role = operatorMounts spec role ++ nro_extraMounts role) as ->.
  { unfold volumeMounts, operatorMounts. by rewrite <- !app_assoc. }
  rewrite fmap_app, NoDup_app. split.
  - intros (_ & Hd & _) m Hm Hp. apply (Hd _ Hp). by apply list_elem_of_fmap_2.
  - intros Hd. split; [apply operatorMounts_NoDup|]. split; [|done].
    intros path Hp (m & -> & Hm)%list_elem_of_fmap. by apply (Hd m).
Qed.

(** C40: the pods are the same whether or not a spec passed admission: the defaults the CRD
    schema writes into absent fields are those the builders resolve, so both StatefulSets of a
    spec with them are those of the spec, and so is all that [normalize] resolves, but that
    the uploader's pull policy, which its sidecar resolves, is no longer absent; the schema
    leaves none of the fields that have a default absent, and a spec with none absent as it
    is. *)
Theorem normalize_schemaDefaults `{RangeOrder} `{Kube} {L} digest marshal (cluster : MemgraphDBCluster L) replicas :
  let defaulted := mkCluster (Meta cluster) (schemaDefaults (Spec cluster)) (Status_ cluster) in
  normalize (Spec defaulted) = with_uploader_policies (normalize (Spec cluster)) ∧
  CoordinatorStatefulSet digest marshal defaulted replicas = CoordinatorStatefulSet digest marshal cluster replicas ∧
  DataStatefulSet digest marshal defaulted replicas = DataStatefulSet digest marshal cluster replicas ∧
  complete (Spec defaulted) ∧
  (complete (Spec cluster) → defaulted = cluster).
Proof.
  intros defaulted. split; [apply normalize_defaulted|]. split; [|split; [|split; [apply schemaDefaults_complete|]]].
  - unfold CoordinatorStatefulSet. cbn [Spec defaulted]. rewrite normalize_defaulted.
    exact (buildStatefulSet_uploader digest marshal cluster _ _ _ (n_coordinatorRole (normalize (Spec cluster))) _ _).
  - unfold DataStatefulSet. cbn [Spec defaulted]. rewrite normalize_defaulted.
    exact (buildStatefulSet_uploader digest marshal cluster _ _ _ (n_dataRole (normalize (Spec cluster))) _ _).
  - intros Hc. unfold defaulted. rewrite complete_schemaDefaults by done. by destruct cluster.
Qed.

(** ** Witnesses *)


#[local] Existing Instance Api.Example.kube_text.

Module Example.
(** Quantities written as whole numbers of gibibytes: [10Gi] is 10. *)
#[export] Instance quantity_Gi : QuantityOrder Quantity :=
  quantity_by "0Gi" (λ q, default 0%Z (ParseInt32 (slice_to q (String.length q - 2)))).

Definition marshal {K : Kube} (annotations : gmap string string) (rest : gmap string string * PodSpec) : option string :=
  Some "".
Definition flags (level workers : string) : FlagsSpec :=
  mkFlagsSpec ∅ {[ "log_level" := level; "bolt_num_workers" := workers ]}.
Definition cluster : MemgraphDBCluster (gmap string Condition) :=
  with_flags (Api.Example.cluster (Some 3%Z) (Some 2%Z)) (flags "INFO" "4").
Definition data : StatefulSetSpec := DataStatefulSet digest_example marshal cluster 2.
Definition dataRole : normalizedRole := n_dataRole (normalize (Spec cluster)).
Definition memgraph : Container :=
  memgraphContainer (normalize (Spec cluster)) dataRole [] (commonArgs (normalize (Spec cluster)) dataRole) []
    [port boltPortName BoltPort; port managementPortName ManagementPort; port replicationPortName ReplicationPort;
     port metricsPortName MetricsPort]
    (tcpProbe BoltPort (n_readinessProbe (normalize (Spec cluster)))).
End Example.
#[local] Existing Instance Example.quantity_Gi.

Lemma normalize_schemaDefaults_witness :
  complete (schemaDefaults (Spec Example.cluster)) ∧
  schemaDefaults (schemaDefaults (Spec Example.cluster)) = schemaDefaults (Spec Example.cluster).
Proof.
  destruct (normalize_schemaDefaults digest_example Example.marshal Example.cluster 2) as (_ & _ & _ & Hc & _). split; [exact Hc|].
  destruct (normalize_schemaDefaults digest_example Example.marshal
    (mkCluster (Meta Example.cluster) (schemaDefaults (Spec Example.cluster)) (Status_ Example.cluster)) 2) as (_ & _ & _ & _ & Hk).
  exact (f_equal Spec (Hk Hc)).
Defined.

(** log_level is settable at run time and bolt_num_workers is not. *)
Lemma flags_reach_the_template_witness :
  let data c := DataStatefulSet digest_example Example.marshal c 2 in
  data (with_flags Example.cluster (Example.flags "TRACE" "4")) = data Example.cluster ∧
  data (with_flags Example.cluster (Example.flags "INFO" "16")) ≠ data Example.cluster.
Proof.
  assert (∀ level workers, flag_names (fs_Data (Example.flags level workers))) as Hn.
  { intros level workers f Hf. cbn in Hf. rewrite lookup_insert_is_Some, lookup_singleton_is_Some in Hf.
    by destruct Hf as [<-|[_ <-]]. }
  assert (flag_names ∅) as He by (intros f [v Hv]; by rewrite lookup_empty in Hv).
  split.
  - apply (flags_reach_the_template digest_example Example.marshal Example.cluster (Example.flags "TRACE" "4") 2
      He (Hn _ _) He (Hn _ _) digest_example_line).
    intros k Hk. destruct (decide (k = "log_level")) as [->|Hne]; [done|]. f_equal.
    change (roleFlags (fs_Data (Example.flags "TRACE" "4")) !! k = roleFlags (fs_Data (Example.flags "INFO" "4")) !! k).
    assert (roleFlags (fs_Data (Example.flags "TRACE" "4")) =
            <["log_level" := "TRACE"]> (roleFlags (fs_Data (Example.flags "INFO" "4")))) as -> by by_decide.
    by rewrite lookup_insert_ne.
  - intros E.
    pose proof (flags_reach_the_template digest_example Example.marshal Example.cluster (Example.flags "INFO" "16") 2
      He (Hn _ _) He (Hn _ _) digest_example_line) as (_ & Hd & _). pose proof (proj1 Hd E) as Hs.
    specialize (Hs "bolt_num_workers" eq_refl). clear E Hd. revert Hs. by_decide.
Defined.

Lemma mounts_resolve_witness :
  Example.memgraph ∈ template_containers Example.data ∧
  (from_user Example.dataRole Example.memgraph ∨ ∀ m, m ∈ co_VolumeMounts Example.memgraph →
     m ∈ nro_extraMounts Example.dataRole ∨ resolves Example.data m).
Proof.
  assert (Example.memgraph ∈ template_containers Example.data) as Hc by left. split; [exact Hc|].
  exact (mounts_resolve digest_example Example.marshal Example.cluster 2 _ _ dataComponent _ (built_data _ _ _ _) Hc).
Defined.

Lemma privilege_is_asked_for_witness :
  Example.memgraph ∈ template_containers Example.data ∧ is_Some (co_SecurityContext Example.memgraph).
Proof.
  assert (Example.memgraph ∈ template_containers Example.data) as Hc by left. split; [exact Hc|].
  apply (privilege_is_asked_for digest_example Example.marshal Example.cluster 2 _ _ dataComponent _ (built_data _ _ _ _) Hc).
Defined.

Lemma RunsInFIPSMode_template_witness :
  RunsInFIPSMode (pod_containers Example.data) = true ↔ is_Some (sp_FIPS (Spec Example.cluster)).
Proof. exact (RunsInFIPSMode_template digest_example Example.marshal Example.cluster 2 _ _ _ (built_data _ _ _ _)). Defined.

Lemma roles_select_their_pods_witness : sf_Selector Example.data = DataPodSelector "db".
Proof.
  exact (proj1 (roles_select_their_pods digest_example Example.marshal Example.cluster 2 _ _ _ (built_data _ _ _ _))).
Defined.
