(* ===== verification/Monitoring.v ===== *)
(** * Package resources: monitoring

    internal/resources/monitoring.go and vmagent.go: the ServiceMonitor, the Grafana
    dashboard ConfigMap, and the vmagent Deployment with its scrape config. [yaml.Marshal]
    is a parameter, and so are the embedded dashboard text and the group version of the
    ServiceMonitor API; a builder called without its block is [None], the nil dereference. *)

From S2P Require Import Prelude GoStrings GoErrors K8s Api Client Planner Resources Topology Vector Workloads.

(** ** Constants *)

Definition monitoringComponent : string := "monitoring".
Definition metricsPath : string := "/metrics".
Definition GrafanaDashboardKey : string := "memgraph_openmetrics.json".
Definition grafanaDashboardComponent : string := "grafana-dashboard".
Definition vmagentComponent : string := "vmagent".
Definition VMAgentConfigKey : string := "scrape.yml".
Definition vmagentConfigVolume : string := "config".
Definition vmagentConfigPath : string := "/etc/vmagent/config".
Definition vmagentDataVolume : string := "data".
Definition vmagentDataPath : string := "/tmpData".
Definition vmagentAuthVolume : string := "basic-auth".
Definition vmagentAuthPath : string := "/etc/vmagent/basic-auth".
Definition vmagentPortName : string := "http".
Definition vmagentUsernameEnv : string := "VMAGENT_BASIC_AUTH_USERNAME".
Definition vmagentConfigCheckInterval : string := "1m".
Definition vmagentUserID : Z := 65534.
Definition vmagentJobName : string := "memgraph".

Definition MonitoringSelector (name : string) : gmap string string :=
  {[ instanceLabel := name; MonitoringLabel := MonitoringValue ]}.
Definition ServiceMonitorName (name : string) : string := name.
Definition GrafanaDashboardName (name : string) : string := name ^^ "-" ^^ grafanaDashboardComponent.
Definition VMAgentName (name : string) : string := name ^^ "-" ^^ vmagentComponent.
Definition VMAgentConfigName (name : string) : string := VMAgentName name ^^ "-config".

(** The labels of a monitoring object: the marker the controller prunes by goes last. *)
Definition monitoringLabels (name component : string) (custom : gmap string string) : gmap string string :=
  <[MonitoringLabel := MonitoringValue]> (labels name component custom).

(** ** Objects *)

(** [me_InsecureSkipVerify]: whether the endpoint has a TLS block, and what it says. *)
Record MonitorEndpoint := mkMonitorEndpoint {
  me_Port : string;
  me_Path : string;
  me_Scheme : string;
  me_Interval : string;
  me_InsecureSkipVerify : option bool
}.

Record ServiceMonitorObject := mkServiceMonitor {
  so_Meta : KMeta;
  so_Selector : gmap string string;
  so_Endpoints : list MonitorEndpoint
}.

Record scrapeJob := mkScrapeJob {
  sj_JobName : string;
  sj_MetricsPath : string;
  sj_Scheme : string;
  sj_InsecureSkipVerify : option bool;
  sj_Targets : list string
}.

Record scrapeConfig := mkScrapeConfig {
  sg_ScrapeInterval : string;
  sg_ExternalLabels : gmap string string;
  sg_ScrapeConfigs : list scrapeJob
}.

Section monitoring.
Context `{Kube} {L : Type} (grafanaDashboardJSON : string) (marshalScrape : scrapeConfig → string).
Implicit Types (cluster : MemgraphDBCluster L).

Definition UsesServiceMonitor cluster : bool :=
  match sp_Monitoring (Spec cluster) with
  | Some monitoring => match mo_ServiceMonitor monitoring with Some _ => true | None => false end
  | None => false
  end.
Definition UsesGrafanaDashboard cluster : bool :=
  match sp_Monitoring (Spec cluster) with
  | Some monitoring => match mo_GrafanaDashboard monitoring with Some _ => true | None => false end
  | None => false
  end.
Definition UsesVMAgent cluster : bool :=
  match sp_Monitoring (Spec cluster) with
  | Some monitoring => match mo_VMAgentRemote monitoring with Some _ => true | None => false end
  | None => false
  end.

Definition metricsEndpoint (spec : normalizedSpec) (block : normalizedServiceMonitor) : MonitorEndpoint :=
  if decide (n_boltTLSSecret spec = "")
  then mkMonitorEndpoint metricsPortName metricsPath "http" (nsm_interval block) None
  else mkMonitorEndpoint metricsPortName metricsPath "https" (nsm_interval block) (Some true).

Definition ServiceMonitor cluster : option ServiceMonitorObject :=
  let spec := normalize (Spec cluster) in
  let name := m_Name (Meta cluster) in
  block ← nmo_serviceMonitor (n_monitoring spec);
  Some (mkServiceMonitor
          (mkKMeta (ServiceMonitorName name) (m_Namespace (Meta cluster))
             (monitoringLabels name monitoringComponent (nsm_labels block)) (nsm_annotations block))
          {[ NameLabel := NameValue; instanceLabel := name ]} [metricsEndpoint spec block]).

Definition GrafanaDashboard cluster : option KConfigMap :=
  let spec := normalize (Spec cluster) in
  let name := m_Name (Meta cluster) in
  block ← nmo_grafanaDashboard (n_monitoring spec);
  Some (mkKConfigMap
          (mkKMeta (GrafanaDashboardName name) (m_Namespace (Meta cluster))
             (monitoringLabels name grafanaDashboardComponent (ngd_labels block)) (ngd_annotations block))
          {[ GrafanaDashboardKey := grafanaDashboardJSON ]}).

(** The scrape target of a pod. *)
Definition scrapeTarget cluster (spec : normalizedSpec) (statefulSet : string) (ordinal : Z) : string :=
  hostPort (podFQDN (m_Namespace (Meta cluster)) statefulSet (n_clusterDomain spec) ordinal) MetricsPort.

Definition scrapeTargets cluster (coordinatorReplicas dataReplicas : Z) : list string :=
  let spec := normalize (Spec cluster) in
  (scrapeTarget cluster spec (CoordinatorName (m_Name (Meta cluster))) <$> ordinals coordinatorReplicas) ++
  (scrapeTarget cluster spec (DataName (m_Name (Meta cluster))) <$> ordinals dataReplicas).

Definition VMAgentConfigMap cluster (coordinatorReplicas dataReplicas : Z) : option KConfigMap :=
  let spec := normalize (Spec cluster) in
  let name := m_Name (Meta cluster) in
  block ← nmo_vmagent (n_monitoring spec);
  let targets := scrapeTargets cluster coordinatorReplicas dataReplicas in
  let job := if decide (n_boltTLSSecret spec = "")
             then mkScrapeJob vmagentJobName metricsPath "" None targets
             else mkScrapeJob vmagentJobName metricsPath "https" (Some true) targets in
  Some (mkKConfigMap
          (mkKMeta (VMAgentConfigName name) (m_Namespace (Meta cluster)) (monitoringLabels name vmagentComponent ∅) ∅)
          {[ VMAgentConfigKey :=
               marshalScrape (mkScrapeConfig (nva_scrapeInterval block) (nva_externalLabels block) [job]) ]}).

Definition vmagentArgs (block : normalizedVMAgent) : list string :=
  ["-promscrape.config=" ^^ vmagentConfigPath ^^ "/" ^^ VMAgentConfigKey;
   "-promscrape.configCheckInterval=" ^^ vmagentConfigCheckInterval;
   "-remoteWrite.url=" ^^ nva_remoteWriteURL block;
   "-remoteWrite.tmpDataPath=" ^^ vmagentDataPath;
   "-httpListenAddr=:" ^^ Itoa VMAgentPort] ++
  (if decide (nva_basicAuthSecret block = "") then []
   else ["-remoteWrite.basicAuth.username=$(" ^^ vmagentUsernameEnv ^^ ")";
         "-remoteWrite.basicAuth.passwordFile=" ^^ vmagentAuthPath ^^ "/" ^^ BasicAuthPasswordKey]).

Definition vmagentContainer (block : normalizedVMAgent) : Container :=
  let authenticated := nva_basicAuthSecret block in
  mkContainer vmagentComponent (nva_image block) (nva_pullPolicy block) [] (vmagentArgs block)
    (if decide (authenticated = "") then []
     else [mkKEnvVar vmagentUsernameEnv "" (Some (inl (SecretKeyRef authenticated BasicAuthUsernameKey)))])
    [] [mkContainerPort vmagentPortName VMAgentPort] (Some (nva_resources block))
    ([mount vmagentConfigVolume vmagentConfigPath true; mount vmagentDataVolume vmagentDataPath false] ++
     (if decide (authenticated = "") then [] else [mount vmagentAuthVolume vmagentAuthPath true]))
    (Some (mkProbe (HTTPGet "/health" vmagentPortName) 0 0 0)) (Some (inl restrictedSecurityContext)) noRest.

Definition vmagentVolumes (name : string) (block : normalizedVMAgent) : list Volume :=
  [mkVolume vmagentConfigVolume (ConfigMapVolume (VMAgentConfigName name)); mkVolume vmagentDataVolume EmptyDir] ++
  (if decide (nva_basicAuthSecret block = "") then []
   else [mkVolume vmagentAuthVolume (SecretVolume (nva_basicAuthSecret block) [itself BasicAuthPasswordKey])]).

Definition VMAgentDeployment cluster : option Deployment :=
  let spec := normalize (Spec cluster) in
  let name := m_Name (Meta cluster) in
  block ← nmo_vmagent (n_monitoring spec);
  let labels := monitoringLabels name vmagentComponent ∅ in
  Some (mkDeployment
          (mkKMeta (VMAgentName name) (m_Namespace (Meta cluster)) labels ∅) 1 (selectorLabels name vmagentComponent)
          (mkPodTemplateSpec labels ∅
             (mkPodSpec None (Some false) [] [vmagentContainer block]
                (mkPodSecurityContext (Some vmagentUserID) (Some vmagentUserID) (Some vmagentUserID) (Some true)
                   SeccompProfileTypeRuntimeDefault)
                (vmagentVolumes name block) ∅ [] [] None ""))).
End monitoring.

(** ** Lemmas *)

(** A block of the spec and the builder that reads it are there together. *)
Lemma uses_blocks `{Kube} {L} (cluster : MemgraphDBCluster L) :
  let monitoring := n_monitoring (normalize (Spec cluster)) in
  (UsesServiceMonitor cluster = true ↔ is_Some (nmo_serviceMonitor monitoring)) ∧
  (UsesGrafanaDashboard cluster = true ↔ is_Some (nmo_grafanaDashboard monitoring)) ∧
  (UsesVMAgent cluster = true ↔ is_Some (nmo_vmagent monitoring)) ∧
  (UsesVector cluster = true ↔ is_Some (nmo_vector monitoring)).
Proof.
  cbn. unfold UsesServiceMonitor, UsesGrafanaDashboard, UsesVMAgent, UsesVector.
  destruct (sp_Monitoring (Spec cluster)) as [m|]; cbn; [|split_and!; split; (done || by intros [? ?])].
  destruct (mo_ServiceMonitor m), (mo_GrafanaDashboard m), (mo_VMAgentRemote m), (mo_VectorRemote m); cbn;
    split_and!; split; (done || by intros [? ?]).
Qed.
