(* ===== verification/Status.v ===== *)
(** * Package controller: the status a pass leaves

    The conditions, the observation and the Ready summary of
    internal/controller/memgraphdbcluster_controller.go. The conditions live behind
    [ConditionsAPI]; the clock of a condition's transition is the API's. *)

From S2P Require Import Prelude GoStrings GoErrors K8s Api Client Planner PlanRun Volumes Topology.

(** ** Messages *)

Definition maxConditionMessage : nat := 1024.

Definition truncateMessage (message : string) : string :=
  if String.length message <=? maxConditionMessage then message
  else slice_to message (maxConditionMessage - 3) ^^ "...".

Definition joinNonEmpty (messages : list string) : string :=
  Join (List.filter (λ m, negb (bool_decide (m = ""))) messages) ". ".

Definition coordinatorNames (coordinators : list CoordinatorSpec) : list string := c_Name <$> coordinators.
Definition instanceNames (instances : list DataInstanceSpec) : list string := d_Name <$> instances.

Definition retirementMessage (topology : Topology) : string :=
  let coordinators := coordinatorNames (t_RetiringCoordinators topology) in
  let instances := instanceNames (t_RetiringDataInstances topology) in
  let retiring :=
    (if decide (coordinators = []) then [] else ["coordinator(s) " ^^ Join coordinators ", "]) ++
    (if decide (instances = []) then [] else ["data instance(s) " ^^ Join instances ", "]) in
  match retiring with
  | [] => ""
  | _ => "Retiring " ^^ Join retiring " and " ^^ " before their pods are shed"
  end.

(** ** What a pass left undone *)

Record volumeOutcome := mkVolumeOutcome {
  vo_growing : list string;
  vo_errors : list string;
  vo_refused : list string;
  vo_failed : list string
}.

(** [report[len(report)-n:]]. *)
Definition tail_of (report : string) (n : nat) : string :=
  slice_from report (String.length report - n).

(** Both subtractions of lengths the source makes signed are guarded there: [room] is
    compared before it is used, and [max(room-3, 0)] is the truncated one here. *)
Definition growingMessage (o : volumeOutcome) : string :=
  let message := "Waiting for " ^^ Join (vo_growing o) ", " ^^ " to reach the declared size" in
  match vo_errors o with
  | [] => message ^^ ". This takes about a minute on a storage driver that grows volumes in use"
  | report :: _ =>
      let message := message ^^ ". The storage driver reports " in
      let room := maxConditionMessage - String.length message in
      if (Z.of_nat maxConditionMessage - Z.of_nat (String.length message) <? Z.of_nat (String.length report))%Z
      then message ^^ "..." ^^ tail_of report (room - 3)
      else message ^^ report
  end.

Definition volumes_done (o : volumeOutcome) : bool :=
  bool_decide (length (vo_growing o) = 0) && bool_decide (length (vo_refused o) = 0) &&
  bool_decide (length (vo_failed o) = 0).

Record settingsOutcome := mkSettingsOutcome {
  so_pending : list string;
  so_rejected : list string;
  so_unknown : string
}.

Definition settings_done (o : settingsOutcome) : bool :=
  bool_decide (length (so_pending o) = 0) && bool_decide (length (so_rejected o) = 0) &&
  bool_decide (so_unknown o = "").

Definition settings_merge (o other : settingsOutcome) : settingsOutcome :=
  mkSettingsOutcome (so_pending o ++ so_pending other) (so_rejected o ++ so_rejected other) (so_unknown o).

(** ** Conditions *)

Definition conditionServing : string := "Serving".
Definition reasonMainElected : string := "MainElected".

Definition trueCondition (condType reason message : string) : Condition :=
  mkCondition condType ConditionTrue reason message 0.
Definition notServingCondition (reason message : string) : Condition :=
  mkCondition conditionServing ConditionFalse reason message 0.
Definition notConvergedCondition (reason message : string) : Condition :=
  mkCondition ConditionConverged ConditionFalse reason message 0.
Definition notLicenseAppliedCondition (reason message : string) : Condition :=
  mkCondition ConditionLicenseApplied ConditionFalse reason message 0.
Definition notUpdatedCondition (reason message : string) : Condition :=
  mkCondition ConditionUpdated ConditionFalse reason message 0.

Definition servingReasons (reason : string) : bool :=
  bool_decide (reason ∈ [ReasonApplyFailed; ReasonWorkloadsNotReady; ReasonCoordinatorUnreachable;
                         ReasonNoCoordinatorLeader; ReasonNoMainElected]).

Definition servingOrNot (main : string) : Condition :=
  if decide (main = "")
  then notServingCondition ReasonNoMainElected "No data instance has been promoted to MAIN yet"
  else trueCondition conditionServing reasonMainElected ("Data instance " ^^ main ^^ " is MAIN").

(** [externalAccess]: what a pass observed of the exposure. *)
Record exposure := mkExposure {
  ea_addresses : ExternalAddresses;
  ea_pending : list string;
  ea_failure : string;
  ea_status : option ExternalAccessStatus
}.

Definition convergedCondition (topology : Topology) (exposure : exposure) (serviceMonitorFailure : string)
    (applied : settingsOutcome) (claims : volumeOutcome) : Condition :=
  let unservable := joinNonEmpty [ea_failure exposure; serviceMonitorFailure] in
  if decide (unservable ≠ "") then notConvergedCondition ReasonApplyFailed unservable
  else if 0 <? length (vo_refused claims)
  then notConvergedCondition ReasonVolumeExpansionRefused (truncateMessage (Join (vo_refused claims) "; "))
  else if 0 <? length (vo_failed claims)
  then notConvergedCondition ReasonVolumeExpansionFailed (truncateMessage (Join (vo_failed claims) "; "))
  else if 0 <? length (ea_pending exposure)
  then notConvergedCondition ReasonExternalAddressPending
         ("Waiting for an external address on " ^^ Join (ea_pending exposure) ", ")
  else if 0 <? length (so_rejected applied)
  then notConvergedCondition ReasonSettingsRejected (truncateMessage (Join (so_rejected applied) "; "))
  else if decide (so_unknown applied ≠ "")
  then notConvergedCondition ReasonUnknownFlags (truncateMessage (so_unknown applied))
  else if 0 <? length (vo_growing claims)
  then notConvergedCondition ReasonVolumeExpansionInProgress (truncateMessage (growingMessage claims))
  else if 0 <? length (so_pending applied)
  then notConvergedCondition ReasonSettingsPending
         ("Waiting to apply run-time settings on " ^^ Join (so_pending applied) ", ")
  else trueCondition ConditionConverged ReasonAllInstancesRegistered
         ("All " ^^ Itoa (Z.of_nat (length (Coordinators topology) + length (DataInstances topology))) ^^
          " declared instances are registered").

(** ** The observation *)

Record observation := mkObservation {
  ob_main : string;
  ob_registeredCoordinators : Z;
  ob_registeredDataInstances : Z;
  ob_externalAccess : option ExternalAccessStatus
}.

Definition observedMain (observed : list Instance) : string :=
  match List.find (λ i, IsMain i && IsUp i) observed with Some i => i_Name i | None => "" end.

Definition observe (topology : Topology) (observed : list Instance) : observation :=
  let '(coordinators, dataInstances) := Registered topology observed in
  mkObservation (observedMain observed) coordinators dataInstances None.

Definition exposedAt (o : observation) (exposure : exposure) : observation :=
  mkObservation (ob_main o) (ob_registeredCoordinators o) (ob_registeredDataInstances o) (ea_status exposure).

Section status.
Context {L : Type} `{ConditionsAPI L}.

Definition lastObserved (status : MemgraphDBClusterStatus L) : observation :=
  mkObservation (su_Main status) (su_Coordinators status) (su_DataInstances status) (su_ExternalAccess status).

Definition at_generation (generation : Z) (c : Condition) : Condition :=
  mkCondition (Type_ c) (Status c) (Reason c) (Message c) generation.

Definition setStatus (generation : Z) (status : MemgraphDBClusterStatus L) (observed : observation)
    (conditions : list Condition) : MemgraphDBClusterStatus L :=
  mkStatus (ob_main observed) (ob_registeredCoordinators observed) (ob_registeredDataInstances observed)
    (ob_externalAccess observed)
    (foldl (λ l c, SetStatusCondition l (at_generation generation c)) (su_Conditions status) conditions).

(** One round of the loop of [readyCondition]: the verdict of the first condition that
    is not True for the generation, [None] when it is. *)
Definition ready_verdict (conditions : L) (generation : Z) (condType : string) : option Condition :=
  let undecided := mkCondition ConditionReady ConditionUnknown ReasonReconciling
                     (condType ^^ " has not been decided for the current spec yet") 0 in
  match FindStatusCondition conditions condType with
  | None => Some undecided
  | Some c =>
      if decide (ObservedGeneration c ≠ generation) then Some undecided
      else if decide (Status c ≠ ConditionTrue)
      then let message := if decide (Message c = "") then "not decided yet" else Message c in
           Some (mkCondition ConditionReady (Status c) (Reason c)
                   (truncateMessage (condType ^^ ": " ^^ message)) 0)
      else None
  end.

Fixpoint first_verdict (conditions : L) (generation : Z) (condTypes : list string) : option Condition :=
  match condTypes with
  | [] => None
  | condType :: condTypes =>
      match ready_verdict conditions generation condType with
      | Some c => Some c
      | None => first_verdict conditions generation condTypes
      end
  end.

(** The previous Ready stands: it said the cluster was not serving, or was not decided. *)
Definition keeps_previous (previous : Condition) : bool :=
  negb (bool_decide (Status previous = ConditionTrue)) &&
  (servingReasons (Reason previous) || bool_decide (Reason previous = ReasonReconciling)).

Definition readyCondition (serving : option Condition) (conditions : L) (main : string) (generation : Z)
    : Condition :=
  let rest :=
    match first_verdict conditions generation
            [ConditionLicenseApplied; ConditionConverged; ConditionUpdated] with
    | Some c => c
    | None => trueCondition ConditionReady ReasonReconciled
                ("Data instance " ^^ main ^^ " is MAIN and the cluster runs the spec it declares")
    end in
  match serving with
  | None =>
      match FindStatusCondition conditions ConditionReady with
      | Some previous => if keeps_previous previous then previous else rest
      | None => rest
      end
  | Some s =>
      if decide (Status s ≠ ConditionTrue)
      then mkCondition ConditionReady (Status s) (Reason s) (Message s) 0
      else rest
  end.

Definition summarizeReady (generation : Z) (status : MemgraphDBClusterStatus L)
    : MemgraphDBClusterStatus L :=
  let serving := FindStatusCondition (su_Conditions status) conditionServing in
  let conditions := match serving with
                    | Some _ => RemoveStatusCondition (su_Conditions status) conditionServing
                    | None => su_Conditions status
                    end in
  let ready := at_generation generation (readyCondition serving conditions (su_Main status) generation) in
  mkStatus (su_Main status) (su_Coordinators status) (su_DataInstances status) (su_ExternalAccess status)
    (SetStatusCondition conditions ready).
End status.

(** ** Lemmas *)

Lemma length_truncateMessage m : String.length (truncateMessage m) ≤ maxConditionMessage.
Proof.
  unfold truncateMessage. case_match eqn:E; [by apply Nat.leb_le in E|].
  rewrite length_app_s. unfold slice_to. rewrite length_substring0.
  change (String.length "...") with 3. unfold maxConditionMessage in *. lia.
Qed.

Lemma observedMain_spec observed :
  observedMain observed ≠ "" → ∃ i, i ∈ observed ∧ i_Name i = observedMain observed ∧ IsMain i ∧ IsUp i.
Proof.
  unfold observedMain. destruct (List.find _ _) as [i|] eqn:E; [|done]. intros _.
  apply find_Some_elem in E as [Hi [Hm Hu]%andb_true_iff]. exists i. by rewrite Hm, Hu.
Qed.

Section status_lemmas.
Context {L : Type} `{ConditionsAPI L}.
Implicit Types (conditions : L).

Lemma ready_verdict_None conditions generation t :
  ready_verdict conditions generation t = None ↔
  ∃ c, FindStatusCondition conditions t = Some c ∧ Status c = ConditionTrue ∧ ObservedGeneration c = generation.
Proof.
  unfold ready_verdict. destruct (FindStatusCondition conditions t) as [c|]; [|naive_solver].
  repeat case_decide; naive_solver.
Qed.

Lemma first_verdict_None conditions generation ts :
  first_verdict conditions generation ts = None ↔
  ∀ t, t ∈ ts → ready_verdict conditions generation t = None.
Proof.
  induction ts as [|t ts IH]; simpl; [set_solver|]. setoid_rewrite elem_of_cons.
  destruct (ready_verdict conditions generation t) eqn:E; [naive_solver congruence|]. rewrite IH. naive_solver.
Qed.

Lemma first_verdict_Some conditions generation ts c :
  first_verdict conditions generation ts = Some c → Type_ c = ConditionReady ∧ Status c ≠ ConditionTrue.
Proof.
  induction ts as [|t ts IH]; simpl; [done|]. unfold ready_verdict at 1.
  destruct (FindStatusCondition conditions t) as [d|]; [|by intros [= <-]].
  repeat case_decide; try (by intros [= <-]); done.
Qed.
End status_lemmas.

(** ** Properties *)

(** The three conditions Ready stands on, for the generation. *)
Definition all_true `{ConditionsAPI L} (conditions : L) (generation : Z) : Prop :=
  ∀ t, t ∈ [ConditionLicenseApplied; ConditionConverged; ConditionUpdated] →
    ∃ c, FindStatusCondition conditions t = Some c ∧ Status c = ConditionTrue ∧ ObservedGeneration c = generation.

(** The Ready [summarizeReady] leaves, and what it leaves alone. *)
Lemma summarizeReady_spec `{ConditionsAPI L} generation (status : MemgraphDBClusterStatus L) :
  let before := su_Conditions status in
  let after := su_Conditions (summarizeReady generation status) in
  (∃ ready, FindStatusCondition after ConditionReady = Some ready ∧ ObservedGeneration ready = generation ∧
     (Status ready = ConditionTrue ↔
      all_true before generation ∧
      match FindStatusCondition before conditionServing with
      | Some serving => Status serving = ConditionTrue
      | None => ∀ previous, FindStatusCondition before ConditionReady = Some previous →
                  keeps_previous previous = false
      end)) ∧
  FindStatusCondition after conditionServing = None ∧
  ∀ t, t ≠ ConditionReady → t ≠ conditionServing →
    FindStatusCondition after t = FindStatusCondition before t.
Proof.
  cbn zeta. unfold summarizeReady. cbn [su_Conditions].
  set (before := su_Conditions status). set (serving := FindStatusCondition before conditionServing).
  set (conditions := match serving with Some _ => RemoveStatusCondition before conditionServing | None => before end).
  assert (∀ t, t ≠ conditionServing → FindStatusCondition conditions t = FindStatusCondition before t) as Hc.
  { intros t Ht. unfold conditions. destruct serving; [|done]. by apply find_remove_ne. }
  set (ready := readyCondition serving conditions (su_Main status) generation).
  assert (Type_ ready = ConditionReady) as Ht.
  { unfold ready, readyCondition.
    destruct (first_verdict conditions generation _) as [v|] eqn:Ev;
      [apply first_verdict_Some in Ev as [Ev _]|]; destruct serving as [s|]; try (case_decide; done);
      destruct (FindStatusCondition conditions ConditionReady) as [p|] eqn:Ep; try done;
      (case_match; [by eapply find_type|done]). }
  assert (FindStatusCondition (SetStatusCondition conditions (at_generation generation ready)) ConditionReady =
    Some (at_generation generation ready)) as Hf.
  { pose proof (find_set conditions (at_generation generation ready)) as Hs. simpl in Hs. by rewrite Ht in Hs. }
  split_and!.
  - exists (at_generation generation ready). split; [done|]. split; [done|]. cbn [at_generation Status].
    assert (all_true before generation ↔ first_verdict conditions generation
      [ConditionLicenseApplied; ConditionConverged; ConditionUpdated] = None) as Hall.
    { rewrite first_verdict_None. unfold all_true. apply forall_proper. intros t.
      rewrite ready_verdict_None. split; intros Hx Hin; specialize (Hx Hin);
        [rewrite Hc|rewrite Hc in Hx]; try done;
        by (intros ->; set_solver). }
    rewrite Hall. unfold ready, readyCondition. rewrite (Hc ConditionReady) by done.
    destruct (first_verdict conditions generation _) as [v|] eqn:Ev.
    + apply first_verdict_Some in Ev as [_ Ev]. split; [|by intros [? _]]. intros Hv. exfalso. revert Hv.
      destruct serving as [s|]; [by case_decide|].
      destruct (FindStatusCondition before ConditionReady) as [p|]; [|done].
      destruct (keeps_previous p) eqn:Ek; [|done]. unfold keeps_previous in Ek.
      apply andb_true_iff in Ek as [Ek%negb_true_iff%bool_decide_eq_false _]. done.
    + destruct serving as [s|]; [case_decide; naive_solver|].
      destruct (FindStatusCondition before ConditionReady) as [p|]; [|naive_solver].
      destruct (keeps_previous p) eqn:Ek; [|naive_solver]. split; [|naive_solver congruence].
      unfold keeps_previous in Ek. apply andb_true_iff in Ek as [Ek%negb_true_iff%bool_decide_eq_false _]. done.
  - rewrite find_set_ne by (cbn [at_generation Type_]; by rewrite Ht). unfold conditions.
    destruct serving eqn:Es; [apply find_remove|done].
  - intros t Hr Hs. rewrite find_set_ne by (cbn [at_generation Type_]; by rewrite Ht). by apply Hc.
Qed.

(** The Ready a pass leaves is True exactly when the cluster was not seen not serving
    (this pass's verdict if it took one, the previous Ready if it did not) and
    LicenseApplied, Converged and Updated are all True for the current generation; the
    serving verdict never reaches the API, and no other condition is touched. *)
Theorem Ready_iff `{ConditionsAPI L} generation (status : MemgraphDBClusterStatus L) :
  let before := su_Conditions status in
  let after := su_Conditions (summarizeReady generation status) in
  (∃ ready, FindStatusCondition after ConditionReady = Some ready ∧ ObservedGeneration ready = generation ∧
     (Status ready = ConditionTrue ↔
      all_true before generation ∧
      match FindStatusCondition before conditionServing with
      | Some serving => Status serving = ConditionTrue
      | None => ∀ previous, FindStatusCondition before ConditionReady = Some previous →
                  keeps_previous previous = false
      end)) ∧
  FindStatusCondition after conditionServing = None ∧
  ∀ t, t ≠ ConditionReady → t ≠ conditionServing →
    FindStatusCondition after t = FindStatusCondition before t.
Proof. apply summarizeReady_spec. Qed.

(** One case of [convergedCondition]: its reason, and the bound of its message. *)
Ltac converged_case :=
  cbn [length Nat.ltb Nat.leb notConvergedCondition trueCondition Type_ Status Reason Message];
  split_and!; [done|naive_solver|naive_solver|];
  first [intros _; apply length_truncateMessage
        |intros Hin; exfalso; repeat (apply elem_of_cons in Hin as [?|Hin]; [done|]); by apply elem_of_nil in Hin].

(** Converged is True exactly when nothing the spec asks for beyond registration is
    outstanding: nothing unservable, refused, failed, growing, rejected, unknown or pending;
    when it is not, its reason is the first of these in the order of permanence, and the
    long messages fit the bound. *)
Theorem Converged_iff topology exposure serviceMonitorFailure applied claims :
  let c := convergedCondition topology exposure serviceMonitorFailure applied claims in
  Type_ c = ConditionConverged ∧
  (Status c = ConditionTrue ↔
     joinNonEmpty [ea_failure exposure; serviceMonitorFailure] = "" ∧ ea_pending exposure = [] ∧
     settings_done applied = true ∧ volumes_done claims = true) ∧
  (Reason c = ReasonVolumeExpansionRefused ↔
     joinNonEmpty [ea_failure exposure; serviceMonitorFailure] = "" ∧ vo_refused claims ≠ []) ∧
  (Reason c ∈ [ReasonVolumeExpansionRefused; ReasonVolumeExpansionFailed; ReasonSettingsRejected;
               ReasonUnknownFlags; ReasonVolumeExpansionInProgress] →
     String.length (Message c) ≤ maxConditionMessage).
Proof.
  cbn zeta. unfold convergedCondition, settings_done, volumes_done.
  rewrite !andb_true_iff, !bool_decide_eq_true, !length_zero_iff_nil.
  destruct (decide (joinNonEmpty [ea_failure exposure; serviceMonitorFailure] ≠ "")) as [Hu|Hu%dec_stable];
    [converged_case|].
  destruct (vo_refused claims); [|converged_case].
  destruct (vo_failed claims); [|converged_case].
  destruct (ea_pending exposure); [|converged_case].
  destruct (so_rejected applied); [|converged_case].
  destruct (decide (so_unknown applied ≠ "")) as [Hn|Hn%dec_stable]; [converged_case|].
  destruct (vo_growing claims) eqn:Eg; [|converged_case].
  destruct (so_pending applied); converged_case.
Qed.
