(* ===== verification/Effects.v ===== *)
(** * Programs with effects

    The controller's code between two pure decisions: a program is a return value, or an
    effect whose answer the rest of the program continues with. [returns p t a] says that a
    run of [p] may issue the effects [t], with the answers recorded in it, and return [a]:
    the theorems about it hold whatever the environment answers. [run] executes a program
    against a concrete environment. *)

From S2P Require Import Prelude.

Inductive prog (E : Type → Type) (A : Type) : Type :=
| Ret (a : A)
| Vis (X : Type) (e : E X) (k : X → prog E A).
Arguments Ret {E A}.
Arguments Vis {E A X}.

#[export] Instance prog_ret E : MRet (prog E) := @Ret E.
#[export] Instance prog_bind E : MBind (prog E) :=
  fix go {A B} (f : A → prog E B) (p : prog E A) :=
    match p with
    | Ret a => f a
    | Vis e k => Vis e (λ x, go f (k x))
    end.
Definition trigger {E X} (e : E X) : prog E X := Vis e Ret.

(** An effect with its answer. *)
Inductive event (E : Type → Type) : Type := Event (X : Type) (e : E X) (x : X).
Arguments Event {E X}.

Fixpoint returns {E A} (p : prog E A) (t : list (event E)) (a : A) : Prop :=
  match p with
  | Ret b => t = [] ∧ a = b
  | Vis e k => ∃ x t', t = Event e x :: t' ∧ returns (k x) t' a
  end.

(** Execution against an environment that answers every effect. *)
Fixpoint run {E S A} (handle : ∀ X, E X → S → S * X) (p : prog E A) (s : S) : S * list (event E) * A :=
  match p with
  | Ret a => (s, [], a)
  | Vis e k =>
      let '(s, x) := handle _ e s in
      let '(s, t, a) := run handle (k x) s in (s, Event e x :: t, a)
  end.

Section returns.
Context {E : Type → Type}.

Lemma returns_bind {A B} (p : prog E A) (f : A → prog E B) t b :
  returns (p ≫= f) t b ↔ ∃ t1 a t2, t = t1 ++ t2 ∧ returns p t1 a ∧ returns (f a) t2 b.
Proof.
  revert t. induction p as [a|X e k IH]; intros t; simpl.
  - split; [intros H; exists [], a, t; done|]. intros (? & ? & ? & -> & [-> ->] & H). done.
  - split.
    + intros (x & t' & -> & (t1 & a & t2 & -> & H1 & H2)%IH). exists (Event e x :: t1), a, t2. eauto 10.
    + intros (t1 & a & t2 & -> & (x & t' & -> & H1) & H2). exists x, (t' ++ t2). split; [done|].
      apply IH. eauto 10.
Qed.

Lemma returns_trigger {X A} (e : E X) (k : X → prog E A) t a :
  returns (trigger e ≫= k) t a ↔ ∃ x t', t = Event e x :: t' ∧ returns (k x) t' a.
Proof. done. Qed.

(** What an execution does is one of the runs. *)
Lemma run_returns {S A} (handle : ∀ X, E X → S → S * X) (p : prog E A) (s : S) :
  returns p (run handle p s).1.2 (run handle p s).2.
Proof.
  revert s. induction p as [a|X e k IH]; intros s; simpl; [done|].
  destruct (handle X e s) as [s' x]. specialize (IH x s'). destruct (run handle (k x) s') as [[s'' t] a].
  simpl in *. eauto.
Qed.

(** A run of a program within a trace. *)
Definition ran_in {A} (t : list (event E)) (p : prog E A) (a : A) : Prop := ∃ u, u ⊆ t ∧ returns p u a.

Lemma ran_in_mono {A} t t' (p : prog E A) a : t ⊆ t' → ran_in t p a → ran_in t' p a.
Proof. intros Ht (u & Hu & Hp). exists u. split; [by etrans|done]. Qed.

(** Every answer of an execution is the environment's. *)
Lemma run_answers {S A} (handle : ∀ X, E X → S → S * X) (p : prog E A) (s : S) X (e : E X) x :
  Event e x ∈ (run handle p s).1.2 → ∃ s', x = (handle X e s').2.
Proof.
  revert s. induction p as [a|Y f k IH]; intros s; simpl; [by intros ?%elem_of_nil|].
  destruct (handle Y f s) as [s' y] eqn:Ey. specialize (IH y s'). destruct (run handle (k y) s') as [[s'' t] a].
  cbn in *. intros [Hin|Hin]%elem_of_cons; [|by apply IH].
  pose proof (f_equal (λ ev, match ev with @Event _ X e x => ∃ s', x = (handle X e s').2 end) Hin) as HP.
  cbn in HP. rewrite HP. exists s. by rewrite Ey.
Qed.

(** Every program returns: there is a run for every environment. *)
Lemma run_total {S A} (handle : ∀ X, E X → S → S * X) (p : prog E A) (s : S) :
  ∃ t a, returns p t a.
Proof. eexists _, _. apply (run_returns handle p s). Qed.
End returns.

(** ** Which effects a program may issue *)

Section all_effects.
Context {E : Type → Type} (P : ∀ X, E X → Prop).

Fixpoint all_effects {A} (p : prog E A) : Prop :=
  match p with
  | Ret _ => True
  | Vis e k => P _ e ∧ ∀ x, all_effects (k x)
  end.

Lemma all_effects_bind {A B} (p : prog E A) (f : A → prog E B) :
  all_effects p → (∀ a, all_effects (f a)) → all_effects (p ≫= f).
Proof. intros Hp Hf. induction p as [a|X e k IH]; simpl; [apply Hf|].
  destruct Hp as [He Hk]. split; [done|]. intros x. apply (IH x), Hk. Qed.

Lemma all_effects_trigger {X} (e : E X) : P _ e → all_effects (trigger e).
Proof. by split. Qed.

Lemma all_effects_ret {A} (a : A) : all_effects (mret a).
Proof. done. Qed.

Lemma all_effects_returns {A} (p : prog E A) t a :
  all_effects p → returns p t a → ∀ X (e : E X) x, Event e x ∈ t → P _ e.
Proof.
  revert t. induction p as [b|X e k IH]; intros t Hp H Y f y Hin; simpl in H.
  - destruct H as [-> _]. by apply elem_of_nil in Hin.
  - destruct Hp as [He Hk], H as (x & t' & -> & H). apply elem_of_cons in Hin as [Hin|Hin]; [|by eapply IH].
    pose proof (f_equal (λ ev, match ev with @Event _ X e _ => P X e end) Hin) as HP. cbn in HP. by rewrite HP.
Qed.
End all_effects.

(** ** What a program may return *)

Section all_results.
Context {E : Type → Type}.

Fixpoint all_results {A} (P : A → Prop) (p : prog E A) : Prop :=
  match p with
  | Ret a => P a
  | Vis _ k => ∀ x, all_results P (k x)
  end.

Lemma all_results_bind {A B} (P : A → Prop) (Q : B → Prop) (p : prog E A) (f : A → prog E B) :
  all_results P p → (∀ a, P a → all_results Q (f a)) → all_results Q (p ≫= f).
Proof. intros Hp Hf. induction p as [a|X e k IH]; simpl; [by apply Hf|]. intros x. apply (IH x), Hp. Qed.

(** Whatever the first program returns. *)
Lemma all_results_then {A B} (Q : B → Prop) (p : prog E A) (f : A → prog E B) :
  (∀ a, all_results Q (f a)) → all_results Q (p ≫= f).
Proof. intros Hf. induction p as [a|X e k IH]; simpl; [apply Hf|]. intros x. apply IH. Qed.

Lemma all_results_returns {A} (P : A → Prop) (p : prog E A) t a : all_results P p → returns p t a → P a.
Proof.
  revert t. induction p as [b|X e k IH]; intros t Hp H; simpl in H; [by destruct H as [_ ->]|].
  destruct H as (x & t' & _ & H). by eapply IH.
Qed.
End all_results.

Create HintDb effects.
#[export] Hint Resolve all_effects_trigger all_effects_ret : effects.

(** Prove what a program may issue by following its code: binds, branches and matches. *)
Ltac all_effects :=
  repeat first
    [ progress intros
    | solve [eauto 2 with effects]
    | apply all_effects_bind
    | case_match ].
