(* ===== verification/Bolt.v ===== *)
(** * Package memgraph: the Bolt connector

    bolt.go: dialling an instance and calling it, as programs over the calls of the neo4j
    driver. A deadline that passes is one of the errors a driver call may answer. *)

From S2P Require Import Prelude GoStrings GoErrors Client Planner PlanRun Effects.

(** ** Definitions *)

Abbreviation driver := nat.
Abbreviation session := nat.
Abbreviation cursor := nat.

(** [neo4j.NoAuth()] and [neo4j.BasicAuth(principal, credential, "")]. *)
Inductive AuthToken := NoAuth | BasicAuth (principal credential : string).
#[export] Instance AuthToken_eq_dec : EqDecision AuthToken.
Proof. solve_decision. Defined.

(** The driver's calls. *)
Inductive driverCall : Type → Type :=
| NewDriverWithContext (target : string) (auth : AuthToken) : driverCall (driver + error)
| VerifyConnectivity (d : driver) : driverCall (option error)
| CloseDriver (d : driver) : driverCall (option error)
| NewSession (d : driver) : driverCall session
| SessionRun (s : session) (query : string) : driverCall (cursor + error)
| Collect (c : cursor) : driverCall (list record + error)
| CloseSession (s : session) : driverCall (option error).

Definition schemePlain : string := "bolt".
Definition schemeTLS : string := "bolt+ssc".
Definition dialSchemes (tls : bool) : list string :=
  if tls then [schemeTLS; schemePlain] else [schemePlain; schemeTLS].

Definition SystemUserName : string := "memgraph_internal".

Record credentials := mkCredentials { cr_name : string; cr_token : AuthToken }.

(** The password is the one the pass put on the context, and empty without one. *)
Definition dialCredentials (password : string) : list credentials :=
  let none := mkCredentials "no credentials" NoAuth in
  if decide (password = "") then [none]
  else [mkCredentials SystemUserName (BasicAuth SystemUserName password); none].

Definition isAuthenticationFailure (err : error) : bool :=
  match as_neo4j_code err with
  | Some code => Contains code ".Security."
  | None => false
  end.

(** How dialling under one scheme ends: the verified driver, an error that ends [Connect], or
    the errors so far. *)
Inductive dialled := Dialled (d : driver) | Undialled (err : error) | Refused (errs : list error).

(** The loop over the credentials. *)
Fixpoint dial_scheme (address scheme : string) (creds : list credentials) (errs : list error) : prog driverCall dialled :=
  match creds with
  | [] => mret (Refused errs)
  | c :: creds =>
      r ← trigger (NewDriverWithContext (scheme ^^ "://" ^^ address) (cr_token c));
      match r with
      | inr err => mret (Undialled (wrap ("creating bolt driver for " ^^ address) err))
      | inl d =>
          r ← trigger (VerifyConnectivity d);
          match r with
          | None => mret (Dialled d)
          | Some err =>
              _ ← trigger (CloseDriver d);
              let errs := errs ++ [wrap (scheme ^^ " as " ^^ cr_name c) err] in
              if negb (isAuthenticationFailure err) then mret (Refused errs) else dial_scheme address scheme creds errs
          end
      end
  end.

(** The loop over the schemes. *)
Fixpoint dial_schemes (address : string) (creds : list credentials) (schemes : list string) (errs : list error)
    : prog driverCall (driver + error) :=
  match schemes with
  | [] =>
      let joined := errors_Join errs in
      mret (inr (Errorf ("connecting to " ^^ address ^^ ": " ^^ wrapped_text joined) (option_list joined)))
  | scheme :: schemes =>
      r ← dial_scheme address scheme creds errs;
      match r with
      | Dialled d => mret (inl d)
      | Undialled err => mret (inr err)
      | Refused errs => dial_schemes address creds schemes errs
      end
  end.

Definition Connect (password address : string) (tls : bool) : prog driverCall (driver + error) :=
  dial_schemes address (dialCredentials password) (dialSchemes tls) [].

(** [boltClient.run]; the session is closed as the call returns. *)
Definition run_query (c : driver) (query : string) : prog driverCall (list record + error) :=
  session ← trigger (NewSession c);
  r ← trigger (SessionRun session query);
  r ← match r with
      | inr err => mret (inr (wrap ("running " ^^ Quote query) err))
      | inl result =>
          r ← trigger (Collect result);
          mret match r with
               | inr err => inr (wrap ("collecting results of " ^^ Quote query) err)
               | inl records => inl records
               end
      end;
  _ ← trigger (CloseSession session);
  mret r.

(** A call whose rows are parsed, and one whose rows are dropped. *)
Definition query {A} (c : driver) (text : string) (parse : list record → A + error) : prog driverCall (A + error) :=
  r ← run_query c text;
  mret match r with inr err => inr err | inl records => parse records end.
Definition command (c : driver) (text : string) : prog driverCall (option error) :=
  r ← run_query c text;
  mret match r with inr err => Some err | inl _ => None end.

Definition ShowInstances (c : driver) := query c showInstancesQuery (λ records, inl (instanceFromRecord <$> records)).
Definition ShowReplicationLag `{RangeOrder} (c : driver) := query c showReplicationLagQuery replicationLagFromRecords.
Definition ShowSettings (c : driver) := query c showSettingsQuery settingsFromRecords.
Definition ShowConfig (c : driver) :=
  query c showConfigQuery (λ records, namedValuesFromRecords records "name" "current_value").
Definition ShowCoordinatorSettings (c : driver) := query c showCoordinatorSettingsQuery settingsFromRecords.
Definition SetSetting (c : driver) (name value : string) := command c (setSettingQuery name value).
Definition SetCoordinatorSetting (c : driver) (name value : string) := command c (setCoordinatorSettingQuery name value).
Definition Close (c : driver) : prog driverCall (option error) := trigger (CloseDriver c).

(** A client call against an environment that answers the driver, which keeps the driver calls
    made so far: the cluster commands of the Client interface. *)
Section boltClient.
Context {S : Type} (handle : ∀ X, driverCall X → S → S * X).
Abbreviation driven := (S * list (event driverCall))%type.

Definition drive {X} (p : prog driverCall X) (s : driven) : driven * X :=
  let '(s', t, x) := Effects.run handle p s.1 in ((s', s.2 ++ t), x).

Definition boltClient (c : driver) : ClusterClient driven := {|
  client_AddCoordinator coordinator := drive (command c (addCoordinatorQuery coordinator));
  client_RegisterInstance instance := drive (command c (registerInstanceQuery instance));
  client_UpdateCoordinatorBoltServer id boltServer := drive (command c (updateCoordinatorBoltServerQuery id boltServer));
  client_UpdateInstanceBoltServer name boltServer := drive (command c (updateInstanceBoltServerQuery name boltServer));
  client_SetInstanceToMain name := drive (command c (setInstanceToMainQuery name));
  client_DemoteInstance name := drive (command c (demoteInstanceQuery name));
  client_UnregisterInstance name := drive (command c (unregisterInstanceQuery name));
  client_RemoveCoordinator id := drive (command c (removeCoordinatorQuery id));
  client_YieldLeadership := drive (command c yieldLeadershipQuery)
|}.
End boltClient.

(** ** Drivers and sessions of a trace *)

Definition opens_driver (e : event driverCall) : list driver :=
  match e with Event (NewDriverWithContext _ _) (inl d) => [d] | _ => [] end.
Definition closes_driver (e : event driverCall) : list driver :=
  match e with Event (CloseDriver d) _ => [d] | _ => [] end.
Definition opens_session (e : event driverCall) : list session :=
  match e with Event (NewSession _) s => [s] | _ => [] end.
Definition closes_session (e : event driverCall) : list session :=
  match e with Event (CloseSession s) _ => [s] | _ => [] end.
(** The addresses dialled, with the credentials. *)
Definition attempt (e : event driverCall) : list (string * AuthToken) :=
  match e with Event (NewDriverWithContext target auth) _ => [(target, auth)] | _ => [] end.
(** The queries run. *)
Definition query_of (e : event driverCall) : list string :=
  match e with Event (SessionRun _ text) _ => [text] | _ => [] end.

(** The drivers of the trace are closed but those of [kept], and every session is. *)
Record settles (t : list (event driverCall)) (kept : list driver) : Prop := {
  se_drivers : t ≫= opens_driver ≡ₚ (t ≫= closes_driver) ++ kept;
  se_sessions : t ≫= opens_session ≡ₚ t ≫= closes_session
}.

(** ** Lemmas *)

Lemma settles_nil : settles [] [].
Proof. done. Qed.

Lemma settles_app t u k l : settles t k → settles u l → settles (t ++ u) (k ++ l).
Proof.
  intros [Ht Hs] [Hu Hs']. split; rewrite !bind_app; [rewrite Ht, Hu|by rewrite Hs, Hs'].
  rewrite <- !app_assoc. apply Permutation_app_head. rewrite !app_assoc. apply Permutation_app_tail, Permutation_app_comm.
Qed.

Lemma settles_after t u k : settles t [] → settles u k → settles (t ++ u) k.
Proof. apply (settles_app t u [] k). Qed.

(** A query is one session of one query, closed whatever is answered. *)
Lemma run_query_spec c text t r :
  returns (run_query c text) t r → settles t [] ∧ t ≫= query_of = [text] ∧ t ≫= attempt = [].
Proof.
  unfold run_query. cbn. intros (s & t1 & -> & [cur|err] & t2 & -> & Hrun); cbn in Hrun.
  - by destruct Hrun as (b & t3 & -> & x & t4 & -> & -> & _).
  - by destruct Hrun as (x & t4 & -> & -> & _).
Qed.

Lemma query_spec {A} c text (parse : list record → A + error) t r :
  returns (query c text parse) t r → settles t [] ∧ t ≫= query_of = [text] ∧ t ≫= attempt = [].
Proof.
  unfold query. intros (u & a & v & -> & Hq & [-> _])%returns_bind. rewrite app_nil_r. by eapply run_query_spec.
Qed.
Lemma command_spec c text t r :
  returns (command c text) t r → settles t [] ∧ t ≫= query_of = [text] ∧ t ≫= attempt = [].
Proof.
  unfold command. intros (u & a & v & -> & Hq & [-> _])%returns_bind. rewrite app_nil_r. by eapply run_query_spec.
Qed.

(** A login the instance refused. *)
Definition login_refused (t : list (event driverCall)) (target : string) (auth : AuthToken) : Prop :=
  ∃ d err, Event (NewDriverWithContext target auth) (inl d) ∈ t ∧ Event (VerifyConnectivity d) (Some err) ∈ t ∧
    isAuthenticationFailure err = true.

Lemma login_refused_mono t u target auth : t ⊆ u → login_refused t target auth → login_refused u target auth.
Proof. intros Ht (d & err & H1 & H2 & H3). exists d, err. split; [by apply Ht|]. split; [by apply Ht|done]. Qed.

(** One scheme: what is dialled, and why dialling went on or ended. *)
Lemma dial_scheme_spec address scheme creds errs t r :
  returns (dial_scheme address scheme creds errs) t r →
  let target := scheme ^^ "://" ^^ address in
  settles t match r with Dialled d => [d] | _ => [] end ∧
  (∃ tried rest, creds = tried ++ rest ∧ t ≫= attempt = (λ c, (target, cr_token c)) <$> tried ∧
     (creds ≠ [] → tried ≠ []) ∧
     (∀ before c after, tried = before ++ c :: after → after ≠ [] → login_refused t target (cr_token c)) ∧
     match r with
     | Dialled d => Event (VerifyConnectivity d) None ∈ t
     | Undialled err => ∃ auth cause, Event (NewDriverWithContext target auth) (inr cause) ∈ t
     | Refused _ => rest = [] ∨ ∃ d err, Event (VerifyConnectivity d) (Some err) ∈ t ∧ isAuthenticationFailure err = false
     end).
Proof.
  cbv zeta. revert errs t. induction creds as [|c creds IH]; intros errs t; cbn [dial_scheme].
  { intros [-> ->]. split; [apply settles_nil|]. exists [], []. split; [done|]. split; [done|]. split; [done|].
    split; [by intros [|? ?]|by left]. }
  intros (a & t1 & -> & Hrun)%returns_trigger. destruct a as [d|err]; cbn [mbind] in Hrun.
  2: { destruct Hrun as [-> ->]. split; [done|]. exists [c], creds. split; [done|]. split; [done|]. split; [done|].
       split; [by intros [|? [|? ?]] ? ? [= -> <-]|]. eexists _, err. left. }
  apply returns_trigger in Hrun as (v & t2 & -> & Hrun). destruct v as [err|].
  2: { destruct Hrun as [-> ->]. split; [done|]. exists [c], creds. split; [done|]. split; [done|]. split; [done|].
       split; [by intros [|? [|? ?]] ? ? [= -> <-]|]. right; left. }
  apply returns_trigger in Hrun as (x & t3 & -> & Hrun). cbv zeta in Hrun.
  set (pre := [Event (NewDriverWithContext (scheme ^^ "://" ^^ address) (cr_token c)) (inl d);
               Event (VerifyConnectivity d) (Some err); Event (CloseDriver d) x]).
  change (_ :: _ :: _ :: t3) with (pre ++ t3).
  assert (settles pre []) as Hpre by done.
  destruct (isAuthenticationFailure err) eqn:Ea; cbn [negb] in Hrun.
  - apply IH in Hrun as (Hset & tried & rest & -> & Hatt & Hne & Hwhy & Hr). split; [by apply settles_after|].
    exists (c :: tried), rest. split; [done|]. split; [by rewrite bind_app, Hatt|]. split; [done|]. split.
    + intros [|b before] c' after [= -> E] Hafter.
      * exists d, err. split; [left|]. split; [right; left|done].
      * eapply login_refused_mono, (Hwhy before c' after E Hafter). by apply list_subseteq_app_r.
    + destruct r as [d'|err'|errs'].
      * apply elem_of_app. by right.
      * destruct Hr as (auth & cause & Hin). exists auth, cause. apply elem_of_app. by right.
      * destruct Hr as [->|(d' & err' & Hin & Hf)]; [by left|right]. exists d', err'. split; [|done]. apply elem_of_app. by right.
  - destruct Hrun as [-> ->]. rewrite app_nil_r. split; [done|]. exists [c], creds. split; [done|]. split; [done|].
    split; [done|]. split; [by intros [|? [|? ?]] ? ? [= -> <-]|]. right. exists d, err. split; [right; left|done].
Qed.

Lemma prefix_of_pair {A} (x y : A) tried rest :
  [x; y] = tried ++ rest → tried ≠ [] → tried = [x] ∧ rest = [y] ∨ tried = [x; y] ∧ rest = [].
Proof. by destruct tried as [|a [|b [|c tried]]]; intros E Hne; simplify_eq/=; auto. Qed.

(** All of one scheme's attempts: the credentials in order, none tried before those ahead of
    it were refused. *)
Lemma scheme_attempts address scheme password t tried rest :
  let target := scheme ^^ "://" ^^ address in
  dialCredentials password = tried ++ rest → tried ≠ [] →
  (∀ before c after, tried = before ++ c :: after → after ≠ [] → login_refused t target (cr_token c)) →
  ∀ auth, (target, auth) ∈ (λ c, (target, cr_token c)) <$> tried →
    auth = NoAuth ∧ (password ≠ "" → login_refused t target (BasicAuth SystemUserName password)) ∨
    auth = BasicAuth SystemUserName password ∧ password ≠ "".
Proof.
  cbv zeta. intros E Hne Hwhy auth (c & [= ->] & Hc)%list_elem_of_fmap. unfold dialCredentials in E. case_decide as Hp.
  - left. assert (c ∈ [mkCredentials "no credentials" NoAuth]) as ->%list_elem_of_singleton.
    { rewrite E. apply elem_of_app. by left. }
    split; [done|]. by intros ?.
  - apply prefix_of_pair in E as [[-> _]|[-> _]]; [| |done].
    + right. apply list_elem_of_singleton in Hc as ->. done.
    + apply elem_of_cons in Hc as [->|Hc%list_elem_of_singleton]; [by right|]. subst c. left. split; [done|]. intros _.
      by apply (Hwhy [] (mkCredentials SystemUserName (BasicAuth SystemUserName password)) [mkCredentials "no credentials" NoAuth]).
Qed.

(** What the loop over the schemes left dials, and how it ends. *)
Lemma dial_schemes_spec address password schemes errs t r :
  returns (dial_schemes address (dialCredentials password) schemes errs) t r →
  settles t match r with inl d => [d] | inr _ => [] end ∧
  (∀ target auth, (target, auth) ∈ t ≫= attempt → ∃ scheme, scheme ∈ schemes ∧ target = scheme ^^ "://" ^^ address ∧
     (auth = NoAuth ∧ (password ≠ "" → login_refused t target (BasicAuth SystemUserName password)) ∨
      auth = BasicAuth SystemUserName password ∧ password ≠ "")) ∧
  (∀ scheme rest, schemes = scheme :: rest → ∃ more,
     t ≫= attempt = (scheme ^^ "://" ^^ address,
                     if decide (password = "") then NoAuth else BasicAuth SystemUserName password) :: more) ∧
  match r with
  | inl d => Event (VerifyConnectivity d) None ∈ t
  | inr _ => (∃ target auth cause, Event (NewDriverWithContext target auth) (inr cause) ∈ t) ∨
      ∀ scheme, scheme ∈ schemes → ∃ auth, (scheme ^^ "://" ^^ address, auth) ∈ t ≫= attempt
  end.
Proof.
  revert errs t. induction schemes as [|scheme schemes IH]; intros errs t; cbn [dial_schemes].
  { intros [-> ->]. split; [done|]. split; [by intros ? ? ?%elem_of_nil|]. split; [done|]. right. by intros ? ?%elem_of_nil. }
  intros (t1 & dr & t2 & -> & Hd & Hrun)%returns_bind.
  apply dial_scheme_spec in Hd as (Hset & tried & rest & Ec & Hatt & Hne & Hwhy & Hr).
  set (target := scheme ^^ "://" ^^ address) in *.
  assert (tried ≠ []) as Htried. { apply Hne. unfold dialCredentials. by case_decide. }
  assert (Hfirst : ∃ more, t1 ≫= attempt =
    (target, if decide (password = "") then NoAuth else BasicAuth SystemUserName password) :: more).
  { destruct tried as [|c tried]; [done|]. rewrite Hatt. eexists. cbn. f_equal. f_equal. unfold dialCredentials in Ec.
    case_decide; by simplify_eq/=. }
  assert (Hown : ∀ x auth, (x, auth) ∈ t1 ≫= attempt → x = target ∧
    (auth = NoAuth ∧ (password ≠ "" → login_refused (t1 ++ t2) x (BasicAuth SystemUserName password)) ∨
     auth = BasicAuth SystemUserName password ∧ password ≠ "")).
  { intros x auth Hin. assert (x = target) as ->. { rewrite Hatt in Hin. by apply list_elem_of_fmap in Hin as (c & [= -> _] & _). }
    split; [done|]. rewrite Hatt in Hin. eapply scheme_attempts in Hin; [|exact Ec|done|exact Hwhy].
    destruct Hin as [[-> Hl]|?]; [|by right]. left. split; [done|]. intros ?. eapply login_refused_mono, Hl; [|done].
    by apply list_subseteq_app_l. }
  assert (∃ auth, (target, auth) ∈ t1 ≫= attempt) as [auth1 Hauth1].
  { destruct Hfirst as [more ->]. eexists. left. }
  destruct dr as [d|err|errs'].
  - destruct Hrun as [-> ->]. rewrite app_nil_r in *. split; [done|]. split; [|split; [|done]].
    + intros x auth Hin. exists scheme. split; [left|]. by apply Hown.
    + by intros ? ? [= -> _].
  - destruct Hrun as [-> ->]. rewrite app_nil_r in *. split; [done|]. split; [|split].
    + intros x auth Hin. exists scheme. split; [left|]. by apply Hown.
    + by intros ? ? [= -> _].
    + left. destruct Hr as (auth & cause & Hin). by exists target, auth, cause.
  - apply IH in Hrun as (Hset2 & Hall & _ & Hend). split; [by apply settles_after|]. rewrite bind_app. split; [|split].
    + intros x auth [Hin|Hin]%elem_of_app; [exists scheme; split; [left|by apply Hown]|].
      destruct (Hall x auth Hin) as (s & Hs & -> & Hx). exists s. split; [by right|]. split; [done|].
      destruct Hx as [[-> Hl]|?]; [|by right]. left. split; [done|]. intros ?. eapply login_refused_mono, Hl; [|done].
      by apply list_subseteq_app_r.
    + intros ? ? [= -> _]. destruct Hfirst as [more ->]. by eexists.
    + destruct r as [d|err]; [apply elem_of_app; by right|]. destruct Hend as [(x & auth & cause & Hin)|Hend].
      * left. exists x, auth, cause. apply elem_of_app. by right.
      * right. intros s [->|Hs]%elem_of_cons; [exists auth1; apply elem_of_app; by left|].
        destruct (Hend s Hs) as [auth Ha]. exists auth. apply elem_of_app. by right.
Qed.

(** ** The literals of a SET *)

(** A double-quoted Cypher string literal, after its opening quote, in which the backslash
    escapes itself and the double quote: the text and what follows the closing quote. *)
Fixpoint read_literal (s : string) : option (string * string) :=
  match s with
  | "" => None
  | String c s =>
      if decide (nat_of_ascii c = 34) then Some ("", s)
      else if decide (nat_of_ascii c = 92) then
        match s with
        | String d s =>
            if decide (nat_of_ascii d = 92 ∨ nat_of_ascii d = 34)
            then '(text, rest) ← read_literal s; Some (String d text, rest) else None
        | "" => None
        end
      else '(text, rest) ← read_literal s; Some (String c text, rest)
  end.

(** The name and the value of a SET statement: [prefix], a literal, [TO], a literal. *)
Definition read_set (prefix query : string) : option (string * string) :=
  body ← CutPrefix query (prefix ^^ dquote);
  '(name, rest) ← read_literal body;
  body ← CutPrefix rest (" TO " ^^ dquote);
  '(value, rest) ← read_literal body;
  if decide (rest = "") then Some (name, value) else None.

Lemma read_literal_escape s rest : read_literal (cypher_escape s ^^ dquote ^^ rest) = Some (s, rest).
Proof.
  assert (∀ d t, nat_of_ascii d = 92 ∨ nat_of_ascii d = 34 →
    read_literal (String (ascii_of_nat 92) (String d t)) = '(text, rest) ← read_literal t; Some (String d text, rest)) as Hesc.
  { intros d t Hd. cbn [read_literal]. rewrite decide_False, decide_True by done. by rewrite decide_True. }
  induction s as [|c s IH]; [done|]. cbn [cypher_escape]. rewrite app_assoc_s. case_decide as Hc; [|case_decide as Hc0].
  - etrans; [exact (Hesc (ascii_of_nat 92) _ (or_introl eq_refl))|]. by rewrite IH, <- Hc, ascii_nat_embedding.
  - etrans; [exact (Hesc (ascii_of_nat 34) _ (or_intror eq_refl))|]. by rewrite IH, <- Hc0, ascii_nat_embedding.
  - rewrite app_cons_s, app_nil_l_s. cbn [read_literal]. rewrite !decide_False by done. by rewrite IH.
Qed.

Lemma read_set_literals prefix name value :
  read_set prefix (prefix ^^ cypherString name ^^ " TO " ^^ cypherString value) = Some (name, value).
Proof.
  assert (prefix ^^ cypherString name ^^ " TO " ^^ cypherString value =
    (prefix ^^ dquote) ^^ cypher_escape name ^^ dquote ^^ (" TO " ^^ dquote) ^^ cypher_escape value ^^ dquote ^^ "") as ->.
  { unfold cypherString. by rewrite !app_assoc_s, app_nil_r_s. }
  unfold read_set. rewrite CutPrefix_app. cbn [mbind option_bind]. rewrite read_literal_escape. cbn [mbind option_bind].
  rewrite CutPrefix_app. cbn [mbind option_bind]. by rewrite read_literal_escape.
Qed.

(** ** Properties *)

(** C20: dialling is safe with the password and leaks nothing: whatever the driver answers,
    Connect closes every driver it made but the one it returns, which it verified; the mode the
    spec asks for is dialled first, under the password when the pass has one; an instance is
    only ever offered no credentials under a scheme after it refused the system user's under
    that scheme; the password is only ever offered as the system user's; and Connect fails only
    where a driver could not be made or both schemes were dialled. *)
Theorem dialling_is_safe password address tls t r :
  returns (Connect password address tls) t r →
  settles t match r with inl d => [d] | inr _ => [] end ∧
  (∃ more, t ≫= attempt =
     ((if tls then "bolt+ssc://" else "bolt://") ^^ address,
      if decide (password = "") then NoAuth else BasicAuth "memgraph_internal" password) :: more) ∧
  (∀ target auth, (target, auth) ∈ t ≫= attempt →
     (target = "bolt://" ^^ address ∨ target = "bolt+ssc://" ^^ address) ∧
     (auth = NoAuth ∧ (password ≠ "" → login_refused t target (BasicAuth "memgraph_internal" password)) ∨
      auth = BasicAuth "memgraph_internal" password ∧ password ≠ "")) ∧
  match r with
  | inl d => Event (VerifyConnectivity d) None ∈ t
  | inr _ => (∃ target auth cause, Event (NewDriverWithContext target auth) (inr cause) ∈ t) ∨
      (∃ auth, ("bolt://" ^^ address, auth) ∈ t ≫= attempt) ∧ ∃ auth, ("bolt+ssc://" ^^ address, auth) ∈ t ≫= attempt
  end.
Proof.
  intros (Hset & Hall & Hfirst & Hend)%dial_schemes_spec. split; [done|]. split; [|split].
  - destruct tls; destruct (Hfirst _ _ eq_refl) as [more E]; exists more; exact E.
  - intros target auth (scheme & Hs & -> & Hauth)%Hall. split; [|done].
    unfold dialSchemes in Hs. destruct tls; repeat (apply elem_of_cons in Hs as [->|Hs]; [auto|]); by apply elem_of_nil in Hs.
  - destruct r as [d|err]; [done|]. destruct Hend as [?|Hend]; [by left|right].
    split; [apply (Hend schemePlain)|apply (Hend schemeTLS)]; destruct tls; (left || (right; left)).
Qed.

(** A setting is set as it was asked for: the SET statements carry the name and the value
    as literals that read back as they were, whatever bytes they hold, so no value ends its
    literal early or runs on as Cypher. *)
Theorem settings_read_back name value :
  read_set "SET DATABASE SETTING " (setSettingQuery name value) = Some (name, value) ∧
  read_set "SET COORDINATOR SETTING " (setCoordinatorSettingQuery name value) = Some (name, value).
Proof. split; apply read_set_literals. Qed.

(** ** Witness: an instance that has no system user *)

Module Example.
Definition handle (X : Type) (e : driverCall X) (s : nat) : nat * X :=
  match e in driverCall X return nat * X with
  | NewDriverWithContext _ auth => (S s, inl (if decide (auth = NoAuth) then s else 0))
  | VerifyConnectivity d => (s, if decide (d = 0) then Some (Neo4jError "Memgraph.ClientError.Security.Unauthenticated" "") else None)
  | CloseDriver _ | CloseSession _ => (s, None)
  | NewSession _ => (S s, s)
  | SessionRun _ _ => (s, inl 0)
  | Collect _ => (s, inl [])
  end.
Definition dial := Effects.run handle (Connect "secret" "db-coordinator-0:7687" true) 1.
End Example.

Lemma dialling_is_safe_witness :
  Example.dial.2 = inl 2 ∧ settles Example.dial.1.2 [2] ∧
  login_refused Example.dial.1.2 "bolt+ssc://db-coordinator-0:7687" (BasicAuth "memgraph_internal" "secret").
Proof.
  pose proof (run_returns Example.handle (Connect "secret" "db-coordinator-0:7687" true) 1) as Hrun.
  fold Example.dial in Hrun. destruct (dialling_is_safe _ _ _ _ _ Hrun) as (Hset & _ & Hall & _).
  split; [reflexivity|]. split; [exact Hset|].
  destruct (Hall "bolt+ssc://db-coordinator-0:7687" NoAuth) as [_ [[_ Hl]|[? _]]]; [|by apply Hl|done].
  vm_compute. right; left.
Defined.
