(* ===== verification/World.v ===== *)
(** * Package controller: the effects of a pass

    The calls the reconciler makes on the outside: Bolt connections (memgraph.Connector and
    memgraph.Client), the API server, and the Event recorder. A connection is a handle, the
    text of log lines is not modelled. [opened] and [closed] read the connections off a
    trace, which is how the theorems say none is leaked. *)

From S2P Require Import Prelude GoStrings GoErrors K8s Client Planner Volumes Effects Topology.

(** ** Kubernetes objects, by the fields the controller reads *)

Record PodCondition := mkPodCondition { pcn_Type : string; pcn_Status : string }.

(** A container by its name and its arguments. *)
Record KPod := mkKPod {
  kp_Name : string;
  kp_UID : string;
  kp_Labels : gmap string string;
  kp_Annotations : gmap string string;
  kp_Deleting : bool;
  kp_Conditions : list PodCondition;
  kp_Containers : list (string * list string)
}.

Record KStatefulSet := mkKStatefulSet {
  ks_UID : string;
  ks_Generation : Z;
  ks_SpecReplicas : option Z;
  ks_TemplateAnnotations : gmap string string;
  ks_StatusReplicas : Z;
  ks_ReadyReplicas : Z;
  ks_UpdateRevision : string;
  ks_ObservedGeneration : Z;
  ks_Deleting : bool;
  ks_ClaimTemplates : list (ClaimTemplate Quantity)
}.

(** An entry of a LoadBalancer's status. *)
Record Ingress := mkIngress { ig_Hostname : string; ig_IP : string }.

(** An address of a Gateway's status, whose type may be absent. *)
Record GatewayStatusAddress := mkGatewayStatusAddress { ga_Type : option string; ga_Value : string }.

(** A live Service, Gateway and TCPRoute. *)
Record ServiceView := mkServiceView { vs_Annotations : gmap string string; vs_Ingress : list Ingress }.
Record GatewayView := mkGatewayView {
  vg_Annotations : gmap string string;
  vg_Addresses : list GatewayStatusAddress
}.
Record TCPRouteView := mkTCPRouteView { vt_Annotations : gmap string string }.

(** A listed object, and whether the cluster of the pass is its controller. *)
Record ListedObject := mkListedObject { lo_Name : string; lo_UID : string; lo_Controlled : bool }.

(** ** Effects *)

Abbreviation conn := nat.

Inductive EventType := Normal | Warning.

#[export] Instance EventType_eq_dec : EqDecision EventType.
Proof. solve_decision. Defined.

(** The related object of an Event: what the recorder needs of it is its kind and name. *)
Inductive Related :=
| PodRef (name : string) | StatefulSetRef (name : string) | ClaimRef (name : string) | SecretRef (name : string)
| NoRef.

Record KEvent := mkKEvent {
  kv_Type : EventType;
  kv_Related : Related;
  kv_Reason : string;
  kv_Action : string;
  kv_Note : string
}.

Inductive eff : Type → Type :=
| EConnect (address : string) (tls : bool) : eff (conn + error)
| EClose (c : conn) : eff (option error)
| EShowInstances (c : conn) : eff (list Instance + error)
| EShowReplicationLag (c : conn) : eff (list ReplicationLag + error)
| ERun (c : conn) (command : Command) : eff (option error)
| EShowSettings (c : conn) : eff (gmap string string + error)
| ESetSetting (c : conn) (name value : string) : eff (option error)
| EShowConfig (c : conn) : eff (gmap string string + error)
| EShowCoordinatorSettings (c : conn) : eff (gmap string string + error)
| ESetCoordinatorSetting (c : conn) (name value : string) : eff (option error)
| EGetSecret (namespace name : string) : eff (gmap string string + error)
| EGetStatefulSet (namespace name : string) : eff (KStatefulSet + error)
| EListPods (namespace : string) (selector : gmap string string) : eff (list KPod + error)
| ESetControllerReference (name : string) : eff (option error)
| EApplyStatefulSet (name : string) (replicas : Z) (claims : list (ClaimTemplate Quantity))
    : eff ((string * Z) + error)
| EApply (kind name : string) : eff ((string * Z) + error)
| EListObjects (kind namespace : string) (selector : gmap string string) : eff (list ListedObject + error)
| EDeleteObject (kind namespace name uid : string) : eff (option error)
| EListClaims (namespace : string) (selector : gmap string string)
    : eff (list (PersistentVolumeClaim Quantity) + error)
| EPatchClaim (claim : PersistentVolumeClaim Quantity) (size : Quantity) : eff (option error)
| EOrphanStatefulSet (namespace name uid : string) : eff (option error)
| EGetService (namespace name : string) : eff (ServiceView + error)
| EGetGateway (namespace name : string) : eff (GatewayView + error)
| EGetTCPRoute (namespace name : string) : eff (TCPRouteView + error)
| EDeletePod (namespace name uid : string) : eff (option error)
| ERandom (bytes : nat) : eff (string + error)
| EBcrypt (password : string) : eff (string + error)
| ECreateSecret (name : string) (data : gmap string string) : eff (option error)
| EApplySecret (name : string) (data : gmap string string) : eff ((string * Z) + error)
| EPatchStatus : eff (option error)
| EEvent (e : KEvent) : eff unit.

(** An environment where nothing exists, nothing answers and nothing is refused: the
    default the examples override. *)
Definition idle (X : Type) (e : eff X) : X :=
  match e in eff X return X with
  | EConnect _ _ => inr (New "")
  | EClose _ => None
  | EShowInstances _ => inl []
  | EShowReplicationLag _ => inl []
  | ERun _ _ => None
  | EShowSettings _ => inl ∅
  | ESetSetting _ _ _ => None
  | EShowConfig _ => inl ∅
  | EShowCoordinatorSettings _ => inl ∅
  | ESetCoordinatorSetting _ _ _ => None
  | EGetSecret _ _ => inl ∅
  | EGetStatefulSet _ _ => inr (New "")
  | EListPods _ _ => inl []
  | ESetControllerReference _ => None
  | EApplyStatefulSet _ _ _ => inl ("", 0%Z)
  | EApply _ _ => inl ("", 0%Z)
  | EListObjects _ _ _ => inl []
  | EDeleteObject _ _ _ _ => None
  | EListClaims _ _ => inl []
  | EPatchClaim _ _ => None
  | EOrphanStatefulSet _ _ _ => None
  | EGetService _ name => inr (StatusError NotFound name)
  | EGetGateway _ name => inr (StatusError NotFound name)
  | EGetTCPRoute _ name => inr (StatusError NotFound name)
  | EDeletePod _ _ _ => None
  | ERandom _ => inl ""
  | EBcrypt _ => inl ""
  | ECreateSecret _ _ => None
  | EApplySecret _ _ => inl ("", 0%Z)
  | EPatchStatus => None
  | EEvent _ => tt
  end.

(** ** Connections of a trace *)

Definition opens (e : event eff) : list conn :=
  match e with
  | Event (EConnect _ _) (inl c) => [c]
  | _ => []
  end.
Definition closes (e : event eff) : list conn :=
  match e with
  | Event (EClose c) _ => [c]
  | _ => []
  end.
Definition opened (t : list (event eff)) : list conn := t ≫= opens.
Definition closed (t : list (event eff)) : list conn := t ≫= closes.

Lemma opened_cons e t : opened (e :: t) = opens e ++ opened t.
Proof. done. Qed.
Lemma closed_cons e t : closed (e :: t) = closes e ++ closed t.
Proof. done. Qed.
Lemma opened_app t u : opened (t ++ u) = opened t ++ opened u.
Proof. apply bind_app. Qed.
Lemma closed_app t u : closed (t ++ u) = closed t ++ closed u.
Proof. apply bind_app. Qed.

(** No connection of the trace is left open but those of [kept]. *)
Definition leaves_open (t : list (event eff)) (kept : list conn) : Prop := opened t ≡ₚ closed t ++ kept.

Lemma leaves_open_app t u k l :
  leaves_open t k → leaves_open u l → leaves_open (t ++ u) (k ++ l).
Proof.
  unfold leaves_open. rewrite opened_app, closed_app. intros -> ->.
  rewrite <- !app_assoc. apply Permutation_app_head. rewrite !app_assoc. apply Permutation_app_tail.
  apply Permutation_app_comm.
Qed.

Lemma leaves_open_after t u k : leaves_open t [] → leaves_open u k → leaves_open (t ++ u) k.
Proof. apply (leaves_open_app t u [] k). Qed.

(** A connection closed after the trace. *)
Lemma leaves_open_close t c (r : option error) u k :
  leaves_open t [c] → leaves_open u k → leaves_open (t ++ Event (EClose c) r :: u) k.
Proof.
  intros Ht Hu. unfold leaves_open in *. rewrite opened_app, closed_app, opened_cons, closed_cons, Ht, Hu.
  cbn [opens closes app]. rewrite <- !app_assoc. done.
Qed.

(** An event that neither opens nor closes a connection. *)
Lemma leaves_open_skip e t k :
  opens e = [] → closes e = [] → leaves_open t k → leaves_open (e :: t) k.
Proof. intros Ho Hc Ht. unfold leaves_open. by rewrite opened_cons, closed_cons, Ho, Hc. Qed.

(** A trace written out. *)
Ltac connections := unfold leaves_open; cbn; reflexivity.

Lemma leaves_open_nil : leaves_open [] [].
Proof. connections. Qed.

(** A connection opened, used and closed. *)
Lemma leaves_open_session address tls c t (r : option error) :
  leaves_open t [] → leaves_open (Event (EConnect address tls) (inl c) :: t ++ [Event (EClose c) r]) [].
Proof.
  intros Ht. unfold leaves_open in *. rewrite opened_cons, closed_cons, opened_app, closed_app, Ht.
  cbn. rewrite !app_nil_r. by rewrite Permutation_cons_append.
Qed.

(** ** What a pass does to the cluster *)

(** The effects that change the Memgraph cluster or the objects it is made of. *)
Inductive mutation :=
| MCommand (command : Command)
| MApply (statefulSet : string) (replicas : Z)
| MDelete (pod uid : string)
| MApplyObject (kind name : string)
| MDeleteObject (kind name uid : string)
| MGrow (claim : string) (size : Quantity)
| MOrphan (statefulSet uid : string).

Definition mutation_of (e : event eff) : list mutation :=
  match e with
  | Event (ERun _ command) _ => [MCommand command]
  | Event (EApplyStatefulSet name replicas _) _ => [MApply name replicas]
  | Event (EDeletePod _ pod uid) _ => [MDelete pod uid]
  | Event (EApply kind name) _ => [MApplyObject kind name]
  | Event (ECreateSecret name _) _ => [MApplyObject "Secret" name]
  | Event (EApplySecret name _) _ => [MApplyObject "Secret" name]
  | Event (EDeleteObject kind _ name uid) _ => [MDeleteObject kind name uid]
  | Event (EPatchClaim claim size) _ => [MGrow (pv_Name claim) size]
  | Event (EOrphanStatefulSet _ name uid) _ => [MOrphan name uid]
  | _ => []
  end.
Definition mutations (t : list (event eff)) : list mutation := t ≫= mutation_of.

Lemma mutations_app t u : mutations (t ++ u) = mutations t ++ mutations u.
Proof. apply bind_app. Qed.
Lemma mutations_cons e t : mutations (e :: t) = mutation_of e ++ mutations t.
Proof. done. Qed.

(** An effect that is none of them. *)
Definition quiet (X : Type) (e : eff X) : Prop :=
  match e with
  | ERun _ _ | EApplyStatefulSet _ _ _ | EDeletePod _ _ _ | EApply _ _ | ECreateSecret _ _ | EApplySecret _ _
  | EDeleteObject _ _ _ _ | EPatchClaim _ _ | EOrphanStatefulSet _ _ _ => False
  | _ => True
  end.

#[export] Hint Extern 0 (quiet _ _) => exact I : effects.

Lemma quiet_mutations {A} (p : prog eff A) t a : all_effects quiet p → returns p t a → mutations t = [].
Proof.
  intros Hp Hr. pose proof (all_effects_returns quiet p t a Hp Hr) as Hq. clear Hp Hr. unfold mutations.
  induction t as [|[X e x] t IH]; [done|]. cbn. rewrite IH.
  - specialize (Hq X e x). destruct e; try done; by destruct Hq; left.
  - intros Y f y Hin. apply (Hq Y f y). by right.
Qed.

(** An effect that neither opens nor closes a connection. *)
Definition unconnected (X : Type) (e : eff X) : Prop :=
  match e with
  | EConnect _ _ | EClose _ => False
  | _ => True
  end.

#[export] Hint Extern 0 (unconnected _ _) => exact I : effects.

Lemma unconnected_leaves {A} (p : prog eff A) t a : all_effects unconnected p → returns p t a → leaves_open t [].
Proof.
  intros Hp Hr. pose proof (all_effects_returns unconnected p t a Hp Hr) as Hq. clear Hp Hr.
  induction t as [|[X e x] t IH]; [apply leaves_open_nil|]. specialize (Hq X e x) as He.
  apply leaves_open_skip; [destruct e; try done; by destruct He; left..|].
  apply IH. intros Y f y Hin. apply (Hq Y f y). by right.
Qed.
