(* ===== verification/Exposure.v ===== *)
(** * Package resources: external access

    internal/resources/external.go and gateway.go: the Services in front of the coordinators
    and of each data instance, the Gateway and its TCPRoutes, and the address clients reach a
    member at, read off the live objects. [groupVersion] is the Gateway API's. The theorems
    say that a Gateway's listeners, routes and Services fit together and keep their ports. *)

From S2P Require Import Prelude GoStrings GoErrors K8s Api Client Volumes Planner Resources Topology Effects World.

(** ** Names and labels *)

Definition ExternalAccessLabel : string := "memgraph.com/external-access".
Definition ExternalAccessValue : string := "true".
Definition externalSuffix : string := "-external".
Definition gatewayComponent : string := "gateway".
Definition coordinatorsListener : string := "coordinators-bolt".

Definition ExternalServicesSelector (name : string) : gmap string string :=
  {[ instanceLabel := name; ExternalAccessLabel := ExternalAccessValue ]}.

Definition CoordinatorExternalServiceName (name : string) : string := CoordinatorName name ^^ externalSuffix.
Definition DataExternalServiceName (name : string) (ordinal : Z) : string :=
  DataName name ^^ "-" ^^ Itoa ordinal ^^ externalSuffix.

Definition GatewayName (name : string) : string := name ^^ "-" ^^ gatewayComponent.
Definition CoordinatorTCPRouteName (name : string) : string := CoordinatorName name ^^ "-bolt".
Definition DataTCPRouteName (name : string) (ordinal : Z) : string :=
  DataName name ^^ "-" ^^ Itoa ordinal ^^ "-bolt".

(** [fmt.Sprintf(dataListenerFormat, ordinal)]. *)
Definition dataListenerFormat (ordinal : Z) : string := "data-" ^^ Itoa ordinal ^^ "-bolt".

Definition externalLabels (name component : string) (custom : gmap string string) : gmap string string :=
  <[ExternalAccessLabel := ExternalAccessValue]> (labels name component custom).

Definition perInstanceAnnotations (annotations : gmap string string) (ordinal : Z) : gmap string string :=
  (λ value, ReplaceString value OrdinalPlaceholder (Itoa ordinal)) <$> annotations.

(** A nil map and an empty one are the same here. *)
Definition emptyToNil (annotations : gmap string string) : gmap string string := annotations.

(** ** Gateway API objects *)

Record Listener := mkListener {
  li_Name : string;
  li_Port : Z;
  li_Protocol : string;
  li_AllowedKinds : list (string * string)
}.

Record GatewayObject := mkGateway {
  gt_Meta : KMeta;
  gt_GatewayClassName : string;
  gt_Listeners : list Listener
}.

Record TCPRouteObject := mkTCPRoute {
  tr_Meta : KMeta;
  tr_Gateway : string;
  tr_SectionName : string;
  tr_Backend : string;
  tr_BackendPort : Z
}.

Section objects.
Context `{Kube} {L : Type}.
Implicit Types (cluster : MemgraphDBCluster L) (spec : normalizedSpec).

(** ** The external Services *)

Definition serviceAnnotations spec (annotations : gmap string string) : gmap string string :=
  if decide (nex_typ (n_external spec) = ExternalAccessGateway) then ∅ else annotations.

Definition externalService cluster (component name : string) (selector : gmap string string) spec
    (role : normalizedRole) (external : normalizedExternalRole) (annotations : gmap string string) : KService :=
  let custom := ner_labels external ∪ nro_serviceLabels role in
  mkKService
    (mkKMeta name (m_Namespace (Meta cluster)) (externalLabels (m_Name (Meta cluster)) component custom) annotations)
    (if decide (nex_typ (n_external spec) = ExternalAccessGateway) then ServiceTypeClusterIP else ServiceTypeLoadBalancer)
    "" selector false [(boltPortName, BoltPort)].

Definition CoordinatorExternalService cluster : KService :=
  let spec := normalize (Spec cluster) in
  let name := m_Name (Meta cluster) in
  externalService cluster coordinatorComponent (CoordinatorExternalServiceName name)
    (selectorLabels name coordinatorComponent) spec (n_coordinatorRole spec) (nex_coordinators (n_external spec))
    (serviceAnnotations spec (ner_annotations (nex_coordinators (n_external spec)))).

Definition DataExternalService cluster (ordinal : Z) : KService :=
  let spec := normalize (Spec cluster) in
  let name := m_Name (Meta cluster) in
  externalService cluster dataComponent (DataExternalServiceName name ordinal)
    (<[StatefulSetPodNameLabel := PodName (DataName name) ordinal]> (selectorLabels name dataComponent))
    spec (n_dataRole spec) (nex_data (n_external spec))
    (serviceAnnotations spec (perInstanceAnnotations (ner_annotations (nex_data (n_external spec))) ordinal)).

Definition ExternalServices cluster (dataReplicas : Z) : list KService :=
  match sp_ExternalAccess (Spec cluster) with
  | None => []
  | Some _ => CoordinatorExternalService cluster :: (DataExternalService cluster <$> ordinals dataReplicas)
  end.

(** ** The Gateway *)

Definition UsesGateway cluster : bool :=
  match sp_ExternalAccess (Spec cluster) with
  | None => false
  | Some _ => bool_decide (nex_typ (n_external (normalize (Spec cluster))) = ExternalAccessGateway)
  end.

(** The sum of the int32 base and the ordinal. *)
Definition DataGatewayPort cluster (ordinal : Z) : Z :=
  wrap32 (ngw_dataPortBase (nex_gateway (n_external (normalize (Spec cluster)))) + ordinal).

Definition listener (name : string) (port : Z) : Listener :=
  mkListener name port "TCP" [("gateway.networking.k8s.io", "TCPRoute")].

Definition Gateway cluster (dataReplicas : Z) : GatewayObject :=
  let gateway := nex_gateway (n_external (normalize (Spec cluster))) in
  mkGateway
    (mkKMeta (GatewayName (m_Name (Meta cluster))) (m_Namespace (Meta cluster))
       (externalLabels (m_Name (Meta cluster)) gatewayComponent (ngw_labels gateway))
       (emptyToNil (ngw_annotations gateway)))
    (ngw_className gateway)
    (listener coordinatorsListener BoltPort ::
     ((λ ordinal, listener (dataListenerFormat ordinal) (wrap32 (ngw_dataPortBase gateway + ordinal)))
        <$> ordinals dataReplicas)).

Definition tcpRoute cluster (component name listener backend : string) (external : normalizedExternalRole)
    (annotations : gmap string string) : TCPRouteObject :=
  mkTCPRoute
    (mkKMeta name (m_Namespace (Meta cluster))
       (externalLabels (m_Name (Meta cluster)) component (ner_labels external)) annotations)
    (GatewayName (m_Name (Meta cluster))) listener backend BoltPort.

Definition CoordinatorTCPRoute cluster : TCPRouteObject :=
  let external := nex_coordinators (n_external (normalize (Spec cluster))) in
  let name := m_Name (Meta cluster) in
  tcpRoute cluster coordinatorComponent (CoordinatorTCPRouteName name) coordinatorsListener
    (CoordinatorExternalServiceName name) external (ner_annotations external).

Definition DataTCPRoute cluster (ordinal : Z) : TCPRouteObject :=
  let external := nex_data (n_external (normalize (Spec cluster))) in
  let name := m_Name (Meta cluster) in
  tcpRoute cluster dataComponent (DataTCPRouteName name ordinal) (dataListenerFormat ordinal)
    (DataExternalServiceName name ordinal) external (perInstanceAnnotations (ner_annotations external) ordinal).

Definition TCPRoutes cluster (dataReplicas : Z) : list TCPRouteObject :=
  CoordinatorTCPRoute cluster :: (DataTCPRoute cluster <$> ordinals dataReplicas).
End objects.

(** ** Addresses, read off live objects *)

Definition externalDNSHost (annotations : gmap string string) : string :=
  let hostnames := annotations !!? ExternalDNSHostnameAnnotation | "" in
  TrimSpace (match Cut hostnames "," with Some (hostname, _) => hostname | None => hostnames end).

(** The first non-empty value of a list of candidates. *)
Definition first_value (values : list string) : string :=
  default "" (List.find (λ v, negb (bool_decide (v = ""))) values).

Definition loadBalancerHost (ingress : list Ingress) : string :=
  let hostname := first_value (ig_Hostname <$> ingress) in
  if decide (hostname = "") then first_value (ig_IP <$> ingress) else hostname.

Definition ExternalBoltAddress (service : ServiceView) : string :=
  let host := externalDNSHost (vs_Annotations service) in
  let host := if decide (host = "") then loadBalancerHost (vs_Ingress service) else host in
  if decide (host = "") then "" else hostPort host BoltPort.

Definition HostnameAddressType : string := "Hostname".
Definition IPAddressType : string := "IPAddress".

Definition gatewayHost (addresses : list GatewayStatusAddress) : string :=
  let hostname := first_value (ga_Value <$> List.filter (λ a, bool_decide (ga_Type a = Some HostnameAddressType)) addresses) in
  if decide (hostname = "")
  then first_value (ga_Value <$> List.filter (λ a, bool_decide (ga_Type a = None ∨ ga_Type a = Some IPAddressType)) addresses)
  else hostname.

Definition GatewayBoltAddress (gateway : option GatewayView) (route : option TCPRouteView) (port : Z) : string :=
  let host := match route with Some route => externalDNSHost (vt_Annotations route) | None => "" end in
  let host := if decide (host = "") then match gateway with Some g => externalDNSHost (vg_Annotations g) | None => "" end
              else host in
  let host := if decide (host = "") then match gateway with Some g => gatewayHost (vg_Addresses g) | None => "" end
              else host in
  if decide (host = "") then "" else hostPort host port.

(** ** Lemmas *)

Lemma dataListenerFormat_inj x y : dataListenerFormat x = dataListenerFormat y → x = y.
Proof. unfold dataListenerFormat. intros E%app_inj_l_s%app_inj_r_s. by apply Itoa_inj. Qed.

Lemma dataListener_ne x : dataListenerFormat x ≠ coordinatorsListener.
Proof. unfold dataListenerFormat, coordinatorsListener. by rewrite app_cons_s. Qed.

Lemma elem_of_ordinals n o : o ∈ ordinals n ↔ (0 ≤ o < n)%Z.
Proof. unfold ordinals. rewrite elem_of_seqZ. lia. Qed.

(** What admission holds of the gateway block: the base lies above the coordinators' port,
    and the listeners of the declared data instances within the valid ports. *)
Definition admitted_gateway `{Kube} {L} (cluster : MemgraphDBCluster L) : Prop :=
  let base := ngw_dataPortBase (nex_gateway (n_external (normalize (Spec cluster)))) in
  (BoltPort < base ≤ 65535)%Z ∧ (base + DeclaredDataInstances cluster ≤ 65536)%Z.

Definition valid_port (port : Z) : Prop := (1 ≤ port ≤ 65535)%Z.

Section gateway_lemmas.
Context `{Kube} {L : Type}.
Implicit Types (cluster : MemgraphDBCluster L).

Definition portBase cluster : Z := ngw_dataPortBase (nex_gateway (n_external (normalize (Spec cluster)))).

Lemma listener_ports cluster n :
  li_Port <$> gt_Listeners (Gateway cluster n) = BoltPort :: (DataGatewayPort cluster <$> ordinals n).
Proof. cbn [Gateway gt_Listeners fmap list_fmap li_Port listener]. f_equal. by rewrite <- list_fmap_compose. Qed.

Lemma listener_names cluster n :
  li_Name <$> gt_Listeners (Gateway cluster n) = coordinatorsListener :: (dataListenerFormat <$> ordinals n).
Proof. cbn [Gateway gt_Listeners fmap list_fmap li_Name listener]. f_equal. by rewrite <- list_fmap_compose. Qed.

Lemma listener_names_NoDup cluster n : NoDup (li_Name <$> gt_Listeners (Gateway cluster n)).
Proof.
  rewrite listener_names. apply NoDup_cons. split.
  - intros (o & E & _)%list_elem_of_fmap. by apply symmetry, dataListener_ne in E.
  - apply NoDup_fmap_2; [intros ??; apply dataListenerFormat_inj|apply NoDup_seqZ].
Qed.

Lemma DataGatewayPort_small cluster o :
  (0 ≤ portBase cluster)%Z → (0 ≤ o)%Z → (portBase cluster + o < 2 ^ 31)%Z → DataGatewayPort cluster o = (portBase cluster + o)%Z.
Proof. intros. apply wrap32_id. unfold is_int32. fold (portBase cluster). lia. Qed.
End gateway_lemmas.

(** ** Properties *)

(** The ports of a Gateway whose block admission holds to its rules, by the number of data
    pods running. *)
Lemma gateway_ports_of `{Kube} {L} (cluster : MemgraphDBCluster L) dataReplicas :
  admitted_gateway cluster → (0 ≤ dataReplicas)%Z → is_int32 dataReplicas →
  let listeners := gt_Listeners (Gateway cluster dataReplicas) in
  (Forall valid_port (li_Port <$> listeners) ↔ (portBase cluster + dataReplicas ≤ 65536)%Z) ∧
  ((portBase cluster + dataReplicas ≤ 65536)%Z →
     NoDup (li_Port <$> listeners) ∧
     ∀ ordinal, ordinal ∈ ordinals dataReplicas → DataGatewayPort cluster ordinal = (portBase cluster + ordinal)%Z) ∧
  NoDup (li_Name <$> listeners) ∧
  ((dataReplicas ≤ DeclaredDataInstances cluster)%Z → Forall valid_port (li_Port <$> listeners)).
Proof.
  intros [Hbase Hdeclared] Hn Hi listeners. fold (portBase cluster) in Hbase, Hdeclared. unfold listeners.
  rewrite listener_ports.
  assert (∀ o, (0 ≤ o)%Z → (portBase cluster + o < 2 ^ 31)%Z → DataGatewayPort cluster o = (portBase cluster + o)%Z) as Hp.
  { intros o ??. apply DataGatewayPort_small; unfold BoltPort in *; lia. }
  assert ((portBase cluster + dataReplicas ≤ 65536)%Z → Forall valid_port (BoltPort :: (DataGatewayPort cluster <$> ordinals dataReplicas))) as Hv.
  { intros Hle. constructor; [unfold valid_port, BoltPort; lia|]. apply Forall_forall.
    intros p (o & -> & Ho%elem_of_ordinals)%list_elem_of_fmap. unfold BoltPort in *.
    rewrite Hp by lia. unfold valid_port. lia. }
  split; [split; [|exact Hv]|split; [|split; [apply listener_names_NoDup|intros; apply Hv; lia]]].
  - intros Hall. apply Z.nlt_ge. intros Hlt. apply Forall_cons in Hall as [_ Hall]. rewrite Forall_forall in Hall.
    specialize (Hall (DataGatewayPort cluster (65536 - portBase cluster))).
    rewrite Hp in Hall by (unfold BoltPort in *; lia). unfold valid_port in Hall.
    enough (1 ≤ portBase cluster + (65536 - portBase cluster) ≤ 65535)%Z by lia. apply Hall.
    apply list_elem_of_fmap. exists (65536 - portBase cluster)%Z. rewrite Hp by (unfold BoltPort in *; lia).
    split; [done|]. apply elem_of_ordinals. lia.
  - intros Hle. split; [|intros o Ho%elem_of_ordinals; apply Hp; lia]. apply NoDup_cons. split.
    + intros (o & E & Ho%elem_of_ordinals)%list_elem_of_fmap. rewrite Hp in E by lia. lia.
    + apply NoDup_fmap_2_strong; [|apply NoDup_seqZ]. intros x y Hx%elem_of_ordinals Hy%elem_of_ordinals E.
      rewrite !Hp in E by lia. lia.
Qed.

(** The labels the StatefulSet controller leaves on the data pod of an ordinal: those of the
    template, whatever the spec adds to them, and the pod's name. *)
Definition dataPodLabels (name : string) (custom : gmap string string) (ordinal : Z) : gmap string string :=
  <[StatefulSetPodNameLabel := PodName (DataName name) ordinal]> (labels name dataComponent custom).

Lemma dataSelector_pod name custom ordinal ordinal' :
  <[StatefulSetPodNameLabel := PodName (DataName name) ordinal]> (selectorLabels name dataComponent)
    ⊆ dataPodLabels name custom ordinal' ↔ ordinal = ordinal'.
Proof.
  unfold dataPodLabels. split.
  - intros Hs. pose proof (lookup_weaken _ _ StatefulSetPodNameLabel (PodName (DataName name) ordinal)
      (lookup_insert_eq _ _ _) Hs) as Hl.
    rewrite lookup_insert_eq in Hl. injection Hl as Hl. symmetry. by eapply PodName_inj.
  - intros ->. apply insert_mono. by apply labels_identity.
Qed.

(** The external objects of a Gateway fit together: every TCPRoute attaches to a
    listener its own Gateway has, no two routes to one, and sends to the bolt port of a
    Service built beside it; the listener of a data instance is on the port it is announced
    at, and its Service selects that instance's pod and no other. *)
Theorem routes_meet_services `{Kube} {L} (cluster : MemgraphDBCluster L) dataReplicas :
  UsesGateway cluster = true →
  let gateway := Gateway cluster dataReplicas in
  let routes := TCPRoutes cluster dataReplicas in
  NoDup (tr_SectionName <$> routes) ∧
  (∀ route, route ∈ routes → tr_Gateway route = km_Name (gt_Meta gateway) ∧
     (∃ l, l ∈ gt_Listeners gateway ∧ li_Name l = tr_SectionName route) ∧
     ∃ service, service ∈ ExternalServices cluster dataReplicas ∧ km_Name (sv_Meta service) = tr_Backend route ∧
       (boltPortName, tr_BackendPort route) ∈ sv_Ports service) ∧
  ∀ ordinal, ordinal ∈ ordinals dataReplicas →
    let route := DataTCPRoute cluster ordinal in
    listener (tr_SectionName route) (DataGatewayPort cluster ordinal) ∈ gt_Listeners gateway ∧
    tr_Backend route = km_Name (sv_Meta (DataExternalService cluster ordinal)) ∧
    ∀ custom pod, sv_Selector (DataExternalService cluster ordinal)
      ⊆ dataPodLabels (m_Name (Meta cluster)) custom pod ↔ ordinal = pod.
Proof.
  intros Huse gateway routes. unfold gateway, routes.
  assert (∃ e, sp_ExternalAccess (Spec cluster) = Some e) as [e He].
  { unfold UsesGateway in Huse. destruct (sp_ExternalAccess _); [eauto|done]. }
  assert (tr_SectionName <$> TCPRoutes cluster dataReplicas = li_Name <$> gt_Listeners (Gateway cluster dataReplicas)) as Hs.
  { rewrite listener_names. unfold TCPRoutes. cbn [fmap list_fmap CoordinatorTCPRoute tcpRoute tr_SectionName].
    f_equal. by rewrite <- list_fmap_compose. }
  split; [rewrite Hs; apply listener_names_NoDup|]. split.
  - intros route Hr. split; [|split].
    + apply elem_of_cons in Hr as [->|(o & -> & _)%list_elem_of_fmap]; done.
    + apply (list_elem_of_fmap_2 tr_SectionName) in Hr. rewrite Hs in Hr.
      apply list_elem_of_fmap in Hr as (l & -> & Hl). by exists l.
    + unfold ExternalServices. rewrite He. apply elem_of_cons in Hr as [->|(o & -> & Ho)%list_elem_of_fmap].
      * exists (CoordinatorExternalService cluster). split; [left|]. split; [done|]. left.
      * exists (DataExternalService cluster o). split; [right; by apply list_elem_of_fmap_2|]. split; [done|]. left.
  - intros o Ho. cbn zeta. split; [|split; [done|]].
    + right. apply list_elem_of_fmap. by exists o.
    + intros custom pod. apply dataSelector_pod.
Qed.

(** ** Witnesses *)

#[local] Existing Instance Api.Example.kube_text.

Module Example.
Definition block (base : Z) : ExternalAccessSpec :=
  mkExternalAccessSpec ExternalAccessGateway (mkExternalAccessRoleSpec ∅ ∅) (mkExternalAccessRoleSpec ∅ ∅)
    (mkExternalAccessGatewaySpec "envoy" (Some base) ∅ ∅).
Definition cluster (base : Z) : MemgraphDBCluster (gmap string Condition) :=
  let c := Api.Example.cluster (Some 3%Z) (Some 2%Z) in
  let s := Spec c in
  mkCluster (Meta c)
    (mkSpec (sp_Coordinators s) (sp_DataInstances s) (sp_Image s) (sp_Secrets s) None (sp_Storage s) (sp_CoreDumps s)
       None None None "" (sp_ReadinessProbe s) (sp_Resources s) (sp_Labels s) (sp_Scheduling s) (sp_ExtraEnv s)
       (sp_Flags s) (sp_ExtraVolumes s) (sp_ExtraVolumeMounts s) (sp_UserContainers s) (sp_InitContainers s)
       (Some (block base)) None None None)
    (Status_ c).
End Example.

Lemma routes_meet_services_witness :
  NoDup (tr_SectionName <$> TCPRoutes (Example.cluster 9000) 2) ∧
  li_Port <$> gt_Listeners (Gateway (Example.cluster 9000) 2) = [7687; 9000; 9001]%Z.
Proof.
  split; [|vm_compute; reflexivity]. exact (proj1 (routes_meet_services (Example.cluster 9000) 2 eq_refl)).
Defined.
