(* ===== verification/Apply.v ===== *)
(** * Package controller: applying and pruning the desired objects

    applyDesired, which server-side-applies what the builders describe and reports a refusal
    on the resource, and keptNames and pruneKind, which delete what the spec no longer
    describes. A desired object is named by its kind and name; the builders' output for it
    is a function of the cluster (Workloads.v, Exposure.v, Monitoring.v), except for what the
    pass decides: a StatefulSet's replica count and claim templates, and a Secret's data. *)

From S2P Require Import Prelude GoStrings GoErrors K8s Api Client Planner Volumes Effects.
From S2P Require Import Resources Topology Expectations Status World.

(** ** Definitions *)

Inductive desired :=
| DStatefulSet (name : string) (replicas : Z) (claims : list (ClaimTemplate Quantity))
| DSecret (name : string) (data : gmap string string)
| DObject (kind name : string).

Definition desired_kind (d : desired) : string :=
  match d with
  | DStatefulSet _ _ _ => "StatefulSet"
  | DSecret _ _ => "Secret"
  | DObject kind _ => kind
  end.
Definition desired_name (d : desired) : string :=
  match d with DStatefulSet name _ _ | DSecret name _ | DObject _ name => name end.

Definition appliedKey (d : desired) : string := desired_kind d ^^ "/" ^^ desired_name d.

(** [appliedObjects]: the UID and generation of each object the pass applied, by kind and
    name. *)
Abbreviation appliedObjects := (gmap string (string * Z)).
Definition statefulSet (applied : appliedObjects) (name : string) : string * Z :=
  applied !!? ("StatefulSet/" ^^ name) | ("", 0%Z).

(** What a pass mutates. *)
Record passState (L : Type) := mkPassState {
  ps_status : MemgraphDBClusterStatus L;
  ps_shrinks : StatefulSets
}.
Arguments mkPassState {L}.
Arguments ps_status {L}.
Arguments ps_shrinks {L}.

(** [r.apply]: a desired object as the API server returns it. *)
Definition apply (d : desired) : eff ((string * Z) + error) :=
  match d with
  | DStatefulSet name replicas claims => EApplyStatefulSet name replicas claims
  | DSecret name data => EApplySecret name data
  | DObject kind name => EApply kind name
  end.

(** The [%T] of a desired object: its Go type is [*v1.] and its kind. *)
Definition described (d : desired) : string := "*v1." ^^ desired_kind d ^^ " " ^^ desired_name d.

Section applyDesired.
Context {L : Type} `{ConditionsAPI L} (generation : Z).

(** [setStatus] on the cluster of the pass. *)
Definition set_status_at (st : passState L) (observed : observation) (conditions : list Condition) : passState L :=
  mkPassState (setStatus generation (ps_status st) observed conditions) (ps_shrinks st).

(** The loop of [applyDesired]. *)
Fixpoint apply_loop (desired : list desired) (applied : appliedObjects) (st : passState L)
    : prog eff (passState L * (appliedObjects + error)) :=
  match desired with
  | [] => mret (st, inl applied)
  | obj :: desired =>
      r ← trigger (ESetControllerReference (desired_name obj));
      match r with
      | Some err => mret (st, inr (wrap ("setting owner reference on " ^^ described obj) err))
      | None =>
          r ← trigger (apply obj);
          match r with
          | inl written => apply_loop desired (<[appliedKey obj := written]> applied) st
          | inr err =>
              let applyErr := wrap ("applying " ^^ described obj) err in
              let msg := truncateMessage (Error applyErr) in
              mret (set_status_at st (lastObserved (ps_status st))
                      [notServingCondition ReasonApplyFailed msg; notConvergedCondition ReasonApplyFailed msg],
                    inr applyErr)
          end
      end
  end.

Definition applyDesired (desired : list desired) (st : passState L)
    : prog eff (passState L * (appliedObjects + error)) := apply_loop desired ∅ st.
End applyDesired.

Definition keptNames (desired : list desired) : gset string := list_to_set (appliedKey <$> desired).

(** The loop of [pruneKind] over the listed objects. *)
Fixpoint prune_loop (kind namespace : string) (keep : gset string) (items : list ListedObject)
    : prog eff (option error) :=
  match items with
  | [] => mret None
  | obj :: items =>
      if bool_decide (kind ^^ "/" ^^ lo_Name obj ∈ keep) || negb (lo_Controlled obj)
      then prune_loop kind namespace keep items
      else
        r ← trigger (EDeleteObject kind namespace (lo_Name obj) (lo_UID obj));
        match r with
        | None => prune_loop kind namespace keep items
        | Some err =>
            if IsNotFound err || IsConflict err then prune_loop kind namespace keep items
            else mret (Some (wrap ("deleting " ^^ kind ^^ " " ^^ lo_Name obj) err))
        end
  end.

Definition pruneKind (namespace : string) (selector : gmap string string) (keep : gset string) (kind : string)
    : prog eff (option error) :=
  r ← trigger (EListObjects kind namespace selector);
  match r with
  | inr err => mret (Some (wrap "listing objects to prune" err))
  | inl items => prune_loop kind namespace keep items
  end.

(** The loop over the kinds of [pruneExternal] and [pruneMonitoring]. *)
Fixpoint prune_kinds (namespace : string) (selector : gmap string string) (keep : gset string) (kinds : list string)
    : prog eff (option error) :=
  match kinds with
  | [] => mret None
  | kind :: kinds =>
      err ← pruneKind namespace selector keep kind;
      match err with
      | Some err => mret (Some err)
      | None => prune_kinds namespace selector keep kinds
      end
  end.

(** ** Lemmas *)

Definition applying (d : desired) : mutation :=
  match d with
  | DStatefulSet name replicas _ => MApply name replicas
  | DSecret name _ => MApplyObject "Secret" name
  | DObject kind name => MApplyObject kind name
  end.

Lemma mutation_of_apply d r : mutation_of (Event (apply d) r) = [applying d].
Proof. by destruct d. Qed.

Section lemmas.
Context {L : Type} `{ConditionsAPI L} (generation : Z).
Implicit Types (st : passState L).

Lemma apply_loop_spec desired applied st t st' r :
  returns (apply_loop generation desired applied st) t (st', r) →
  ps_shrinks st' = ps_shrinks st ∧ leaves_open t [] ∧
  match r with
  | inl applied' =>
      st' = st ∧ mutations t = applying <$> desired ∧
      (∀ k, k ∉ appliedKey <$> desired → applied' !! k = applied !! k) ∧
      (NoDup (appliedKey <$> desired) → ∀ d, d ∈ desired → ∃ written,
         Event (apply d) (inl written) ∈ t ∧ applied' !! appliedKey d = Some written)
  | inr _ => mutations t `prefix_of` applying <$> desired
  end.
Proof.
  revert applied t. induction desired as [|d desired IH]; intros applied t Hrun; cbn [apply_loop] in Hrun.
  { destruct Hrun as [-> [= -> ->]]. repeat (split; [done || apply leaves_open_nil|]). by intros _ d ?%elem_of_nil. }
  apply returns_trigger in Hrun as ([err|] & t1 & -> & Hrun); cbn [mbind prog_bind] in Hrun.
  { destruct Hrun as [-> [= -> ->]]. split; [done|]. split; [apply leaves_open_skip, leaves_open_nil; done|]. apply prefix_nil. }
  apply returns_trigger in Hrun as ([written|err] & t2 & -> & Hrun); cbn [mbind prog_bind] in Hrun;
    rewrite !mutations_cons, mutation_of_apply.
  - apply IH in Hrun as (Hs & Ho & Hr). split; [done|]. split.
    { do 2 (apply leaves_open_skip; [by destruct d..|]). done. }
    destruct r as [applied'|err]; cbn [fmap list_fmap].
    + destruct Hr as (-> & Hm & Hk & Hw). split; [done|]. split; [by rewrite Hm|]. split.
      * intros k [Hne Hin]%not_elem_of_cons. rewrite Hk by done. by rewrite lookup_insert_ne.
      * intros [Hn Hnd]%NoDup_cons d' [->|Hin]%elem_of_cons.
        { exists written. split; [right; left|]. rewrite Hk by done. apply lookup_insert_eq. }
        destruct (Hw Hnd d' Hin) as (w & ? & ?). exists w. split; [by do 2 right|done].
    + by apply prefix_cons.
  - destruct Hrun as [-> [= -> ->]]. split; [done|]. split.
    { do 2 (apply leaves_open_skip; [by destruct d..|]). apply leaves_open_nil. }
    apply prefix_cons, prefix_nil.
Qed.
End lemmas.

(** Pruning deletes listed objects the cluster controls and the desired set does not name,
    by the UID they were listed under, and nothing else. *)
Definition pruned (namespace : string) (selector : gmap string string) (kinds : list string) (keep : gset string)
    (t : list (event eff)) (m : mutation) : Prop :=
  ∃ kind items obj, kind ∈ kinds ∧ Event (EListObjects kind namespace selector) (inl items) ∈ t ∧ obj ∈ items ∧
    lo_Controlled obj = true ∧ (kind ^^ "/" ^^ lo_Name obj ∉ keep) ∧ m = MDeleteObject kind (lo_Name obj) (lo_UID obj).

Lemma pruned_mono namespace selector kinds kinds' keep t t' m :
  (∀ kind, kind ∈ kinds → kind ∈ kinds') → (∀ e, e ∈ t → e ∈ t') →
  pruned namespace selector kinds keep t m → pruned namespace selector kinds' keep t' m.
Proof. intros Hk Ht (kind & items & obj & ? & ? & ?). exists kind, items, obj. auto. Qed.

Lemma prune_loop_spec kind namespace keep items t r :
  returns (prune_loop kind namespace keep items) t r →
  (∀ m, m ∈ mutations t → ∃ obj, obj ∈ items ∧ m = MDeleteObject kind (lo_Name obj) (lo_UID obj) ∧
     lo_Controlled obj = true ∧ kind ^^ "/" ^^ lo_Name obj ∉ keep) ∧
  (r = None → ∀ obj, obj ∈ items → lo_Controlled obj = true → kind ^^ "/" ^^ lo_Name obj ∉ keep →
     MDeleteObject kind (lo_Name obj) (lo_UID obj) ∈ mutations t).
Proof.
  revert t. induction items as [|obj items IH]; intros t Hrun; cbn [prune_loop] in Hrun.
  { destruct Hrun as [-> ->]. split; [by intros m ?%elem_of_nil|]. by intros _ obj ?%elem_of_nil. }
  destruct (bool_decide _ || negb _) eqn:E.
  { apply IH in Hrun as [Hm Hd]. split.
    - intros m (o & Ho & Hx)%Hm. exists o. split; [by right|done].
    - intros Hr o [->|Ho]%elem_of_cons Hc Hk; [|by apply Hd].
      rewrite Hc, bool_decide_eq_false_2 in E by done. done. }
  apply orb_false_iff in E as [Hk%bool_decide_eq_false Hc%negb_false_iff].
  apply returns_trigger in Hrun as (err & t1 & -> & Hrun). cbn [mbind prog_bind] in Hrun. rewrite mutations_cons.
  cbn [mutation_of app].
  assert (returns (prune_loop kind namespace keep items) t1 r ∨ (t1 = [] ∧ r ≠ None)) as [H1|[-> Hr]].
  { destruct err as [err|]; [|by left]. destruct (IsNotFound err || IsConflict err); [by left|]. right.
    destruct Hrun as [-> ->]. done. }
  - apply IH in H1 as [Hm Hd]. split.
    + intros m [->|(o & Ho & Hx)%Hm]%elem_of_cons; [exists obj|exists o]; (split; [|done]); [left|by right].
    + intros Hr o [->|Ho]%elem_of_cons Hco Hko; [left|right; by apply Hd].
  - split; [|done]. intros m [->|[]%elem_of_nil]%elem_of_cons. exists obj. split; [left|done].
Qed.

Lemma pruneKind_spec namespace selector keep kind t r :
  returns (pruneKind namespace selector keep kind) t r →
  (∀ m, m ∈ mutations t → pruned namespace selector [kind] keep t m) ∧
  (r = None → ∃ items, Event (EListObjects kind namespace selector) (inl items) ∈ t ∧
     ∀ obj, obj ∈ items → lo_Controlled obj = true → kind ^^ "/" ^^ lo_Name obj ∉ keep →
       MDeleteObject kind (lo_Name obj) (lo_UID obj) ∈ mutations t).
Proof.
  intros ([items|err] & t1 & -> & Hrun)%returns_trigger; cbn [mbind prog_bind] in Hrun; rewrite mutations_cons.
  - apply prune_loop_spec in Hrun as [Hm Hd]. split.
    + intros m (o & Ho & -> & ?)%Hm. exists kind, items, o. split; [left|]. split; [left|]. tauto.
    + intros Hr. exists items. split; [left|]. intros obj. by apply Hd.
  - destruct Hrun as [-> ->]. split; [by intros m ?%elem_of_nil|done].
Qed.

Lemma prune_kinds_spec namespace selector keep kinds t r :
  returns (prune_kinds namespace selector keep kinds) t r →
  (∀ m, m ∈ mutations t → pruned namespace selector kinds keep t m) ∧
  (r = None → ∀ kind, kind ∈ kinds → ∃ items, Event (EListObjects kind namespace selector) (inl items) ∈ t ∧
     ∀ obj, obj ∈ items → lo_Controlled obj = true → kind ^^ "/" ^^ lo_Name obj ∉ keep →
       MDeleteObject kind (lo_Name obj) (lo_UID obj) ∈ mutations t).
Proof.
  revert t. induction kinds as [|kind kinds IH]; intros t Hrun; cbn [prune_kinds] in Hrun.
  { destruct Hrun as [-> ->]. split; [by intros m ?%elem_of_nil|]. by intros _ kind ?%elem_of_nil. }
  apply returns_bind in Hrun as (t1 & e & t2 & -> & [H1 Hd1]%pruneKind_spec & Hrun). setoid_rewrite mutations_app.
  assert (∀ m, m ∈ mutations t1 → pruned namespace selector (kind :: kinds) keep (t1 ++ t2) m) as H1'.
  { intros m Hm%H1. eapply pruned_mono, Hm; [|intros; apply elem_of_app; by left].
    intros k ->%list_elem_of_singleton. left. }
  destruct e as [e|].
  { destruct Hrun as [-> ->]. split; [|done]. intros m [Hm|[]%elem_of_nil]%elem_of_app. by apply H1'. }
  apply IH in Hrun as [H2 Hd2]. split.
  - intros m [Hm%H1'|Hm%H2]%elem_of_app; [done|]. eapply pruned_mono, Hm; intros; [by right|apply elem_of_app; by right].
  - intros Hr k [->|Hk]%elem_of_cons.
    + destruct (Hd1 eq_refl) as (items & Hin & Hdel). exists items. split; [apply elem_of_app; by left|].
      intros obj ???. apply elem_of_app. left. by apply Hdel.
    + destruct (Hd2 Hr k Hk) as (items & Hin & Hdel). exists items. split; [apply elem_of_app; by right|].
      intros obj ???. apply elem_of_app. right. by apply Hdel.
Qed.

Lemma apply_loop_unconnected {L} `{ConditionsAPI L} generation desired applied (st : passState L) :
  all_effects unconnected (apply_loop generation desired applied st).
Proof.
  revert applied. induction desired as [|d desired IH]; intros applied; cbn [apply_loop]; all_effects.
  all: by destruct d.
Qed.
#[export] Hint Resolve apply_loop_unconnected : effects.

Lemma prune_loop_unconnected kind namespace keep items : all_effects unconnected (prune_loop kind namespace keep items).
Proof. induction items as [|obj items IH]; cbn [prune_loop]; all_effects. Qed.
#[export] Hint Resolve prune_loop_unconnected : effects.

Lemma prune_kinds_unconnected namespace selector keep kinds :
  all_effects unconnected (prune_kinds namespace selector keep kinds).
Proof. induction kinds as [|kind kinds IH]; cbn [prune_kinds]; unfold pruneKind; all_effects. Qed.
#[export] Hint Resolve prune_kinds_unconnected : effects.
