(* ===== verification/Admission.v ===== *)
(** * Admission: the rules on a MemgraphDBCluster spec

    The validation markers of api/v1alpha1/memgraphdbcluster_types.go, which the API server
    holds every stored spec to: lengths, patterns, enumerations, bounds and the CEL rules,
    one definition per type, and the transition rules an update is held to besides. The API
    server fills in the schema defaults first (Resources.v's [schemaDefaults]), so [create]
    and [update] do. A field that is not set is an empty string, a zero or a [None], and has
    no rule of its own to keep unless it is required; [has(x)] of a CEL rule is that it is
    set. A [Quantity] is compared through [QuantityOrder]. The schemas of the Kubernetes
    types a spec embeds are not repeated here. *)

From S2P Require Import Prelude GoStrings Regex Settings K8s Api Client Volumes Planner Resources Topology Flags Vector Workloads Effects World Exposure.

(** ** Markers *)

(** A rule on a field that need not be set. *)
Definition when_set (rule : string → bool) (s : string) : bool := bool_decide (s = "") || rule s.
Definition when_some {A} (rule : A → bool) (o : option A) : bool :=
  match o with Some x => rule x | None => true end.

(** The runes of a UTF-8 string: its bytes but the continuation bytes. *)
Fixpoint RuneCount (s : string) : nat :=
  match s with
  | "" => 0
  | String c s => (if (128 <=? nat_of_ascii c) && (nat_of_ascii c <? 192) then 0 else 1) + RuneCount s
  end.

Definition MinLength (n : nat) (s : string) : bool := n <=? RuneCount s.
Definition MaxLength (n : nat) (s : string) : bool := RuneCount s <=? n.
Definition Enum (values : list string) (s : string) : bool := bool_decide (s ∈ values).
Definition MaxItems {A} (n : nat) (l : list A) : bool := length l <=? n.
Definition MaxProperties {A} (n : nat) (m : gmap string A) : bool := size m <=? n.
Definition Minimum (n z : Z) : bool := (n <=? z)%Z.
Definition Maximum (n z : Z) : bool := (z <=? n)%Z.

(** A required text, and one that may be left out. *)
Definition text (max : nat) (pattern : string → bool) (s : string) : bool :=
  MinLength 1 s && MaxLength max s && pattern s.
Definition any_text (s : string) : bool := true.

(** [listType=map] by a key, and [listType=set]. *)
Definition keyed {A} (key : A → string) (l : list A) : bool := bool_decide (NoDup (key <$> l)).

(** [self.all(k, p)] on a map, [p] of the key and its value. *)
Definition all_entries {A} (p : string → A → bool) (m : gmap string A) : bool :=
  bool_decide (map_Forall (λ k v, p k v = true) m).

(** ** Patterns *)

Section patterns.
Let digits := Plus (cls ["0-9"]).

(** A DNS label, and names of one label or more. *)
Definition dnsLabel : re := Cat (cls ["a-z"; "0-9"]) (Opt (Group (Cat (Star (cls ["-"; "a-z"; "0-9"])) (cls ["a-z"; "0-9"])))).
Definition dnsName : re := Cat dnsLabel (Star (Group (Cat (Char ".") dnsLabel))).
Definition tagPattern : re := Cat (cls ["a-z"; "A-Z"; "0-9"; "_"]) (Star (cls ["a-z"; "A-Z"; "0-9"; "."; "_"; "-"])).
Definition secretKeyPattern : re := Plus (cls ["-"; "."; "_"; "a-z"; "A-Z"; "0-9"]).
Definition topologyKeyPattern : re :=
  Cat (Opt (Group (Cat dnsName (Char "/"))))
    (Cat (cls ["A-Z"; "a-z"; "0-9"])
       (Opt (Group (Cat (Star (cls ["-"; "A-Z"; "a-z"; "0-9"; "_"; "."])) (cls ["A-Z"; "a-z"; "0-9"]))))).
Definition envNamePattern : re := Cat (cls ["A-Z"; "a-z"; "_"]) (Star (cls ["A-Z"; "a-z"; "0-9"; "_"])).
Definition flagNamePattern : re := Cat (cls ["A-Z"; "a-z"]) (Star (cls ["A-Z"; "a-z"; "0-9"; "_"; "-"])).
Definition flagValuePattern : re := Star (Class_ true [(newline, newline); (ascii_of_nat 13, ascii_of_nat 13)]).
Definition integerPattern : re := digits.
Definition urlPattern : re := Cat (literal "http") (Cat (Opt (Char "s")) (literal "://")).
Definition labelNamePattern : re := Cat (cls ["a-z"; "A-Z"; "_"]) (Star (cls ["a-z"; "A-Z"; "0-9"; "_"])).

(** An amount of one unit of a Prometheus duration. *)
Definition amount (unit : string) : re := Opt (Group (Cat (Group digits) (literal unit))).
Definition durationPattern : re :=
  Group (Alt (Char "0") (seq_of (amount <$> ["y"; "w"; "d"; "h"; "m"; "s"; "ms"]))).
End patterns.

(** The patterns are the source's, character for character. *)
Example patterns_text :
  [anchored dnsName; anchored tagPattern; anchored secretKeyPattern; anchored topologyKeyPattern;
   anchored envNamePattern; anchored flagNamePattern; anchored flagValuePattern; anchored integerPattern;
   prefixed urlPattern; anchored labelNamePattern; anchored durationPattern] =
  ["^[a-z0-9]([-a-z0-9]*[a-z0-9])?(\.[a-z0-9]([-a-z0-9]*[a-z0-9])?)*$";
   "^[a-zA-Z0-9_][a-zA-Z0-9._-]*$";
   "^[-._a-zA-Z0-9]+$";
   "^([a-z0-9]([-a-z0-9]*[a-z0-9])?(\.[a-z0-9]([-a-z0-9]*[a-z0-9])?)*/)?[A-Za-z0-9]([-A-Za-z0-9_.]*[A-Za-z0-9])?$";
   "^[A-Za-z_][A-Za-z0-9_]*$";
   "^[A-Za-z][A-Za-z0-9_-]*$";
   "^[^\n\r]*$";
   "^[0-9]+$";
   "^https?://";
   "^[a-zA-Z_][a-zA-Z0-9_]*$";
   "^(0|(([0-9]+)y)?(([0-9]+)w)?(([0-9]+)d)?(([0-9]+)h)?(([0-9]+)m)?(([0-9]+)s)?(([0-9]+)ms)?)$"].
Proof. reflexivity. Qed.

(** ** Texts the types share *)

Definition dnsSubdomain : string → bool := text 253 (matches dnsName).
Definition secretKey : string → bool := text 253 (matches secretKeyPattern).
Definition pullPolicy : string → bool := Enum ["Always"; "IfNotPresent"; "Never"].

(** The text after the last slash: [self.substring(self.lastIndexOf('/') + 1)]. *)
Definition lastSegment (s : string) : string := default "" (last (Split s "/")).

Definition repository (s : string) : bool :=
  text 255 any_text s && negb (Contains s "@") && negb (Contains (lastSegment s) ":").
Definition tag : string → bool := text 128 (matches tagPattern).
Definition url : string → bool := text 2048 (starts_with urlPattern).

(** ** One rule per type *)

Definition admit_image (image : ImageSpec) : bool :=
  when_set repository (is_Repository image) && when_set tag (is_Tag image) &&
  when_set pullPolicy (is_PullPolicy image).

Definition admit_secrets (secrets : SecretsSpec) : bool :=
  when_set dnsSubdomain (ss_Name secrets) && when_set secretKey (ss_LicenseKey secrets) &&
  when_set secretKey (ss_OrganizationKey secrets) &&
  (bool_decide (ss_LicenseKey secrets = "") || bool_decide (ss_OrganizationKey secrets = "") ||
   negb (bool_decide (ss_LicenseKey secrets = ss_OrganizationKey secrets))).

Definition admit_secretRef (ref : SecretReference) : bool := dnsSubdomain (sr_Name ref).

Definition admit_sysctl (spec : SysctlInitContainerSpec) : bool :=
  bool_decide (si_MaxMapCount spec = 0%Z) || Minimum 1 (si_MaxMapCount spec).

Definition admit_securityContext (spec : PodSecurityContextSpec) : bool :=
  when_some (Minimum 1) (sc_RunAsUser spec) && when_some (Minimum 0) (sc_RunAsGroup spec) &&
  when_some (Minimum 0) (sc_FSGroup spec).

Definition admit_probe (spec : ReadinessProbeSpec) : bool :=
  when_some (Minimum 1) (rp_FailureThreshold spec) && when_some (Minimum 1) (rp_TimeoutSeconds spec) &&
  when_some (Minimum 1) (rp_PeriodSeconds spec).

Definition admit_podAntiAffinity (rule : PodAntiAffinitySpec) : bool :=
  when_set (Enum ["preferred"; "required"]) (pa_Type rule) && when_set (Enum ["role"; "cluster"]) (pa_Scope rule) &&
  when_set (text 317 (matches topologyKeyPattern)) (pa_TopologyKey rule).

Definition admit_envVar (variable : EnvVar) : bool :=
  text 253 (matches envNamePattern) (ev_Name variable) && MaxLength 4096 (ev_Value variable).

(** The names extraEnv must not set. *)
Definition deniedEnv : list string := ["MEMGRAPH_ENTERPRISE_LICENSE"; "MEMGRAPH_ORGANIZATION_NAME"; "POD_NAME"].

Definition admit_env (env : list EnvVar) : bool :=
  List.forallb admit_envVar env && keyed ev_Name env && MaxItems 64 env &&
  List.forallb (λ e, negb (bool_decide (ev_Name e ∈ deniedEnv))) env.

Definition admit_extraEnv (spec : ExtraEnvSpec) : bool := admit_env (ee_Coordinators spec) && admit_env (ee_Data spec).

(** ** Flags *)

(** [k.replace('-', '_')]. *)
Definition underscored (key : string) : string := ReplaceAll key "-" "_".

Definition booleanSettings : list string := ["enabled_reads_on_main"; "sync_failover_only"; "global_read_only"].
Definition integerSettings : list string :=
  ["instance_down_timeout_sec"; "instance_health_check_frequency_sec"; "max_failover_replica_lag";
   "max_replica_read_lag"; "deltas_batch_progress_size"].
Definition logLevels : list string := ["TRACE"; "DEBUG"; "INFO"; "WARNING"; "ERROR"; "CRITICAL"].

(** The flags the operator keeps for itself. *)
Definition deniedFlags : list string :=
  ["bolt_port"; "management_port"; "coordinator_port"; "coordinator_id"; "coordinator_hostname"; "data_directory";
   "log_file"; "bolt_cert_file"; "bolt_key_file"; "cluster_cert_file"; "cluster_key_file"; "cluster_ca_file";
   "metrics_format"; "metrics_port"; "monitoring_port"; "bolt_address"; "monitoring_address"; "aws_access_key";
   "aws_secret_key"; "aws_region"; "aws_endpoint_url"; "license_key"; "organization_name";
   "system_user_internal_hash_file"; "fips_mode"].

Example deniedFlags_text :
  anchored (one_of deniedFlags) =
    "^(bolt_port|management_port|coordinator_port|coordinator_id|coordinator_hostname|data_directory|log_file|bolt_cert_file|bolt_key_file|cluster_cert_file|cluster_key_file|cluster_ca_file|metrics_format|metrics_port|monitoring_port|bolt_address|monitoring_address|aws_access_key|aws_secret_key|aws_region|aws_endpoint_url|license_key|organization_name|system_user_internal_hash_file|fips_mode)$".
Proof. reflexivity. Qed.

Definition admit_flagValue (value : FlagValue) : bool := MaxLength 4096 value && matches flagValuePattern value.

(** The rules both roles' flags are held to. *)
Definition admit_roleFlags (flags : gmap string FlagValue) : bool :=
  MaxProperties 64 flags && all_entries (λ _ value, admit_flagValue value) flags &&
  all_entries (λ k _, matches flagNamePattern k) flags &&
  all_entries (λ k _, negb (matches (one_of deniedFlags) (underscored k))) flags &&
  all_entries (λ k _, all_entries (λ j _, bool_decide (k = j) || negb (bool_decide (underscored k = underscored j))) flags) flags &&
  all_entries (λ k value, negb (bool_decide (underscored k = "log_level")) || Enum logLevels value) flags.

Definition admit_coordinatorFlags (flags : gmap string FlagValue) : bool :=
  admit_roleFlags flags &&
  all_entries (λ k value, negb (bool_decide (underscored k ∈ booleanSettings)) || Enum ["true"; "false"] value) flags &&
  all_entries (λ k value, negb (bool_decide (underscored k ∈ integerSettings)) || matches integerPattern value) flags.

Definition admit_dataFlags (flags : gmap string FlagValue) : bool :=
  admit_roleFlags flags &&
  all_entries (λ k _, negb (bool_decide (underscored k ∈ booleanSettings ++ integerSettings))) flags.

Definition admit_flags (spec : FlagsSpec) : bool :=
  admit_coordinatorFlags (fs_Coordinators spec) && admit_dataFlags (fs_Data spec).

(** ** External access *)

Definition admit_gatewaySpec (spec : ExternalAccessGatewaySpec) : bool :=
  when_set (text 253 any_text) (gw_GatewayClassName spec) &&
  when_some (λ port, Minimum 1 port && Maximum 65535 port) (gw_DataPortBase spec) &&
  MaxProperties 64 (gw_Labels spec) && MaxProperties 64 (gw_Annotations spec).

Definition admit_externalRole (spec : ExternalAccessRoleSpec) : bool :=
  MaxProperties 64 (er_Labels spec) && MaxProperties 64 (er_Annotations spec).

Definition admit_externalAccess (spec : ExternalAccessSpec) : bool :=
  let gateway := ea_Gateway spec in
  Enum ["LoadBalancer"; "Gateway"] (ea_Type spec) &&
  admit_externalRole (ea_Coordinators spec) && admit_externalRole (ea_Data spec) && admit_gatewaySpec gateway &&
  when_some (λ hostname, Contains hostname "{ordinal}")
    (er_Annotations (ea_Data spec) !! "external-dns.alpha.kubernetes.io/hostname") &&
  when_some (λ hostname, negb (Contains hostname "{ordinal}"))
    (er_Annotations (ea_Coordinators spec) !! "external-dns.alpha.kubernetes.io/hostname") &&
  (negb (bool_decide (ea_Type spec = "Gateway")) ||
   has_gateway gateway && negb (bool_decide (gw_GatewayClassName gateway = ""))) &&
  (bool_decide (ea_Type spec = "Gateway") || negb (has_gateway gateway)) &&
  when_some (λ port, (7687 <? port)%Z) (gw_DataPortBase gateway).

(** ** Monitoring *)

Definition admit_serviceMonitor (spec : ServiceMonitorSpec) : bool :=
  MaxProperties 64 (sm_Labels spec) && MaxProperties 64 (sm_Annotations spec) &&
  when_set (matches durationPattern) (sm_Interval spec).

Definition admit_grafanaDashboard (spec : GrafanaDashboardSpec) : bool :=
  MaxProperties 64 (gd_Labels spec) && MaxProperties 64 (gd_Annotations spec).

Definition admit_vmagentImage (image : VMAgentImageSpec) : bool :=
  when_set repository (vi_Repository image) && when_set tag (vi_Tag image) && when_set pullPolicy (vi_PullPolicy image).

Definition admit_vectorImage (image : VectorImageSpec) : bool :=
  when_set repository (xi_Repository image) && when_set tag (xi_Tag image) && when_set pullPolicy (xi_PullPolicy image).

Definition admit_basicAuth (spec : BasicAuthSecretSpec) : bool := admit_secretRef (ba_SecretRef spec).

Definition admit_remoteWrite (spec : RemoteWriteSpec) : bool :=
  url (rw_URL spec) && when_some admit_basicAuth (rw_BasicAuth spec).

(** The keys of a map of labels. *)
Definition admit_labelNames (m : gmap string string) : bool :=
  MaxProperties 64 m && all_entries (λ k _, matches labelNamePattern k) m.

Definition admit_tls (spec : TLSSpec) : bool :=
  when_some (λ bolt, admit_secretRef (bt_SecretRef bolt)) (tls_Bolt spec) &&
  when_some (λ intra, admit_secretRef (it_SecretRef intra)) (tls_IntraCluster spec).

Section admission.
Context `{Kube} `{QuantityOrder Quantity}.

Definition admit_vmagent (spec : VMAgentRemoteSpec) : bool :=
  admit_vmagentImage (va_Image spec) && admit_remoteWrite (va_RemoteWrite spec) &&
  when_set (matches durationPattern) (va_ScrapeInterval spec) && admit_labelNames (va_ExternalLabels spec).

Definition admit_vector (spec : VectorRemoteSpec) : bool :=
  admit_vectorImage (vr_Image spec) && url (vr_LogsEndpoint spec) && when_some admit_basicAuth (vr_Auth spec) &&
  admit_labelNames (vr_ExtraLabels spec).

Definition admit_monitoring (spec : MonitoringSpec) : bool :=
  when_some admit_serviceMonitor (mo_ServiceMonitor spec) && when_some admit_grafanaDashboard (mo_GrafanaDashboard spec) &&
  when_some admit_vmagent (mo_VMAgentRemote spec) && when_some admit_vector (mo_VectorRemote spec).

(** ** Storage and core dumps *)

(** [quantity(q).isGreaterThan(quantity('0'))]. *)
Definition positive (size : Quantity) : bool := smaller zeroQuantity size.

Definition admit_roleStorage (spec : RoleStorageSpec) : bool :=
  when_some positive (st_LibPVCSize spec) &&
  when_set (Enum ["ReadWriteOnce"; "ReadOnlyMany"; "ReadWriteMany"; "ReadWriteOncePod"]) (st_LibStorageAccessMode spec) &&
  when_some (MaxLength 253) (st_LibStorageClassName spec) && when_set (Enum ["LibClaim"; "None"]) (st_LogFile spec).

Definition admit_storage (spec : StorageSpec) : bool :=
  when_set (Enum ["Retain"; "Delete"]) (st_RetentionPolicy spec) && admit_roleStorage (st_Coordinators spec) &&
  admit_roleStorage (st_Data spec).

Definition admit_uploader (spec : CoreDumpsUploaderSpec) : bool :=
  text 383 any_text (cu_Image spec) && when_set pullPolicy (cu_PullPolicy spec) &&
  List.forallb admit_envVar (cu_Env spec) && keyed ev_Name (cu_Env spec) &&
  List.forallb dnsSubdomain (cu_EnvFromSecrets spec) && keyed id (cu_EnvFromSecrets spec) &&
  List.forallb (λ e, negb (bool_decide (ev_Name e = "CORE_DUMPS_DIR"))) (cu_Env spec).

Definition present {A} (o : option A) : bool := match o with Some _ => true | None => false end.

Definition admit_coreDumps (spec : CoreDumpsSpec) : bool :=
  when_some (λ role, when_some positive (cd_Size role)) (cd_Coordinators spec) &&
  when_some (λ role, when_some positive (cd_Size role)) (cd_Data spec) &&
  when_some (MaxLength 253) (cd_StorageClassName spec) && when_set (Enum ["Operator"; "Node"]) (cd_CorePattern spec) &&
  when_some admit_uploader (cd_Uploader spec) &&
  (negb (present (cd_Uploader spec)) || present (cd_Coordinators spec) || present (cd_Data spec)).

(** ** Pods *)

Definition admit_roleScheduling (spec : RoleSchedulingSpec) : bool :=
  MaxItems 64 (sd_Tolerations spec) && MaxItems 16 (sd_TopologySpreadConstraints spec) &&
  MaxLength 253 (sd_PriorityClassName spec).

Definition admit_scheduling (spec : SchedulingSpec) : bool :=
  when_some admit_podAntiAffinity (sd_PodAntiAffinity spec) && admit_roleScheduling (sd_Coordinators spec) &&
  admit_roleScheduling (sd_Data spec).

Definition admit_mounts (mounts : list VolumeMount) : bool :=
  keyed vm_MountPath mounts && MaxItems 64 mounts &&
  List.forallb (λ m, negb (bool_decide (vm_MountPath m ∈ deniedMountPaths))) mounts.

Definition admit_extraVolumeMounts (spec : ExtraVolumeMountsSpec) : bool :=
  admit_mounts (xm_Coordinators spec) && admit_mounts (xm_Data spec).

(** ** The spec *)

(** What FIPS mode rules out: [k.replace('-', '_') in ...] on a role's flags, and a name in
    a role's environment. *)
Definition initFlags : list string := ["init_file"; "init_data_file"].
Definition initQueriesEnv : string := "MEMGRAPH_HA_CLUSTER_INIT_QUERIES".

Definition no_init_flags (flags : gmap string FlagValue) : bool :=
  all_entries (λ k _, negb (bool_decide (underscored k ∈ initFlags))) flags.
Definition no_init_env (env : list EnvVar) : bool :=
  List.forallb (λ e, negb (bool_decide (ev_Name e = initQueriesEnv))) env.

(** The rules on the whole spec but the transition rule. *)
Definition spec_rules (spec : MemgraphDBClusterSpec) : bool :=
  match sp_ExternalAccess spec, sp_DataInstances spec with
  | Some external, Some dataInstances =>
      negb (has_gateway (ea_Gateway external)) ||
      when_some (λ port, (port + dataInstances <=? 65536)%Z) (gw_DataPortBase (ea_Gateway external))
  | _, _ => true
  end &&
  (negb (present (sp_FIPS spec)) ||
   no_init_flags (fs_Coordinators (sp_Flags spec)) && no_init_flags (fs_Data (sp_Flags spec)) &&
   no_init_env (ee_Coordinators (sp_ExtraEnv spec)) && no_init_env (ee_Data (sp_ExtraEnv spec))) &&
  (negb (present (sp_FixOwnershipInitContainer spec)) ||
   when_some (λ c, present (sc_RunAsUser c) && (present (sc_RunAsGroup c) || present (sc_FSGroup c))) (sp_SecurityContext spec)).

Definition admit_counts (spec : MemgraphDBClusterSpec) : bool :=
  when_some (λ n, Minimum 3 n && (n `mod` 2 =? 1)%Z) (sp_Coordinators spec) && when_some (Minimum 1) (sp_DataInstances spec).

Definition admits (spec : MemgraphDBClusterSpec) : bool :=
  spec_rules spec && admit_counts spec && admit_image (sp_Image spec) && admit_secrets (sp_Secrets spec) &&
  when_some (λ aws, admit_secretRef (ac_SecretRef aws)) (sp_AWSCredentials spec) && admit_storage (sp_Storage spec) &&
  admit_coreDumps (sp_CoreDumps spec) && when_some admit_sysctl (sp_SysctlInitContainer spec) &&
  when_some admit_securityContext (sp_SecurityContext spec) && when_set dnsSubdomain (sp_ClusterDomain spec) &&
  admit_probe (sp_ReadinessProbe spec) && admit_scheduling (sp_Scheduling spec) && admit_extraEnv (sp_ExtraEnv spec) &&
  admit_flags (sp_Flags spec) && admit_extraVolumeMounts (sp_ExtraVolumeMounts spec) &&
  when_some admit_externalAccess (sp_ExternalAccess spec) && when_some admit_monitoring (sp_Monitoring spec) &&
  when_some admit_tls (sp_TLS spec).

(** ** Updates *)

(** [has(self.x) == has(oldSelf.x) && (!has(self.x) || r)], [r] of the two values. *)
Definition transition {A} (r : A → A → bool) (old new : option A) : bool :=
  match old, new with
  | Some old, Some new => r old new
  | None, None => true
  | _, _ => false
  end.
Definition same (old new : string) : bool := bool_decide (new = old).
Definition grows (old new : Quantity) : bool := at_least new old.

Definition update_roleStorage (old new : RoleStorageSpec) : bool :=
  transition same (st_LibStorageClassName old) (st_LibStorageClassName new) &&
  transition grows (st_LibPVCSize old) (st_LibPVCSize new) &&
  same (st_LibStorageAccessMode old) (st_LibStorageAccessMode new).

(** The rule of RoleCoreDumpsSpec, which fires while the block exists in both versions. *)
Definition update_roleCoreDumps (old new : option RoleCoreDumpsSpec) : bool :=
  match old, new with
  | Some old, Some new => transition grows (cd_Size old) (cd_Size new)
  | _, _ => true
  end.

Definition update_coreDumps (old new : CoreDumpsSpec) : bool :=
  Bool.eqb (present (cd_Coordinators new)) (present (cd_Coordinators old)) &&
  Bool.eqb (present (cd_Data new)) (present (cd_Data old)) &&
  (negb (present (cd_Coordinators new) || present (cd_Data new)) ||
   transition same (cd_StorageClassName old) (cd_StorageClassName new)) &&
  update_roleCoreDumps (cd_Coordinators old) (cd_Coordinators new) && update_roleCoreDumps (cd_Data old) (cd_Data new).

Definition intraCluster (spec : MemgraphDBClusterSpec) : bool := present (sp_TLS spec ≫= tls_IntraCluster).

Definition transitions (old new : MemgraphDBClusterSpec) : bool :=
  Bool.eqb (intraCluster new) (intraCluster old) &&
  update_roleStorage (st_Coordinators (sp_Storage old)) (st_Coordinators (sp_Storage new)) &&
  update_roleStorage (st_Data (sp_Storage old)) (st_Data (sp_Storage new)) &&
  update_coreDumps (sp_CoreDumps old) (sp_CoreDumps new).

(** ** The stored spec *)

(** What the API server stores of a spec it is sent: the spec with its defaults, when it
    keeps every rule. *)
Definition create (spec : MemgraphDBClusterSpec) : option MemgraphDBClusterSpec :=
  let spec := schemaDefaults spec in
  if admits spec then Some spec else None.

Definition update (old spec : MemgraphDBClusterSpec) : option MemgraphDBClusterSpec :=
  let spec := schemaDefaults spec in
  if admits spec && transitions old spec then Some spec else None.

(** A spec stored at some time, by an accepted create and any accepted updates; and one
    stored at some later time. *)
Definition accepted_update (old new : MemgraphDBClusterSpec) : Prop := ∃ spec, update old spec = Some new.

Inductive stored : MemgraphDBClusterSpec → Prop :=
| stored_create spec s : create spec = Some s → stored s
| stored_update old new : stored old → accepted_update old new → stored new.

Definition later : MemgraphDBClusterSpec → MemgraphDBClusterSpec → Prop := rtc accepted_update.
End admission.

(** ** Lemmas *)

Lemma all_entries_true {A} (p : string → A → bool) (m : gmap string A) :
  all_entries p m = true ↔ ∀ k v, m !! k = Some v → p k v = true.
Proof. unfold all_entries. by rewrite bool_decide_eq_true. Qed.

Lemma when_set_true rule s : when_set rule s = true → s ≠ "" → rule s = true.
Proof. unfold when_set. by case_bool_decide. Qed.

(** A name whose first character is of one class and the others of another. *)
Lemma lang_identifier p q first rest s :
  over p (cls first) = true → over q (cls rest) = true → matches (Cat (cls first) (Star (cls rest))) s = true →
  ∃ c t, s = String c t ∧ p c = true ∧ all_chars q t = true.
Proof.
  intros Hp Hq Hm%matches_lang. inversion Hm as [| | |? ? x y Hx Hy| | | | | | | |]; subst.
  inversion Hx as [| |? ? c Hc| | | | | | | | |]; subst. exists c, y.
  apply (over_lang p) in Hx; [|done]. apply (over_lang q) in Hy; [|done]. cbn [all_chars] in Hx.
  by rewrite andb_true_r in Hx.
Qed.

Lemma flagNamePattern_name k : matches flagNamePattern k = true → flag_name k = true.
Proof.
  intros Hm. apply (lang_identifier is_letter is_flag_char) in Hm as (c & t & -> & Hc & Ht); [|by vm_compute..].
  cbn [flag_name]. by rewrite Hc, Ht.
Qed.

Lemma flag_name_underscored k : flag_name k = true → Normalize k = underscored k.
Proof.
  destruct k as [|c s]; [done|]. cbn [flag_name]. intros [Hc _]%andb_true_iff. unfold Normalize, underscored.
  cbn [TrimLeft]. by rewrite decide_False by (intros ->; done).
Qed.

Lemma flagValuePattern_line v : matches flagValuePattern v = true → free_of newline v = true.
Proof. apply matches_chars. by vm_compute. Qed.

Definition dns_char (c : ascii) : bool :=
  let n := nat_of_ascii c in (97 <=? n) && (n <=? 122) || (48 <=? n) && (n <=? 57) || (n =? 45) || (n =? 46).

Lemma dnsSubdomain_chars s : dnsSubdomain s = true → all_chars dns_char s = true.
Proof. unfold dnsSubdomain, text. rewrite !andb_true_iff. intros [_ Hm]. revert Hm. apply matches_chars. by vm_compute. Qed.

Section stored_lemmas.
Context `{Kube} `{QuantityOrder Quantity}.
Implicit Types (spec s : MemgraphDBClusterSpec).

(** The parts of an admitted spec its users need. *)
Lemma admits_parts s :
  admits s = true →
  spec_rules s = true ∧ admit_coreDumps (sp_CoreDumps s) = true ∧ when_set dnsSubdomain (sp_ClusterDomain s) = true ∧
  admit_extraEnv (sp_ExtraEnv s) = true ∧ admit_flags (sp_Flags s) = true ∧
  admit_extraVolumeMounts (sp_ExtraVolumeMounts s) = true ∧
  when_some admit_externalAccess (sp_ExternalAccess s) = true ∧ when_some admit_tls (sp_TLS s) = true.
Proof. unfold admits. rewrite !andb_true_iff. tauto. Qed.

Lemma stored_admits s : stored s → admits s = true ∧ ∃ spec, s = schemaDefaults spec.
Proof.
  intros [spec s' Hc|old new _ [spec Hu]].
  - unfold create in Hc. destruct (admits _) eqn:Ha; simplify_eq. eauto.
  - unfold update in Hu. destruct (admits _ && _) eqn:Ha; simplify_eq. apply andb_true_iff in Ha as [Ha _]. eauto.
Qed.

Lemma accepted_transitions old new : accepted_update old new → transitions old new = true.
Proof.
  intros [spec Hu]. unfold update in Hu. destruct (admits _ && _) eqn:Ha; simplify_eq. by apply andb_true_iff in Ha as [_ Ha].
Qed.

Lemma later_stored old new : stored old → later old new → stored new.
Proof. intros Hs Hl. induction Hl; [done|]. eauto using stored_update. Qed.
End stored_lemmas.

(** What the rules on a role's flags give, in the terms of the flag file. *)
Lemma admit_roleFlags_spec flags :
  admit_roleFlags flags = true →
  spelled_once flags ∧ flag_names flags ∧
  (∀ k v, flags !! k = Some v → free_of newline v = true) ∧
  (∀ k v, flags !! k = Some v → Normalize k = underscored k ∧ (Normalize k ∉ deniedFlags)).
Proof.
  unfold admit_roleFlags. rewrite !andb_true_iff, !all_entries_true.
  intros (((((_ & Hv) & Hn) & Hd) & Hs) & _).
  assert (flag_names flags) as Hnames by (intros k [v Hk]; by eapply flagNamePattern_name, Hn).
  assert (∀ k v, flags !! k = Some v → Normalize k = underscored k) as Hu.
  { intros k v Hk. apply flag_name_underscored, Hnames. by exists v. }
  split; [|split; [done|split]].
  - intros f g [v Hf] [w Hg] E. specialize (Hs f v Hf). rewrite all_entries_true in Hs. specialize (Hs g w Hg).
    apply orb_true_iff in Hs as [?%bool_decide_eq_true|Hne%negb_true_iff%bool_decide_eq_false]; [done|].
    rewrite <- (Hu f v), <- (Hu g w) in Hne by done. done.
  - intros k v Hk. specialize (Hv k v Hk). unfold admit_flagValue in Hv. apply andb_true_iff in Hv as [_ Hv].
    by apply flagValuePattern_line.
  - intros k v Hk. split; [by eapply Hu|]. rewrite (Hu k v) by done. specialize (Hd k v Hk). simpl in Hd.
    intros Hin. by rewrite (proj2 (matches_one_of _ _) Hin) in Hd.
Qed.
