(* ===== verification/Stored.v ===== *)
(** * What a stored spec guarantees

    What the operator's builders may rely on because the API server held the spec to the
    rules of Admission.v: over any sequence of updates the StatefulSets ask for nothing
    Kubernetes refuses, the flag file reads back, ports and mounts fit, and the names of a
    container's environment are distinct. *)

From S2P Require Import Prelude GoStrings Regex Settings K8s Api Client Volumes Planner Resources Topology Flags Vector Workloads Effects World Exposure Admission.

(** ** Later specs *)

(** How a role may differ from what it was: its claims keep their templates, sizes aside,
    which only grow. *)
Record role_later `{Kube} `{QuantityOrder Quantity} (old new : normalizedRole) : Prop := {
  rl_accessMode : nst_libAccessMode (nro_storage new) = nst_libAccessMode (nro_storage old);
  rl_class : nst_libClass (nro_storage new) = nst_libClass (nro_storage old);
  rl_size : at_least (nst_libSize (nro_storage new)) (nst_libSize (nro_storage old)) = true;
  rl_dumps : ncd_enabled (nro_coreDumps new) = ncd_enabled (nro_coreDumps old);
  rl_dumpsClass : ncd_enabled (nro_coreDumps old) = true →
    ncd_class (nro_coreDumps new) = ncd_class (nro_coreDumps old);
  rl_dumpsSize : ncd_enabled (nro_coreDumps old) = true →
    at_least (ncd_size (nro_coreDumps new)) (ncd_size (nro_coreDumps old)) = true
}.

(** A claim template and the one it became. *)
Definition grown `{Kube} `{QuantityOrder Quantity} (old new : ClaimTemplateSpec) : Prop :=
  unsized new = unsized old ∧ at_least (ts_Storage new) (ts_Storage old) = true.

Section later.
Context `{RangeOrder} `{Kube} `{QuantityOrder Quantity}.
Implicit Types (s : MemgraphDBClusterSpec).

#[local] Instance role_later_preorder : PreOrder role_later.
Proof.
  split.
  - intros role. by split; rewrite ?at_least_refl.
  - intros a b c [Hm Hc Hs Hd Hdc Hds] [Hm' Hc' Hs' Hd' Hdc' Hds']. split; try congruence.
    + by eapply at_least_trans.
    + intros E. rewrite Hdc' by congruence. auto.
    + intros E. eapply at_least_trans; [apply Hds'; congruence|auto].
Qed.

Lemma transition_same old new : transition same old new = true → new = old.
Proof. destruct old, new; [|done..]. cbn. unfold same. intros ->%bool_decide_eq_true. done. Qed.

Lemma transition_grows old new fallback :
  transition grows old new = true →
  at_least (match new with Some size => size | None => fallback end)
    (match old with Some size => size | None => fallback end) = true.
Proof. destruct old, new; try done. intros _. apply at_least_refl. Qed.

(** One accepted update, for a role of given storage and core dumps blocks. *)
Lemma step_role (storage storage' : RoleStorageSpec) dumps dumps' block block' role role' :
  update_roleStorage storage storage' = true → Bool.eqb (present block') (present block) = true →
  (present block' = true → transition same (cd_StorageClassName dumps) (cd_StorageClassName dumps') = true) →
  update_roleCoreDumps block block' = true →
  nro_storage role = normalizeStorage storage → nro_storage role' = normalizeStorage storage' →
  nro_coreDumps role = normalizeCoreDumps dumps block → nro_coreDumps role' = normalizeCoreDumps dumps' block' →
  role_later role role'.
Proof.
  unfold update_roleStorage. rewrite !andb_true_iff. intros ((Hc & Hs) & Hm) Hp%eqb_prop Hd Hb E1 E2 E3 E4.
  split; rewrite ?E1, ?E2, ?E3, ?E4; cbn.
  - unfold same in Hm. by apply bool_decide_eq_true in Hm as ->.
  - by apply transition_same.
  - by apply transition_grows.
  - exact Hp.
  - intros En. apply transition_same, Hd. unfold present in *. by rewrite Hp.
  - destruct block as [b|], block' as [b'|]; try done. intros _. by apply transition_grows.
Qed.

Lemma later_roles old new :
  later old new →
  role_later (n_coordinatorRole (normalize old)) (n_coordinatorRole (normalize new)) ∧
  role_later (n_dataRole (normalize old)) (n_dataRole (normalize new)).
Proof.
  induction 1 as [s|x y z Hxy%accepted_transitions _ [IHc IHd]]; [done|].
  unfold transitions, update_coreDumps in Hxy. rewrite !andb_true_iff in Hxy.
  destruct Hxy as (((_ & Hc) & Hd) & ((((Hpc & Hpd) & Hcl) & Hbc) & Hbd)).
  assert (∀ b, b = present (cd_Coordinators (sp_CoreDumps y)) ∨ b = present (cd_Data (sp_CoreDumps y)) → b = true →
    transition same (cd_StorageClassName (sp_CoreDumps x)) (cd_StorageClassName (sp_CoreDumps y)) = true) as Hclass.
  { intros b Hb ->. apply orb_true_iff in Hcl as [Hcl|]; [|done]. apply negb_true_iff, orb_false_iff in Hcl as [??].
    destruct Hb; congruence. }
  split; (etrans; [|eassumption]).
  - eapply step_role; [exact Hc|exact Hpc|apply Hclass; by left|exact Hbc|done..].
  - eapply step_role; [exact Hd|exact Hpd|apply Hclass; by right|exact Hbd|done..].
Qed.

Lemma later_claims old new :
  role_later old new → Forall2 grown (volumeClaimTemplates old) (volumeClaimTemplates new).
Proof.
  intros [Hm Hc Hs Hd Hdc Hds]. unfold volumeClaimTemplates, volumeClaimTemplate. rewrite Hd.
  constructor; [split; [unfold unsized; cbn; congruence|exact Hs]|].
  destruct (ncd_enabled (nro_coreDumps old)); [|constructor].
  constructor; [split; [unfold unsized; cbn; by rewrite Hdc|by apply Hds]|constructor].
Qed.

Lemma grown_unsized old new : Forall2 grown old new → unsized <$> new = unsized <$> old.
Proof. induction 1 as [|t t' l l' [E _] _ IH]; [done|]. cbn [fmap list_fmap]. by rewrite E, IH. Qed.

(** The intra-cluster TLS secret is named when the block is there. *)
Lemma stored_intraCluster s : stored s → n_intraClusterTLSSecret (normalize s) = "" ↔ intraCluster s = false.
Proof.
  intros [(_ & _ & _ & _ & _ & _ & _ & Ht)%admits_parts _]%stored_admits.
  cbn [normalize n_intraClusterTLSSecret]. unfold intraCluster. destruct (sp_TLS s) as [tls|]; [|done]. cbn in Ht |- *.
  unfold admit_tls in Ht. apply andb_true_iff in Ht as [_ Ht]. destruct (tls_IntraCluster tls) as [intra|]; [|done].
  cbn in Ht |- *. split; [|done]. intros E. unfold admit_secretRef in Ht. by rewrite E in Ht.
Qed.

Lemma later_intraCluster old new : later old new → intraCluster new = intraCluster old.
Proof.
  induction 1 as [|x y z Hxy%accepted_transitions _ IH]; [done|]. rewrite IH. unfold transitions in Hxy.
  rewrite !andb_true_iff in Hxy. by destruct Hxy as (((?%eqb_prop & _) & _) & _).
Qed.

(** The arguments of intra-cluster TLS. *)
Definition clusterArgs (args : list string) : list string := List.filter (λ arg, HasPrefix arg "--cluster-") args.

Lemma clusterArgs_common spec role :
  clusterArgs (commonArgs spec role) =
    if decide (n_intraClusterTLSSecret spec = "") then []
    else ["--cluster-cert-file=" ^^ intraClusterTLSMountPath ^^ "/" ^^ TLSCertKey;
          "--cluster-key-file=" ^^ intraClusterTLSMountPath ^^ "/" ^^ TLSPrivateKeyKey;
          "--cluster-ca-file=" ^^ intraClusterTLSMountPath ^^ "/" ^^ caKey].
Proof.
  unfold clusterArgs, commonArgs.
  destruct (decide (n_boltTLSSecret spec = "")), (decide (n_intraClusterTLSSecret spec = "")), (n_fips spec), (nst_fileLogging _);
    reflexivity.
Qed.
End later.

(** ** Roles of a stored spec *)

Section roles.
Context `{RangeOrder} `{Kube} `{QuantityOrder Quantity} {L : Type} (digest : string → string)
  (marshal : gmap string string → gmap string string * PodSpec → option string).
Implicit Types (cluster : MemgraphDBCluster L).

(** What admission says of the role a StatefulSet is built from. *)
Lemma stored_role cluster replicas sts role component :
  stored (Spec cluster) → built digest marshal cluster replicas sts role component →
  admit_roleFlags (nro_flags role) = true ∧ admit_mounts (nro_extraMounts role) = true ∧
  (∃ env, nro_env role = normalizeEnv env ∧ admit_env env = true ∧ (is_Some (sp_FIPS (Spec cluster)) → no_init_env env = true)) ∧
  (is_Some (sp_FIPS (Spec cluster)) → no_init_flags (nro_flags role) = true) ∧
  ncd_uploader (nro_coreDumps role) = cd_Uploader (sp_CoreDumps (Spec cluster)).
Proof.
  intros [(Hr & _ & _ & He & Hf & Hm & _)%admits_parts _]%stored_admits Hb.
  unfold admit_extraEnv, admit_flags, admit_coordinatorFlags, admit_dataFlags, admit_extraVolumeMounts, spec_rules in *.
  rewrite !andb_true_iff in *. destruct Hr as [[_ Hr] _].
  assert (is_Some (sp_FIPS (Spec cluster)) →
    ((no_init_flags (fs_Coordinators (sp_Flags (Spec cluster))) = true ∧ no_init_flags (fs_Data (sp_Flags (Spec cluster))) = true) ∧
    no_init_env (ee_Coordinators (sp_ExtraEnv (Spec cluster))) = true) ∧ no_init_env (ee_Data (sp_ExtraEnv (Spec cluster))) = true) as Hfips.
  { intros [f Hf']. rewrite Hf' in Hr. cbn in Hr. by rewrite !andb_true_iff in Hr. }
  destruct Hb; (split; [tauto|split; [tauto|split; [eexists; split; [reflexivity|]; tauto|split; [tauto|done]]]]).
Qed.

(** The values of the flag file are the spec's or the operator's own. *)
Lemma roleFlags_value flags k v :
  spelled_once flags → roleFlags flags !! k = Some v → (∃ f, flags !! f = Some v ∧ Normalize f = k) ∨ defaultFlags !! k = Some v.
Proof.
  intros Hso. rewrite roleFlags_lookup by done. destruct (List.find _ _) as [f|] eqn:E; [|by right].
  apply find_Some_elem in E as [_ E%bool_decide_eq_true]. intros Hf. left. by exists f.
Qed.

(** Of the names of the flag file, only the default one admission denies. *)
Lemma roleFlags_denied flags k :
  admit_roleFlags flags = true → is_Some (roleFlags flags !! k) → k ∈ deniedFlags → k = systemUserHashFlag.
Proof.
  intros (Hso & _ & _ & Hd)%admit_roleFlags_spec [v Hv] Hin. apply roleFlags_value in Hv as [(f & Hf & <-)|Hv]; [|..|done].
  - by apply Hd in Hf as [_ []].
  - unfold defaultFlags in Hv. rewrite !lookup_insert_Some, lookup_singleton_Some in Hv.
    destruct Hv as [[<- _]|[_ [[<- _]|[_ [[<- _]|[_ [<- _]]]]]]]; [..|done]; exfalso; revert Hin;
      apply not_elem_of_list_by_decide; vm_compute; exact I.
Qed.
End roles.

(** ** Reading a flag file *)

(** One flag to a line, [--name=value], the last of a repeated name kept. *)
Definition read_line (flags : gmap string string) (line : string) : gmap string string :=
  match CutPrefix line "--" with Some flag => parse_line flags flag | None => flags end.
Definition readFlagFile (text : string) : gmap string string := foldl read_line ∅ (Split text newline).

Lemma readFlagFile_flagFile `{RangeOrder} (flags : gmap string string) :
  flag_names flags → (∀ k v, flags !! k = Some v → free_of newline v = true) → readFlagFile (flagFile flags) = flags.
Proof.
  intros Hn Hv. unfold readFlagFile, flagFile.
  set (line k := k ^^ String "=" (flags !!? k | "")).
  assert (∀ k, k ∈ SortedKeys flags → is_Some (flags !! k) ∧ flag_name k = true) as Hk.
  { intros k Hk%elem_of_SortedKeys. split; [done|by apply Hn]. }
  assert (foldr (λ key rest, "--" ^^ key ^^ "=" ^^ (flags !!? key | "") ^^ String newline rest) "" (SortedKeys flags) =
          foldr (λ key rest, ("--" ^^ line key) ^^ String newline rest) "" (SortedKeys flags)) as ->.
  { induction (SortedKeys flags) as [|k l IH]; [done|]. cbn [foldr]. rewrite IH by (intros; apply Hk; by right).
    unfold line. by rewrite !app_assoc_s. }
  rewrite Split_lines.
  2: { intros k Hin. destruct (Hk k Hin) as [[v Hf] [_ Hc]%flag_name_chars].
       rewrite free_of_app. unfold line. rewrite free_of_app, (flag_chars_free k newline) by done. cbn [free_of all_chars].
       rewrite Hf. apply (Hv k v Hf). }
  rewrite foldl_app. match goal with |- foldl _ ?m [""] = _ => change (foldl read_line m [""]) with m end.
  assert (∀ l m, foldl read_line m ((λ k, "--" ^^ line k) <$> l) = foldl parse_line m (line <$> l)) as Hfold.
  { intros l. induction l as [|k l IH]; intros m; [done|]. cbn [fmap list_fmap foldl]. rewrite IH. f_equal.
    unfold read_line. by rewrite CutPrefix_app. }
  rewrite Hfold. apply map_eq. intros k. unfold line. rewrite (parse_lines (λ k, k) (λ k, flags !!? k | "")).
  - rewrite lookup_empty. destruct (List.find _ _) as [x|] eqn:E.
    + apply find_Some_elem in E as [[[v Hf] _]%Hk ->%bool_decide_eq_true]. by rewrite Hf.
    + rewrite find_None_iff in E. destruct (flags !! k) eqn:Ek; [|done].
      assert (k ∈ SortedKeys flags) as Hin by (apply elem_of_SortedKeys; eauto).
      apply E in Hin. by rewrite bool_decide_eq_true_2 in Hin.
  - intros k' Hin. destruct (Hk k' Hin) as [_ [Hne Hc]%flag_name_chars]. split; [done|]. by apply flag_chars_free.
  - rewrite list_fmap_id. apply NoDup_SortedKeys.
Qed.

(** ** Properties *)

(** The arguments of the Memgraph container, the first of its pod. *)
Definition memgraphArgs `{Kube} (sts : StatefulSetSpec) : list string :=
  default [] (co_Args <$> head (ps_Containers (te_Spec (sf_Template sts)))).

(** C22: over any sequence of accepted updates, the operator never asks Kubernetes to change
    a field of a live StatefulSet it refuses to: the selector, the Service name and the pod
    management policy are the old ones, the claim templates differ in sizes alone, which only
    grow, and restated at the live sizes they are the live ones; and the members of the
    cluster speak intra-cluster TLS after it exactly as they did before. *)
Theorem admitted_update_keeps_immutables `{RangeOrder} `{Kube} `{QuantityOrder Quantity} {L} digest marshal
    (old new : MemgraphDBCluster L) replicas replicas' :
  Meta new = Meta old → stored (Spec old) → later (Spec old) (Spec new) →
  ∀ sts sts', (sts, sts') ∈ [(CoordinatorStatefulSet digest marshal old replicas,
                              CoordinatorStatefulSet digest marshal new replicas');
                             (DataStatefulSet digest marshal old replicas,
                              DataStatefulSet digest marshal new replicas')] →
    sf_Meta sts' = mkKMeta (km_Name (sf_Meta sts)) (km_Namespace (sf_Meta sts)) (km_Labels (sf_Meta sts'))
                     (km_Annotations (sf_Meta sts)) ∧
    sf_Selector sts' = sf_Selector sts ∧ sf_ServiceName sts' = sf_ServiceName sts ∧
    sf_PodManagementPolicy sts' = sf_PodManagementPolicy sts ∧
    Forall2 grown (sf_VolumeClaimTemplates sts) (sf_VolumeClaimTemplates sts') ∧
    KeepLiveSizes (claimTemplates sts') (Some (claimTemplates sts)) = claimTemplates sts ∧
    clusterArgs (memgraphArgs sts') = clusterArgs (memgraphArgs sts).
Proof.
  intros HM Hs Hl sts sts' Hin. destruct (later_roles _ _ Hl) as [Hc%later_claims Hd%later_claims].
  edestruct (unsized_keeps_immutables digest marshal old new replicas replicas' HM) as (E1 & E2 & E3 & E4 & E5);
    [|exact Hin|].
  { intros role [->|[->|[]%elem_of_nil]%elem_of_cons]%elem_of_cons; by apply grown_unsized. }
  do 4 (split; [done|]). split; [|split; [done|]].
  - apply elem_of_cons in Hin as [[= -> ->]|[= -> ->]%list_elem_of_singleton]; [exact Hc|exact Hd].
  - assert (∀ component name role container, clusterArgs (memgraphArgs (buildStatefulSet digest marshal new component name
      (normalize (Spec new)) role replicas' container)) = clusterArgs (co_Args container)) as Hn by done.
    assert (∀ component name role container, clusterArgs (memgraphArgs (buildStatefulSet digest marshal old component name
      (normalize (Spec old)) role replicas container)) = clusterArgs (co_Args container)) as Ho by done.
    pose proof (later_intraCluster _ _ Hl) as E. pose proof (stored_intraCluster _ Hs) as Eo.
    pose proof (stored_intraCluster _ (later_stored _ _ Hs Hl)) as En. rewrite E, <- Eo in En.
    apply elem_of_cons in Hin as [[= -> ->]|[= -> ->]%list_elem_of_singleton];
      unfold CoordinatorStatefulSet, DataStatefulSet; rewrite Hn, Ho; cbn [memgraphContainer co_Args].
    + change (clusterArgs (commonArgs (normalize (Spec new)) (n_coordinatorRole (normalize (Spec new)))) =
              clusterArgs (commonArgs (normalize (Spec old)) (n_coordinatorRole (normalize (Spec old))))).
      rewrite !clusterArgs_common. by rewrite (decide_ext _ _ _ _ En).
    + rewrite !clusterArgs_common. by rewrite (decide_ext _ _ _ _ En).
Qed.

(** What a stored spec says of a Gateway. *)
Lemma stored_gateway `{Kube} `{QuantityOrder Quantity} {L} (cluster : MemgraphDBCluster L) :
  stored (Spec cluster) → UsesGateway cluster = true → admitted_gateway cluster.
Proof.
  intros [Ha [spec E]]%stored_admits Hu. unfold UsesGateway in Hu.
  unfold admitted_gateway, DeclaredDataInstances. rewrite E in *. clear E. cbn [schemaDefaults sp_ExternalAccess] in Hu.
  destruct (sp_ExternalAccess spec) as [e|] eqn:Ee; [|done]. cbn [fmap option_fmap option_map] in Hu.
  apply bool_decide_eq_true in Hu. cbn [normalize n_external n_dataInstances schemaDefaults sp_ExternalAccess sp_DataInstances] in Hu |- *.
  rewrite Ee in Hu |- *. cbn [fmap option_fmap option_map normalizeExternal nex_gateway ngw_dataPortBase nex_typ intOrDefault] in Hu |- *.
  apply admits_parts in Ha as (Hp & _ & _ & _ & _ & _ & Hx & _). unfold spec_rules in Hp. rewrite !andb_true_iff in Hp.
  destruct Hp as [[Hp _] _]. cbn [schemaDefaults sp_ExternalAccess sp_DataInstances] in Hx, Hp. rewrite Ee in Hx, Hp.
  cbn [fmap option_fmap option_map when_some] in Hx, Hp. unfold admit_externalAccess in Hx. rewrite !andb_true_iff in Hx.
  destruct Hx as ((((((((Ht & _) & _) & Hg) & _) & _) & Hgw) & _) & Hport).
  assert (ea_Type e = ExternalAccessGateway) as Et.
  { cbn [default_external ea_Type] in Hu, Ht. unfold orDefault in Hu. by case_decide. }
  cbn [default_external ea_Type] in Hgw. rewrite bool_decide_eq_true_2 in Hgw by done. cbn [negb orb] in Hgw.
  apply andb_true_iff in Hgw as [Hhas _]. rewrite Hhas in Hp. cbn [negb orb] in Hp.
  unfold admit_gatewaySpec in Hg. rewrite !andb_true_iff in Hg. destruct Hg as (((_ & Hr) & _) & _).
  cbn [default_external ea_Gateway] in *. destruct (has_gateway (ea_Gateway e)) eqn:Hh; [|by rewrite Hh in Hhas].
  cbn [gw_DataPortBase when_some] in *. unfold Minimum, Maximum, BoltPort in *. bool_split.
  change (intOrDefault (Some ?x) _) with x. lia.
Qed.

(** C33: the Gateway of a stored spec has valid ports exactly when the base and the number
    of data pods running stay within the port space, and then no two listeners share one:
    every listener has a port from 1 to 65535 if and only if base + pods is at most 65536,
    the sums of the int32 ports do not wrap, and names and ports are distinct. Admission
    checks the declared count; a larger count still running has to fit as well. *)
Theorem gateway_ports `{Kube} `{QuantityOrder Quantity} {L} (cluster : MemgraphDBCluster L) dataReplicas :
  stored (Spec cluster) → UsesGateway cluster = true → (0 ≤ dataReplicas)%Z → is_int32 dataReplicas →
  let listeners := gt_Listeners (Gateway cluster dataReplicas) in
  (Forall valid_port (li_Port <$> listeners) ↔ (portBase cluster + dataReplicas ≤ 65536)%Z) ∧
  ((portBase cluster + dataReplicas ≤ 65536)%Z →
     NoDup (li_Port <$> listeners) ∧
     ∀ ordinal, ordinal ∈ ordinals dataReplicas → DataGatewayPort cluster ordinal = (portBase cluster + ordinal)%Z) ∧
  NoDup (li_Name <$> listeners) ∧
  ((dataReplicas ≤ DeclaredDataInstances cluster)%Z → Forall valid_port (li_Port <$> listeners)).
Proof. intros Hs Hu. by apply gateway_ports_of, stored_gateway. Qed.

(** The name of the flag an argument sets. *)
Definition argName (arg : string) : string :=
  Normalize (match Cut arg "=" with Some (name, _) => name | None => arg end).

(** The flags among the arguments of the Memgraph container. *)
Definition flagArgs `{Kube} (sts : StatefulSetSpec) : list string :=
  List.filter (λ arg, HasPrefix arg "--") (memgraphArgs sts).

Lemma flagArgs_built `{RangeOrder} `{Kube} {L} digest marshal (cluster : MemgraphDBCluster L) replicas sts role component :
  built digest marshal cluster replicas sts role component →
  flagArgs sts = commonArgs (normalize (Spec cluster)) role.
Proof.
  assert (∀ spec role, List.filter (λ arg, HasPrefix arg "--") (commonArgs spec role) = commonArgs spec role) as Hf.
  { intros spec r. unfold commonArgs.
    destruct (decide (n_boltTLSSecret spec = "")), (decide (n_intraClusterTLSSecret spec = "")), (n_fips spec), (nst_fileLogging _);
      reflexivity. }
  intros []; apply Hf.
Qed.

(** The flags a coordinator gets its identity by. *)
Definition identityFlags : list string := ["coordinator_id"; "coordinator_hostname"; "coordinator_port"].

Lemma commonArgs_names `{Kube} spec role :
  NoDup (identityFlags ++ (argName <$> commonArgs spec role)) ∧
  ∀ k, k ∈ identityFlags ++ (argName <$> commonArgs spec role) →
    k = "flag_file" ∨ (k ∈ deniedFlags) ∧ k ≠ systemUserHashFlag.
Proof.
  unfold commonArgs.
  destruct (decide (n_boltTLSSecret spec = "")), (decide (n_intraClusterTLSSecret spec = "")), (n_fips spec), (nst_fileLogging _);
    (split; [by_decide|]); intros k Hk; revert k Hk; rewrite <- Forall_forall; by_decide.
Qed.

(** C24: the flag file holds the role's flags and no other: the text the ConfigMap carries, read
    a flag to a line, is exactly the operator's defaults with the spec's flags merged over
    them, whatever values a stored spec gives them. *)
Theorem flag_file_reads_back `{RangeOrder} `{Kube} `{QuantityOrder Quantity} {L} digest marshal
    (cluster : MemgraphDBCluster L) replicas sts role component :
  stored (Spec cluster) → built digest marshal cluster replicas sts role component →
  let configMap := flagsConfigMap cluster component (sf_ServiceName sts ^^ "-" ^^ flagsComponent) role in
  configMap ∈ [CoordinatorFlagsConfigMap cluster; DataFlagsConfigMap cluster] ∧
  (flagsVolume (km_Name (cm_Meta configMap)) ∈ ps_Volumes (te_Spec (sf_Template sts))) ∧
  ∃ text, cm_Data configMap !! FlagFileKey = Some text ∧ readFlagFile text = roleFlags (nro_flags role).
Proof.
  intros Hs Hb configMap. destruct (stored_role _ _ _ _ _ _ _ Hs Hb) as (Hf & _).
  pose proof (admit_roleFlags_spec _ Hf) as (Hso & Hn & Hv & _). split; [|split].
  - unfold configMap. destruct Hb; [left|right; left].
  - destruct Hb; left.
  - eexists. split; [apply lookup_singleton_eq|]. apply readFlagFile_flagFile.
    + intros k Hk. by eapply roleFlags_names.
    + intros k v Hk. apply roleFlags_value in Hk as [(f & Hk & _)|Hk]; [by eapply Hv| |done].
      unfold defaultFlags in Hk. rewrite !lookup_insert_Some, lookup_singleton_Some in Hk.
      by destruct Hk as [[_ <-]|[_ [[_ <-]|[_ [[_ <-]|[_ [_ <-]]]]]]].
Qed.

(** The operator's mount paths the rules on extraVolumeMounts leave open. *)
Definition unguardedPaths `{Kube} (spec : normalizedSpec) : list string :=
  [flagsMountPath; systemUserMountPath] ++
  (if decide (n_boltTLSSecret spec = "") then [] else [boltTLSMountPath]) ++
  (if decide (n_intraClusterTLSSecret spec = "") then [] else [intraClusterTLSMountPath]).

Lemma operatorMounts_guarded `{Kube} spec role path :
  path ∈ vm_MountPath <$> operatorMounts spec role → path ∉ deniedMountPaths → path ∈ unguardedPaths spec.
Proof.
  unfold operatorMounts, unguardedPaths.
  destruct (ncd_enabled _), (decide (n_boltTLSSecret spec = "")), (decide (n_intraClusterTLSSecret spec = ""));
    cbn; unfold deniedMountPaths, libMountPath, tmpMountPath, coreDumpsMountPath; set_solver.
Qed.

Lemma unguarded_operatorMounts `{Kube} spec role path :
  path ∈ unguardedPaths spec → path ∈ vm_MountPath <$> operatorMounts spec role.
Proof.
  unfold operatorMounts, unguardedPaths.
  destruct (ncd_enabled _), (decide (n_boltTLSSecret spec = "")), (decide (n_intraClusterTLSSecret spec = ""));
    cbn; set_solver.
Qed.

(** C34: two mounts of the Memgraph container of a stored spec share a path, which Kubernetes
    refuses, exactly when an extra mount takes one of the paths admission does not keep
    extra mounts off: the flag file's, the system user's hash, and those of the TLS Secrets
    while their blocks are there. *)
Theorem mount_paths_distinct `{RangeOrder} `{Kube} `{QuantityOrder Quantity} {L} digest marshal
    (cluster : MemgraphDBCluster L) replicas sts role component :
  stored (Spec cluster) → built digest marshal cluster replicas sts role component →
  let spec := normalize (Spec cluster) in
  NoDup (vm_MountPath <$> volumeMounts spec role) ↔
  ∀ m, m ∈ nro_extraMounts role → vm_MountPath m ∉ unguardedPaths spec.
Proof.
  intros Hs Hb spec. destruct (stored_role _ _ _ _ _ _ _ Hs Hb) as (_ & Hm & _).
  unfold admit_mounts, keyed in Hm. rewrite !andb_true_iff, bool_decide_eq_true, forallb_true_iff in Hm.
  destruct Hm as [[Hnd _] Hd]. rewrite mount_paths_iff by done. split; intros Hx m Hin Hp.
  - by eapply (Hx m Hin), unguarded_operatorMounts.
  - apply (Hx m Hin), (operatorMounts_guarded spec role); [done|].
    specialize (Hd m Hin). by apply negb_true_iff, bool_decide_eq_false in Hd.
Qed.

(** The environment of the Memgraph container. *)
Definition memgraphEnv `{Kube} (sts : StatefulSetSpec) : list KEnvVar :=
  default [] (co_Env <$> head (ps_Containers (te_Spec (sf_Template sts)))).

Lemma normalizeEnv_names `{Kube} env : ke_Name <$> normalizeEnv env = ev_Name <$> env.
Proof. unfold normalizeEnv. by rewrite <- list_fmap_compose. Qed.

(** A variable of its own name. *)
Lemma env_only `{Kube} (variable x : KEnvVar) (env : list KEnvVar) :
  (ke_Name x ∉ ke_Name <$> env) → variable ∈ x :: env ∧ ke_Name variable = ke_Name x ↔ variable = x.
Proof.
  intros Hx. rewrite elem_of_cons. split; [|intros ->; by split; [left|]].
  intros [[->|Hin] E]; [done|]. destruct Hx. rewrite <- E. by apply list_elem_of_fmap_2.
Qed.

Definition podNameEnv `{Kube} : KEnvVar := mkKEnvVar EnvPodName "" (Some (inl (FieldRef "metadata.name"))).

Lemma memgraphEnv_built `{RangeOrder} `{Kube} {L} digest marshal (cluster : MemgraphDBCluster L) replicas sts role component :
  built digest marshal cluster replicas sts role component →
  memgraphEnv sts = (if decide (component = coordinatorComponent) then [podNameEnv] else []) ++ nro_env role.
Proof. by intros []. Qed.

Lemma containers_built `{RangeOrder} `{Kube} {L} digest marshal (cluster : MemgraphDBCluster L) replicas sts role component :
  built digest marshal cluster replicas sts role component →
  ∃ memgraph, ps_Containers (te_Spec (sf_Template sts)) = podContainers component (normalize (Spec cluster)) role memgraph.
Proof. intros []; by eexists. Qed.

(** The environment of the uploader admission lets through. *)
Lemma uploader_env `{Kube} `{QuantityOrder Quantity} (spec : MemgraphDBClusterSpec) uploader :
  stored spec → cd_Uploader (sp_CoreDumps spec) = Some uploader →
  NoDup (ke_Name <$> co_Env (uploaderSidecar uploader)) ∧
  ∃ path, (mount coreDumpsVolumeName path true ∈ co_VolumeMounts (uploaderSidecar uploader)) ∧
    ∀ variable, variable ∈ co_Env (uploaderSidecar uploader) ∧ ke_Name variable = EnvCoreDumpsDir ↔
      variable = mkKEnvVar EnvCoreDumpsDir path None.
Proof.
  intros [(_ & Hc & _)%admits_parts _]%stored_admits Hup.
  unfold admit_coreDumps in Hc. rewrite Hup, !andb_true_iff in Hc. destruct Hc as [[_ Hc] _]. cbn [when_some] in Hc.
  unfold admit_uploader, keyed in Hc. rewrite !andb_true_iff, bool_decide_eq_true, !forallb_true_iff in Hc.
  destruct Hc as ((((_ & Hn) & _) & _) & Hdir).
  assert (EnvCoreDumpsDir ∉ ke_Name <$> normalizeEnv (cu_Env uploader)) as Hd.
  { rewrite normalizeEnv_names. intros (e & E & He)%list_elem_of_fmap. specialize (Hdir e He).
    apply negb_true_iff, bool_decide_eq_false in Hdir. by apply Hdir. }
  cbn [uploaderSidecar co_Env co_VolumeMounts]. split; [rewrite fmap_cons; apply NoDup_cons; by rewrite normalizeEnv_names in *|].
  exists coreDumpsMountPath. split; [left|]. intros variable. by apply env_only.
Qed.

(** C31: every environment variable of a pod means one thing: the names in the Memgraph
    container's environment are distinct, and POD_NAME, which a coordinator's start script
    derives its identity from, is there for the coordinators and names the pod itself; none of
    the license's variables is set there, and under FIPS none that runs queries at start; and
    the names in the uploader's environment are distinct, with CORE_DUMPS_DIR the path its
    container mounts the core dumps at. *)
Theorem environment_names_distinct `{RangeOrder} `{Kube} `{QuantityOrder Quantity} {L} digest marshal
    (cluster : MemgraphDBCluster L) replicas sts role component :
  stored (Spec cluster) → built digest marshal cluster replicas sts role component →
  let env := memgraphEnv sts in
  NoDup (ke_Name <$> env) ∧
  (∀ variable, variable ∈ env ∧ ke_Name variable = "POD_NAME" ↔
     component = coordinatorComponent ∧ variable = mkKEnvVar "POD_NAME" "" (Some (inl (FieldRef "metadata.name")))) ∧
  (∀ name, name ∈ [DefaultLicenseSecretKey; DefaultOrganizationSecretKey] → name ∉ ke_Name <$> env) ∧
  (is_Some (sp_FIPS (Spec cluster)) → initQueriesEnv ∉ ke_Name <$> env) ∧
  ∀ uploader, ncd_uploader (nro_coreDumps role) = Some uploader →
    let sidecar := uploaderSidecar uploader in
    (ncd_enabled (nro_coreDumps role) = true → sidecar ∈ ps_Containers (te_Spec (sf_Template sts))) ∧
    NoDup (ke_Name <$> co_Env sidecar) ∧
    ∃ path, (mount coreDumpsVolumeName path true ∈ co_VolumeMounts sidecar) ∧
      ∀ variable, variable ∈ co_Env sidecar ∧ ke_Name variable = "CORE_DUMPS_DIR" ↔
        variable = mkKEnvVar "CORE_DUMPS_DIR" path None.
Proof.
  intros Hs Hb env'. unfold env'. rewrite (memgraphEnv_built _ _ _ _ _ _ _ Hb).
  destruct (stored_role _ _ _ _ _ _ _ Hs Hb) as (_ & _ & (env & -> & He & Hi) & _ & Hu).
  unfold admit_env, keyed in He. rewrite !andb_true_iff, bool_decide_eq_true, !forallb_true_iff in He.
  destruct He as (((_ & Hnd) & _) & Hd).
  assert (∀ name, name ∈ deniedEnv → name ∉ ke_Name <$> normalizeEnv env) as Hden.
  { intros name Hin. rewrite normalizeEnv_names. intros (e & -> & He)%list_elem_of_fmap. specialize (Hd e He).
    by apply negb_true_iff, bool_decide_eq_false in Hd. }
  assert (EnvPodName ∉ ke_Name <$> normalizeEnv env) as Hpod by (apply Hden; by_decide).
  rewrite fmap_app. split; [|split; [|split; [|split]]].
  - rewrite normalizeEnv_names in *. case_decide; [|done]. apply NoDup_cons. by split.
  - intros variable. case_decide as Hcomp.
    + rewrite (env_only variable podNameEnv _ Hpod). by split; [|intros [_ ?]].
    + split; [|by intros [? _]]. intros [Hin E]. destruct Hpod. change EnvPodName with "POD_NAME". rewrite <- E.
      by apply list_elem_of_fmap_2.
  - intros name Hin. rewrite elem_of_app. intros [Hp|Hp].
    + case_decide; [|by apply elem_of_nil in Hp]. apply list_elem_of_singleton in Hp as ->. revert Hin. by_decide.
    + revert Hp. apply Hden. set_solver.
  - intros Hfips. rewrite normalizeEnv_names, elem_of_app. intros [Hp|(e & E & He)%list_elem_of_fmap].
    + case_decide; [|by apply elem_of_nil in Hp]. by apply list_elem_of_singleton in Hp.
    + specialize (Hi Hfips). unfold no_init_env in Hi. rewrite forallb_true_iff in Hi. specialize (Hi e He).
      by apply negb_true_iff, bool_decide_eq_false in Hi.
  - intros uploader Hup. cbv zeta. split; [|apply (uploader_env (Spec cluster)); [exact Hs|congruence]].
    intros Hen. destruct (containers_built _ _ _ _ _ _ _ Hb) as [memgraph ->]. unfold podContainers.
    rewrite Hen, Hup. right. left.
Qed.


(** ** Witnesses *)

#[local] Existing Instance Api.Example.kube_text.
#[local] Existing Instance Workloads.Example.quantity_Gi.

Module Example.
Definition flags : FlagsSpec :=
  mkFlagsSpec {[ "log-level" := "DEBUG"; "enabled_reads_on_main" := "true"; "flag-file" := "/etc/other.flags" ]}
    {[ "bolt_num_workers" := "4"; "query-modules-directory" := "/a=b --c" ]}.
Definition extra : VolumeMount := mount "certs" flagsMountPath true.
Definition uploader : CoreDumpsUploaderSpec :=
  mkCoreDumpsUploaderSpec "amazon/aws-cli:2.33.28" "" [] [] [mkEnvVar "BUCKET" "dumps"] ["aws"] "".

Definition stored_uploader : CoreDumpsUploaderSpec :=
  mkCoreDumpsUploaderSpec "amazon/aws-cli:2.33.28" "IfNotPresent" [] [] [mkEnvVar "BUCKET" "dumps"] ["aws"] "".

(** The spec a user sends: FIPS, core dumps with an uploader, an extra mount admission lets
    through and external access as given. *)
Definition sent (size : option Quantity) (external : option ExternalAccessSpec) : MemgraphDBClusterSpec :=
  let s := Api.Example.spec None None flags in
  mkSpec None None (sp_Image s) (sp_Secrets s) None
    (mkStorageSpec "" Api.Example.emptyStorage (mkRoleStorageSpec size "" None ""))
    (mkCoreDumpsSpec None (Some (mkRoleCoreDumpsSpec None)) None "" (Some uploader)) None None None ""
    (sp_ReadinessProbe s) (sp_Resources s) (sp_Labels s) (sp_Scheduling s)
    (mkExtraEnvSpec [] [mkEnvVar "TZ" "UTC"]) flags (sp_ExtraVolumes s) (mkExtraVolumeMountsSpec [] [extra])
    (sp_UserContainers s) (sp_InitContainers s) external None None (Some mkFIPSSpec).

Definition balanced (hostnames : string) : ExternalAccessSpec :=
  mkExternalAccessSpec ExternalAccessLoadBalancer (mkExternalAccessRoleSpec ∅ ∅)
    (mkExternalAccessRoleSpec ∅ {[ ExternalDNSHostnameAnnotation := hostnames ]}) (mkExternalAccessGatewaySpec "" None ∅ ∅).
Definition hostnames : string := "db.example.com,db-{ordinal}.example.com".

(** The cluster as stored. *)
Definition cluster (size : option Quantity) (external : option ExternalAccessSpec) : MemgraphDBCluster (gmap string Condition) :=
  mkCluster (mkObjectMeta "db" "default" "uid" 1) (schemaDefaults (sent size external)) (mkStatus "" 0 0 None noConditions).
Definition db : MemgraphDBCluster (gmap string Condition) := cluster None (Some (balanced hostnames)).
Definition gateway : MemgraphDBCluster (gmap string Condition) := cluster None (Some (Exposure.Example.block 65534)).
Definition data : StatefulSetSpec := DataStatefulSet digest_example Workloads.Example.marshal db 2.
Definition dataRole : normalizedRole := n_dataRole (normalize (Spec db)).

Lemma is_stored size external :
  admits (schemaDefaults (sent size external)) = true → stored (schemaDefaults (sent size external)).
Proof. intros Ha. apply (stored_create (sent size external)). unfold create. by rewrite Ha. Qed.

Lemma db_stored : stored (Spec db).
Proof. apply is_stored. by vm_compute. Qed.

Lemma data_built : built digest_example Workloads.Example.marshal db 2 data dataRole dataComponent.
Proof. apply built_data. Qed.
End Example.

(** The data volumes grow from the default to 20Gi. *)
Lemma admitted_update_keeps_immutables_witness :
  KeepLiveSizes
    (claimTemplates (DataStatefulSet digest_example Workloads.Example.marshal
       (Example.cluster (Some "20Gi") (Some (Example.balanced Example.hostnames))) 2))
    (Some (claimTemplates Example.data)) = claimTemplates Example.data.
Proof.
  refine (proj1 (proj2 (proj2 (proj2 (proj2 (proj2
    (admitted_update_keeps_immutables digest_example Workloads.Example.marshal Example.db
       (Example.cluster (Some "20Gi") (Some (Example.balanced Example.hostnames))) 2 2 eq_refl Example.db_stored _ _ _ _))))))).
  - apply rtc_once. exists (Example.sent (Some "20Gi") (Some (Example.balanced Example.hostnames))).
    vm_compute. reflexivity.
  - right. left.
Defined.

(** The declared listeners are valid, and a third data pod still running gives the Gateway a
    port that is not. *)
Lemma gateway_ports_witness :
  Forall valid_port (li_Port <$> gt_Listeners (Gateway Example.gateway 2)) ∧
  ¬ Forall valid_port (li_Port <$> gt_Listeners (Gateway Example.gateway 3)).
Proof.
  assert (stored (Spec Example.gateway)) as Hs by (apply Example.is_stored; by vm_compute). split.
  - apply (gateway_ports Example.gateway 2 Hs eq_refl); [lia|unfold is_int32; lia|].
    change (DeclaredDataInstances Example.gateway) with 2%Z. lia.
  - intros Hv. apply (gateway_ports Example.gateway 3 Hs eq_refl) in Hv; [|lia|unfold is_int32; lia].
    change (portBase Example.gateway) with 65534%Z in Hv. lia.
Defined.

Lemma flag_file_reads_back_witness :
  roleFlags (nro_flags Example.dataRole) !! "query_modules_directory" = Some "/a=b --c" ∧
  ∃ text, cm_Data (DataFlagsConfigMap Example.db) !! FlagFileKey = Some text ∧
    readFlagFile text = roleFlags (nro_flags Example.dataRole).
Proof.
  split; [vm_compute; reflexivity|].
  exact (proj2 (proj2 (flag_file_reads_back digest_example Workloads.Example.marshal Example.db 2 _ _ _ Example.db_stored
    Example.data_built))).
Defined.

Lemma mount_paths_distinct_witness :
  ¬ NoDup (vm_MountPath <$> volumeMounts (normalize (Spec Example.db)) Example.dataRole).
Proof.
  intros Hnd. pose proof (mount_paths_distinct digest_example Workloads.Example.marshal Example.db 2 _ _ _ Example.db_stored
    Example.data_built) as H. apply (proj1 H Hnd Example.extra); [left|left].
Defined.

Lemma environment_names_distinct_witness :
  (ke_Name <$> memgraphEnv Example.data) = ["TZ"] ∧
  (uploaderSidecar Example.stored_uploader ∈ ps_Containers (te_Spec (sf_Template Example.data))) ∧
  mkKEnvVar "CORE_DUMPS_DIR" "/var/core/memgraph" None ∈ co_Env (uploaderSidecar Example.stored_uploader).
Proof.
  destruct (environment_names_distinct digest_example Workloads.Example.marshal Example.db 2 _ _ _ Example.db_stored
    Example.data_built) as (_ & _ & _ & _ & Hu).
  destruct (Hu Example.stored_uploader eq_refl) as (Hin & _ & path & Hp & Hv).
  split; [vm_compute; reflexivity|]. split; [by apply Hin|].
  apply Hv. f_equal. cbn in Hp. apply elem_of_cons in Hp as [[= ->]|Hp]; [reflexivity|].
  apply list_elem_of_singleton in Hp. discriminate.
Defined.
