(* ===== verification/Texts.v ===== *)
(** * The texts a stored spec reaches

    Where the operator splices names, domains and annotations of a stored spec into text: the
    coordinators' start script and the flags it puts on their command line, the addresses
    quoted in the operator's queries, and the hostnames the data instances are announced at. *)

From S2P Require Import Prelude GoStrings Regex Settings K8s Api Client Volumes Planner Resources Topology Flags Vector.
From S2P Require Import Workloads Effects Bolt World Exposure Admission Stored.

(** ** Texts the spec reaches *)

(** The characters with a meaning to the shell within double quotes, in order. *)
Fixpoint specials (s : string) : string :=
  match s with
  | "" => ""
  | String c s => if decide (nat_of_ascii c ∈ [34; 36; 92; 96; 10]) then String c (specials s) else specials s
  end.

Lemma specials_app s t : specials (s ^^ t) = specials s ^^ specials t.
Proof. induction s as [|c s IH]; [done|]. rewrite app_cons_s. cbn [specials]. case_decide; rewrite IH; by rewrite ?app_cons_s. Qed.

Lemma cypher_escape_cons c s : cypher_escape (String c s) = cypher_escape (String c "") ^^ cypher_escape s.
Proof. cbn [cypher_escape]. by rewrite app_nil_r_s. Qed.

Lemma specials_dns s : all_chars dns_char s = true → specials s = "".
Proof.
  assert (List.forallb (λ n, implb (dns_char (ascii_of_nat n)) (bool_decide (n ∉ [34; 36; 92; 96; 10]))) (seq 0 256) = true)
    as Hall by (vm_compute; reflexivity). rewrite forallb_true_iff in Hall.
  induction s as [|c s IH]; [done|]. cbn [all_chars specials]. intros [Hc Hs]%andb_true_iff.
  specialize (Hall (nat_of_ascii c)). rewrite ascii_nat_embedding, Hc in Hall.
  rewrite decide_False; [auto|]. apply (bool_decide_eq_true_1 _), Hall, elem_of_seq. pose proof (nat_ascii_bounded c). lia.
Qed.

(** A printable text is quoted alike by [%q] and as a Cypher literal. *)
Lemma Quote_printable s : all_chars printable s = true → Quote s = cypherString s.
Proof.
  assert (List.forallb (λ n, implb (printable (ascii_of_nat n))
    (bool_decide (quote_char (ascii_of_nat n) = cypher_escape (String (ascii_of_nat n) "")))) (seq 0 256) = true) as Hall
    by (vm_compute; reflexivity).
  rewrite forallb_true_iff in Hall. intros Hs. unfold Quote, cypherString. do 2 f_equal.
  induction s as [|c s IH]; [done|]. rewrite cypher_escape_cons. cbn [all_chars quote_body] in *.
  apply andb_true_iff in Hs as [Hc Hs]. rewrite IH by done. f_equal. specialize (Hall (nat_of_ascii c)).
  rewrite ascii_nat_embedding, Hc in Hall. apply (bool_decide_eq_true_1 _), Hall, elem_of_seq.
  pose proof (nat_ascii_bounded c). lia.
Qed.

Lemma dns_printable s : all_chars dns_char s = true → all_chars printable s = true.
Proof.
  assert (List.forallb (λ n, implb (dns_char (ascii_of_nat n)) (printable (ascii_of_nat n))) (seq 0 256) = true) as Hall
    by (vm_compute; reflexivity). rewrite forallb_true_iff in Hall.
  induction s as [|c s IH]; [done|]. cbn [all_chars]. rewrite !andb_true_iff. intros [Hc Hs]. split; [|by apply IH].
  specialize (Hall (nat_of_ascii c)). rewrite ascii_nat_embedding, Hc in Hall. apply Hall, elem_of_seq.
  pose proof (nat_ascii_bounded c). lia.
Qed.

Lemma digits_dns s : ∀ a n, digits a s = Some n → all_chars dns_char s = true.
Proof.
  induction s as [|c s IH]; intros a n; [done|]. cbn [digits all_chars].
  destruct (digit c) as [d|] eqn:Ed; [|done]. cbn. intros Hs. rewrite (IH _ _ Hs), andb_true_r.
  destruct (digit_cases c) as (k & Hk & ->); [eauto|]. do 10 (destruct k as [|k]; [done|]). lia.
Qed.

Lemma Itoa_dns z : all_chars dns_char (Itoa z) = true.
Proof.
  destruct z as [|p|p]; [done|eapply digits_dns, (digits_pretty (N.pos p))|].
  change (Itoa (Z.neg p)) with (String "-" (pretty (N.pos p))). cbn [all_chars].
  by rewrite (digits_dns _ _ _ (digits_pretty (N.pos p))).
Qed.

Section texts.
Context `{Kube} `{QuantityOrder Quantity} {L : Type}.
Implicit Types (cluster : MemgraphDBCluster L).

Lemma stored_domain s : stored s → all_chars dns_char (n_clusterDomain (normalize s)) = true.
Proof.
  intros [(_ & _ & Hd & _)%admits_parts _]%stored_admits. cbn [normalize n_clusterDomain]. unfold orDefault.
  case_decide as E; [done|]. by apply dnsSubdomain_chars, (when_set_true dnsSubdomain).
Qed.

(** The cluster's name and namespace are of the characters Kubernetes lets names have. *)
Definition named cluster : Prop :=
  all_chars dns_char (m_Name (Meta cluster)) = true ∧ all_chars dns_char (m_Namespace (Meta cluster)) = true.

Lemma suffix_dns cluster serviceName :
  stored (Spec cluster) → named cluster → all_chars dns_char serviceName = true →
  all_chars dns_char (podFQDNSuffix (m_Namespace (Meta cluster)) serviceName (n_clusterDomain (normalize (Spec cluster)))) = true.
Proof.
  intros Hs [_ Hn] Hname. unfold podFQDNSuffix. by rewrite !all_chars_app, Hname, Hn, stored_domain.
Qed.

Lemma host_printable cluster serviceName ordinal port :
  stored (Spec cluster) → named cluster → all_chars dns_char serviceName = true →
  all_chars printable
    (hostPort (podFQDN (m_Namespace (Meta cluster)) serviceName (n_clusterDomain (normalize (Spec cluster))) ordinal) port) = true.
Proof.
  intros Hs Hn Hname. unfold hostPort, podFQDN.
  rewrite !all_chars_app, !(dns_printable (podFQDNSuffix _ _ _)) by (by apply suffix_dns).
  by rewrite (dns_printable serviceName), !(dns_printable (Itoa _)) by (done || apply Itoa_dns).
Qed.

Lemma role_names cluster :
  named cluster → all_chars dns_char (CoordinatorName (m_Name (Meta cluster))) = true ∧
    all_chars dns_char (DataName (m_Name (Meta cluster))) = true.
Proof. intros [Hn _]. unfold CoordinatorName, DataName. by rewrite !all_chars_app, Hn. Qed.
End texts.

(** ** Flags *)

(** Lines joined where a text is: the last of the first goes on in the first of the second. *)
Fixpoint glue (l m : list string) : list string :=
  match l, m with
  | [], _ => m
  | [x], y :: m => (x ^^ y) :: m
  | x :: l, _ => x :: glue l m
  end.

Lemma Split_ne s sep : Split s sep ≠ [].
Proof. destruct s as [|c s]; [done|]. cbn. case_decide; [done|]. by destruct (Split s sep). Qed.

Lemma Split_glue s t sep : Split (s ^^ t) sep = glue (Split s sep) (Split t sep).
Proof.
  induction s as [|c s IH]; [rewrite app_nil_l_s; cbn; by destruct (Split t sep) eqn:E; [destruct (Split_ne t sep)|rewrite app_nil_l_s]|].
  rewrite app_cons_s. cbn [Split]. rewrite IH. pose proof (Split_ne s sep) as Hs. pose proof (Split_ne t sep) as Ht.
  destruct (Split s sep) as [|x [|x' l]], (Split t sep) as [|y m]; try done; case_decide; cbn; by rewrite ?app_cons_s, ?app_nil_l_s.
Qed.

Lemma Split_free s sep : free_of sep s = true → Split s sep = [s].
Proof.
  unfold free_of. induction s as [|c s IH]; [done|]. cbn [all_chars Split]. intros [Hc Hs]%andb_true_iff.
  rewrite decide_False by (by apply negb_true_iff, bool_decide_eq_false in Hc). by rewrite IH.
Qed.

(** The words of a script, line by line, that are flags: the shell passes no other on. *)
Definition scriptFlags (script : string) : list string :=
  List.filter (λ word, HasPrefix word "--") (Split script newline ≫= λ line, Split line " ").

(** The flags of the Memgraph process: those its container's command names, and those among
    its arguments. *)
Definition processFlags `{Kube} (sts : StatefulSetSpec) : list string :=
  (default [] (co_Command <$> head (ps_Containers (te_Spec (sf_Template sts)))) ≫= scriptFlags) ++ flagArgs sts.

Lemma scriptFlags_coordinator suffix :
  free_of newline suffix = true → free_of " " suffix = true →
  argName <$> scriptFlags (coordinatorStartScript suffix) = identityFlags.
Proof.
  intros Hn Hs. unfold scriptFlags, coordinatorStartScript. rewrite !Split_glue, (Split_free suffix newline) by done.
  repeat match goal with |- context [Split (quoting ?text) newline] =>
    let lines := eval vm_compute in (Split (quoting text) newline) in change (Split (quoting text) newline) with lines end.
  cbn [glue mbind list_bind]. rewrite !Split_glue, (Split_free suffix " ") by done. vm_compute. reflexivity.
Qed.

Lemma dns_free c s : dns_char c = false → all_chars dns_char s = true → free_of c s = true.
Proof.
  intros Hc. unfold free_of. induction s as [|d s IH]; [done|]. cbn [all_chars]. intros [Hd Hs]%andb_true_iff.
  rewrite IH, andb_true_r by done. apply negb_true_iff, bool_decide_eq_false. intros ->. congruence.
Qed.

Lemma processFlags_built `{RangeOrder} `{Kube} `{QuantityOrder Quantity} {L} digest marshal (cluster : MemgraphDBCluster L)
    replicas sts role component :
  stored (Spec cluster) → named cluster → built digest marshal cluster replicas sts role component →
  argName <$> processFlags sts =
    (if decide (component = coordinatorComponent) then identityFlags else []) ++
    (argName <$> commonArgs (normalize (Spec cluster)) role).
Proof.
  intros Hs Hn Hb. unfold processFlags. rewrite fmap_app, (flagArgs_built _ _ _ _ _ _ _ Hb). f_equal.
  assert (∀ serviceName, all_chars dns_char serviceName = true →
    argName <$> scriptFlags (coordinatorStartScript (clusterFQDNSuffix cluster serviceName (normalize (Spec cluster)))) =
    identityFlags) as Hscript.
  { intros serviceName Hname. pose proof (suffix_dns _ _ Hs Hn Hname) as Hsuffix.
    apply scriptFlags_coordinator; by apply dns_free. }
  destruct Hb; [|done]. cbn -[scriptFlags coordinatorStartScript]. rewrite app_nil_r.
  apply Hscript. by apply (role_names cluster).
Qed.

(** C17: no flag of a pod has two sources but one: of the flags on the Memgraph process's
    command line, those its arguments carry and, of a coordinator, the three that the words of
    its start script add, no name repeats, and none is in the role's flag file under any
    spelling save flag_file, which the command line always carries and the rules on spec.flags
    do not deny; the system user's hash file is always the operator's, and a FIPS instance
    has --fips-mode=true on its command line and gets no init flag. The spec is stored, and the
    cluster's name and namespace are of the characters Kubernetes lets names have. *)
Theorem pinned_flags_are_denied `{RangeOrder} `{Kube} `{QuantityOrder Quantity} {L} digest marshal
    (cluster : MemgraphDBCluster L) replicas sts role component :
  stored (Spec cluster) → named cluster → built digest marshal cluster replicas sts role component →
  let pinned := argName <$> processFlags sts in
  let file := roleFlags (nro_flags role) in
  NoDup pinned ∧
  (∀ k, k ∈ ["coordinator_id"; "coordinator_hostname"; "coordinator_port"] → k ∈ pinned ↔ component = coordinatorComponent) ∧
  (∀ k, k ∈ pinned → k ≠ "flag_file" → file !! k = None) ∧
  ("flag_file" ∈ pinned) ∧ ("flag_file" ∉ deniedFlags) ∧
  file !! systemUserHashFlag = Some (systemUserMountPath ^^ "/" ^^ SystemUserHashKey) ∧
  (is_Some (sp_FIPS (Spec cluster)) → ("--fips-mode=true" ∈ processFlags sts) ∧ ∀ k, k ∈ initFlags → file !! k = None).
Proof.
  intros Hs Hn Hb pinned file. unfold pinned. rewrite (processFlags_built _ _ _ _ _ _ _ Hs Hn Hb).
  destruct (stored_role _ _ _ _ _ _ _ Hs Hb) as (Hf & _ & _ & Hi & _).
  pose proof (admit_roleFlags_spec _ Hf) as (Hso & _ & _ & Hd).
  destruct (commonArgs_names (normalize (Spec cluster)) role) as [Hnd Hk].
  assert (∀ k, is_Some (file !! k) → k ∈ deniedFlags → k = systemUserHashFlag) as Hden by (intros; by eapply roleFlags_denied).
  assert (∀ k, k ∈ identityFlags → k ∉ argName <$> commonArgs (normalize (Spec cluster)) role) as Hid
    by (apply NoDup_app in Hnd; tauto).
  split; [|split; [|split; [|split; [|split; [by_decide|split]]]]].
  - case_decide; [done|]. by apply NoDup_app in Hnd as (_ & _ & ?).
  - intros k Hin. rewrite elem_of_app. case_decide as Hc; [split; [done|by left]|].
    split; [|done]. intros [?%elem_of_nil|Hp]; [done|]. by destruct (Hid k Hin).
  - intros k Hin Hne. assert (k ∈ identityFlags ++ (argName <$> commonArgs (normalize (Spec cluster)) role)) as Hin'
      by (revert Hin; rewrite !elem_of_app; case_decide; [done|intros [?%elem_of_nil|?]; [done|by right]]).
    destruct (Hk k Hin') as [?|[Hd' Hu]]; [done|]. apply eq_None_not_Some. intros Hsome. by apply Hu, Hden.
  - apply elem_of_app. right. left.
  - unfold file. rewrite roleFlags_lookup by done. destruct (List.find _ _) as [f|] eqn:E; [|by vm_compute].
    apply find_Some_elem in E as [[v Hv]%elem_of_SortedKeys E%bool_decide_eq_true]. apply Hd in Hv as [_ []]. rewrite E. by_decide.
  - intros Hfips. split.
    + unfold processFlags. rewrite (flagArgs_built _ _ _ _ _ _ _ Hb). unfold commonArgs.
      rewrite !elem_of_app. right; right; right; right. cbn [normalize n_fips]. destruct Hfips as [? ->]. left.
    + intros k Hin. apply eq_None_not_Some. intros [v Hv]. apply roleFlags_value in Hv as [(f & Hfv & <-)|Hv]; [|..|done].
      * specialize (Hi Hfips). unfold no_init_flags in Hi. rewrite all_entries_true in Hi. specialize (Hi f v Hfv). simpl in Hi.
        destruct (Hd f v Hfv) as [E _]. rewrite <- E in Hi. by rewrite bool_decide_eq_true_2 in Hi.
      * unfold defaultFlags in Hv. rewrite !lookup_insert_Some, lookup_singleton_Some in Hv.
        revert Hin. destruct Hv as [[<- _]|[_ [[<- _]|[_ [[<- _]|[_ [<- _]]]]]]];
          apply not_elem_of_list_by_decide; vm_compute; exact I.
Qed.

(** ** Queries *)

(** The values of a config map: a literal for each key, in order, as the Cypher reader takes
    them, up to the closing brace. *)
Fixpoint read_values (keys : list string) (s : string) : option (list string) :=
  match keys with
  | [] => if decide (s = "}") then Some [] else None
  | key :: keys =>
      body ← CutPrefix s (dquote ^^ key ^^ dquote ^^ ": " ^^ dquote);
      '(value, rest) ← read_literal body;
      values ← read_values keys (default rest (CutPrefix rest ", "));
      Some (value :: values)
  end.

Definition read_config (prefix : string) (keys : list string) (query : string) : option (list string) :=
  CutPrefix query (prefix ^^ "{") ≫= read_values keys.

Lemma read_values_pair key keys value rest :
  all_chars printable value = true →
  read_values (key :: keys) (config_pair key value ^^ rest) =
  values ← read_values keys (default rest (CutPrefix rest ", ")); Some (value :: values).
Proof.
  intros Hv. cbn [read_values]. unfold config_pair. rewrite Quote_printable by done. unfold cypherString.
  assert ((dquote ^^ key ^^ dquote ^^ ": " ^^ dquote ^^ cypher_escape value ^^ dquote) ^^ rest =
    (dquote ^^ key ^^ dquote ^^ ": " ^^ dquote) ^^ cypher_escape value ^^ dquote ^^ rest) as -> by (by rewrite !app_assoc_s).
  rewrite CutPrefix_app. cbn [mbind option_bind]. by rewrite read_literal_escape.
Qed.

Lemma read_config_one prefix key value :
  all_chars printable value = true → read_config prefix [key] (prefix ^^ "{" ^^ config_pair key value ^^ "}") = Some [value].
Proof.
  intros Hv. unfold read_config. rewrite <- (app_assoc_s prefix), CutPrefix_app. cbn [mbind option_bind].
  by rewrite read_values_pair.
Qed.

Lemma read_config_three prefix key1 value1 key2 value2 key3 value3 :
  all_chars printable value1 = true → all_chars printable value2 = true → all_chars printable value3 = true →
  read_config prefix [key1; key2; key3]
    (prefix ^^ "{" ^^ config_pair key1 value1 ^^ ", " ^^ config_pair key2 value2 ^^ ", " ^^ config_pair key3 value3 ^^ "}") =
  Some [value1; value2; value3].
Proof.
  intros H1 H2 H3. unfold read_config. rewrite <- (app_assoc_s prefix), CutPrefix_app. cbn [mbind option_bind].
  rewrite read_values_pair, CutPrefix_app by done. cbn [from_option id]. rewrite read_values_pair, CutPrefix_app by done.
  cbn [from_option id]. by rewrite read_values_pair.
Qed.

(** The external addresses are of printable characters. *)
Definition printable_addresses (external : ExternalAddresses) : Prop :=
  all_chars printable (ex_Coordinators external) = true ∧
  ∀ ordinal address, ex_Data external !! ordinal = Some address → all_chars printable address = true.

Section queries.
Context `{RangeOrder} `{Kube} `{QuantityOrder Quantity} {L : Type} (cluster : MemgraphDBCluster L)
  (external : ExternalAddresses) (coordinators data : Z)
  (Hstored : stored (Spec cluster)) (Hnamed : named cluster) (Hexternal : printable_addresses external).

Lemma announced_printable fqdn address :
  all_chars printable (hostPort fqdn BoltPort) = true → all_chars printable address = true →
  all_chars printable (announcedBolt fqdn address) = true.
Proof. unfold announcedBolt. by case_decide. Qed.

Lemma coordinator_printable c :
  c ∈ Coordinators (passTopology cluster external coordinators data) ++
      t_RetiringCoordinators (passTopology cluster external coordinators data) →
  Forall (λ address, all_chars printable address = true) [c_BoltServer c; c_CoordinatorServer c; c_ManagementServer c].
Proof.
  intros Hin. destruct (role_names cluster Hnamed) as [Hname _].
  assert (∃ ordinal address, c = coordinator cluster (normalize (Spec cluster)) ordinal address ∧
    all_chars printable address = true) as (o & address & -> & Ha).
  { apply elem_of_app in Hin as [(o & -> & _)%list_elem_of_fmap|Hin]; [eexists o, _; split; [done|apply Hexternal]|].
    cbn [passTopology t_RetiringCoordinators] in Hin. unfold RetiringCoordinators in Hin.
    case_match; [by apply elem_of_nil in Hin|]. apply list_elem_of_fmap in Hin as (o & -> & _). by exists o, "". }
  cbn [coordinator c_BoltServer c_CoordinatorServer c_ManagementServer].
  repeat (apply Forall_cons; split); [apply announced_printable; [|done]|..|apply Forall_nil_2]; by apply host_printable.
Qed.

Lemma dataInstance_printable d :
  d ∈ DataInstances (passTopology cluster external coordinators data) ++
      t_RetiringDataInstances (passTopology cluster external coordinators data) →
  Forall (λ address, all_chars printable address = true) [d_BoltServer d; d_ManagementServer d; d_ReplicationServer d].
Proof.
  intros Hin. destruct (role_names cluster Hnamed) as [_ Hname].
  assert (∃ ordinal address, d = dataInstance cluster (normalize (Spec cluster)) ordinal address ∧
    all_chars printable address = true) as (o & address & -> & Ha).
  { apply elem_of_app in Hin as [(o & -> & _)%list_elem_of_fmap|Hin].
    - eexists o, _. split; [done|]. destruct (ex_Data external !! o) as [address|] eqn:E; [|done].
      by apply (proj2 Hexternal o).
    - cbn [passTopology t_RetiringDataInstances] in Hin. unfold RetiringDataInstances in Hin.
      case_match; [by apply elem_of_nil in Hin|]. apply list_elem_of_fmap in Hin as (o & -> & _). by exists o, "". }
  cbn [dataInstance d_BoltServer d_ManagementServer d_ReplicationServer].
  repeat (apply Forall_cons; split); [apply announced_printable; [|done]|..|apply Forall_nil_2]; by apply host_printable.
Qed.
End queries.

(** C32: nothing of a stored spec is live in the texts the operator splices it into, in a
    cluster whose name and namespace are of the characters Kubernetes lets names have: the
    script the coordinators start with has the shell's special characters of its fixed part
    and no other, so the domain and the names stay inside the string they are put in; and the
    queries that carry addresses read back, as Cypher literals in a config map, to exactly the
    addresses of the member they are for, declared or retiring and whatever printable external
    addresses were found. *)
Theorem spec_text_is_inert `{RangeOrder} `{Kube} `{QuantityOrder Quantity} {L} (cluster : MemgraphDBCluster L) external
    coordinators data :
  stored (Spec cluster) → named cluster → printable_addresses external →
  specials (coordinatorStartScript (clusterFQDNSuffix cluster (CoordinatorName (m_Name (Meta cluster))) (normalize (Spec cluster)))) =
    specials (coordinatorStartScript "") ∧
  let topology := passTopology cluster external coordinators data in
  (∀ c, c ∈ Coordinators topology ++ t_RetiringCoordinators topology →
     read_config ("ADD COORDINATOR " ^^ Itoa (c_ID c) ^^ " WITH CONFIG ")
       ["bolt_server"; "coordinator_server"; "management_server"] (addCoordinatorQuery c) =
       Some [c_BoltServer c; c_CoordinatorServer c; c_ManagementServer c] ∧
     read_config ("UPDATE CONFIG FOR COORDINATOR " ^^ Itoa (c_ID c) ^^ " ") ["bolt_server"]
       (updateCoordinatorBoltServerQuery (c_ID c) (c_BoltServer c)) = Some [c_BoltServer c]) ∧
  (∀ d, d ∈ DataInstances topology ++ t_RetiringDataInstances topology →
     read_config ("REGISTER INSTANCE " ^^ d_Name d ^^ " WITH CONFIG ")
       ["bolt_server"; "management_server"; "replication_server"] (registerInstanceQuery d) =
       Some [d_BoltServer d; d_ManagementServer d; d_ReplicationServer d] ∧
     read_config ("UPDATE CONFIG FOR INSTANCE " ^^ d_Name d ^^ " ") ["bolt_server"]
       (updateInstanceBoltServerQuery (d_Name d) (d_BoltServer d)) = Some [d_BoltServer d]).
Proof.
  intros Hs Hn He. split; [|split].
  - destruct (role_names cluster Hn) as [Hc _]. unfold coordinatorStartScript. rewrite !specials_app. f_equal. f_equal.
    apply specials_dns. by apply suffix_dns.
  - intros c [Hb [Hcs [Hm _]%Forall_cons]%Forall_cons]%coordinator_printable%Forall_cons; [|done..]. split.
    + etrans; [|exact (read_config_three ("ADD COORDINATOR " ^^ Itoa (c_ID c) ^^ " WITH CONFIG ")
        "bolt_server" _ "coordinator_server" _ "management_server" _ Hb Hcs Hm)].
      unfold addCoordinatorQuery. by rewrite !app_assoc_s.
    + etrans; [|exact (read_config_one ("UPDATE CONFIG FOR COORDINATOR " ^^ Itoa (c_ID c) ^^ " ") "bolt_server" _ Hb)].
      unfold updateCoordinatorBoltServerQuery. by rewrite !app_assoc_s.
  - intros d [Hb [Hm [Hr _]%Forall_cons]%Forall_cons]%dataInstance_printable%Forall_cons; [|done..]. split.
    + etrans; [|exact (read_config_three ("REGISTER INSTANCE " ^^ d_Name d ^^ " WITH CONFIG ")
        "bolt_server" _ "management_server" _ "replication_server" _ Hb Hm Hr)].
      unfold registerInstanceQuery. by rewrite !app_assoc_s.
    + etrans; [|exact (read_config_one ("UPDATE CONFIG FOR INSTANCE " ^^ d_Name d ^^ " ") "bolt_server" _ Hb)].
      unfold updateInstanceBoltServerQuery. by rewrite !app_assoc_s.
Qed.

(** ** External hostnames *)

(** The first of the comma-separated names of the annotation. *)
Definition firstName (hostnames : string) : string :=
  match Cut hostnames "," with Some (hostname, _) => hostname | None => hostnames end.

Lemma Cut_Some s sep a b : Cut s sep = Some (a, b) → s = a ^^ String sep b ∧ free_of sep a = true.
Proof.
  unfold free_of. revert a b. induction s as [|c s IH]; intros a b; [done|]. cbn [Cut]. case_decide as E.
  - intros ?. simplify_eq. by rewrite app_nil_l_s.
  - destruct (Cut s sep) as [[a' b']|]; [|done]. intros ?. simplify_eq/=. destruct (IH a' b) as [-> Hf]; [done|].
    rewrite app_cons_s. cbn [all_chars]. rewrite Hf, andb_true_r. split; [done|]. by apply negb_true_iff, bool_decide_eq_false.
Qed.

Lemma Cut_None s sep : Cut s sep = None ↔ free_of sep s = true.
Proof.
  unfold free_of. induction s as [|c s IH]; [done|]. cbn [Cut all_chars]. case_decide as E.
  - by rewrite bool_decide_eq_true_2.
  - rewrite bool_decide_eq_false_2 by done. cbn [negb andb]. rewrite <- IH. by destruct (Cut s sep) as [[]|].
Qed.

Lemma firstName_replace hostnames ordinal :
  firstName (ReplaceString hostnames OrdinalPlaceholder (Itoa ordinal)) =
  ReplaceString (firstName hostnames) OrdinalPlaceholder (Itoa ordinal).
Proof.
  assert (∀ s, free_of "," s = true → free_of "," (ReplaceString s OrdinalPlaceholder (Itoa ordinal)) = true) as Hf.
  { intros s. apply replace_all_chars. pose proof (Itoa_dns ordinal) as Hd. revert Hd. generalize (Itoa ordinal).
    induction s0 as [|c t IH]; [done|]. cbn [all_chars]. rewrite !andb_true_iff. intros [Hc Ht]. split; [|by apply IH].
    apply negb_true_iff, bool_decide_eq_false. by intros ->. }
  unfold firstName. destruct (Cut hostnames ",") as [[a b]|] eqn:E.
  - apply Cut_Some in E as [-> Ha]. unfold OrdinalPlaceholder in *. rewrite ReplaceString_sep by done.
    rewrite Cut_app; [done|]. by rewrite Hf.
  - apply Cut_None in E. by rewrite (proj2 (Cut_None _ _)) by auto.
Qed.

(** The address a data instance's Service announces, whatever load balancer it got. *)
Definition announced `{Kube} {L} (cluster : MemgraphDBCluster L) (ingress : list Ingress) (ordinal : Z) : string :=
  ExternalBoltAddress (mkServiceView (km_Annotations (sv_Meta (DataExternalService cluster ordinal))) ingress).

Lemma announced_first `{Kube} {L} (cluster : MemgraphDBCluster L) external hostnames ingress ordinal :
  sp_ExternalAccess (Spec cluster) = Some external → ea_Type external = ExternalAccessLoadBalancer →
  er_Annotations (ea_Data external) !! ExternalDNSHostnameAnnotation = Some hostnames →
  firstName hostnames ≠ "" → all_chars printable (firstName hostnames) = true →
  announced cluster ingress ordinal = hostPort (ReplaceString (firstName hostnames) OrdinalPlaceholder (Itoa ordinal)) BoltPort.
Proof.
  intros He Ht Ha Hne Hp. unfold announced, ExternalBoltAddress. cbn [vs_Annotations vs_Ingress].
  assert (externalDNSHost (km_Annotations (sv_Meta (DataExternalService cluster ordinal))) =
          ReplaceString (firstName hostnames) OrdinalPlaceholder (Itoa ordinal)) as ->.
  { unfold DataExternalService, externalService. cbn [sv_Meta km_Annotations]. unfold serviceAnnotations.
    cbn [normalize n_external]. rewrite He. cbn [normalizeExternal nex_typ nex_data ner_annotations]. rewrite Ht.
    rewrite decide_False by done. unfold externalDNSHost, perInstanceAnnotations. rewrite lookup_fmap, Ha.
    cbn [fmap option_fmap option_map default].
    change (TrimSpace (firstName (ReplaceString hostnames OrdinalPlaceholder (Itoa ordinal))) =
            ReplaceString (firstName hostnames) OrdinalPlaceholder (Itoa ordinal)).
    rewrite firstName_replace. apply TrimSpace_printable, replace_all_chars; [|done].
    apply dns_printable, Itoa_dns. }
  assert (ReplaceString (firstName hostnames) OrdinalPlaceholder (Itoa ordinal) ≠ "") as Hr
    by (apply ReplaceString_ne; [done|apply Itoa_ne_nil]).
  cbv zeta. rewrite (decide_False _ _ Hr). by rewrite (decide_False _ _ Hr).
Qed.

(** C23: admission makes the hostname annotation of the data instances hold the ordinal
    placeholder, and yet two instances are announced at one address unless the placeholder is
    in the first of its names: of a stored spec in LoadBalancer mode whose annotation has a
    first name that is not empty and is of printable characters, every data instance is
    announced at that name with the placeholder replaced, whatever the load balancer it got,
    and the addresses of distinct ordinals differ if and only if that name holds it. *)
Theorem announced_hostnames `{Kube} `{QuantityOrder Quantity} {L} (cluster : MemgraphDBCluster L) external hostnames i j ingress ingress' :
  stored (Spec cluster) → sp_ExternalAccess (Spec cluster) = Some external →
  ea_Type external = ExternalAccessLoadBalancer →
  er_Annotations (ea_Data external) !! ExternalDNSHostnameAnnotation = Some hostnames →
  firstName hostnames ≠ "" → all_chars printable (firstName hostnames) = true →
  Contains hostnames OrdinalPlaceholder = true ∧
  announced cluster ingress i = hostPort (ReplaceString (firstName hostnames) OrdinalPlaceholder (Itoa i)) BoltPort ∧
  (i ≠ j → announced cluster ingress i ≠ announced cluster ingress' j ↔
           Contains (firstName hostnames) OrdinalPlaceholder = true).
Proof.
  intros Hs He Ht Ha Hne Hp. split; [|split; [by eapply announced_first|]].
  - apply stored_admits in Hs as [(_ & _ & _ & _ & _ & _ & Hx & _)%admits_parts _]. rewrite He in Hx. cbn [when_some] in Hx.
    unfold admit_externalAccess in Hx. rewrite !andb_true_iff in Hx. destruct Hx as (((((_ & Hx) & _) & _) & _) & _).
    change (when_some (λ h, Contains h OrdinalPlaceholder)
              (er_Annotations (ea_Data external) !! ExternalDNSHostnameAnnotation) = true) in Hx.
    by rewrite Ha in Hx.
  - intros Hij. rewrite !(announced_first cluster external hostnames) by done.
    destruct (Contains (firstName hostnames) OrdinalPlaceholder) eqn:Hc; (split; [|]); [done|..].
    + intros _ E. unfold hostPort in E. apply app_inj_r_s, ReplaceString_inj in E; [|done]. by apply Hij, Itoa_inj.
    + intros Hd. exfalso. apply Hd. unfold OrdinalPlaceholder in *. by rewrite !ReplaceString_absent.
    + done.
Qed.

(** ** Witnesses *)

#[local] Existing Instance Api.Example.kube_text.
#[local] Existing Instance Workloads.Example.quantity_Gi.

Module Example.
Definition external : ExternalAddresses := mkExternalAddresses "" {[ 0%Z := "db.example.com:7687" ]}.
Definition announced_0 : DataInstanceSpec :=
  dataInstance Stored.Example.db (normalize (Spec Stored.Example.db)) 0 "db.example.com:7687".
End Example.

(** A flag-file among the coordinators' flags is let through. *)
Lemma pinned_flags_are_denied_witness :
  roleFlags (nro_flags Stored.Example.dataRole) !! "init_file" = None ∧
  roleFlags (fs_Coordinators Stored.Example.flags) !! "flag_file" = Some "/etc/other.flags".
Proof.
  split; [|vm_compute; reflexivity].
  destruct (pinned_flags_are_denied digest_example Workloads.Example.marshal Stored.Example.db 2 _ _ _ Stored.Example.db_stored
    (conj eq_refl eq_refl) Stored.Example.data_built) as (_ & _ & _ & _ & _ & _ & Hfips).
  apply Hfips; [by eexists|left].
Defined.

Lemma spec_text_is_inert_witness :
  read_config "REGISTER INSTANCE instance_0 WITH CONFIG " ["bolt_server"; "management_server"; "replication_server"]
    (registerInstanceQuery Example.announced_0) =
  Some ["db.example.com:7687"; "db-data-0.db-data.default.svc.cluster.local:10000";
        "db-data-0.db-data.default.svc.cluster.local:20000"].
Proof.
  assert (printable_addresses Example.external) as He.
  { split; [done|]. intros o a Ha. cbn [Example.external ex_Data] in Ha. apply lookup_singleton_Some in Ha as [<- <-].
    by vm_compute. }
  destruct (spec_text_is_inert Stored.Example.db Example.external 3 2 Stored.Example.db_stored (conj eq_refl eq_refl) He)
    as (_ & _ & Hd).
  exact (proj1 (Hd Example.announced_0 ltac:(left))).
Defined.

(** A stored spec whose data instances all announce [db.example.com]. *)
Lemma announced_hostnames_witness :
  announced Stored.Example.db [] 0 = "db.example.com:7687" ∧ announced Stored.Example.db [] 0 = announced Stored.Example.db [] 1.
Proof.
  pose proof (announced_hostnames Stored.Example.db _ _ 0 1 [] [] Stored.Example.db_stored eq_refl eq_refl eq_refl) as H.
  destruct H as (_ & Ha & Hd); [done|by vm_compute|]. split; [rewrite Ha; vm_compute; reflexivity|].
  apply dec_stable. intros Hne. apply Hd in Hne; [|done]. revert Hne. vm_compute. discriminate.
Defined.
