(* ===== verification/ExposurePass.v ===== *)
(** * Package controller: the external objects of a pass

    desiredExternal and desiredMonitoring choose which of the builders' objects a pass
    applies, pruneExternal and pruneMonitoring delete the ones the spec no longer describes,
    and observeExternalAccess reads back the addresses the members are announced at. *)

From S2P Require Import Prelude GoStrings GoErrors K8s Api Client Planner Volumes Effects.
From S2P Require Import Resources Topology Flags Vector Workloads Monitoring Status World Exposure Apply.

(** ** Definitions *)

(** The fields of the reconciler that say which optional APIs the cluster serves, and the
    group versions the third-party packages build. *)
Record Reconciler := mkReconciler {
  GatewayAPI : bool;
  GatewayAPIMissing : string;
  ServiceMonitorAPI : bool;
  ServiceMonitorAPIMissing : string;
  gatewayVersion : string;
  serviceMonitorVersion : string
}.

Definition minGatewayAPIRelease : string := "Gateway API v1.6".
Definition minEnvoyGatewayRelease : string := "v1.9".

(** *** Announcing *)

Definition newExternalAccess : exposure :=
  mkExposure (mkExternalAddresses "" ∅) [] "" (Some (mkExternalAccessStatus "" [])).

Definition waitOn (e : exposure) (name : string) : exposure :=
  if decide (name ∈ ea_pending e) then e
  else mkExposure (ea_addresses e) (ea_pending e ++ [name]) (ea_failure e) (ea_status e).

Definition announceCoordinators (e : exposure) (address waitingOn : string) : exposure :=
  let e := if decide (address = "") then waitOn e waitingOn else e in
  mkExposure (mkExternalAddresses address (ex_Data (ea_addresses e))) (ea_pending e) (ea_failure e)
    ((λ status, mkExternalAccessStatus address (xs_Data status)) <$> ea_status e).

Definition announceData (e : exposure) (ordinal : Z) (address waitingOn : string) : exposure :=
  let e :=
    if decide (address = "") then waitOn e waitingOn
    else mkExposure (mkExternalAddresses (ex_Coordinators (ea_addresses e)) (<[ordinal := address]> (ex_Data (ea_addresses e))))
           (ea_pending e) (ea_failure e) (ea_status e) in
  mkExposure (ea_addresses e) (ea_pending e) (ea_failure e)
    ((λ status, mkExternalAccessStatus (xs_Coordinators status)
                  (xs_Data status ++ [mkExternalAddress (DataInstanceName ordinal) address])) <$> ea_status e).

(** The loops of the two modes over the declared data instances. *)
Fixpoint announce_loop (address : Z → prog eff (string + error)) (waitingOn : Z → string) (todo : list Z) (e : exposure)
    : prog eff (exposure + error) :=
  match todo with
  | [] => mret (inl e)
  | ordinal :: todo =>
      r ← address ordinal;
      match r with
      | inr err => mret (inr err)
      | inl addr => announce_loop address waitingOn todo (announceData e ordinal addr (waitingOn ordinal))
      end
  end.

(** The address of an external Service. *)
Definition serviceAddress (namespace name : string) : prog eff (string + error) :=
  r ← trigger (EGetService namespace name);
  mret match r with
       | inl service => inl (ExternalBoltAddress service)
       | inr err => if IsNotFound err then inl "" else inr (wrap ("getting external Service " ^^ name) err)
       end.

Definition getTCPRoute (namespace name : string) : prog eff (option TCPRouteView + error) :=
  r ← trigger (EGetTCPRoute namespace name);
  mret match r with
       | inl route => inl (Some route)
       | inr err => if IsNotFound err then inl None else inr (wrap ("getting TCPRoute " ^^ name) err)
       end.

(** The address of one listener of the Gateway, [None] when there is no Gateway yet. *)
Definition routeAddress (namespace : string) (gateway : option GatewayView) (routeName : string) (port : Z)
    : prog eff (string + error) :=
  match gateway with
  | None => mret (inl "")
  | Some gateway =>
      r ← getTCPRoute namespace routeName;
      mret match r with
           | inl route => inl (GatewayBoltAddress (Some gateway) route port)
           | inr err => inr err
           end
  end.

Section observe.
Context `{Kube} {L : Type} (cluster : MemgraphDBCluster L) (reconciler : Reconciler).

Definition gatewayFailure : string :=
  "The Gateway API version the operator needs is not served by this cluster (" ^^ GatewayAPIMissing reconciler ^^
  "): it builds " ^^ gatewayVersion reconciler ^^ " Gateways and TCPRoutes, which " ^^ minGatewayAPIRelease ^^
  " or newer serves and which a Gateway controller such as Envoy Gateway " ^^ minEnvoyGatewayRelease ^^
  " or newer installs. Install it, then restart the operator".

(** The coordinators' address, then every declared data instance's. *)
Definition announce (coordinators : prog eff (string + error)) (data : Z → prog eff (string + error))
    (coordinatorsWaitOn : string) (dataWaitOn : Z → string) : prog eff (exposure + error) :=
  r ← coordinators;
  match r with
  | inr err => mret (inr err)
  | inl addr =>
      announce_loop data dataWaitOn (ordinals (DeclaredDataInstances cluster))
        (announceCoordinators newExternalAccess addr coordinatorsWaitOn)
  end.

Definition observeGatewayAccess : prog eff (exposure + error) :=
  let namespace := m_Namespace (Meta cluster) in
  let name := m_Name (Meta cluster) in
  let gatewayName := GatewayName name in
  if negb (GatewayAPI reconciler)
  then
    let e := mkExposure (mkExternalAddresses "" ∅) [] gatewayFailure (ea_status newExternalAccess) in
    mret (inl (foldl (λ e ordinal, announceData e ordinal "" gatewayName) (announceCoordinators e "" gatewayName)
                 (ordinals (DeclaredDataInstances cluster))))
  else
    r ← trigger (EGetGateway namespace gatewayName);
    match (match r with
           | inl gateway => inl (Some gateway)
           | inr err => if IsNotFound err then inl None else inr (wrap ("getting Gateway " ^^ gatewayName) err)
           end) with
    | inr err => mret (inr err)
    | inl gateway =>
        announce (routeAddress namespace gateway (CoordinatorTCPRouteName name) BoltPort)
          (λ ordinal, routeAddress namespace gateway (DataTCPRouteName name ordinal) (DataGatewayPort cluster ordinal))
          gatewayName (λ _, gatewayName)
    end.

Definition observeExternalAccess : prog eff (exposure + error) :=
  match sp_ExternalAccess (Spec cluster) with
  | None => mret (inl (mkExposure (mkExternalAddresses "" ∅) [] "" None))
  | Some _ =>
      if UsesGateway cluster then observeGatewayAccess
      else
        let namespace := m_Namespace (Meta cluster) in
        let name := m_Name (Meta cluster) in
        announce (serviceAddress namespace (CoordinatorExternalServiceName name))
          (λ ordinal, serviceAddress namespace (DataExternalServiceName name ordinal))
          (CoordinatorExternalServiceName name) (DataExternalServiceName name)
  end.
End observe.

(** *** Desired objects and pruning *)

Section desired.
Context `{Kube} {L : Type} (cluster : MemgraphDBCluster L) (reconciler : Reconciler).

Definition desiredExternal (dataReplicas : Z) : list desired :=
  ((λ service, DObject "Service" (km_Name (sv_Meta service))) <$> ExternalServices cluster dataReplicas) ++
  (if UsesGateway cluster && GatewayAPI reconciler
   then DObject "Gateway" (km_Name (gt_Meta (Gateway cluster dataReplicas))) ::
        ((λ route, DObject "TCPRoute" (km_Name (tr_Meta route))) <$> TCPRoutes cluster dataReplicas)
   else []).

(** The object a builder returns; where its block is missing, which [Uses...] excludes, it
    would panic. *)
Definition built {A} (kind : string) (meta : A → KMeta) (object : option A) : list desired :=
  match object with Some object => [DObject kind (km_Name (meta object))] | None => [] end.

Definition desiredMonitoring (grafanaDashboardJSON : string) (marshalScrape : scrapeConfig → string)
    (marshalVector : vectorConfig → string) (coordinatorReplicas dataReplicas : Z) : list desired :=
  (if UsesServiceMonitor cluster && ServiceMonitorAPI reconciler
   then built "ServiceMonitor" so_Meta (ServiceMonitor cluster) else []) ++
  (if UsesGrafanaDashboard cluster
   then built "ConfigMap" cm_Meta (GrafanaDashboard grafanaDashboardJSON cluster) else []) ++
  (if UsesVMAgent cluster
   then built "ConfigMap" cm_Meta (VMAgentConfigMap marshalScrape cluster coordinatorReplicas dataReplicas) ++
        built "Deployment" dp_Meta (VMAgentDeployment cluster) else []) ++
  (if UsesVector cluster then built "ConfigMap" cm_Meta (VectorConfigMap marshalVector cluster) else []).

Definition serviceMonitorFailure : string :=
  if negb (UsesServiceMonitor cluster) || ServiceMonitorAPI reconciler then ""
  else "The ServiceMonitor kind the operator needs is not served by this cluster (" ^^
       ServiceMonitorAPIMissing reconciler ^^ "): it builds " ^^ serviceMonitorVersion reconciler ^^
       " ServiceMonitors, which Prometheus Operator installs. Install it, then restart the operator".

Definition externalKinds : list string := "Service" :: (if GatewayAPI reconciler then ["Gateway"; "TCPRoute"] else []).
Definition monitoringKinds : list string :=
  ["ConfigMap"; "Deployment"] ++ (if ServiceMonitorAPI reconciler then ["ServiceMonitor"] else []).

Definition pruneExternal (desired : list desired) : prog eff (option error) :=
  prune_kinds (m_Namespace (Meta cluster)) (ExternalServicesSelector (m_Name (Meta cluster))) (keptNames desired)
    externalKinds.

Definition pruneMonitoring (desired : list desired) : prog eff (option error) :=
  prune_kinds (m_Namespace (Meta cluster)) (MonitoringSelector (m_Name (Meta cluster))) (keptNames desired)
    monitoringKinds.
End desired.

(** ** Lemmas *)

(** The state of an exposure after announcing the coordinators and some data instances: the
    status block repeats the addresses, no address is empty, the pending objects are named
    once, and there are none exactly when every announced member has its address. *)
Record mirrors (announced : list Z) (e : exposure) : Prop := {
  mi_status : ea_status e = Some (mkExternalAccessStatus (ex_Coordinators (ea_addresses e))
    ((λ ordinal, mkExternalAddress (DataInstanceName ordinal) (ex_Data (ea_addresses e) !!? ordinal | "")) <$> announced));
  mi_known ordinal address : ex_Data (ea_addresses e) !! ordinal = Some address → address ≠ "" ∧ ordinal ∈ announced;
  mi_pending : ea_pending e = [] ↔
    ex_Coordinators (ea_addresses e) ≠ "" ∧ ∀ ordinal, ordinal ∈ announced → is_Some (ex_Data (ea_addresses e) !! ordinal);
  mi_once : NoDup (ea_pending e)
}.

Lemma waitOn_pending e name :
  ea_pending (waitOn e name) ≠ [] ∧ (NoDup (ea_pending e) → NoDup (ea_pending (waitOn e name))).
Proof.
  unfold waitOn. case_decide as Hin; cbn.
  - split; [|done]. intros E. rewrite E in Hin. by apply elem_of_nil in Hin.
  - split; [by intros [_ [=]]%app_nil|]. intros Hn. apply NoDup_app. split; [done|].
    split; [|apply NoDup_singleton]. by intros x Hx ->%list_elem_of_singleton.
Qed.

Lemma waitOn_rest e name :
  ea_addresses (waitOn e name) = ea_addresses e ∧ ea_status (waitOn e name) = ea_status e ∧
  ea_failure (waitOn e name) = ea_failure e.
Proof. unfold waitOn. by case_decide. Qed.

Lemma announceCoordinators_mirrors failure address waitingOn :
  let e := announceCoordinators (mkExposure (mkExternalAddresses "" ∅) [] failure (ea_status newExternalAccess))
             address waitingOn in
  mirrors [] e ∧ ex_Coordinators (ea_addresses e) = address ∧ ea_failure e = failure.
Proof.
  unfold announceCoordinators. cbv zeta. set (e0 := mkExposure (mkExternalAddresses "" ∅) [] failure _).
  destruct (waitOn_pending e0 waitingOn) as [Hp Hn], (waitOn_rest e0 waitingOn) as (Ha & Hs & Hf).
  case_decide as E; cbn; rewrite ?Ha, ?Hs, ?Hf; (split; [|done]); split; cbn; rewrite ?Ha, ?Hs, ?Hf; try done.
  - split; [done|]. by intros [? _].
  - apply Hn. constructor.
  - split; [|done]. intros _. split; [done|]. by intros o ?%elem_of_nil.
  - constructor.
Qed.

Lemma announceData_mirrors announced e ordinal address waitingOn :
  mirrors announced e → ordinal ∉ announced →
  let e' := announceData e ordinal address waitingOn in
  mirrors (announced ++ [ordinal]) e' ∧ ex_Coordinators (ea_addresses e') = ex_Coordinators (ea_addresses e) ∧
  ea_failure e' = ea_failure e ∧ (ex_Data (ea_addresses e') !!? ordinal | "") = address ∧
  ∀ o, o ≠ ordinal → ex_Data (ea_addresses e') !! o = ex_Data (ea_addresses e) !! o.
Proof.
  intros [Hs Hk Hp Ho] Hnew. unfold announceData. cbv zeta.
  destruct (waitOn_pending e waitingOn) as [Hw Hn], (waitOn_rest e waitingOn) as (Ha & Hst & Hf).
  assert (ex_Data (ea_addresses e) !! ordinal = None) as Hnone.
  { destruct (_ !! ordinal) eqn:E; [|done]. by apply Hk in E as [_ ?]. }
  case_decide as E; cbn; rewrite ?Ha, ?Hst, ?Hf, ?Hs; cbn.
  - split; [|by rewrite E, Hnone]. split; cbn; rewrite ?Ha, ?Hst.
    + cbn. rewrite fmap_app. cbn. by rewrite Hnone, E.
    + intros o a Hl. destruct (Hk o a Hl). split; [done|]. apply elem_of_app. by left.
    + split; [done|]. intros [_ Hall]. destruct (Hall ordinal) as [? Hx]; [apply elem_of_app; right; left|]. congruence.
    + by apply Hn.
  - split; [|rewrite lookup_insert_eq; repeat (split; [done|]); intros; by rewrite lookup_insert_ne]. split; cbn.
    + rewrite fmap_app. cbn. rewrite lookup_insert_eq. do 3 f_equal. apply list_fmap_ext. intros i o Ho'.
      rewrite lookup_insert_ne; [done|]. intros <-. by apply list_elem_of_lookup_2 in Ho'.
    + intros o a. destruct (decide (o = ordinal)) as [->|Hne].
      * rewrite lookup_insert_eq. intros [= <-]. split; [done|]. apply elem_of_app. right. left.
      * rewrite lookup_insert_ne by done. intros Hl. destruct (Hk o a Hl). split; [done|]. apply elem_of_app. by left.
    + rewrite Hp. split; intros [? Hall]; (split; [done|]); intros o Hin.
      * apply elem_of_app in Hin as [Hin| ->%list_elem_of_singleton]; [|rewrite lookup_insert_eq; eauto].
        rewrite lookup_insert_ne by (by intros ->). by apply Hall.
      * assert (is_Some (<[ordinal:=address]> (ex_Data (ea_addresses e)) !! o)) as Hl by (apply Hall, elem_of_app; by left).
        rewrite lookup_insert_ne in Hl by (by intros ->). done.
    + done.
Qed.

(** A run of a member's address within a trace. *)
Local Abbreviation found_in t p address := (ran_in t p (inl address)).

Lemma announce_loop_spec address waitingOn todo announced e t e' :
  mirrors announced e → NoDup (announced ++ todo) →
  returns (announce_loop address waitingOn todo e) t (inl e') →
  mirrors (announced ++ todo) e' ∧ ex_Coordinators (ea_addresses e') = ex_Coordinators (ea_addresses e) ∧
  ea_failure e' = ea_failure e ∧
  (∀ o, o ∉ todo → ex_Data (ea_addresses e') !! o = ex_Data (ea_addresses e) !! o) ∧
  ∀ o, o ∈ todo → found_in t (address o) (ex_Data (ea_addresses e') !!? o | "").
Proof.
  revert announced e t. induction todo as [|o todo IH]; intros announced e t He Hn Hrun; cbn [announce_loop] in Hrun.
  { destruct Hrun as [-> [= ->]]. rewrite app_nil_r. repeat (split; [done|]). by intros o ?%elem_of_nil. }
  apply returns_bind in Hrun as (t1 & [addr|err] & t2 & -> & H1 & Hrun); [|by destruct Hrun as [_ [=]]].
  assert (¬ o ∈ announced ∧ ¬ o ∈ todo) as [Ho Ho'].
  { apply NoDup_app in Hn as (_ & Hd & Hn). apply NoDup_cons in Hn as [? _]. split; [|done]. intros Hin. apply (Hd o Hin). left. }
  destruct (announceData_mirrors announced e o addr (waitingOn o) He Ho) as (He1 & Hc & Hf & Ha & Hrest).
  apply (IH (announced ++ [o])) in Hrun as (He' & Hc' & Hf' & Hd' & Hin'); [|done|by rewrite <- app_assoc].
  rewrite <- app_assoc in He'. split; [done|]. split; [by rewrite Hc', Hc|]. split; [by rewrite Hf', Hf|]. split.
  - intros x [Hne Hx]%not_elem_of_cons. rewrite Hd' by done. by apply Hrest.
  - intros x [->|Hx]%elem_of_cons.
    + exists t1. split; [apply list_subseteq_app_l; reflexivity|]. by rewrite Hd', Ha.
    + eapply ran_in_mono, Hin', Hx. apply list_subseteq_app_r; reflexivity.
Qed.

Section announce_lemmas.
Context `{Kube} {L : Type} (cluster : MemgraphDBCluster L) (reconciler : Reconciler).
Local Abbreviation declared := (ordinals (DeclaredDataInstances cluster)).

Lemma announce_spec coordinators data waitC waitD t e :
  returns (announce cluster coordinators data waitC waitD) t (inl e) →
  mirrors declared e ∧ ea_failure e = "" ∧ found_in t coordinators (ex_Coordinators (ea_addresses e)) ∧
  ∀ o, o ∈ declared → found_in t (data o) (ex_Data (ea_addresses e) !!? o | "").
Proof.
  unfold announce. intros (t1 & [addr|err] & t2 & -> & H1 & Hrun)%returns_bind; [|by destruct Hrun as [_ [=]]].
  destruct (announceCoordinators_mirrors "" addr waitC) as (Hm & Hc & Hf).
  apply (announce_loop_spec _ _ _ []) in Hrun as (He & Hc' & Hf' & _ & Hd); [|done|apply NoDup_seqZ].
  unfold newExternalAccess in Hc', Hf'. cbn [ea_status newExternalAccess] in Hc, Hf.
  split; [done|]. split; [by rewrite Hf', Hf|]. split.
  - exists t1. split; [apply list_subseteq_app_l; reflexivity|]. by rewrite Hc', Hc.
  - intros o Ho. eapply ran_in_mono, Hd, Ho. apply list_subseteq_app_r; reflexivity.
Qed.

(** Announcing everyone nowhere, where the Gateway API is not served. *)
Lemma announce_nowhere_spec waitingOn todo announced e :
  mirrors announced e → NoDup (announced ++ todo) → (∀ o : Z, ex_Data (ea_addresses e) !! o = None) →
  let e' := foldl (λ e ordinal, announceData e ordinal "" waitingOn) e todo in
  mirrors (announced ++ todo) e' ∧ ea_failure e' = ea_failure e ∧ ea_addresses e' = ea_addresses e.
Proof.
  revert announced e. induction todo as [|o todo IH]; intros announced e He Hn Hd; cbn [foldl]; [by rewrite app_nil_r|].
  assert (o ∉ announced) as Ho.
  { apply NoDup_app in Hn as (_ & Hdis & _). intros Hin. apply (Hdis o Hin). left. }
  assert (ea_addresses (announceData e o "" waitingOn) = ea_addresses e) as Ea.
  { unfold announceData. rewrite decide_True by done. apply waitOn_rest. }
  destruct (announceData_mirrors announced e o "" waitingOn He Ho) as (He1 & _ & Hf & _).
  destruct (IH (announced ++ [o]) (announceData e o "" waitingOn) He1) as (He' & Hf' & Ha').
  { by rewrite <- app_assoc. } { by rewrite Ea. }
  rewrite <- app_assoc in He'. by rewrite Ha', Hf', Hf, Ea.
Qed.

Lemma announceCoordinators_nowhere e waitingOn :
  ea_addresses e = mkExternalAddresses "" ∅ →
  ea_addresses (announceCoordinators e "" waitingOn) = mkExternalAddresses "" ∅.
Proof.
  intros E. unfold announceCoordinators. cbv zeta. rewrite decide_True by done.
  destruct (waitOn_rest e waitingOn) as [Ha _]. cbn. by rewrite Ha, E.
Qed.

End announce_lemmas.

(** Reading the exposure changes nothing. *)
Lemma observeExternalAccess_quiet `{Kube} {L} (cluster : MemgraphDBCluster L) reconciler :
  all_effects quiet (observeExternalAccess cluster reconciler) ∧
  all_effects unconnected (observeExternalAccess cluster reconciler).
Proof.
  assert (∀ P, (∀ X (e : eff X), match e with EGetService _ _ | EGetGateway _ _ | EGetTCPRoute _ _ => P X e | _ => True end) →
    all_effects P (observeExternalAccess cluster reconciler)) as Hp; [|split; apply Hp; by intros X []].
  intros P HP.
  assert (∀ c d wc wd, all_effects P c → (∀ o, all_effects P (d o)) → all_effects P (announce cluster c d wc wd)) as Ha.
  { intros c d wc wd Hc Hd. unfold announce. apply all_effects_bind; [done|]. intros [addr|err]; [|done].
    generalize (announceCoordinators newExternalAccess addr wc). generalize (ordinals (DeclaredDataInstances cluster)). intros todo.
    induction todo as [|o todo IH]; intros e0; cbn [announce_loop]; [done|].
    apply all_effects_bind; [done|]. intros [a|err]; [apply IH|done]. }
  assert (∀ namespace name, all_effects P (serviceAddress namespace name)) as Hs.
  { intros. split; [apply (HP _ (EGetService _ _))|done]. }
  assert (∀ namespace gateway name port, all_effects P (routeAddress namespace gateway name port)) as Hr.
  { intros namespace [gateway|] name port; [|done]. split; [apply (HP _ (EGetTCPRoute _ _))|done]. }
  unfold observeExternalAccess, observeGatewayAccess. destruct (sp_ExternalAccess _); [|done].
  destruct (UsesGateway cluster); [|by apply Ha]. destruct (negb _); [done|].
  apply all_effects_bind; [split; [apply (HP _ (EGetGateway _ _))|done]|].
  intros [view|err]; [by apply Ha|]. destruct (IsNotFound err); [by apply Ha|done].
Qed.

Section readings.
Context `{Kube} {L : Type} (cluster : MemgraphDBCluster L) (reconciler : Reconciler).
Local Abbreviation namespace := (m_Namespace (Meta cluster)).
Local Abbreviation name := (m_Name (Meta cluster)).
Local Abbreviation declared := (ordinals (DeclaredDataInstances cluster)).

Lemma serviceAddress_found t service address :
  found_in t (serviceAddress namespace service) address →
  ∃ r, Event (EGetService namespace service) r ∈ t ∧
    address = match r with inl view => ExternalBoltAddress view | inr _ => "" end.
Proof.
  intros (u & Hu & (r & u1 & -> & [_ E])%returns_trigger). exists r. split; [apply Hu; left|].
  destruct r as [view|err]; [by injection E as ->|]. destruct (IsNotFound err); [by injection E as ->|done].
Qed.

Lemma routeAddress_found t gateway route port address :
  found_in t (routeAddress namespace (Some gateway) route port) address →
  ∃ r, Event (EGetTCPRoute namespace route) r ∈ t ∧
    address = GatewayBoltAddress (Some gateway) (match r with inl view => Some view | inr _ => None end) port.
Proof.
  intros (u & Hu & Hrun). cbn [routeAddress] in Hrun. apply returns_bind in Hrun as (u1 & q & u2 & -> & Hq & [-> E]).
  apply returns_trigger in Hq as (r & u3 & -> & [-> Eq]). exists r. split; [apply Hu; left|]. subst q.
  destruct r as [view|err]; [by injection E as ->|]. destruct (IsNotFound err); [by injection E as ->|done].
Qed.
End readings.

(** What an external object is pruned by: its kind and name. *)
Lemma DataExternalServiceName_inj name x y :
  DataExternalServiceName name x = DataExternalServiceName name y → x = y.
Proof. unfold DataExternalServiceName. intros E%app_inj_l_s%app_inj_l_s%app_inj_r_s. by apply Itoa_inj. Qed.

Lemma DataExternalServiceName_ne name x : DataExternalServiceName name x ≠ CoordinatorExternalServiceName name.
Proof.
  unfold DataExternalServiceName, CoordinatorExternalServiceName, DataName, CoordinatorName.
  rewrite !app_assoc_s. by intros E%app_inj_l_s.
Qed.

Lemma DataTCPRouteName_inj name x y : DataTCPRouteName name x = DataTCPRouteName name y → x = y.
Proof. unfold DataTCPRouteName. intros E%app_inj_l_s%app_inj_l_s%app_inj_r_s. by apply Itoa_inj. Qed.

Lemma DataTCPRouteName_ne name x : DataTCPRouteName name x ≠ CoordinatorTCPRouteName name.
Proof.
  unfold DataTCPRouteName, CoordinatorTCPRouteName, DataName, CoordinatorName. rewrite !app_assoc_s. by intros E%app_inj_l_s.
Qed.

Section kept.
Context `{Kube} {L : Type} (cluster : MemgraphDBCluster L) (reconciler : Reconciler) (dataReplicas : Z).
Local Abbreviation name := (m_Name (Meta cluster)).
Local Abbreviation kept := (keptNames (desiredExternal cluster reconciler dataReplicas)).
Local Abbreviation exposed := (is_Some (sp_ExternalAccess (Spec cluster))).

Lemma elem_of_kept key :
  key ∈ kept ↔ ∃ d, d ∈ desiredExternal cluster reconciler dataReplicas ∧ appliedKey d = key.
Proof. unfold keptNames. rewrite elem_of_list_to_set, list_elem_of_fmap. naive_solver. Qed.

Lemma elem_of_ExternalServices service :
  service ∈ ExternalServices cluster dataReplicas ↔
  exposed ∧ (service = CoordinatorExternalService cluster ∨
             ∃ o, o ∈ ordinals dataReplicas ∧ service = DataExternalService cluster o).
Proof.
  unfold ExternalServices. destruct (sp_ExternalAccess _) as [e|].
  - rewrite elem_of_cons, list_elem_of_fmap. naive_solver eauto.
  - rewrite elem_of_nil. split; [done|]. by intros [[? ?] _].
Qed.

Lemma kept_service service :
  "Service/" ^^ service ∈ kept ↔
  exposed ∧ (service = CoordinatorExternalServiceName name ∨
             ∃ o, o ∈ ordinals dataReplicas ∧ service = DataExternalServiceName name o).
Proof.
  rewrite elem_of_kept. unfold desiredExternal. split.
  - intros (d & [(s & -> & [Hx Hs]%elem_of_ExternalServices)%list_elem_of_fmap|Hd]%elem_of_app & E).
    + split; [done|]. apply (app_inj_l_s "Service/") in E as <-. destruct Hs as [->|(o & Ho & ->)]; [by left|right; eauto].
    + destruct (_ && _); [|by apply elem_of_nil in Hd].
      apply elem_of_cons in Hd as [->|(r & -> & _)%list_elem_of_fmap]; done.
  - intros [Hx Hs]. destruct Hs as [->|(o & Ho & ->)].
    + exists (DObject "Service" (km_Name (sv_Meta (CoordinatorExternalService cluster)))). split; [|done].
      apply elem_of_app. left. apply (list_elem_of_fmap_2 (λ s, DObject "Service" (km_Name (sv_Meta s)))).
      apply elem_of_ExternalServices. eauto.
    + exists (DObject "Service" (km_Name (sv_Meta (DataExternalService cluster o)))). split; [|done].
      apply elem_of_app. left. apply (list_elem_of_fmap_2 (λ s, DObject "Service" (km_Name (sv_Meta s)))).
      apply elem_of_ExternalServices. eauto.
Qed.

Lemma kept_gateway kind object :
  kind ∈ ["Gateway"; "TCPRoute"] →
  kind ^^ "/" ^^ object ∈ kept ↔
  UsesGateway cluster = true ∧ GatewayAPI reconciler = true ∧
  (kind = "Gateway" ∧ object = GatewayName name ∨
   kind = "TCPRoute" ∧ (object = CoordinatorTCPRouteName name ∨
     ∃ o, o ∈ ordinals dataReplicas ∧ object = DataTCPRouteName name o)).
Proof.
  intros Hk. rewrite elem_of_kept. unfold desiredExternal. split.
  - intros (d & [(s & -> & _)%list_elem_of_fmap|Hd]%elem_of_app & E).
    { by apply elem_of_cons in Hk as [->|Hk%list_elem_of_singleton]; subst. }
    destruct (UsesGateway cluster), (GatewayAPI reconciler); cbn [andb] in Hd; try by apply elem_of_nil in Hd.
    split; [done|]. split; [done|].
    apply elem_of_cons in Hk as [->|Hk%list_elem_of_singleton]; [left|subst kind; right]; (split; [done|]).
    + apply elem_of_cons in Hd as [->|(r & -> & _)%list_elem_of_fmap]; [|done]. by apply (app_inj_l_s "Gateway/") in E as <-.
    + apply elem_of_cons in Hd as [->|(r & -> & Hr)%list_elem_of_fmap]; [done|]. apply (app_inj_l_s "TCPRoute/") in E as <-.
      apply elem_of_cons in Hr as [->|(o & -> & Ho)%list_elem_of_fmap]; [by left|right; eauto].
  - intros (Hu & Hg & Hx). rewrite Hu, Hg. cbn [andb].
    assert (∃ d, d ∈ DObject "Gateway" (km_Name (gt_Meta (Gateway cluster dataReplicas))) ::
                   ((λ route, DObject "TCPRoute" (km_Name (tr_Meta route))) <$> TCPRoutes cluster dataReplicas) ∧
                 appliedKey d = kind ^^ "/" ^^ object) as (d & Hd & E); [|exists d; split; [apply elem_of_app; by right|done]].
    destruct Hx as [[-> ->]|[-> Ho]]; [eexists; split; [left|done]|].
    destruct Ho as [->|(o & Ho & ->)].
    + eexists; split; [right; left|done].
    + exists (DObject "TCPRoute" (km_Name (tr_Meta (DataTCPRoute cluster o)))). split; [|done]. right. right.
      apply (list_elem_of_fmap_2 (λ r, DObject "TCPRoute" (km_Name (tr_Meta r)))). by apply list_elem_of_fmap_2.
Qed.
End kept.

(** The objects a pass adds to the workloads are none of the StatefulSets. *)
Lemma built_object {A} kind (meta : A → KMeta) object d : d ∈ built kind meta object → ∃ name, d = DObject kind name.
Proof. destruct object; cbn; [intros ->%list_elem_of_singleton; eauto|by intros ?%elem_of_nil]. Qed.

Lemma desired_objects `{Kube} {L} (cluster : MemgraphDBCluster L) reconciler dashboard scrape vector coordinators data d :
  d ∈ desiredExternal cluster reconciler data ++
      desiredMonitoring cluster reconciler dashboard scrape vector coordinators data →
  ∃ kind name, d = DObject kind name.
Proof.
  assert (∀ (b : bool) (l : list desired), d ∈ (if b then l else []) → d ∈ l) as Hif by (by intros [] l; [|intros ?%elem_of_nil]).
  unfold desiredExternal, desiredMonitoring. rewrite !elem_of_app.
  intros [[(s & -> & _)%list_elem_of_fmap|Hd%Hif]|[Hd%Hif|[Hd%Hif|[Hd%Hif|Hd%Hif]]]]; [by do 2 eexists| |..].
  - by apply elem_of_cons in Hd as [->|(s & -> & _)%list_elem_of_fmap]; do 2 eexists.
  - by apply built_object in Hd as [? ->]; do 2 eexists.
  - by apply built_object in Hd as [? ->]; do 2 eexists.
  - apply elem_of_app in Hd as [Hd|Hd]; by apply built_object in Hd as [? ->]; do 2 eexists.
  - by apply built_object in Hd as [? ->]; do 2 eexists.
Qed.

(** ** Properties *)

(** C28: the exposure a pass reports is what the external objects say. The status names every
    declared data instance in order with the address it is announced at, an object is
    pending, and named once, exactly while a member has none; a LoadBalancer member's address
    is the one its Service was read with, a Gateway member's the one its route and the Gateway
    give, an object not found counts as without address, and where the Gateway API is not
    served nothing is announced and the exposure has failed. *)
Theorem exposure_mirrors_objects `{Kube} {L} (cluster : MemgraphDBCluster L) reconciler t e :
  let namespace := m_Namespace (Meta cluster) in
  let name := m_Name (Meta cluster) in
  let declared := ordinals (DeclaredDataInstances cluster) in
  is_Some (sp_ExternalAccess (Spec cluster)) →
  returns (observeExternalAccess cluster reconciler) t (inl e) →
  mirrors declared e ∧ mutations t = [] ∧
  (ea_failure e = "" ↔ UsesGateway cluster = false ∨ GatewayAPI reconciler = true) ∧
  let coordinators := ex_Coordinators (ea_addresses e) in
  let data o := ex_Data (ea_addresses e) !!? o | "" in
  if UsesGateway cluster then
    if GatewayAPI reconciler then
      ∃ g, Event (EGetGateway namespace (GatewayName name)) g ∈ t ∧
      match g with
      | inr _ => coordinators = "" ∧ ∀ o, o ∈ declared → data o = ""
      | inl gateway =>
          let announced route port address :=
            ∃ r, Event (EGetTCPRoute namespace route) r ∈ t ∧
              address = GatewayBoltAddress (Some gateway) (match r with inl view => Some view | inr _ => None end) port in
          announced (CoordinatorTCPRouteName name) BoltPort coordinators ∧
          ∀ o, o ∈ declared → announced (DataTCPRouteName name o) (DataGatewayPort cluster o) (data o)
      end
    else ea_addresses e = mkExternalAddresses "" ∅
  else
    let announced service address :=
      ∃ r, Event (EGetService namespace service) r ∈ t ∧
        address = match r with inl view => ExternalBoltAddress view | inr _ => "" end in
    announced (CoordinatorExternalServiceName name) coordinators ∧
    ∀ o, o ∈ declared → announced (DataExternalServiceName name o) (data o).
Proof.
  intros namespace name declared [external He] Hrun. pose proof (quiet_mutations _ _ _ (proj1 (observeExternalAccess_quiet cluster reconciler)) Hrun) as Hm.
  unfold observeExternalAccess in Hrun. rewrite He in Hrun.
  destruct (UsesGateway cluster) eqn:Hg.
  2: { apply announce_spec in Hrun as (Hmi & Hf & Hc & Hd). split; [done|]. split; [done|].
       split; [by split; [left|]|]. split; [by apply serviceAddress_found|]. intros o Ho. by apply serviceAddress_found, Hd. }
  unfold observeGatewayAccess in Hrun. destruct (GatewayAPI reconciler); cbn [negb] in Hrun.
  2: { destruct Hrun as [-> [= ->]]. set (e0 := mkExposure (mkExternalAddresses "" ∅) [] (gatewayFailure reconciler) (Some (mkExternalAccessStatus "" []))).
       destruct (announceCoordinators_mirrors (gatewayFailure reconciler) "" (GatewayName name)) as (Hm0 & _ & Hf).
       cbn [ea_status newExternalAccess] in Hm0, Hf. cbv zeta in Hm0, Hf. fold e0 in Hm0, Hf. pose proof (announceCoordinators_nowhere e0 (GatewayName name) eq_refl) as Ha.
       destruct (announce_nowhere_spec (GatewayName name) declared [] (announceCoordinators e0 "" (GatewayName name)) Hm0) as (Hm' & Hf' & Ha').
       { apply NoDup_seqZ. } { intros o. by rewrite Ha. }
       fold name declared. rewrite Hf', Ha', Hf, Ha. repeat (split; [done|]). split; [|done]. split; [done|]. by intros [|]. }
  apply returns_trigger in Hrun as (g & t1 & -> & Hrun). cbn [mbind prog_bind] in Hrun.
  set (found := match g with inl gateway => inl (Some gateway) | inr err => _ end) in Hrun.
  assert (∃ gateway, found = inl gateway ∧ gateway = match g with inl view => Some view | inr _ => None end) as (gateway & Ef & Eg).
  { subst found. destruct g as [view|err]; [by exists (Some view)|]. destruct (IsNotFound err); [by exists None|by destruct Hrun as [_ [=]]]. }
  rewrite Ef in Hrun.
  apply announce_spec in Hrun as (Hmi & Hf & Hc & Hd). split; [done|]. split; [done|].
  split; [by split; [right|]|]. exists g. split; [left|]. subst gateway. destruct g as [view|err].
  - split.
    + eapply routeAddress_found, ran_in_mono, Hc. apply list_subseteq_cons; reflexivity.
    + intros o Ho. eapply routeAddress_found, ran_in_mono, Hd, Ho. apply list_subseteq_cons; reflexivity.
  - cbn [routeAddress] in Hc, Hd. split; [|intros o Ho].
    + by destruct Hc as (u & _ & [_ [=]]).
    + by destruct (Hd o Ho) as (u & _ & [_ [=]]).
Qed.

(** C27: pruning keeps every way in that is still in use: what a pass deletes is a listed
    external object the cluster controls, by the UID it was listed under; on an exposed
    cluster it is never the coordinators' Service nor the Service of a data pod that runs,
    and in Gateway mode neither the Gateway nor the coordinators' route nor the route of such a
    pod. When pruning succeeds, every controlled external object listed is gone once the
    cluster is not exposed, every Gateway and route once it is exposed by other means, and,
    either way, the Service and the route of a data instance that was shed. *)
Theorem pruning_spares_ways_in `{Kube} {L} (cluster : MemgraphDBCluster L) reconciler dataReplicas t r :
  let name := m_Name (Meta cluster) in
  let namespace := m_Namespace (Meta cluster) in
  let desired := desiredExternal cluster reconciler dataReplicas in
  let exposed := is_Some (sp_ExternalAccess (Spec cluster)) in
  returns (pruneExternal cluster reconciler desired) t r →
  leaves_open t [] ∧
  (∀ m, m ∈ mutations t →
     pruned namespace (ExternalServicesSelector name) (externalKinds reconciler) (keptNames desired) t m) ∧
  (∀ ordinal uid, exposed → ordinal ∈ ordinals dataReplicas →
     (MDeleteObject "Service" (CoordinatorExternalServiceName name) uid ∉ mutations t) ∧
     (MDeleteObject "Service" (DataExternalServiceName name ordinal) uid ∉ mutations t) ∧
     (UsesGateway cluster = true → GatewayAPI reconciler = true →
        (MDeleteObject "Gateway" (GatewayName name) uid ∉ mutations t) ∧
        (MDeleteObject "TCPRoute" (CoordinatorTCPRouteName name) uid ∉ mutations t) ∧
        (MDeleteObject "TCPRoute" (DataTCPRouteName name ordinal) uid ∉ mutations t))) ∧
  (r = None → ∀ kind, kind ∈ externalKinds reconciler →
     ∃ items, Event (EListObjects kind namespace (ExternalServicesSelector name)) (inl items) ∈ t ∧
       ∀ obj, obj ∈ items → lo_Controlled obj = true →
         ¬ exposed ∨ kind ≠ "Service" ∧ UsesGateway cluster = false ∨
         (∃ o, ¬ o ∈ ordinals dataReplicas ∧
            (kind, lo_Name obj) ∈ [("Service", DataExternalServiceName name o); ("TCPRoute", DataTCPRouteName name o)]) →
         MDeleteObject kind (lo_Name obj) (lo_UID obj) ∈ mutations t).
Proof.
  intros name namespace desired exposed Hrun. unfold pruneExternal in Hrun.
  split; [eapply unconnected_leaves; [apply prune_kinds_unconnected|exact Hrun]|].
  apply prune_kinds_spec in Hrun as [Hm Hd]. split; [exact Hm|].
  assert (∀ kind object uid, kind ^^ "/" ^^ object ∈ keptNames desired → MDeleteObject kind object uid ∉ mutations t) as Hkept.
  { intros kind object uid Hk (k & items & obj & _ & _ & _ & _ & Hn & [= -> -> _])%Hm. done. }
  split.
  - intros o uid Hx Ho. split; [|split; [|intros Hu Hg; split; [|split]]]; apply Hkept.
    + apply (kept_service cluster). split; [done|by left].
    + apply (kept_service cluster). split; [done|right; eauto].
    + apply kept_gateway; [left|]. split; [done|]. split; [done|by left].
    + apply kept_gateway; [right; left|]. split; [done|]. split; [done|]. right. split; [done|by left].
    + apply kept_gateway; [right; left|]. split; [done|]. split; [done|]. right. split; [done|right; eauto].
  - intros Hr kind Hkind. destruct (Hd Hr kind Hkind) as (items & Hin & Hdel). exists items. split; [done|].
    intros obj Ho Hc Hwhy. apply Hdel; [done|done|]. intros Hk.
    assert (kind = "Service" ∨ kind ∈ ["Gateway"; "TCPRoute"]) as [->|Hk'].
    { apply elem_of_cons in Hkind as [->|Hkind]; [by left|right]. destruct (GatewayAPI reconciler); [done|by apply elem_of_nil in Hkind]. }
    + apply (kept_service cluster) in Hk as [Hx Hs].
      destruct Hwhy as [?|[[? _]|(o & Hno & Hin')]]; [done|done|].
      apply elem_of_cons in Hin' as [[= En]|Hin'%list_elem_of_singleton]; [|done]. rewrite En in Hs.
      destruct Hs as [Hs|(o' & Ho' & Hs%DataExternalServiceName_inj)]; [by apply DataExternalServiceName_ne in Hs|by subst o'].
    + apply kept_gateway in Hk as (Hu & _ & Hk); [|done].
      destruct Hwhy as [Hnx|[[_ Hu']|(o & Hno & Hin')]]; [|congruence|].
      * apply Hnx. unfold exposed. unfold UsesGateway in Hu. by destruct (sp_ExternalAccess _).
      * apply elem_of_cons in Hin' as [[= -> _]|[= -> En]%list_elem_of_singleton];
          [by apply elem_of_cons in Hk' as [?|Hk'%list_elem_of_singleton]|].
        rewrite En in Hk. destruct Hk as [[? _]|[_ [E|(o' & Ho' & E%DataTCPRouteName_inj)]]];
          [done|by apply DataTCPRouteName_ne in E|by subst o'].
Qed.

(** ** Witnesses: a Gateway in front of two data pods, after a third was shed *)

#[local] Existing Instance Api.Example.kube_text.

Module Example.
Definition cluster : MemgraphDBCluster (gmap string Condition) := Exposure.Example.cluster 9000.
Definition reconciler : Reconciler := mkReconciler true "" true "" "gateway.networking.k8s.io/v1" "monitoring.coreos.com/v1".
Definition handle (X : Type) (e : eff X) (s : unit) : unit * X :=
  (s, match e in eff X return X with
      | EGetGateway _ _ => inl (mkGatewayView ∅ [mkGatewayStatusAddress (Some IPAddressType) "10.0.0.9"])
      | EListObjects "Service" _ _ =>
          inl [mkListedObject "db-data-1-external" "uid-1" true; mkListedObject "db-data-2-external" "uid-2" true]
      | EListObjects "TCPRoute" _ _ => inl [mkListedObject "db-data-2-bolt" "uid-3" true]
      | e => idle _ e
      end).
Definition observed := Effects.run handle (observeExternalAccess cluster reconciler) tt.
Definition prune := Effects.run handle (pruneExternal cluster reconciler (desiredExternal cluster reconciler 2)) tt.
End Example.

Lemma exposure_mirrors_objects_witness :
  ∃ e, Example.observed.2 = inl e ∧ ea_pending e = [] ∧
    ea_status e = Some (mkExternalAccessStatus "10.0.0.9:7687"
      [mkExternalAddress "instance_0" "10.0.0.9:9000"; mkExternalAddress "instance_1" "10.0.0.9:9001"]).
Proof.
  pose proof (run_returns Example.handle (observeExternalAccess Example.cluster Example.reconciler) tt) as Hrun.
  fold Example.observed in Hrun. destruct Example.observed as [[s t] [e|err]] eqn:E; [|by vm_compute in E].
  assert (is_Some (sp_ExternalAccess (Spec Example.cluster))) as Hx by (vm_compute; eauto).
  destruct (exposure_mirrors_objects Example.cluster Example.reconciler t e Hx Hrun) as ([Hs _ _ _] & _).
  exists e. split; [done|]. vm_compute in E. injection E as _ _ <-. done.
Defined.

Lemma pruning_spares_ways_in_witness :
  mutations Example.prune.1.2 =
    [MDeleteObject "Service" "db-data-2-external" "uid-2"; MDeleteObject "TCPRoute" "db-data-2-bolt" "uid-3"] ∧
  leaves_open Example.prune.1.2 [].
Proof.
  split; [vm_compute; reflexivity|].
  pose proof (run_returns Example.handle
    (pruneExternal Example.cluster Example.reconciler (desiredExternal Example.cluster Example.reconciler 2)) tt) as Hrun.
  exact (proj1 (pruning_spares_ways_in Example.cluster Example.reconciler 2 _ _ Hrun)).
Defined.
