(* ===== verification/Events.v ===== *)
(** * Package controller: Events

    events.go: what the operator records of its actions. An Event goes to the recorder as a
    [KEvent]; [recordingClient] wraps the Client of a registration pass, as a transformer of
    [ClusterClient] instances that keeps the Events beside the client's state. *)

From S2P Require Import Prelude GoStrings GoErrors K8s Api Client Planner PlanRun Resources Topology Status World.

(** ** Definitions *)

Definition EventReasonCoordinatorAdded : string := "CoordinatorAdded".
Definition EventReasonCoordinatorAdditionRefused : string := "CoordinatorAdditionRefused".
Definition EventReasonInstanceRegistered : string := "InstanceRegistered".
Definition EventReasonInstanceRegistrationRefused : string := "InstanceRegistrationRefused".
Definition EventReasonMainPromoted : string := "MainPromoted".
Definition EventReasonMainPromotionRefused : string := "MainPromotionRefused".
Definition EventReasonMainDemoted : string := "MainDemoted".
Definition EventReasonMainDemotionRefused : string := "MainDemotionRefused".
Definition EventReasonInstanceUnregistered : string := "InstanceUnregistered".
Definition EventReasonInstanceUnregistrationRefused : string := "InstanceUnregistrationRefused".
Definition EventReasonCoordinatorRemoved : string := "CoordinatorRemoved".
Definition EventReasonCoordinatorRemovalRefused : string := "CoordinatorRemovalRefused".
Definition EventReasonLeadershipYielded : string := "LeadershipYielded".
Definition EventReasonLeadershipYieldRefused : string := "LeadershipYieldRefused".
Definition EventReasonBoltServerUpdated : string := "BoltServerUpdated".
Definition EventReasonBoltServerUpdateRefused : string := "BoltServerUpdateRefused".
Definition EventReasonSettingApplied : string := "SettingApplied".
Definition EventReasonSettingRejected : string := "SettingRejected".
Definition EventReasonCoordinatorSettingApplied : string := "CoordinatorSettingApplied".
Definition EventReasonPodRestarted : string := "PodRestarted".
Definition EventReasonStatefulSetShrunk : string := "StatefulSetShrunk".
Definition EventReasonVolumeExpansionRequested : string := "VolumeExpansionRequested".
Definition EventReasonStatefulSetOrphaned : string := "StatefulSetOrphaned".
Definition EventReasonSystemUserCreated : string := "SystemUserCreated".
Definition EventReasonSystemUserHashCreated : string := "SystemUserHashCreated".
Definition EventReasonSystemUserHashUpdated : string := "SystemUserHashUpdated".
Definition eventActionRegister : string := "Register".
Definition eventActionPromote : string := "Promote".
Definition eventActionDemote : string := "Demote".
Definition eventActionUnregister : string := "Unregister".
Definition eventActionYield : string := "YieldLeadership".
Definition eventActionUpdateConfig : string := "UpdateConfig".
Definition eventActionSetCoordinatorSetting : string := "SetCoordinatorSetting".
Definition eventActionSetLicense : string := "SetLicense".
Definition eventActionSetAWSCredentials : string := "SetAWSCredentials".
Definition eventActionSetRunTimeFlags : string := "SetRunTimeFlags".
Definition eventActionRestart : string := "Restart".
Definition eventActionScaleDown : string := "ScaleDown".
Definition eventActionExpandVolume : string := "ExpandVolume".
Definition eventActionRecreate : string := "RecreateStatefulSet".

Definition normal (related : Related) (reason action note : string) : KEvent :=
  mkKEvent Normal related reason action (truncateMessage note).
Definition warning (related : Related) (reason action note : string) : KEvent :=
  mkKEvent Warning related reason action (truncateMessage note).

(** The pods running the named members of the cluster [cluster]; a name that does not parse
    yields no related object. *)
Definition dataInstancePodRef (cluster instance : string) : Related :=
  match DataInstanceOrdinal instance with
  | inl ordinal => PodRef (PodName (DataName cluster) ordinal)
  | inr _ => NoRef
  end.
Definition coordinatorPodRef (cluster coordinator : string) : Related :=
  match CoordinatorOrdinal coordinator with
  | inl ordinal => PodRef (PodName (CoordinatorName cluster) ordinal)
  | inr _ => NoRef
  end.

(** [record]. *)
Definition recorded (err : option error) (related : Related) (accepted refused action note : string) : KEvent :=
  match err with
  | Some err => warning related refused action (note ^^ " refused: " ^^ Error err)
  | None => normal related accepted action note
  end.

Section recordingClient.
Context (cluster leader : string) {S : Type} `{ClusterClient S}.

(** A call on the wrapped client, and the Event it earns. *)
Definition recording (call : S → S * option error) (event : option error → KEvent)
    (s : S * list KEvent) : (S * list KEvent) * option error :=
  let '(s', err) := call s.1 in ((s', s.2 ++ [event err]), err).

Definition recordingClient : ClusterClient (S * list KEvent) := {|
  client_AddCoordinator c :=
    recording (client_AddCoordinator c) (λ err,
      recorded err (coordinatorPodRef cluster (c_Name c)) EventReasonCoordinatorAdded
        EventReasonCoordinatorAdditionRefused eventActionRegister
        ("Added coordinator " ^^ c_Name c ^^ " to the Raft cluster"));
  client_RegisterInstance i :=
    recording (client_RegisterInstance i) (λ err,
      recorded err (dataInstancePodRef cluster (d_Name i)) EventReasonInstanceRegistered
        EventReasonInstanceRegistrationRefused eventActionRegister
        ("Registered data instance " ^^ d_Name i ^^ " with the coordinators"));
  client_SetInstanceToMain name :=
    recording (client_SetInstanceToMain name) (λ err,
      match err with
      | Some err =>
          warning (dataInstancePodRef cluster name) EventReasonMainPromotionRefused eventActionPromote
            ("The coordinators refused to promote data instance " ^^ name ^^ " to MAIN: " ^^ Error err)
      | None =>
          normal (dataInstancePodRef cluster name) EventReasonMainPromoted eventActionPromote
            ("Promoted data instance " ^^ name ^^ " to MAIN")
      end);
  client_DemoteInstance name :=
    recording (client_DemoteInstance name) (λ err,
      recorded err (dataInstancePodRef cluster name) EventReasonMainDemoted EventReasonMainDemotionRefused
        eventActionDemote ("Demoted retiring data instance " ^^ name ^^ " from MAIN to REPLICA"));
  client_UnregisterInstance name :=
    recording (client_UnregisterInstance name) (λ err,
      recorded err (dataInstancePodRef cluster name) EventReasonInstanceUnregistered
        EventReasonInstanceUnregistrationRefused eventActionUnregister
        ("Unregistered retiring data instance " ^^ name ^^ " from the coordinators"));
  client_RemoveCoordinator id :=
    recording (client_RemoveCoordinator id) (λ err,
      recorded err (coordinatorPodRef cluster (coordinatorName id)) EventReasonCoordinatorRemoved
        EventReasonCoordinatorRemovalRefused eventActionUnregister
        ("Removed retiring coordinator " ^^ coordinatorName id ^^ " from the Raft cluster"));
  client_YieldLeadership :=
    recording client_YieldLeadership (λ err,
      recorded err (coordinatorPodRef cluster leader) EventReasonLeadershipYielded
        EventReasonLeadershipYieldRefused eventActionYield
        ("Yielded Raft leadership of retiring coordinator " ^^ leader ^^ " to another coordinator"));
  client_UpdateCoordinatorBoltServer id bolt :=
    recording (client_UpdateCoordinatorBoltServer id bolt) (λ err,
      recorded err (coordinatorPodRef cluster (coordinatorName id)) EventReasonBoltServerUpdated
        EventReasonBoltServerUpdateRefused eventActionUpdateConfig
        ("Updated the bolt_server coordinator " ^^ coordinatorName id ^^ " announces to " ^^ bolt));
  client_UpdateInstanceBoltServer name bolt :=
    recording (client_UpdateInstanceBoltServer name bolt) (λ err,
      recorded err (dataInstancePodRef cluster name) EventReasonBoltServerUpdated
        EventReasonBoltServerUpdateRefused eventActionUpdateConfig
        ("Updated the bolt_server data instance " ^^ name ^^ " announces to " ^^ bolt))
|}.

(** ** Lemmas *)

(** A call on the recording client is the call on the wrapped one, with an Event beside it. *)
Lemma recording_records call event s evs :
  (∀ err, kv_Type (event (Some err)) = Warning) →
  ∃ new, recording call event (s, evs) = (((call s).1, evs ++ new), (call s).2) ∧
    new ≠ [] ∧ ((call s).2 ≠ None → ∃ e, e ∈ new ∧ kv_Type e = Warning).
Proof.
  intros Hw. unfold recording. simpl. destruct (call s) as [s1 err]. exists [event err]. split; [done|].
  split; [done|]. destruct err as [err|]; [|done]. intros _. exists (event (Some err)). split; [left|apply Hw].
Qed.

Lemma try_candidates_records candidates errs s evs :
  ∃ new, @try_candidates _ recordingClient candidates errs (s, evs) =
         (((try_candidates candidates errs s).1.1, evs ++ new),
          (try_candidates candidates errs s).1.2, (try_candidates candidates errs s).2) ∧
    ((try_candidates candidates errs s).2 = true → new ≠ []) ∧
    ((try_candidates candidates errs s).2 = false → candidates ≠ [] → ∃ e, e ∈ new ∧ kv_Type e = Warning).
Proof.
  revert errs s evs. induction candidates as [|n candidates IH]; intros errs s evs; simpl.
  { exists []. rewrite app_nil_r. done. }
  unfold recording. simpl. destruct (client_SetInstanceToMain n s) as [s1 [err|]].
  - destruct (IH (errs ++ [wrap ("promoting " ^^ n) err]) s1
      (evs ++ [warning (dataInstancePodRef cluster n) EventReasonMainPromotionRefused eventActionPromote
            ("The coordinators refused to promote data instance " ^^ n ^^ " to MAIN: " ^^ Error err)])) as (new & -> & H1 & H2).
    eexists. rewrite <- app_assoc. split; [done|]. split; [done|]. intros _ _. eexists. split; [left|done].
  - eexists. split; [done|]. split; done.
Qed.

Lemma SetInstanceToMain_records candidates restore s evs :
  ∃ new, @run_SetInstanceToMain _ recordingClient candidates restore (s, evs) =
           (((run_SetInstanceToMain candidates restore s).1, evs ++ new),
            (run_SetInstanceToMain candidates restore s).2) ∧
    (candidates ≠ [] → new ≠ [] ∧
       ((run_SetInstanceToMain candidates restore s).2 ≠ None → ∃ e, e ∈ new ∧ kv_Type e = Warning)).
Proof.
  unfold run_SetInstanceToMain. destruct (try_candidates_records candidates [] s evs) as (new & -> & H1 & H2).
  destruct (try_candidates candidates [] s) as [[s1 errs] []]; simpl in *.
  { exists new. split; [done|]. intros _. split; [auto|done]. }
  assert (candidates ≠ [] → new ≠ [] ∧ ∃ e, e ∈ new ∧ kv_Type e = Warning) as Hw.
  { intros Hne. destruct (H2 eq_refl Hne) as (e & He & Ht). split; [|eauto]. intros ->. by apply elem_of_nil in He. }
  case_decide; [exists new; split; [done|]; naive_solver|].
  unfold recording. simpl. destruct (client_SetInstanceToMain restore s1) as [s2 [err|]]; simpl; rewrite <- app_assoc;
    (eexists; split; [done|]; intros (Hn & e & He & Ht)%Hw; split; [by destruct new|];
     intros _; exists e; rewrite elem_of_app; auto).
Qed.

Lemma Run_records c s evs :
  ∃ new, @Run _ recordingClient c (s, evs) = (((Run c s).1, evs ++ new), (Run c s).2) ∧
    ((∀ restore, c ≠ SetInstanceToMain [] restore) →
     new ≠ [] ∧ ((Run c s).2 ≠ None → ∃ e, e ∈ new ∧ kv_Type e = Warning)).
Proof.
  destruct c as [| | | |candidates restore| | | |]; simpl;
    try (edestruct recording_records as (new & -> & Hnew); [|exists new; by split]; done).
  destruct (SetInstanceToMain_records candidates restore s evs) as (new & -> & H1).
  exists new. split; [done|]. intros Hne. apply H1. intros ->. by destruct (Hne restore).
Qed.

(** ** Properties *)

(** Recording is transparent: a plan run on the recording client leaves the wrapped
    client, and answers, exactly as the plan run on the client itself. When it succeeds every
    command has earned an Event, and when it fails one of them is a Warning that says why. *)
Theorem recordingClient_transparent commands s evs :
  ∃ new, @run_plan _ recordingClient commands (s, evs) =
           (((run_plan commands s).1, evs ++ new), (run_plan commands s).2) ∧
    ((∀ restore, SetInstanceToMain [] restore ∉ commands) →
     ((run_plan commands s).2 = None → length commands ≤ length new) ∧
     ((run_plan commands s).2 ≠ None → ∃ e, e ∈ new ∧ kv_Type e = Warning)).
Proof.
  revert s evs. induction commands as [|c commands IH]; intros s evs; simpl.
  { exists []. rewrite app_nil_r. done. }
  destruct (Run_records c s evs) as (new & -> & Hnew). destruct (Run c s) as [s1 [err|]]; simpl in *.
  { exists new. split; [done|]. intros Hne. split; [done|]. intros _. apply Hnew; [|done].
    intros r ->. apply (Hne r). left. }
  destruct (IH s1 (evs ++ new)) as (rest & -> & Hrest). exists (new ++ rest). rewrite app_assoc. split; [done|].
  intros Hne. destruct Hrest as [H1 H2]; [intros r Hr; apply (Hne r); by right|].
  destruct Hnew as [Hn _]; [intros r ->; apply (Hne r); left|]. split.
  - intros Hnone. rewrite length_app. specialize (H1 Hnone). destruct new; [done|]. simpl. lia.
  - intros Herr. destruct (H2 Herr) as (e & He & Ht). exists e. rewrite elem_of_app. auto.
Qed.
End recordingClient.
