(* ===== verification/Encoding.v ===== *)
(** * Go's encodings of bytes

    encoding/hex and base64.RawURLEncoding, on strings as the byte slices they encode: what
    controller/systemuser.go writes its generated passwords and hashes with. *)

From S2P Require Import Prelude GoStrings.

(** ** encoding/hex *)

Fixpoint HexEncode (s : string) : string :=
  match s with
  | "" => ""
  | String c s => String (hex_digit (nat_of_ascii c / 16)) (String (hex_digit (nat_of_ascii c mod 16)) (HexEncode s))
  end.

(** The value of a digit of either case. *)
Definition from_hex (c : ascii) : option nat :=
  let n := nat_of_ascii c in
  if (48 <=? n) && (n <=? 57) then Some (n - 48)
  else if (97 <=? n) && (n <=? 102) then Some (n - 87)
  else if (65 <=? n) && (n <=? 70) then Some (n - 55)
  else None.

Fixpoint HexDecode (s : string) : option string :=
  match s with
  | "" => Some ""
  | String a (String b s) =>
      high ← from_hex a; low ← from_hex b; rest ← HexDecode s;
      Some (String (ascii_of_nat (16 * high + low)) rest)
  | String _ "" => None
  end.

(** ** base64.RawURLEncoding *)

Definition base64_digit (n : nat) : ascii :=
  ascii_of_nat (if n <? 26 then 65 + n
                else if n <? 52 then 71 + n
                else if n <? 62 then n - 4
                else if n =? 62 then 45 else 95).

(** Three bytes at a time, the last one or two without padding. *)
Fixpoint RawURLEncode (s : string) : string :=
  match s with
  | "" => ""
  | String a "" =>
      let a := nat_of_ascii a in
      String (base64_digit (a / 4)) (String (base64_digit (a mod 4 * 16)) "")
  | String a (String b "") =>
      let '(a, b) := (nat_of_ascii a, nat_of_ascii b) in
      String (base64_digit (a / 4)) (String (base64_digit (a mod 4 * 16 + b / 16)) (String (base64_digit (b mod 16 * 4)) ""))
  | String a (String b (String c s)) =>
      let '(a, b, c) := (nat_of_ascii a, nat_of_ascii b, nat_of_ascii c) in
      String (base64_digit (a / 4)) (String (base64_digit (a mod 4 * 16 + b / 16))
        (String (base64_digit (b mod 16 * 4 + c / 64)) (String (base64_digit (c mod 64)) (RawURLEncode s))))
  end.

(** ** Lemmas *)

Lemma from_hex_digit n : n < 16 → from_hex (hex_digit n) = Some n.
Proof. intros Hn. do 16 (destruct n as [|n]; [done|]). lia. Qed.

Lemma HexDecode_Encode s : HexDecode (HexEncode s) = Some s.
Proof.
  induction s as [|c s IH]; [done|]. cbn [HexEncode HexDecode].
  pose proof (nat_ascii_bounded c) as Hc.
  assert (nat_of_ascii c / 16 < 16) by (apply Nat.Div0.div_lt_upper_bound; lia).
  rewrite !from_hex_digit by (try apply Nat.mod_upper_bound; lia). rewrite IH. cbn [mbind option_bind].
  rewrite <- (Nat.div_mod_eq (nat_of_ascii c) 16). by rewrite ascii_nat_embedding.
Qed.

(** A hex text has no separator of the literals in it. *)
Lemma HexEncode_free s : free_of ":" (HexEncode s).
Proof.
  unfold free_of. induction s as [|c s IH]; [done|]. cbn [HexEncode all_chars].
  assert (∀ n, n < 16 → negb (bool_decide (hex_digit n = ":"%char)) = true) as Hd.
  { intros n Hn. do 16 (destruct n as [|n]; [done|]). lia. }
  pose proof (nat_ascii_bounded c) as Hc.
  rewrite !Hd; [exact IH|apply Nat.mod_upper_bound; lia|apply Nat.Div0.div_lt_upper_bound; lia].
Qed.

Lemma length_RawURLEncode s : String.length (RawURLEncode s) = (4 * String.length s + 2) / 3.
Proof.
  induction s as [s IH] using (induction_ltof1 _ String.length). unfold ltof in IH.
  destruct s as [|a [|b [|c s]]]; [done..|]. cbn [RawURLEncode String.length].
  rewrite IH by (cbn; lia). replace (4 * S (S (S (String.length s))) + 2) with (4 * String.length s + 2 + 4 * 3) by lia.
  rewrite Nat.div_add by lia. lia.
Qed.
