(* ===== verification/SystemUser.v ===== *)
(** * Package controller: the system user

    systemuser.go: the password the operator logs in with, generated once into a Secret of
    its own, and the hash of it the pods mount, bcrypt or, while anything runs in FIPS mode,
    pbkdf2-sha256. The two hash functions are parameters; drawing random bytes and a bcrypt
    hash, which is salted anew, are effects. Byte slices are strings. *)

From S2P Require Import Prelude GoStrings GoErrors Encoding K8s Api Client Planner Volumes Effects Bolt.
From S2P Require Import Resources Topology Flags Vector Workloads Status World Events Apply.

(** ** Definitions *)

Definition systemUserBcryptPasswordBytes : nat := 32.
Definition bcryptPrefix : string := "bcrypt:".
Definition pbkdf2Prefix : string := "pbkdf2-sha256:".
Definition pbkdf2Iterations : Z := 600000.
Definition pbkdf2SaltBytes : nat := 16.
Definition pbkdf2KeyBytes : Z := 32.

Definition systemUserHashAlgorithm (fips : bool) : string := if fips then "pbkdf2-sha256" else "bcrypt".

Definition pbkdf2Literal (salt key : string) : string :=
  pbkdf2Prefix ^^ Itoa pbkdf2Iterations ^^ ":" ^^ HexEncode salt ^^ ":" ^^ HexEncode key.

Section systemUser.
(** [pbkdf2.Key(sha256.New, password, salt, iterations, keyLength)], and whether
    [bcrypt.CompareHashAndPassword(hash, password)] is nil. *)
Context (pbkdf2Key : string → string → Z → Z → string + error) (bcryptMatches : string → string → bool).

Definition pbkdf2HashMatches (hash password : string) : bool :=
  match Cut (TrimPrefix hash (pbkdf2Prefix ^^ Itoa pbkdf2Iterations ^^ ":")) ":" with
  | None => false
  | Some (saltHex, keyHex) =>
      match HexDecode saltHex, HexDecode keyHex with
      | Some salt, Some key =>
          if negb (String.length salt =? pbkdf2SaltBytes) || negb (bool_decide (pbkdf2Literal salt key = hash))
          then false
          else match pbkdf2Key password salt pbkdf2Iterations pbkdf2KeyBytes with
               | inl derived => bool_decide (derived = key)
               | inr _ => false
               end
      | _, _ => false
      end
  end.

Definition systemUserHashMatches (hash password : string) (fips : bool) : bool :=
  if fips then pbkdf2HashMatches hash password
  else match CutPrefix hash bcryptPrefix with
       | Some bcryptHash => bcryptMatches bcryptHash password
       | None => false
       end.

Definition hashSystemUserPassword (password : string) (fips : bool) : prog eff (string + error) :=
  if fips
  then
    r ← trigger (ERandom pbkdf2SaltBytes);
    mret match r with
         | inr err => inr (wrap "generating the system user's salt" err)
         | inl salt =>
             match pbkdf2Key password salt pbkdf2Iterations pbkdf2KeyBytes with
             | inr err => inr (wrap "hashing the system user's password" err)
             | inl key => inl (pbkdf2Literal salt key)
             end
         end
  else
    r ← trigger (EBcrypt password);
    mret match r with
         | inr err => inr (wrap "hashing the system user's password" err)
         | inl hash => inl (bcryptPrefix ^^ hash)
         end.

Section cluster.
Context `{RangeOrder} `{Kube} {L : Type} `{ConditionsAPI L} (cluster : MemgraphDBCluster L).

(** The data of a Secret a builder returns, as created or applied. *)
Definition createSystemUserSecret : prog eff (gmap string string + error) :=
  let name := SystemUserSecretName (m_Name (Meta cluster)) in
  r ← trigger (ERandom systemUserBcryptPasswordBytes);
  match r with
  | inr err => mret (inr (wrap "generating the system user's password" err))
  | inl random =>
      let secret := SystemUserSecret cluster (RawURLEncode random) in
      r ← trigger (ESetControllerReference name);
      match r with
      | Some err => mret (inr (wrap ("setting owner reference on Secret " ^^ name) err))
      | None =>
          r ← trigger (ECreateSecret name (se_Data secret));
          match r with
          | Some err =>
              if IsAlreadyExists err then trigger (EGetSecret (m_Namespace (Meta cluster)) name)
              else mret (inr (wrap ("creating Secret " ^^ name) err))
          | None =>
              _ ← trigger (EEvent (normal (SecretRef name) EventReasonSystemUserCreated "CreateSystemUser"
                    ("Generated the password of system user " ^^ SystemUserName ^^ " in Secret " ^^ name)));
              mret (inl (se_Data secret))
          end
      end
  end.

Definition systemUserPassword : prog eff (string + error) :=
  let name := SystemUserSecretName (m_Name (Meta cluster)) in
  r ← trigger (EGetSecret (m_Namespace (Meta cluster)) name);
  r ← match r with
      | inr err => if IsNotFound err then createSystemUserSecret else mret (inr err)
      | inl secret => mret (inl secret)
      end;
  mret match r with
       | inr err => inr (wrap ("reading Secret " ^^ name) err)
       | inl secret =>
           let password := secret !!? SystemUserPasswordKey | "" in
           if decide (password = "")
           then inr (New ("secret " ^^ name ^^ " holds no " ^^ Quote SystemUserPasswordKey ^^
                          " key; delete it and the operator generates a new password"))
           else inl password
       end.

Fixpoint needs_loop (selectors : list (gmap string string)) : prog eff (bool + error) :=
  match selectors with
  | [] => mret (inl false)
  | selector :: selectors =>
      r ← trigger (EListPods (m_Namespace (Meta cluster)) selector);
      match r with
      | inr err => mret (inr (wrap "listing pods" err))
      | inl pods =>
          if List.existsb (λ pod, RunsInFIPSMode (kp_Containers pod)) pods then mret (inl true) else needs_loop selectors
      end
  end.

Definition systemUserNeedsPBKDF2 : prog eff (bool + error) :=
  match sp_FIPS (Spec cluster) with
  | Some _ => mret (inl true)
  | None => needs_loop [CoordinatorPodSelector (m_Name (Meta cluster)); DataPodSelector (m_Name (Meta cluster))]
  end.

(** [applyDesired] of the hash Secret. *)
Definition applyHash (hash : string) (st : passState L) : prog eff (passState L * (appliedObjects + error)) :=
  applyDesired (m_Generation (Meta cluster))
    [DSecret (SystemUserHashSecretName (m_Name (Meta cluster))) (se_Data (SystemUserHashSecret cluster hash))] st.

Definition hashEvent (existed fips : bool) : KEvent :=
  let name := SystemUserHashSecretName (m_Name (Meta cluster)) in
  if existed
  then normal (SecretRef name) EventReasonSystemUserHashUpdated "UpdateSystemUserHash"
         ("Updated the hash of system user " ^^ SystemUserName ^^ " in Secret " ^^ name ^^ " to a " ^^
          systemUserHashAlgorithm fips ^^ " hash of its password")
  else normal (SecretRef name) EventReasonSystemUserHashCreated "CreateSystemUserHash"
         ("Wrote a " ^^ systemUserHashAlgorithm fips ^^ " hash of the password of system user " ^^ SystemUserName ^^
          " into the new Secret " ^^ name).

(** The end of [reconcileSystemUser], once the hash must be written. *)
Definition writeHash (password : string) (fips existed : bool) (st : passState L)
    : prog eff (passState L * (string + error)) :=
  r ← hashSystemUserPassword password fips;
  match r with
  | inr err => mret (st, inr err)
  | inl hash =>
      '(st, r) ← applyHash hash st;
      match r with
      | inr err => mret (st, inr err)
      | inl _ =>
          _ ← trigger (EEvent (hashEvent existed fips));
          mret (st, inl password)
      end
  end.

(** The switch over the read of the hash Secret. *)
Definition settleHash (password : string) (fips : bool) (read : gmap string string + error) (st : passState L)
    : prog eff (passState L * (string + error)) :=
  match read with
  | inl current =>
      let hash := current !!? SystemUserHashKey | "" in
      if systemUserHashMatches hash password fips
      then
        '(st, r) ← applyHash hash st;
        mret (st, match r with inl _ => inl password | inr err => inr err end)
      else writeHash password fips true st
  | inr err =>
      if IsNotFound err then writeHash password fips false st
      else mret (st, inr (wrap ("reading Secret " ^^ SystemUserHashSecretName (m_Name (Meta cluster))) err))
  end.

Definition reconcileSystemUser (st : passState L) : prog eff (passState L * (string + error)) :=
  r ← systemUserPassword;
  match r with
  | inr err => mret (st, inr err)
  | inl password =>
      r ← systemUserNeedsPBKDF2;
      match r with
      | inr err => mret (st, inr err)
      | inl fips =>
          read ← trigger (EGetSecret (m_Namespace (Meta cluster)) (SystemUserHashSecretName (m_Name (Meta cluster))));
          settleHash password fips read st
      end
  end.
End cluster.
End systemUser.

(** ** Lemmas *)

Lemma TrimPrefix_app p s : TrimPrefix (p ^^ s) p = s.
Proof. unfold TrimPrefix. by rewrite CutPrefix_app. Qed.

Section hashes.
Context (pbkdf2Key : string → string → Z → Z → string + error) (bcryptMatches : string → string → bool).

Lemma pbkdf2HashMatches_spec hash password :
  pbkdf2HashMatches pbkdf2Key hash password = true ↔
  ∃ salt key, String.length salt = pbkdf2SaltBytes ∧
    pbkdf2Key password salt pbkdf2Iterations pbkdf2KeyBytes = inl key ∧ hash = pbkdf2Literal salt key.
Proof.
  unfold pbkdf2HashMatches. split.
  - destruct (Cut _ _) as [[saltHex keyHex]|]; [|done].
    destruct (HexDecode saltHex) as [salt|]; [|done]. destruct (HexDecode keyHex) as [key|]; [|done].
    destruct (negb _ || negb _) eqn:E; [done|]. apply orb_false_iff in E as [El El'].
    apply negb_false_iff, Nat.eqb_eq in El. apply negb_false_iff, bool_decide_eq_true in El'.
    destruct (pbkdf2Key _ _ _ _) as [derived|err] eqn:Ek; [|done]. intros ->%bool_decide_eq_true. by exists salt, key.
  - intros (salt & key & Hl & Hk & ->). unfold pbkdf2Literal at 1.
    rewrite <- !(app_assoc_s _ _ (HexEncode salt ^^ _)), <- (app_assoc_s pbkdf2Prefix), TrimPrefix_app.
    change (":" ^^ HexEncode key) with (String ":" (HexEncode key)).
    rewrite Cut_app by apply HexEncode_free. rewrite !HexDecode_Encode, Hl, Hk.
    by rewrite !bool_decide_eq_true_2.
Qed.

(** A fresh hash is one of the password, when random bytes come in the number asked for and
    bcrypt accepts what it made. *)
Lemma hashSystemUserPassword_matches password fips t hash :
  (∀ n s, Event (ERandom n) (inl s) ∈ t → String.length s = n) →
  (∀ password h, Event (EBcrypt password) (inl h) ∈ t → bcryptMatches h password = true) →
  returns (hashSystemUserPassword pbkdf2Key password fips) t (inl hash) →
  systemUserHashMatches pbkdf2Key bcryptMatches hash password fips = true.
Proof.
  intros Hr Hb Hrun. unfold hashSystemUserPassword in Hrun. destruct fips;
    apply returns_trigger in Hrun as ([x|err] & t1 & -> & [-> E]); try done; cbn [systemUserHashMatches].
  - destruct (pbkdf2Key _ _ _ _) as [key|err] eqn:Ek; [|done]. injection E as ->.
    apply pbkdf2HashMatches_spec. exists x, key. split; [|done]. apply (Hr _ _). left.
  - injection E as ->. rewrite CutPrefix_app. apply Hb. left.
Qed.

(** The algorithm of a hash that matches. *)
Lemma systemUserHashMatches_algorithm hash password fips :
  systemUserHashMatches pbkdf2Key bcryptMatches hash password fips = true →
  HasPrefix hash (if fips then pbkdf2Prefix else bcryptPrefix) = true.
Proof.
  unfold systemUserHashMatches, HasPrefix. rewrite bool_decide_eq_true. destruct fips.
  - intros (salt & key & _ & _ & ->)%pbkdf2HashMatches_spec. unfold pbkdf2Literal. rewrite CutPrefix_app. by eexists.
  - destruct (CutPrefix hash bcryptPrefix); [by eexists|done].
Qed.
End hashes.

Section passes.
Context `{RangeOrder} `{Kube} {L : Type} `{ConditionsAPI L} (cluster : MemgraphDBCluster L).
Context (pbkdf2Key : string → string → Z → Z → string + error) (bcryptMatches : string → string → bool).
Local Abbreviation namespace := (m_Namespace (Meta cluster)).
Local Abbreviation passwordName := (SystemUserSecretName (m_Name (Meta cluster))).
Local Abbreviation hashName := (SystemUserHashSecretName (m_Name (Meta cluster))).

(** What a pass may write: the password Secret, created where the API server said there is
    none, and the hash Secret, with nothing in it but a hash. *)
Definition may_write (t : list (event eff)) (X : Type) (e : eff X) : Prop :=
  match e with
  | ECreateSecret name data =>
      name = passwordName ∧ (∃ password, data = {[ SystemUserPasswordKey := password ]}) ∧
      ∃ err, Event (EGetSecret namespace passwordName) (inr err) ∈ t ∧ IsNotFound err = true
  | EApplySecret name data => name = hashName ∧ ∃ hash, data = {[ SystemUserHashKey := hash ]}
  | ERun _ _ | EApplyStatefulSet _ _ _ | EDeletePod _ _ _ | EApply _ _ | EDeleteObject _ _ _ _ | EPatchClaim _ _
  | EOrphanStatefulSet _ _ _ => False
  | _ => True
  end.
Definition only_writes (t u : list (event eff)) : Prop := ∀ X (e : eff X) x, Event e x ∈ u → may_write t X e.

Lemma only_writes_app t u v : only_writes t u → only_writes t v → only_writes t (u ++ v).
Proof. intros Hu Hv X e x [Hin|Hin]%elem_of_app; [by eapply Hu|by eapply Hv]. Qed.

Lemma only_writes_mono t t' u : t ⊆ t' → only_writes t u → only_writes t' u.
Proof.
  intros Ht Hu X e x Hin. specialize (Hu X e x Hin). destruct e; try done. destruct Hu as (? & ? & err & ? & ?).
  split; [done|]. split; [done|]. exists err. split; [by apply Ht|done].
Qed.

Lemma only_writes_cons t X (e : eff X) x u : may_write t X e → only_writes t u → only_writes t (Event e x :: u).
Proof.
  intros He Hu Y f y [Hin|Hin]%elem_of_cons; [|by eapply Hu].
  pose proof (f_equal (λ ev, match ev with @Event _ X e _ => may_write t X e end) Hin) as HP. cbn in HP. by rewrite HP.
Qed.

Lemma only_writes_all {A} t (p : prog eff A) u a : all_effects (may_write t) p → returns p u a → only_writes t u.
Proof. intros Hp Hr X e x Hin. by eapply all_effects_returns. Qed.

(** The password of a pass, as the API server holds it. *)
Definition held (t : list (event eff)) (password : string) : Prop :=
  password ≠ "" ∧ ∃ data, data !! SystemUserPasswordKey = Some password ∧
    (Event (EGetSecret namespace passwordName) (inl data) ∈ t ∨ Event (ECreateSecret passwordName data) None ∈ t).

Lemma createSystemUserSecret_writes t :
  (∃ err, Event (EGetSecret namespace passwordName) (inr err) ∈ t ∧ IsNotFound err = true) →
  all_effects (may_write t) (createSystemUserSecret cluster).
Proof.
  intros HT. unfold createSystemUserSecret. all_effects; try by split.
  apply all_effects_trigger. split; [done|]. split; [by eexists|done].
Qed.

Lemma createSystemUserSecret_spec t data :
  returns (createSystemUserSecret cluster) t (inl data) →
  Event (EGetSecret namespace passwordName) (inl data) ∈ t ∨ Event (ECreateSecret passwordName data) None ∈ t.
Proof.
  unfold createSystemUserSecret. intros ([random|err] & t1 & -> & Hrun)%returns_trigger; [|by destruct Hrun as [_ [=]]].
  apply returns_trigger in Hrun as ([err|] & t2 & -> & Hrun); [by destruct Hrun as [_ [=]]|].
  apply returns_trigger in Hrun as ([err|] & t3 & -> & Hrun); cbn [mbind prog_bind] in Hrun.
  - destruct (IsAlreadyExists err); [|by destruct Hrun as [_ [=]]]. destruct Hrun as (r & t4 & -> & [-> ->]).
    left. do 3 right. left.
  - apply returns_trigger in Hrun as (u & t4 & -> & [-> [= ->]]). right. do 2 right. left.
Qed.

Lemma systemUserPassword_spec t r :
  returns (systemUserPassword cluster) t r →
  only_writes t t ∧ ∀ password, r = inl password → held t password.
Proof.
  unfold systemUserPassword. intros (first & t1 & -> & Hrun)%returns_trigger. cbn [mbind prog_bind] in Hrun.
  apply returns_bind in Hrun as (t2 & secret & t3 & -> & Hs & [-> ->]). rewrite app_nil_r. split.
  - apply only_writes_cons; [done|]. destruct first as [data|err]; [destruct Hs as [-> _]; by intros X e x ?%elem_of_nil|].
    destruct (IsNotFound err) eqn:En; [|destruct Hs as [-> _]; by intros X e x ?%elem_of_nil].
    eapply only_writes_all, Hs. apply createSystemUserSecret_writes. exists err. split; [left|done].
  - intros password E. destruct secret as [data|err]; [|done]. case_decide as Ep; [done|]. injection E as <-.
    split; [done|]. exists data. split.
    { destruct (data !! SystemUserPasswordKey) eqn:El; [done|]. by cbn in Ep. }
    destruct first as [data'|err]; [destruct Hs as [-> [= ->]]; left; left|].
    destruct (IsNotFound err); [|by destruct Hs as [_ [=]]].
    apply createSystemUserSecret_spec in Hs as [?|?]; [left|right]; by right.
Qed.

(** Why a pass wants one algorithm or the other. *)
Definition wants (t : list (event eff)) (fips : bool) : Prop :=
  if fips
  then is_Some (sp_FIPS (Spec cluster)) ∨
       ∃ selector pods pod, Event (EListPods namespace selector) (inl pods) ∈ t ∧ pod ∈ pods ∧
         RunsInFIPSMode (kp_Containers pod) = true
  else sp_FIPS (Spec cluster) = None ∧
       ∀ selector, selector ∈ [CoordinatorPodSelector (m_Name (Meta cluster)); DataPodSelector (m_Name (Meta cluster))] →
         ∃ pods, Event (EListPods namespace selector) (inl pods) ∈ t ∧
           ∀ pod, pod ∈ pods → RunsInFIPSMode (kp_Containers pod) = false.

Lemma wants_mono t t' fips : t ⊆ t' → wants t fips → wants t' fips.
Proof.
  intros Ht. destruct fips; cbn.
  - intros [?|(selector & pods & pod & ? & ?)]; [by left|right]. exists selector, pods, pod. auto.
  - intros [Hs Hl]. split; [done|]. intros selector (pods & ? & ?)%Hl. eauto.
Qed.

Lemma needs_loop_spec selectors t fips :
  returns (needs_loop cluster selectors) t (inl fips) →
  if fips
  then ∃ selector pods pod, Event (EListPods namespace selector) (inl pods) ∈ t ∧ pod ∈ pods ∧
         RunsInFIPSMode (kp_Containers pod) = true
  else ∀ selector, selector ∈ selectors → ∃ pods, Event (EListPods namespace selector) (inl pods) ∈ t ∧
         ∀ pod, pod ∈ pods → RunsInFIPSMode (kp_Containers pod) = false.
Proof.
  revert t. induction selectors as [|selector selectors IH]; intros t Hrun; cbn [needs_loop] in Hrun.
  { destruct Hrun as [-> [= ->]]. by intros selector ?%elem_of_nil. }
  apply returns_trigger in Hrun as ([pods|err] & t1 & -> & Hrun); cbn [mbind prog_bind] in Hrun; [|by destruct Hrun as [_ [=]]].
  destruct (List.existsb _ pods) eqn:E.
  { destruct Hrun as [-> [= ->]]. apply List.existsb_exists in E as (pod & Hin & Hp). exists selector, pods, pod.
    split; [left|]. split; [by apply list_elem_of_In|done]. }
  apply IH in Hrun. destruct fips.
  - destruct Hrun as (s & ps & p & ? & ?). exists s, ps, p. split; [by right|done].
  - intros s [->|Hs]%elem_of_cons.
    + exists pods. split; [left|]. intros pod Hin. apply not_true_iff_false. intros Hp.
      rewrite <- not_true_iff_false in E. apply E, List.existsb_exists. exists pod. split; [by apply list_elem_of_In|done].
    + destruct (Hrun s Hs) as (ps & ? & ?). exists ps. split; [by right|done].
Qed.

Lemma systemUserNeedsPBKDF2_spec t fips :
  returns (systemUserNeedsPBKDF2 cluster) t (inl fips) → wants t fips.
Proof.
  unfold systemUserNeedsPBKDF2, wants. destruct (sp_FIPS (Spec cluster)) as [f|].
  - intros [-> [= ->]]. left. by eexists.
  - intros Hn%needs_loop_spec. destruct fips; [by right|done].
Qed.

Lemma rest_writes t :
  all_effects (may_write t) (systemUserNeedsPBKDF2 cluster) ∧
  (∀ password fips, all_effects (may_write t) (hashSystemUserPassword pbkdf2Key password fips)) ∧
  (∀ hash (st : passState L), all_effects (may_write t) (applyHash cluster hash st)).
Proof.
  split; [|split].
  - unfold systemUserNeedsPBKDF2. generalize [CoordinatorPodSelector (m_Name (Meta cluster)); DataPodSelector (m_Name (Meta cluster))].
    intros l. case_match; [done|]. induction l as [|s l IH]; cbn [needs_loop]; [done|]. all_effects. all: by split.
  - intros password fips. unfold hashSystemUserPassword. all_effects; by split.
  - intros hash st. unfold applyHash, applyDesired, apply_loop. split; [done|]. intros [err|]; [done|].
    split; [split; [done|by eexists]|]. by intros [written|err].
Qed.

Lemma applyHash_spec hash (st : passState L) t st' r :
  returns (applyHash cluster hash st) t (st', r) →
  match r with
  | inl _ => st' = st ∧ ∃ written, Event (EApplySecret hashName {[ SystemUserHashKey := hash ]}) (inl written) ∈ t
  | inr _ => True
  end.
Proof.
  unfold applyHash, applyDesired. intros Hrun. apply apply_loop_spec in Hrun as (_ & _ & Hr).
  destruct r as [applied|err]; [|done]. destruct Hr as (-> & _ & _ & Hw).
  split; [done|]. destruct Hw with (d := DSecret hashName (se_Data (SystemUserHashSecret cluster hash))) as (w & He & _).
  - apply NoDup_singleton.
  - left.
  - by exists w.
Qed.

Lemma writeHash_spec password fips existed (st : passState L) T t st' r :
  returns (writeHash pbkdf2Key cluster password fips existed st) t (st', r) →
  only_writes T t ∧ ∀ p, r = inl p → p = password ∧ st' = st ∧
    ∃ hash u written, u ⊆ t ∧ returns (hashSystemUserPassword pbkdf2Key password fips) u (inl hash) ∧
      Event (EApplySecret hashName {[ SystemUserHashKey := hash ]}) (inl written) ∈ t.
Proof.
  destruct (rest_writes T) as (_ & Hh & Ha). unfold writeHash.
  intros (t1 & [hash|err] & t2 & -> & Hp1 & Hrun)%returns_bind; pose proof (only_writes_all T _ _ _ (Hh _ _) Hp1) as Hw1.
  2: { destruct Hrun as [-> [= -> ->]]. rewrite app_nil_r. split; [done|by intros p [=]]. }
  apply returns_bind in Hrun as (t3 & [st1 r1] & t4 & -> & Hp2 & Hrun).
  pose proof (only_writes_all T _ _ _ (Ha _ _) Hp2) as Hw2. apply applyHash_spec in Hp2.
  destruct r1 as [applied|err].
  2: { destruct Hrun as [-> [= -> ->]]. rewrite app_nil_r. split; [by apply only_writes_app|by intros p [=]]. }
  apply returns_trigger in Hrun as (u & t5 & -> & [-> [= -> ->]]). destruct Hp2 as (-> & written & Hin). split.
  - apply only_writes_app; [done|]. apply only_writes_app; [done|]. apply only_writes_cons; [done|]. by intros X e x ?%elem_of_nil.
  - intros p [= ->]. split; [done|]. split; [done|]. exists hash, t1, written. split; [by apply list_subseteq_app_l|].
    split; [done|]. apply elem_of_app. right. apply elem_of_app. by left.
Qed.

(** The hash a pass applies: the one read, as long as it matches, else a fresh one. *)
Definition settled (t : list (event eff)) (password : string) (fips : bool) (read : gmap string string + error)
    (hash : string) : Prop :=
  let matches hash := systemUserHashMatches pbkdf2Key bcryptMatches hash password fips in
  (∃ current, read = inl current ∧ hash = (current !!? SystemUserHashKey | "") ∧ matches hash = true) ∨
  match read with
  | inl current => matches (current !!? SystemUserHashKey | "") = false
  | inr err => IsNotFound err = true
  end ∧ ∃ u, u ⊆ t ∧ returns (hashSystemUserPassword pbkdf2Key password fips) u (inl hash).

Lemma settleHash_spec password fips read (st : passState L) T t st' r :
  returns (settleHash pbkdf2Key bcryptMatches cluster password fips read st) t (st', r) →
  only_writes T t ∧ ∀ p, r = inl p → p = password ∧ st' = st ∧ ∃ hash written, settled t password fips read hash ∧
    Event (EApplySecret hashName {[ SystemUserHashKey := hash ]}) (inl written) ∈ t.
Proof.
  unfold settleHash, settled. destruct read as [current|err].
  - destruct (systemUserHashMatches _ _ _ _ _) eqn:E.
    + intros (t1 & [st1 r1] & t2 & -> & Hp1 & [-> [= -> ->]])%returns_bind. rewrite app_nil_r.
      destruct (rest_writes T) as (_ & _ & Ha). split; [eapply only_writes_all, Hp1; apply Ha|].
      apply applyHash_spec in Hp1. destruct r1 as [applied|err]; [|done]. destruct Hp1 as (-> & written & Hin).
      intros p [= ->]. split; [done|]. split; [done|]. exists (current !!? SystemUserHashKey | ""), written. eauto 6.
    + intros (Hw & Hr)%(writeHash_spec _ _ _ _ T). split; [done|].
      intros p (-> & -> & hash & u & written & ? & ? & ?)%Hr. split; [done|]. split; [done|]. exists hash, written. eauto 6.
  - destruct (IsNotFound err) eqn:E.
    + intros (Hw & Hr)%(writeHash_spec _ _ _ _ T). split; [done|].
      intros p (-> & -> & hash & u & written & ? & ? & ?)%Hr. split; [done|]. split; [done|]. exists hash, written. eauto 6.
    + intros [-> [= -> ->]]. split; [by intros X e x ?%elem_of_nil|done].
Qed.

(** What [reconcileSystemUser] did, stage by stage. *)
Lemma reconcileSystemUser_spec (st : passState L) t st' r :
  returns (reconcileSystemUser pbkdf2Key bcryptMatches cluster st) t (st', r) →
  only_writes t t ∧ ∀ password, r = inl password → held t password ∧ st' = st ∧
    ∃ fips read hash written, wants t fips ∧ Event (EGetSecret namespace hashName) read ∈ t ∧
      settled t password fips read hash ∧
      Event (EApplySecret hashName {[ SystemUserHashKey := hash ]}) (inl written) ∈ t.
Proof.
  unfold reconcileSystemUser. intros (t1 & [password|err] & t2 & -> & [Hw1 Hheld]%systemUserPassword_spec & Hrun)%returns_bind.
  2: { destruct Hrun as [-> [= -> ->]]. rewrite app_nil_r. split; [done|by intros p [=]]. }
  specialize (Hheld password eq_refl).
  assert (only_writes (t1 ++ t2) t1) as Hw1' by (eapply only_writes_mono, Hw1; by apply list_subseteq_app_l).
  destruct (rest_writes (t1 ++ t2)) as (Hn & _).
  apply returns_bind in Hrun as (t3 & [fips|err] & t4 & -> & Hp1 & Hrun); pose proof (only_writes_all _ _ _ _ Hn Hp1) as Hw3.
  2: { destruct Hrun as [-> [= -> ->]]. rewrite app_nil_r in *. split; [by apply only_writes_app|by intros p [=]]. }
  apply systemUserNeedsPBKDF2_spec in Hp1. apply returns_trigger in Hrun as (read & t5 & -> & Hrun).
  cbn [mbind prog_bind] in Hrun. set (T := t1 ++ t3 ++ _) in *.
  assert (t5 ⊆ T) as Ht5 by (apply list_subseteq_app_r, list_subseteq_app_r, list_subseteq_cons; reflexivity).
  assert (t3 ⊆ T) as Ht3 by (apply list_subseteq_app_r, list_subseteq_app_l; reflexivity).
  assert (t1 ⊆ T) as Ht1 by (apply list_subseteq_app_l; reflexivity).
  apply (settleHash_spec _ _ _ _ T) in Hrun as (Hw5 & Hr). split.
  { do 2 (apply only_writes_app; [done|]). by apply only_writes_cons. }
  intros p (-> & -> & hash & written & Hs & He)%Hr. split.
  { destruct Hheld as (? & data & ? & Hin). split; [done|]. exists data. split; [done|]. destruct Hin; [left|right]; by apply Ht1. }
  split; [done|]. exists fips, read, hash, written. split; [by eapply wants_mono, Hp1|].
  split; [apply elem_of_app; right; apply elem_of_app; right; left|]. split; [|by apply Ht5].
  destruct Hs as [?|(? & u & Hu & ?)]; [by left|right]. split; [done|]. exists u. split; [by etrans|done].
Qed.

Lemma reconcileSystemUser_unconnected (st : passState L) :
  all_effects unconnected (reconcileSystemUser pbkdf2Key bcryptMatches cluster st).
Proof.
  assert (∀ l, all_effects unconnected (needs_loop cluster l)) as Hn.
  { intros l. induction l as [|s l IH]; cbn [needs_loop]; all_effects. }
  assert (∀ hash (st : passState L), all_effects unconnected (applyHash cluster hash st)) as Ha.
  { intros. apply apply_loop_unconnected. }
  unfold reconcileSystemUser, systemUserPassword, createSystemUserSecret, systemUserNeedsPBKDF2, settleHash, writeHash,
    hashSystemUserPassword.
  all_effects.
Qed.
(** What [only_writes] leaves of the mutations. *)
Lemma only_writes_mutations t u m :
  only_writes t u → m ∈ mutations u → m = MApplyObject "Secret" passwordName ∨ m = MApplyObject "Secret" hashName.
Proof.
  induction u as [|[X e x] u IH]; [by intros _ ?%elem_of_nil|]. intros Hw. rewrite mutations_cons.
  intros [Hm|Hm]%elem_of_app; [|by apply IH; [intros Y f y ?; apply (Hw Y f y); right|]].
  specialize (Hw X e x ltac:(left)). destruct e; cbn in Hw, Hm; try done; try (by apply elem_of_nil in Hm).
  all: apply list_elem_of_singleton in Hm as ->; destruct Hw as [-> _]; auto.
Qed.
End passes.

(** ** Properties *)

(** A hash the operator wrote is recognised, and nothing else is: [pbkdf2HashMatches]
    accepts exactly the literals [pbkdf2Literal] makes of a 16-byte salt and of the key
    derived from the password with it, so a hash is kept as long as it fits the password and
    any text Memgraph would read another way, uppercase hex included, is rewritten. *)
Theorem pbkdf2_roundtrip pbkdf2Key hash password :
  pbkdf2HashMatches pbkdf2Key hash password = true ↔
  ∃ salt key, String.length salt = pbkdf2SaltBytes ∧
    pbkdf2Key password salt pbkdf2Iterations pbkdf2KeyBytes = inl key ∧ hash = pbkdf2Literal salt key.
Proof. apply pbkdf2HashMatches_spec. Qed.

(** C12: the password is never replaced: whatever the API server answers, a pass creates the
    password Secret only where a read said there is none, never applies it, and otherwise
    writes only the hash Secret; the password it goes on with is not empty and is what the
    API server holds, read from the Secret or created in it, also when another pass created
    it first. *)
Theorem password_never_replaced `{RangeOrder} `{Kube} {L} `{ConditionsAPI L} (cluster : MemgraphDBCluster L)
    pbkdf2Key bcryptMatches st t st' r :
  returns (reconcileSystemUser pbkdf2Key bcryptMatches cluster st) t (st', r) →
  leaves_open t [] ∧ only_writes cluster t t ∧ ∀ password, r = inl password → held cluster t password.
Proof.
  intros Hrun. split; [eapply unconnected_leaves; [apply reconcileSystemUser_unconnected|exact Hrun]|].
  apply reconcileSystemUser_spec in Hrun as [Hw Hr]. split; [done|]. by intros p [Hh _]%Hr.
Qed.

(** C19: the hash the pods mount is one they load and one that lets the operator in: a pass
    that returns a password has applied a hash of it, in pbkdf2-sha256 when the spec asks for
    FIPS mode or a pod still runs in it, and in bcrypt only when the spec does not and no pod
    listed of either role does; and it writes another hash than the one it read only when
    that one does not match. Random bytes come in the number asked for, and bcrypt accepts
    the hashes it makes. *)
Theorem hash_fits_every_pod `{RangeOrder} `{Kube} {L} `{ConditionsAPI L} (cluster : MemgraphDBCluster L)
    pbkdf2Key bcryptMatches st t st' password :
  (∀ n s, Event (ERandom n) (inl s) ∈ t → String.length s = n) →
  (∀ password h, Event (EBcrypt password) (inl h) ∈ t → bcryptMatches h password = true) →
  returns (reconcileSystemUser pbkdf2Key bcryptMatches cluster st) t (st', inl password) →
  let namespace := m_Namespace (Meta cluster) in
  let name := SystemUserHashSecretName (m_Name (Meta cluster)) in
  let matches hash fips := systemUserHashMatches pbkdf2Key bcryptMatches hash password fips in
  ∃ fips hash written, wants cluster t fips ∧
    Event (EApplySecret name {[ SystemUserHashKey := hash ]}) (inl written) ∈ t ∧
    matches hash fips = true ∧ HasPrefix hash (if fips then pbkdf2Prefix else bcryptPrefix) = true ∧
    ∃ read, Event (EGetSecret namespace name) read ∈ t ∧
      match read with
      | inl current => matches (current !!? SystemUserHashKey | "") fips = true → hash = (current !!? SystemUserHashKey | "")
      | inr err => IsNotFound err = true
      end.
Proof.
  intros Hrandom Hbcrypt Hrun namespace name matches.
  apply reconcileSystemUser_spec in Hrun as [_ Hr].
  destruct (Hr password eq_refl) as (_ & _ & fips & read & hash & written & Hwants & Hread & Hs & He).
  assert (matches hash fips = true) as Hm.
  { destruct Hs as [(_ & _ & _ & ?)|(_ & u & Hu & Hh)]; [done|].
    eapply hashSystemUserPassword_matches, Hh; [intros n s ?|intros p h ?]; [apply Hrandom|apply Hbcrypt]; by apply Hu. }
  exists fips, hash, written. split; [done|]. split; [done|]. split; [done|].
  split; [by eapply systemUserHashMatches_algorithm|]. exists read. split; [done|].
  destruct Hs as [(current & -> & -> & _)|[Hno _]]; [done|]. destruct read as [current|err]; [|done].
  intros Hyes. unfold matches in Hyes. congruence.
Qed.

(** ** Witnesses: the first pass of a cluster outside FIPS mode with one pod still in it *)

#[local] Existing Instance Api.Example.kube_text.

Module Example.
Definition cluster : MemgraphDBCluster (gmap string Condition) := Api.Example.cluster (Some 1%Z) (Some 1%Z).
Definition key (password salt : string) (iterations length : Z) : string + error := inl (password ^^ salt).
Definition bcrypt (hash password : string) : bool := bool_decide (hash = password).
Definition st : passState (gmap string Condition) := mkPassState (Status_ cluster) ∅.
Fixpoint random (n : nat) : string := match n with 0 => "" | S n => String "x" (random n) end.
Definition handle (X : Type) (e : eff X) (s : unit) : unit * X :=
  (s, match e in eff X return X with
      | EGetSecret _ name => inr (StatusError NotFound name)
      | ERandom n => inl (random n)
      | EBcrypt password => inl password
      | EListPods _ selector =>
          inl [mkKPod "db-data-0" "u" ∅ ∅ false [] [(containerName, [fipsModeArg])]]
      | e => idle _ e
      end).
Definition pass := Effects.run handle (reconcileSystemUser key bcrypt cluster st) tt.
End Example.

Lemma password_never_replaced_witness :
  leaves_open Example.pass.1.2 [] ∧ ∃ password, Example.pass.2.2 = inl password ∧ held Example.cluster Example.pass.1.2 password.
Proof.
  pose proof (run_returns Example.handle (reconcileSystemUser Example.key Example.bcrypt Example.cluster Example.st) tt) as Hrun.
  fold Example.pass in Hrun. destruct Example.pass as [[s t] [st' r]] eqn:E. cbn in *.
  destruct (password_never_replaced Example.cluster Example.key Example.bcrypt Example.st t st' r Hrun) as (Ho & _ & Hh).
  split; [done|]. destruct r as [password|err]; [|by vm_compute in E]. exists password. split; [done|]. by apply Hh.
Defined.

Lemma hash_fits_every_pod_witness :
  ∃ password hash, Example.pass.2.2 = inl password ∧ HasPrefix hash pbkdf2Prefix = true ∧
    systemUserHashMatches Example.key Example.bcrypt hash password true = true.
Proof.
  pose proof (run_returns Example.handle (reconcileSystemUser Example.key Example.bcrypt Example.cluster Example.st) tt) as Hrun.
  pose proof (λ X, run_answers Example.handle (reconcileSystemUser Example.key Example.bcrypt Example.cluster Example.st) tt X)
    as Hans.
  fold Example.pass in Hrun, Hans. destruct Example.pass as [[s t] [st' r]] eqn:E. cbn in Hrun, Hans |- *.
  destruct r as [password|err]; [|by vm_compute in E].
  destruct (hash_fits_every_pod Example.cluster Example.key Example.bcrypt Example.st t st' password) as
    (fips & hash & written & Hwants & _ & Hm & Hp & _); [..|exact Hrun|].
  - intros n bytes Hin. destruct (Hans _ _ _ Hin) as [_ Ha]. cbn in Ha. injection Ha as ->. clear.
    induction n as [|n IH]; [done|]. cbn. by rewrite IH.
  - intros p h Hin. destruct (Hans _ _ _ Hin) as [_ Ha]. cbn in Ha. injection Ha as ->. by apply bool_decide_eq_true.
  - destruct fips; [by exists password, hash|]. destruct Hwants as [_ Hl].
    destruct (Hl (CoordinatorPodSelector "db")) as (pods & Hin & Hall); [left|].
    destruct (Hans _ _ _ Hin) as [_ Ha]. cbn in Ha. injection Ha as ->.
    specialize (Hall _ ltac:(left)). by vm_compute in Hall.
Defined.
