(* ===== verification/SettingsPass.v ===== *)
(** * Package controller: settings and license on the running instances

    reconcileLicense, reconcileSettings and reconcileAWSCredentials, with applySettings,
    observedSettings and readInstance under them; the coordinator settings are in
    FlagClasses.v. The reads of a pass ([podSettings]) are a shared map the source mutates: it
    is threaded through and returned. *)

From S2P Require Import Prelude GoStrings GoErrors K8s Api Client Planner Effects Settings.
From S2P Require Import Rollout Resources Topology Flags Status World Events.

(** ** Definitions *)

(** What the pass read of each pod, by pod name: its settings or the error reading them. *)
Abbreviation podSettings := (gmap string (gmap string string + error)).

Definition runTimeSetting (change : Change) : string :=
  "SET DATABASE SETTING " ^^ Quote (ch_Setting change) ^^ " TO " ^^ Quote (ch_Value change).
Definition secretSetting (change : Change) : string :=
  "SET DATABASE SETTING " ^^ Quote (ch_Setting change) ^^ " from the Secret".

(** The error of the deferred [Close] is only logged. *)
Definition readInstance (endpoint : Endpoint) (query : conn → prog eff (gmap string string + error))
    : prog eff (gmap string string + error) :=
  r ← trigger (EConnect (ep_Address endpoint) (ep_TLS endpoint));
  match r with
  | inr err => mret (inr err)
  | inl c =>
      view ← query c;
      _ ← trigger (EClose c);
      mret view
  end.

Definition observedSettings (reads : podSettings) (endpoint : Endpoint)
    : prog eff (podSettings * (gmap string string + error)) :=
  match reads !! ep_Pod endpoint with
  | Some read => mret (reads, read)
  | None =>
      read ← readInstance endpoint (λ c, trigger (EShowSettings c));
      mret (<[ep_Pod endpoint := read]> reads, read)
  end.

Section applySettings.
Context (action : string) (describe : Change → string).

Definition recordRan (pod : string) (ran : list string) : prog eff unit :=
  match ran with
  | [] => mret tt
  | _ => trigger (EEvent (normal (PodRef pod) EventReasonSettingApplied action
                            ("Ran " ^^ Join ran ", " ^^ " on pod " ^^ pod)))
  end.

(** The loop over the changes: the settings as recorded, what landed, and the refusal. *)
Fixpoint set_loop (c : conn) (pod : string) (changes : list Change) (observed : gmap string string)
    (applied : list Change) (ran : list string) : prog eff (gmap string string * list Change * option error) :=
  match changes with
  | [] => _ ← recordRan pod ran; mret (observed, applied, None)
  | change :: changes =>
      r ← trigger (ESetSetting c (ch_Setting change) (ch_Value change));
      match r with
      | Some err =>
          _ ← recordRan pod ran;
          _ ← trigger (EEvent (warning (PodRef pod) EventReasonSettingRejected action
                                 ("Pod " ^^ pod ^^ " rejected " ^^ describe change ^^ ": " ^^ Error err)));
          mret (observed, applied, Some (SettingRejected (describe change) err))
      | None =>
          set_loop c pod changes (<[ch_Setting change := ch_Value change]> observed)
            (applied ++ [change]) (ran ++ [describe change])
      end
  end.

Definition applySettings (reads : podSettings) (endpoint : Endpoint) (plan : gmap string string → list Change)
    : prog eff (podSettings * list Change * option error) :=
  '(reads, view) ← observedSettings reads endpoint;
  match view with
  | inr err => mret (reads, [], Some err)
  | inl observed =>
      match plan observed with
      | [] => mret (reads, [], None)
      | changes =>
          r ← trigger (EConnect (ep_Address endpoint) (ep_TLS endpoint));
          match r with
          | inr err => mret (reads, [], Some err)
          | inl c =>
              '(observed, applied, err) ← set_loop c (ep_Pod endpoint) changes observed [] [];
              _ ← trigger (EClose c);
              mret (<[ep_Pod endpoint := inl observed]> reads, applied, err)
          end
      end
  end.

(** [ready[pod.Name] = pod.Ready]. *)
Definition readyPods (role : Role) : gmap string bool :=
  foldl (λ ready pod, <[p_Name pod := p_Ready pod]> ready) ∅ (r_Pods role).

(** The loop over a role's endpoints that the license, the run-time flags and the AWS
    credentials share: the reads, then the rejections and the pods still owed. *)
Fixpoint apply_to_pods (plan : gmap string string → list Change) (ready : gmap string bool)
    (endpoints : list Endpoint) (reads : podSettings) (rejected pending : list string)
    : prog eff (podSettings * list string * list string) :=
  match endpoints with
  | [] => mret (reads, rejected, pending)
  | endpoint :: endpoints =>
      if negb (ready !!? (ep_Pod endpoint) | false)
      then apply_to_pods plan ready endpoints reads rejected pending
      else
        '(reads, _, err) ← applySettings reads endpoint plan;
        match err with
        | None => apply_to_pods plan ready endpoints reads rejected pending
        | Some err =>
            match as_setting_rejected err with
            | Some (command, cause) =>
                apply_to_pods plan ready endpoints reads
                  (rejected ++ [ep_Pod endpoint ^^ " rejected " ^^ command ^^ ": " ^^ Error cause]) pending
            | None => apply_to_pods plan ready endpoints reads rejected (pending ++ [ep_Pod endpoint])
            end
        end
  end.
End applySettings.

(** The roles of a pass, as far as the settings need them: the applied count and the pods. *)
Section passes.
Context `{RangeOrder} `{Kube} {L : Type} (cluster : MemgraphDBCluster L).
Context (appliedCoordinators appliedData : Z) (data coordinators : Role).

Definition reconcileSettings (reads : podSettings) : prog eff (podSettings * settingsOutcome) :=
  '(reads, rejected, pending) ←
    apply_to_pods eventActionSetRunTimeFlags runTimeSetting (λ observed, Settings.Plan (DataFlags (Spec cluster)) observed)
      (readyPods data) (DataEndpoints cluster appliedData) reads [] [];
  '(reads, rejected, pending) ←
    apply_to_pods eventActionSetRunTimeFlags runTimeSetting (λ observed, Settings.Plan (CoordinatorFlags (Spec cluster)) observed)
      (readyPods coordinators) (CoordinatorEndpoints cluster appliedCoordinators) reads rejected pending;
  mret (reads, mkSettingsOutcome pending rejected "").

(** [readAWSCredentials] and [readLicense], with the errors the source makes of a read. *)
Definition secretError (name : string) (err : error) : error :=
  if IsNotFound err then Errorf ("the Secret " ^^ name ^^ " does not exist") []
  else wrap ("getting Secret " ^^ name) err.

Definition awsCredentials : list (string * string) :=
  [(AWSAccessKeySetting, AWSAccessKeySecretKey); (AWSSecretKeySetting, AWSSecretKeySecretKey);
   (AWSRegionSetting, AWSRegionSecretKey); (AWSEndpointURLSetting, AWSEndpointURLSecretKey)].

Definition readAWSCredentials (namespace name : string) : prog eff (gmap string string + error) :=
  r ← trigger (EGetSecret namespace name);
  match r with
  | inr err => mret (inr (secretError name err))
  | inl secret =>
      mret (inl (foldl (λ desired '(setting, key),
                          match secret !! key with
                          | Some value => <[setting := value]> desired
                          | None => desired
                          end) ∅ awsCredentials))
  end.

Definition reconcileAWSCredentials (reads : podSettings) : prog eff (podSettings * settingsOutcome) :=
  let name := AWSCredentialsSecretOf (Spec cluster) in
  if decide (name = "") then mret (reads, mkSettingsOutcome [] [] "")
  else
    r ← readAWSCredentials (m_Namespace (Meta cluster)) name;
    match r with
    | inr err => mret (reads, mkSettingsOutcome ["the AWS credentials, because " ^^ Error err] [] "")
    | inl desired =>
        '(reads, rejected, pending) ←
          apply_to_pods eventActionSetAWSCredentials secretSetting (λ observed, Diff desired observed)
            (readyPods data) (DataEndpoints cluster appliedData) reads [] [];
        mret (reads, mkSettingsOutcome pending rejected "")
    end.

Definition readLicense (namespace : string) (ref : LicenseSecret) : prog eff ((string * string) + error) :=
  r ← trigger (EGetSecret namespace (lc_Name ref));
  match r with
  | inr err => mret (inr (secretError (lc_Name ref) err))
  | inl secret =>
      let missing key := inr (Errorf ("the Secret " ^^ lc_Name ref ^^ " has no key " ^^ key) []) in
      match secret !! lc_LicenseKey ref, secret !! lc_OrganizationKey ref with
      | None, _ => mret (missing (lc_LicenseKey ref))
      | Some _, None => mret (missing (lc_OrganizationKey ref))
      | Some license, Some organization => mret (inl (license, organization))
      end
  end.

Definition reconcileLicense (reads : podSettings) : prog eff (podSettings * Condition) :=
  let ref := LicenseSecretOf (Spec cluster) in
  r ← readLicense (m_Namespace (Meta cluster)) ref;
  match r with
  | inr err => mret (reads, notLicenseAppliedCondition ReasonLicensePending (Error err))
  | inl (license, organization) =>
      let plan observed := License license organization observed in
      '(reads, rejected, pending) ←
        apply_to_pods eventActionSetLicense secretSetting plan
          (readyPods data) (DataEndpoints cluster appliedData) reads [] [];
      '(reads, rejected, pending) ←
        apply_to_pods eventActionSetLicense secretSetting plan
          (readyPods coordinators) (CoordinatorEndpoints cluster appliedCoordinators) reads rejected pending;
      mret (reads,
        if 0 <? length rejected
        then notLicenseAppliedCondition ReasonLicenseRejected (truncateMessage (Join rejected "; "))
        else if 0 <? length pending
        then notLicenseAppliedCondition ReasonLicensePending
               ("Waiting to check the license on " ^^ Join pending ", ")
        else trueCondition ConditionLicenseApplied ReasonLicenseMatchesSecret
               ("Every ready pod runs the license in Secret " ^^ lc_Name ref))
  end.
End passes.

(** ** What a run did to the instances *)

(** The SHOW DATABASE SETTINGS of a trace, the SETs an instance accepted, and the
    connections it opened or closed. *)
Definition show_of (e : event eff) : list conn :=
  match e with
  | Event (EShowSettings c) _ => [c]
  | _ => []
  end.
Definition accepted_of (e : event eff) : list Change :=
  match e with
  | Event (ESetSetting _ name value) None => [mkChange name value]
  | _ => []
  end.
Definition shows (t : list (event eff)) : list conn := t ≫= show_of.
Definition accepted (t : list (event eff)) : list Change := t ≫= accepted_of.

Lemma shows_app t u : shows (t ++ u) = shows t ++ shows u.
Proof. apply bind_app. Qed.
Lemma accepted_cons e t : accepted (e :: t) = accepted_of e ++ accepted t.
Proof. done. Qed.
Lemma accepted_app t u : accepted (t ++ u) = accepted t ++ accepted u.
Proof. apply bind_app. Qed.

(** ** Lemmas *)

(** A trace that only SETs and records: what [set_loop] may do. *)
Definition only_sets (t : list (event eff)) : Prop := leaves_open t [] ∧ shows t = [].

Lemma only_sets_nil : only_sets [].
Proof. split; [apply leaves_open_nil|done]. Qed.

Lemma only_sets_skip e t :
  opens e = [] → closes e = [] → show_of e = [] → only_sets t → only_sets (e :: t).
Proof. intros Ho Hc Hs [Hl Ht]. split; [by apply leaves_open_skip|]. unfold shows. cbn. by rewrite Hs. Qed.

Lemma recordRan_spec action pod ran t u :
  returns (recordRan action pod ran) t u → only_sets t ∧ accepted t = [].
Proof.
  unfold recordRan. destruct ran.
  - intros [-> _]. split; [apply only_sets_nil|done].
  - intros (x & t' & -> & [-> _]). split; [|done]. apply only_sets_skip; try done. apply only_sets_nil.
Qed.

Lemma only_sets_app t u : only_sets t → only_sets u → only_sets (t ++ u).
Proof.
  intros [Hl Hs] [Hl' Hs']. split; [by apply leaves_open_after|]. by rewrite shows_app, Hs, Hs'.
Qed.

Lemma set_loop_spec action describe c pod changes observed applied ran t observed' applied' err :
  returns (set_loop action describe c pod changes observed applied ran) t (observed', applied', err) →
  ∃ landed rest, changes = landed ++ rest ∧ applied' = applied ++ landed ∧ observed' = issue observed landed ∧
    only_sets t ∧ accepted t = landed ∧
    match err with
    | None => rest = []
    | Some e => ∃ change rest' cause, rest = change :: rest' ∧ e = SettingRejected (describe change) cause
    end.
Proof.
  revert observed applied ran t. induction changes as [|change changes IH]; intros observed applied ran t H; cbn [set_loop] in H.
  - apply returns_bind in H as (t1 & u & t2 & -> & Hr & [-> [= -> -> ->]]).
    apply recordRan_spec in Hr as [Hs Ha]. exists [], []. rewrite !app_nil_r. done.
  - apply returns_trigger in H as (r & t' & -> & H). cbn [mbind prog_bind] in H. destruct r as [cause|].
    + apply returns_bind in H as (t1 & u & t2 & -> & Hr & H). apply recordRan_spec in Hr as [Hs Ha].
      apply returns_trigger in H as (u' & t3 & -> & [-> [= -> -> ->]]).
      exists [], (change :: changes). rewrite app_nil_r. do 3 (split; [done|]). split; [|split; [|by eauto]].
      * apply only_sets_skip; try done. apply only_sets_app; [done|].
        apply only_sets_skip; try done. apply only_sets_nil.
      * by rewrite accepted_cons, accepted_app, Ha.
    + apply IH in H as (landed & rest & -> & -> & -> & Hs & Ha & Herr).
      exists (change :: landed), rest. rewrite <- app_assoc. do 3 (split; [done|]). split; [|split; [|done]].
      * by apply only_sets_skip.
      * rewrite accepted_cons, Ha. by destruct change.
Qed.

Lemma readInstance_spec endpoint t view :
  returns (readInstance endpoint (λ c, trigger (EShowSettings c))) t view →
  leaves_open t [] ∧ length (shows t) ≤ 1 ∧ accepted t = [] ∧
  (∀ observed, view = inl observed → ∃ c, Event (EShowSettings c) (inl observed) ∈ t).
Proof.
  unfold readInstance. intros H. apply returns_trigger in H as ([c|err] & t' & -> & H); cbn [mbind prog_bind] in H.
  2: { destruct H as [-> ->]. split_and!; [connections|cbn; lia|done|done]. }
  apply returns_bind in H as (t1 & v & t2 & -> & (x & t3 & -> & [-> ->]) & H).
  apply returns_trigger in H as (u & t4 & -> & [-> ->]). split; [connections|]. split; [cbn; lia|]. split; [done|].
  intros observed ->. exists c. right. left.
Qed.

(** The settings a pass works from: those read earlier in the pass, or read now. *)
Lemma observedSettings_spec reads endpoint t reads' view :
  returns (observedSettings reads endpoint) t (reads', view) →
  leaves_open t [] ∧ accepted t = [] ∧ reads' !! ep_Pod endpoint = Some view ∧
  (∀ pod, pod ≠ ep_Pod endpoint → reads' !! pod = reads !! pod) ∧
  match reads !! ep_Pod endpoint with
  | Some read => reads' = reads ∧ read = view ∧ t = []
  | None => length (shows t) ≤ 1 ∧
            ∀ observed, view = inl observed → ∃ c, Event (EShowSettings c) (inl observed) ∈ t
  end.
Proof.
  unfold observedSettings. destruct (reads !! ep_Pod endpoint) as [read|] eqn:E; intros H.
  - destruct H as [-> [= -> ->]]. split; [apply leaves_open_nil|]. done.
  - apply returns_bind in H as (t1 & v & t2 & -> & H1 & [-> [= -> ->]]). rewrite app_nil_r.
    apply readInstance_spec in H1 as (? & ? & ? & ?). split; [done|]. split; [done|].
    split; [by rewrite lookup_insert_eq|]. split; [|done]. intros pod Hne. by rewrite lookup_insert_ne.
Qed.

(** What a run of [applySettings] may do: it reads the pod at most once in the pass, SETs a
    prefix of the plan of what was read, all of it unless it reports an error, and records
    what landed. *)
Definition settings_run (reads : podSettings) (endpoint : Endpoint) (plan : gmap string string → list Change)
    (t : list (event eff)) (reads' : podSettings) (applied : list Change) (err : option error) : Prop :=
  leaves_open t [] ∧ (∀ pod, pod ≠ ep_Pod endpoint → reads' !! pod = reads !! pod) ∧ accepted t = applied ∧
  length (shows t) ≤ (if decide (is_Some (reads !! ep_Pod endpoint)) then 0 else 1) ∧
  ∃ view, (reads !! ep_Pod endpoint = Some view ∨
           reads !! ep_Pod endpoint = None ∧
           ∀ observed, view = inl observed → ∃ c, Event (EShowSettings c) (inl observed) ∈ t) ∧
  match view with
  | inr e => applied = [] ∧ err = Some e ∧ reads' !! ep_Pod endpoint = Some (inr e)
  | inl observed => ∃ rest, plan observed = applied ++ rest ∧ (err = None → rest = []) ∧
      reads' !! ep_Pod endpoint = Some (inl (issue observed applied))
  end.

Lemma applySettings_spec action describe reads endpoint plan t reads' applied err :
  returns (applySettings action describe reads endpoint plan) t (reads', applied, err) →
  settings_run reads endpoint plan t reads' applied err.
Proof.
  unfold applySettings. intros (t1 & [reads1 view] & t2 & -> & H1 & H)%returns_bind.
  apply observedSettings_spec in H1 as (Hopen & Hacc & Hview & Hother & Hcase).
  assert (length (shows t1) ≤ (if decide (is_Some (reads !! ep_Pod endpoint)) then 0 else 1)) as Hshows.
  { destruct (reads !! ep_Pod endpoint); [destruct Hcase as (_ & _ & ->); simpl; lia|].
    rewrite decide_False by (by intros []). apply Hcase. }
  assert (reads !! ep_Pod endpoint = Some view ∨ reads !! ep_Pod endpoint = None ∧
    ∀ observed, view = inl observed → ∃ c, Event (EShowSettings c) (inl observed) ∈ t1) as Hread.
  { destruct (reads !! ep_Pod endpoint); [left; by destruct Hcase as (_ & -> & _)|]. right. split; [done|apply Hcase]. }
  assert (∀ u applied err reads', leaves_open u [] → shows u = [] → accepted u = applied →
    (∀ pod, pod ≠ ep_Pod endpoint → reads' !! pod = reads1 !! pod) →
    match view with
    | inr e => applied = [] ∧ err = Some e ∧ reads' !! ep_Pod endpoint = Some (inr e)
    | inl observed => ∃ rest, plan observed = applied ++ rest ∧ (err = None → rest = []) ∧
        reads' !! ep_Pod endpoint = Some (inl (issue observed applied))
    end → settings_run reads endpoint plan (t1 ++ u) reads' applied err) as Hgo.
  { intros u ap er rs Hu Hs Ha Hrs Hres. split; [by apply leaves_open_after|].
    split; [intros pod Hne; by rewrite Hrs, Hother|]. split; [by rewrite accepted_app, Hacc|].
    split; [by rewrite shows_app, Hs, app_nil_r|]. exists view. split; [|done].
    destruct Hread as [?|[? Hin]]; [by left|]. right. split; [done|]. intros o Ho.
    destruct (Hin o Ho) as [c Hc]. exists c. rewrite elem_of_app. by left. }
  destruct view as [observed|e].
  2: { destruct H as [-> [= -> -> ->]]. apply Hgo; [apply leaves_open_nil|done..]. }
  destruct (plan observed) as [|change changes] eqn:Hplan.
  { destruct H as [-> [= -> -> ->]]. apply Hgo; [apply leaves_open_nil|done..|]. by exists []. }
  apply returns_trigger in H as (r & t3 & -> & H). cbn [mbind prog_bind] in H.
  destruct r as [c|e].
  2: { destruct H as [-> [= -> -> ->]]. apply Hgo; [connections|done..|]. eexists. split; [done|]. by split. }
  apply returns_bind in H as (t4 & [[observed' applied'] err'] & t5 & -> & Hloop & H).
  apply set_loop_spec in Hloop as (landed & rest & Hch & -> & -> & [Hl Hs] & Ha & Herr).
  apply returns_trigger in H as (x & t6 & -> & [-> [= -> -> ->]]). apply Hgo.
  - by apply leaves_open_session.
  - unfold shows in *. cbn. by rewrite bind_app, Hs.
  - by rewrite accepted_cons, accepted_app, Ha, app_nil_r.
  - intros pod Hne. by rewrite lookup_insert_ne.
  - exists rest. rewrite lookup_insert_eq. split; [done|]. split; [intros ->; apply Herr|done].
Qed.

(** A run reads a pod for the first time, or not at all. *)
Lemma settings_run_size reads endpoint plan t reads' applied err :
  settings_run reads endpoint plan t reads' applied err →
  is_Some (reads' !! ep_Pod endpoint) ∧ length (shows t) + size reads ≤ size reads'.
Proof.
  intros (_ & Hother & _ & Hshows & view & _ & Hview).
  assert (∃ v, reads' !! ep_Pod endpoint = Some v) as [v Hv].
  { destruct view; [destruct Hview as (? & _ & _ & ?)|destruct Hview as (_ & _ & ?)]; eauto. }
  split; [eauto|]. assert (reads' = <[ep_Pod endpoint := v]> reads) as ->.
  { apply map_eq. intros pod. destruct (decide (pod = ep_Pod endpoint)) as [->|Hne];
      [by rewrite lookup_insert_eq|rewrite lookup_insert_ne; auto]. }
  rewrite map_size_insert. destruct (reads !! ep_Pod endpoint); simpl.
  - rewrite decide_True in Hshows by eauto. lia.
  - rewrite decide_False in Hshows by (by intros []). lia.
Qed.

(** What the loop over a role's pods does: each ready pod in turn, and once nothing is
    rejected or pending every one of them has the whole plan. *)
Record pods_run (plan : gmap string string → list Change) (ready : gmap string bool) (endpoints : list Endpoint)
    (t : list (event eff)) (reads reads' : podSettings) (rejected pending : list string) : Prop := {
  pods_run_open : leaves_open t [];
  pods_run_shows : length (shows t) + size reads ≤ size reads';
  pods_run_other : ∀ pod, (∀ e, e ∈ endpoints → ep_Pod e ≠ pod) → reads' !! pod = reads !! pod;
  pods_run_ready : ∀ pod, is_Some (reads' !! pod) →
    is_Some (reads !! pod) ∨ ∃ e, e ∈ endpoints ∧ ep_Pod e = pod ∧ ready !! pod = Some true;
  pods_run_settled : rejected = [] → pending = [] → ∀ e, e ∈ endpoints → ready !! ep_Pod e = Some true →
    ∃ observed, reads' !! ep_Pod e = Some (inl (issue observed (plan observed)))
}.

Lemma pods_run_skip plan ready e endpoints t reads reads' r p :
  ready !! ep_Pod e ≠ Some true → pods_run plan ready endpoints t reads reads' r p →
  pods_run plan ready (e :: endpoints) t reads reads' r p.
Proof.
  intros Hready [Ho Hs Hot Hr Hset]. split; [done|done| | |].
  - intros pod Hpod. apply Hot. intros d Hd. apply Hpod. by right.
  - intros pod [?|(d & ? & ?)]%Hr; [by left|]. right. exists d. split; [by right|done].
  - intros Er Ep d [->|Hd]%elem_of_cons Hrd; [congruence|by apply Hset].
Qed.

Lemma pods_run_cons plan ready e endpoints t1 t2 reads reads1 reads' applied err r p r' p' :
  (∀ d, d ∈ endpoints → ep_Pod d ≠ ep_Pod e) → ready !! ep_Pod e = Some true →
  settings_run reads e plan t1 reads1 applied err → pods_run plan ready endpoints t2 reads1 reads' r p →
  (r' = [] → p' = [] → r = [] ∧ p = [] ∧ err = None) →
  pods_run plan ready (e :: endpoints) (t1 ++ t2) reads reads' r' p'.
Proof.
  intros Hne Hready Hrun [Ho Hs Hot Hr Hset] Hnil. pose proof (settings_run_size _ _ _ _ _ _ _ Hrun) as [Hin Hsize].
  destruct Hrun as (Hopen & Hother & _ & _ & view & _ & Hview). split.
  - by apply leaves_open_after.
  - rewrite shows_app, length_app. lia.
  - intros pod Hpod. rewrite Hot, Hother; [done| |]; [apply not_eq_sym, Hpod; left|].
    intros d Hd. apply Hpod. by right.
  - intros pod [Hp|(d & Hd & <- & ?)]%Hr; [|right; exists d; split; [by right|done]].
    destruct (decide (pod = ep_Pod e)) as [->|Hpe]; [right; exists e; split; [left|done]|].
    left. by rewrite <- (Hother pod Hpe).
  - intros Er Ep. destruct (Hnil Er Ep) as (-> & -> & ->). intros d [->|Hd]%elem_of_cons Hrd; [|by apply Hset].
    rewrite Hot by auto. destruct view as [observed|]; [|by destruct Hview as (_ & ? & _)].
    destruct Hview as (rest & Hplan & Hrest & ->). exists observed.
    rewrite Hplan, Hrest by done. by rewrite app_nil_r.
Qed.

Lemma apply_to_pods_spec action describe plan ready endpoints reads rejected pending t reads' rejected' pending' :
  NoDup (ep_Pod <$> endpoints) →
  returns (apply_to_pods action describe plan ready endpoints reads rejected pending) t (reads', rejected', pending') →
  ∃ r p, rejected' = rejected ++ r ∧ pending' = pending ++ p ∧ pods_run plan ready endpoints t reads reads' r p.
Proof.
  revert reads rejected pending t.
  induction endpoints as [|e endpoints IH]; intros reads rejected pending t Hnd H; cbn [apply_to_pods] in H.
  { destruct H as [-> [= -> -> ->]]. exists [], []. rewrite !app_nil_r. do 2 (split; [done|]).
    split; [apply leaves_open_nil|done|done|auto|]. by intros _ _ e ?%elem_of_nil. }
  rewrite fmap_cons in Hnd. apply NoDup_cons in Hnd as [He Hnd].
  assert (∀ d, d ∈ endpoints → ep_Pod d ≠ ep_Pod e) as Hne.
  { intros d Hd E. apply He. rewrite <- E. by apply list_elem_of_fmap_2. }
  destruct (ready !! ep_Pod e) as [[]|] eqn:Hready; simpl in H.
  2,3: apply IH in H as (r & p & -> & -> & Hpods); [|done]; exists r, p; do 2 (split; [done|]);
    (apply pods_run_skip; [by rewrite Hready|done]).
  apply returns_bind in H as (t1 & [[reads1 applied] err] & t2 & -> & Hrun & H).
  apply applySettings_spec in Hrun.
  destruct err as [err|]; [destruct (as_setting_rejected err) as [[command cause]|]|];
    apply IH in H as (r & p & -> & -> & Hpods); try done.
  - eexists _, p. rewrite <- app_assoc. do 2 (split; [done|]). by eapply pods_run_cons.
  - eexists r, _. rewrite <- app_assoc. do 2 (split; [done|]). by eapply pods_run_cons.
  - exists r, p. do 2 (split; [done|]). eapply pods_run_cons; eauto.
Qed.

(** ** The pods of a pass *)

Section endpoints.
Context `{Kube} {L : Type} (cluster : MemgraphDBCluster L).

Lemma endpoints_pods sts running name e :
  e ∈ endpoints cluster sts running name → ∃ ordinal, ep_Pod e = PodName sts ordinal.
Proof. unfold endpoints. intros (o & -> & _)%list_elem_of_fmap. by exists o. Qed.

Lemma endpoints_NoDup sts running name : NoDup (ep_Pod <$> endpoints cluster sts running name).
Proof.
  unfold endpoints. rewrite <- list_fmap_compose.
  apply (NoDup_fmap_2_strong (PodName sts)); [intros; by eapply PodName_inj|]. apply NoDup_seqZ.
Qed.

(** No pod runs in both roles. *)
Lemma roles_apart running running' e e' :
  e ∈ CoordinatorEndpoints cluster running → e' ∈ DataEndpoints cluster running' → ep_Pod e ≠ ep_Pod e'.
Proof.
  intros [o Ho]%endpoints_pods [o' Ho']%endpoints_pods E. rewrite Ho, Ho' in E. by eapply PodName_roles.
Qed.
End endpoints.

(** The three settings steps of a pass, over the reads they share: the license before
    registration, the run-time flags and the AWS credentials once it is converged. *)
Definition settingsSteps `{RangeOrder} `{Kube} {L} (cluster : MemgraphDBCluster L) (appliedCoordinators appliedData : Z)
    (data coordinators : Role) : prog eff (podSettings * Condition * settingsOutcome) :=
  '(reads, license) ← reconcileLicense cluster appliedCoordinators appliedData data coordinators ∅;
  '(reads, applied) ← reconcileSettings cluster appliedCoordinators appliedData data coordinators reads;
  '(reads, aws) ← reconcileAWSCredentials cluster appliedData data reads;
  mret (reads, license, settings_merge applied aws).

(** What a step leaves: no connection, and a read for every SHOW, of a pod that is ready. *)
Record step_run (data coordinators : Role) (t : list (event eff)) (reads reads' : podSettings) : Prop := {
  step_run_open : leaves_open t [];
  step_run_shows : length (shows t) + size reads ≤ size reads';
  step_run_ready : ∀ pod, is_Some (reads' !! pod) → is_Some (reads !! pod) ∨
    readyPods data !! pod = Some true ∨ readyPods coordinators !! pod = Some true
}.

Lemma step_run_nil data coordinators reads : step_run data coordinators [] reads reads.
Proof. split; [apply leaves_open_nil|done|auto]. Qed.

Lemma step_run_app data coordinators t u reads reads1 reads2 :
  step_run data coordinators t reads reads1 → step_run data coordinators u reads1 reads2 →
  step_run data coordinators (t ++ u) reads reads2.
Proof.
  intros [Ho Hs Hr] [Ho' Hs' Hr']. split.
  - by apply leaves_open_after.
  - rewrite shows_app, length_app. lia.
  - intros pod [?|?]%Hr'; auto.
Qed.

(** Effects that are neither connections nor reads. *)
Lemma step_run_skip data coordinators e t reads reads' :
  opens e = [] → closes e = [] → show_of e = [] → step_run data coordinators t reads reads' →
  step_run data coordinators (e :: t) reads reads'.
Proof.
  intros Ho Hc Hs [Hl Hn Hr]. split; [by apply leaves_open_skip| |done]. unfold shows in *. cbn. by rewrite Hs.
Qed.

Section steps.
Context `{RangeOrder} `{Kube} {L : Type} (cluster : MemgraphDBCluster L).
Context (appliedCoordinators appliedData : Z) (data coordinators : Role).
Abbreviation step_run := (step_run data coordinators).

Lemma data_pods_run action describe plan reads rejected pending t reads' rejected' pending' :
  returns (apply_to_pods action describe plan (readyPods data) (DataEndpoints cluster appliedData) reads
             rejected pending) t (reads', rejected', pending') →
  step_run t reads reads' ∧ ∃ r p, rejected' = rejected ++ r ∧ pending' = pending ++ p ∧
    pods_run plan (readyPods data) (DataEndpoints cluster appliedData) t reads reads' r p.
Proof.
  intros (r & p & -> & -> & Hpods)%apply_to_pods_spec; [|apply endpoints_NoDup]. split; [|by exists r, p].
  destruct Hpods as [? ? ? Hr ?]. split; [done|done|]. intros pod [?|(e & _ & <- & ?)]%Hr; auto.
Qed.

Lemma coordinator_pods_run action describe plan reads rejected pending t reads' rejected' pending' :
  returns (apply_to_pods action describe plan (readyPods coordinators)
             (CoordinatorEndpoints cluster appliedCoordinators) reads
             rejected pending) t (reads', rejected', pending') →
  step_run t reads reads' ∧ ∃ r p, rejected' = rejected ++ r ∧ pending' = pending ++ p ∧
    pods_run plan (readyPods coordinators) (CoordinatorEndpoints cluster appliedCoordinators) t reads reads' r p.
Proof.
  intros (r & p & -> & -> & Hpods)%apply_to_pods_spec; [|apply endpoints_NoDup]. split; [|by exists r, p].
  destruct Hpods as [? ? ? Hr ?]. split; [done|done|]. intros pod [?|(e & _ & <- & ?)]%Hr; auto.
Qed.

Lemma reconcileSettings_run reads t reads' outcome :
  returns (reconcileSettings cluster appliedCoordinators appliedData data coordinators reads) t (reads', outcome) →
  step_run t reads reads'.
Proof.
  intros (t1 & [[reads1 rejected] pending] & t2 & -> & [H1 _]%data_pods_run & Hrun)%returns_bind.
  apply returns_bind in Hrun as (t3 & [[reads2 rejected2] pending2] & t4 & -> & [H3 _]%coordinator_pods_run & [-> [= -> _]]).
  rewrite app_nil_r. by eapply step_run_app.
Qed.

Lemma reconcileLicense_run reads t reads' c :
  returns (reconcileLicense cluster appliedCoordinators appliedData data coordinators reads) t (reads', c) →
  step_run t reads reads'.
Proof.
  intros (t1 & r & t2 & -> & Hread & Hrun)%returns_bind.
  assert (∀ u, step_run u reads reads' → step_run (t1 ++ u) reads reads') as Hgo.
  { unfold readLicense in Hread. apply returns_trigger in Hread as (x & t3 & -> & Hread). cbn [mbind prog_bind] in Hread.
    assert (t3 = []) as ->; [|intros; by apply step_run_skip].
    clear Hrun. destruct x; simpl in Hread; repeat case_match; by destruct Hread as [-> _]. }
  apply Hgo. destruct r as [[license organization]|err]; [|destruct Hrun as [-> [= -> _]]; apply step_run_nil].
  apply returns_bind in Hrun as (t3 & [[reads1 rejected] pending] & t4 & -> & [H1 _]%data_pods_run & Hrun).
  apply returns_bind in Hrun as (t5 & [[reads2 rejected2] pending2] & t6 & -> & [H3 _]%coordinator_pods_run & [-> [= -> _]]).
  rewrite app_nil_r. by eapply step_run_app.
Qed.

Lemma reconcileAWSCredentials_run reads t reads' outcome :
  returns (reconcileAWSCredentials cluster appliedData data reads) t (reads', outcome) → step_run t reads reads'.
Proof.
  unfold reconcileAWSCredentials. case_decide; [intros [-> [= -> _]]; apply step_run_nil|].
  intros (t1 & r & t2 & -> & Hread & Hrun)%returns_bind.
  assert (∀ u, step_run u reads reads' → step_run (t1 ++ u) reads reads') as Hgo.
  { unfold readAWSCredentials in Hread. apply returns_trigger in Hread as (x & t3 & -> & Hread).
    cbn [mbind prog_bind] in Hread.
    assert (t3 = []) as ->; [destruct x; by destruct Hread as [-> _]|intros; by apply step_run_skip]. }
  apply Hgo. destruct r as [desired|err]; [|destruct Hrun as [-> [= -> _]]; apply step_run_nil].
  apply returns_bind in Hrun as (t3 & [[reads1 rejected] pending] & t4 & -> & [Hpods _]%data_pods_run & [-> [= -> _]]).
  by rewrite app_nil_r.
Qed.
End steps.

(** ** The settings steps change no membership and no pod *)

Lemma set_loop_quiet action describe c pod changes observed applied ran :
  all_effects quiet (set_loop action describe c pod changes observed applied ran).
Proof.
  revert observed applied ran. induction changes as [|change changes IH]; intros; cbn [set_loop]; unfold recordRan; all_effects.
Qed.
#[export] Hint Resolve set_loop_quiet : effects.

Lemma readInstance_quiet endpoint query :
  (∀ c, all_effects quiet (query c)) → all_effects quiet (readInstance endpoint query).
Proof. intros Hq. unfold readInstance. all_effects. Qed.
#[export] Hint Resolve readInstance_quiet : effects.

Lemma applySettings_quiet action describe reads endpoint plan :
  all_effects quiet (applySettings action describe reads endpoint plan).
Proof. unfold applySettings, observedSettings. all_effects. Qed.
#[export] Hint Resolve applySettings_quiet : effects.

Lemma apply_to_pods_quiet action describe plan ready endpoints reads rejected pending :
  all_effects quiet (apply_to_pods action describe plan ready endpoints reads rejected pending).
Proof.
  revert reads rejected pending. induction endpoints as [|endpoint endpoints IH]; intros; cbn [apply_to_pods]; all_effects.
Qed.
#[export] Hint Resolve apply_to_pods_quiet : effects.

Lemma reconcileSettings_quiet `{RangeOrder} `{Kube} {L} (cluster : MemgraphDBCluster L) coordinators data p q reads :
  all_effects quiet (reconcileSettings cluster coordinators data p q reads).
Proof. unfold reconcileSettings. all_effects. Qed.

Lemma reconcileAWSCredentials_quiet `{RangeOrder} `{Kube} {L} (cluster : MemgraphDBCluster L) data p reads :
  all_effects quiet (reconcileAWSCredentials cluster data p reads).
Proof. unfold reconcileAWSCredentials, readAWSCredentials. all_effects. Qed.
#[export] Hint Resolve reconcileSettings_quiet reconcileAWSCredentials_quiet : effects.

(** ** Properties *)

(** When [reconcileSettings] reports nothing pending and nothing rejected, every ready
    pod of either role runs each run-time flag its role asks for, as far as the settings
    recorded for the pod say, whatever the pods answered on the way. *)
Theorem reconcileSettings_settles `{RangeOrder} `{Kube} {L} (cluster : MemgraphDBCluster L)
    appliedCoordinators appliedData data coordinators reads t reads' outcome :
  returns (reconcileSettings cluster appliedCoordinators appliedData data coordinators reads) t (reads', outcome) →
  so_pending outcome = [] → so_rejected outcome = [] →
  ∀ flags e, (e ∈ DataEndpoints cluster appliedData ∧ readyPods data !! ep_Pod e = Some true ∧
                flags = DataFlags (Spec cluster)) ∨
             (e ∈ CoordinatorEndpoints cluster appliedCoordinators ∧ readyPods coordinators !! ep_Pod e = Some true ∧
                flags = CoordinatorFlags (Spec cluster)) →
  ∃ after, reads' !! ep_Pod e = Some (inl after) ∧
    ∀ setting value, desired_settings flags !! setting = Some value → after !! setting = Some value.
Proof.
  intros (t1 & [[reads1 rejected] pending] & t2 & -> & Hd & Hrun)%returns_bind.
  apply returns_bind in Hrun as (t3 & [[reads2 rejected2] pending2] & t4 & -> & Hc & [-> [= -> ->]]). simpl.
  apply (data_pods_run _ _ _ coordinators) in Hd as [_ (r & p & -> & -> & Hdata)].
  apply (coordinator_pods_run _ _ data) in Hc as [_ (r2 & p2 & -> & -> & Hcoord)].
  intros [Hp ->]%app_eq_nil [Hr ->]%app_eq_nil flags e He. simpl in Hp, Hr. subst p r.
  assert (∃ observed, reads2 !! ep_Pod e = Some (inl (issue observed (Settings.Plan flags observed)))) as [observed Ho].
  { destruct He as [(He & Hr & ->)|(He & Hr & ->)].
    - destruct (pods_run_settled _ _ _ _ _ _ _ _ Hdata eq_refl eq_refl e He Hr) as [observed Ho].
      exists observed. rewrite (pods_run_other _ _ _ _ _ _ _ _ Hcoord); [done|].
      intros d Hd. by eapply roles_apart.
    - by apply (pods_run_settled _ _ _ _ _ _ _ _ Hcoord). }
  eexists. split; [done|]. intros setting value Hv. unfold Settings.Plan. by rewrite issue_Diff, Hv.
Qed.

(** A pass asks a pod for its settings at most once: over the license, the run-time flags
    and the AWS credentials together there are no more SHOW DATABASE SETTINGS than pods read,
    only ready pods are read, and no connection is left open. *)
Theorem settings_read_once `{RangeOrder} `{Kube} {L} (cluster : MemgraphDBCluster L)
    appliedCoordinators appliedData data coordinators t reads' license outcome :
  returns (settingsSteps cluster appliedCoordinators appliedData data coordinators) t (reads', license, outcome) →
  leaves_open t [] ∧ length (shows t) ≤ size reads' ∧
  ∀ pod, is_Some (reads' !! pod) → readyPods data !! pod = Some true ∨ readyPods coordinators !! pod = Some true.
Proof.
  intros (t1 & [reads1 c] & t2 & -> & H1%reconcileLicense_run & Hrun)%returns_bind.
  apply returns_bind in Hrun as (t3 & [reads2 applied] & t4 & -> & H3%reconcileSettings_run & Hrun).
  apply returns_bind in Hrun as (t5 & [reads3 aws] & t6 & -> & H5%(reconcileAWSCredentials_run _ _ _ coordinators) & [-> [= -> -> ->]]).
  rewrite app_nil_r. pose proof (step_run_app _ _ _ _ _ _ _ H1 (step_run_app _ _ _ _ _ _ _ H3 H5)) as [Ho Hs Hr].
  rewrite map_size_empty in Hs. split; [done|]. split; [lia|]. intros pod [[? ?]|?]%Hr; [done|auto].
Qed.

(** ** Witnesses: one ready pod per role, whose image logs at the wrong level *)

Module Example.
Definition pod (name instance : string) : Pod := mkPod name "uid" instance 0 "r1" false true.
Definition data : Role := mkRole 1 "r1" false [pod "db-data-0" "instance_0"].
Definition coordinators : Role := mkRole 1 "r1" false [pod "db-coordinator-0" "coordinator_0"].
Definition cluster : MemgraphDBCluster (gmap string Condition) := Api.Example.cluster (Some 1%Z) (Some 1%Z).

(** Every instance answers, and accepts every SET. *)
Definition handle (X : Type) (e : eff X) (s : unit) : unit * X :=
  (s, match e in eff X return X with
      | EConnect _ _ => inl 0
      | EShowSettings _ => inl {[ "log.level" := "TRACE" ]}
      | EGetSecret _ _ => inl {[ DefaultLicenseSecretKey := "license"; DefaultOrganizationSecretKey := "Memgraph" ]}
      | e => idle _ e
      end).
End Example.

Definition settings_run_example :=
  Effects.run Example.handle (reconcileSettings Example.cluster 1 1 Example.data Example.coordinators ∅) tt.
Definition steps_run_example :=
  Effects.run Example.handle (settingsSteps Example.cluster 1 1 Example.data Example.coordinators) tt.

Lemma reconcileSettings_settles_witness :
  ∃ after, settings_run_example.2.1 !! "db-data-0" = Some (inl after) ∧ after !! "log.level" = Some "INFO".
Proof.
  destruct (reconcileSettings_settles Example.cluster 1 1 Example.data Example.coordinators ∅ settings_run_example.1.2
    settings_run_example.2.1 settings_run_example.2.2) with (flags := DataFlags (Spec Example.cluster))
    (e := mkEndpoint "instance_0" "db-data-0" "db-data-0.db-data.default.svc.cluster.local:7687" false)
    as (after & Hafter & Hflags).
  - pose proof (run_returns Example.handle
      (reconcileSettings Example.cluster 1 1 Example.data Example.coordinators ∅) tt) as H.
    fold settings_run_example in H. by destruct settings_run_example as [[? ?] [? ?]].
  - by vm_compute.
  - by vm_compute.
  - left. split; [|split; [by vm_compute|done]]. apply (bool_decide_unpack _). by vm_compute.
  - exists after. split; [exact Hafter|]. apply Hflags. by vm_compute.
Defined.

Lemma settings_read_once_witness :
  length (shows steps_run_example.1.2) ≤ size steps_run_example.2.1.1 ∧ length (shows steps_run_example.1.2) = 2.
Proof.
  split; [|by vm_compute].
  apply (settings_read_once Example.cluster 1 1 Example.data Example.coordinators steps_run_example.1.2
    steps_run_example.2.1.1 steps_run_example.2.1.2 steps_run_example.2.2).
  pose proof (run_returns Example.handle
    (settingsSteps Example.cluster 1 1 Example.data Example.coordinators) tt) as H.
  fold steps_run_example in H. by destruct steps_run_example as [[? ?] [[? ?] ?]].
Defined.
