(* ===== verification/Replicas.v ===== *)
(** * Package controller: replica counts and the pods of a role

    The read side of a pass: [replicaCounts] resolves the count to apply per role and never
    lowers one, [observeRollout] turns the pods of the StatefulSets into the roles
    rollout.go judges, [workloadsReady] is the gate before registration, and [restartPod]
    carries out a deletion. The expectations of shrinks are threaded as the state they are. *)

From S2P Require Import Prelude GoStrings GoErrors K8s Api Client Planner Effects.
From S2P Require Import Resources Topology Flags Expectations Rollout World Apply.

(** ** Definitions *)

Record roleReplicas := mkRoleReplicas {
  rr_name : string;
  rr_declared : Z;
  rr_applied : Z;
  rr_statefulSet : option KStatefulSet
}.

Record replicaCounts := mkReplicaCounts {
  rc_coordinators : roleReplicas;
  rc_data : roleReplicas;
  rc_unseenShrinks : list string
}.

(** A missing StatefulSet is [None]. *)
Definition getStatefulSet (namespace name : string) : prog eff (option KStatefulSet + error) :=
  r ← trigger (EGetStatefulSet namespace name);
  mret match r with
       | inl sts => inl (Some sts)
       | inr err => if IsNotFound err then inl None else inr (wrap ("getting StatefulSet " ^^ name) err)
       end.

Definition podOrdinal (statefulSet pod : string) : option Z :=
  match CutPrefix pod (statefulSet ^^ "-") with
  | None => None
  | Some suffix =>
      match ParseInt32 suffix with
      | None => None
      | Some ordinal =>
          if (ordinal <? 0)%Z || negb (bool_decide (Itoa ordinal = suffix)) then None else Some ordinal
      end
  end.

(** The loop of [runningOrdinals]: one past the highest ordinal, on an int32. *)
Definition count_pod (statefulSet : string) (count : Z) (pod : KPod) : Z :=
  match podOrdinal statefulSet (kp_Name pod) with
  | Some ordinal => Z.max count (wrap32 (ordinal + 1))
  | None => count
  end.

Definition runningOrdinals (namespace statefulSet : string) (selector : gmap string string)
    : prog eff (Z + error) :=
  r ← trigger (EListPods namespace selector);
  mret match r with
       | inl pods => inl (foldl (count_pod statefulSet) 0%Z pods)
       | inr err => inr (wrap ("listing pods of StatefulSet " ^^ statefulSet) err)
       end.

(** What the expectations compare of a StatefulSet. *)
Definition cachedOf (sts : KStatefulSet) : Cached := mkCached (ks_UID sts) (ks_Generation sts).

(** The loop body of [replicaCounts] for one role, over the expectations and the shrinks
    not seen yet. *)
Definition resolve_role (namespace name : string) (declared : Z) (selector : gmap string string)
    (shrinks : StatefulSets) (unseen : list string)
    : prog eff (StatefulSets * ((list string * roleReplicas) + error)) :=
  r ← getStatefulSet namespace name;
  match r with
  | inr err => mret (shrinks, inr err)
  | inl sts =>
      let '(shrinks, satisfied) := Satisfied shrinks (namespace, name) (cachedOf <$> sts) in
      let unseen := if satisfied then unseen else unseen ++ [name] in
      r ← match sts with
          | Some sts => mret (inl (default 0%Z (ks_SpecReplicas sts)))
          | None => runningOrdinals namespace name selector
          end;
      match r with
      | inr err => mret (shrinks, inr err)
      | inl current => mret (shrinks, inl (unseen, mkRoleReplicas name declared (Z.max declared current) sts))
      end
  end.

Section cluster.
Context `{Kube} {L : Type}.
Implicit Types (cluster : MemgraphDBCluster L).

Definition resolveReplicaCounts cluster (shrinks : StatefulSets)
    : prog eff (StatefulSets * (replicaCounts + error)) :=
  let namespace := m_Namespace (Meta cluster) in
  let name := m_Name (Meta cluster) in
  '(shrinks, r) ← resolve_role namespace (CoordinatorName name) (DeclaredCoordinators cluster)
                    (CoordinatorPodSelector name) shrinks [];
  match r with
  | inr err => mret (shrinks, inr err)
  | inl (unseen, coordinators) =>
      '(shrinks, r) ← resolve_role namespace (DataName name) (DeclaredDataInstances cluster)
                        (DataPodSelector name) shrinks unseen;
      match r with
      | inr err => mret (shrinks, inr err)
      | inl (unseen, data) => mret (shrinks, inl (mkReplicaCounts coordinators data unseen))
      end
  end.
End cluster.

Definition PodReady : string := "Ready".

Definition podReady (pod : KPod) : bool :=
  match List.find (λ c, bool_decide (pcn_Type c = PodReady)) (kp_Conditions pod) with
  | Some c => bool_decide (pcn_Status c = "True")
  | None => false
  end.

Record observedRole := mkObservedRole {
  or_Role : Role;
  or_flags : string;
  or_podFlags : gmap string string;
  or_template : string;
  or_podTemplates : gmap string string
}.

Definition StatefulSetRevisionLabel : string := "controller-revision-hash".

(** The pod of an ordinal as rollout.go sees it. *)
Definition rolloutPod (instanceName : Z → string) (ordinal : Z) (pod : KPod) : Pod :=
  mkPod (kp_Name pod) (kp_UID pod) (instanceName ordinal) ordinal
    (kp_Labels pod !!? StatefulSetRevisionLabel | "") false
    (negb (kp_Deleting pod) && podReady pod).

(** The loop over the ordinals, with the pods by name. *)
Definition observe_ordinal (name : string) (instanceName : Z → string) (byName : gmap string KPod)
    (observed : observedRole) (ordinal : Z) : observedRole :=
  match byName !! PodName name ordinal with
  | None => observed
  | Some pod =>
      mkObservedRole
        (mkRole (r_Replicas (or_Role observed)) (r_UpdateRevision (or_Role observed)) (r_Stale (or_Role observed))
           (r_Pods (or_Role observed) ++ [rolloutPod instanceName ordinal pod]))
        (or_flags observed)
        (<[kp_Name pod := kp_Annotations pod !!? FlagsAnnotation | ""]> (or_podFlags observed))
        (or_template observed)
        (<[kp_Name pod := kp_Annotations pod !!? TemplateHashAnnotation | ""]> (or_podTemplates observed))
  end.

(** Either way the StatefulSet can be behind: read before the apply, or not processed yet. *)
Definition stale (sts : KStatefulSet) (appliedGeneration : Z) : bool :=
  (ks_Generation sts <? appliedGeneration)%Z || negb (bool_decide (ks_ObservedGeneration sts = ks_Generation sts)).

Definition observeRolloutRole (namespace : string) (role : roleReplicas) (selector : gmap string string)
    (instanceName : Z → string) (appliedGeneration : Z) : prog eff (observedRole + error) :=
  match rr_statefulSet role with
  | None => mret (inl (mkObservedRole (mkRole (rr_applied role) "" false []) "" ∅ "" ∅))
  | Some sts =>
      r ← trigger (EListPods namespace selector);
      match r with
      | inr err => mret (inr (wrap ("listing pods of StatefulSet " ^^ rr_name role) err))
      | inl pods =>
          let observed :=
            mkObservedRole
              (mkRole (rr_applied role) (ks_UpdateRevision sts) (stale sts appliedGeneration) [])
              (ks_TemplateAnnotations sts !!? FlagsAnnotation | "") ∅
              (ks_TemplateAnnotations sts !!? TemplateHashAnnotation | "") ∅ in
          mret (inl (foldl (observe_ordinal (rr_name role) instanceName (index_by kp_Name pods)) observed
                       (ordinals (rr_applied role))))
      end
  end.

Record rolloutRoles := mkRolloutRoles {
  ro_coordinators : Role;
  ro_data : Role;
  ro_coordinatorFlags : string;
  ro_dataFlags : string;
  ro_podFlags : gmap string string;
  ro_coordinatorTemplate : string;
  ro_dataTemplate : string;
  ro_podTemplates : gmap string string
}.

(** [maps.Copy] of the data pods over the coordinator pods is a left-biased union. *)
Definition observeRollout (namespace name : string) (replicas : replicaCounts) (applied : appliedObjects)
    : prog eff (rolloutRoles + error) :=
  r ← observeRolloutRole namespace (rc_coordinators replicas) (CoordinatorPodSelector name) CoordinatorInstanceName
        (statefulSet applied (rr_name (rc_coordinators replicas))).2;
  match r with
  | inr err => mret (inr err)
  | inl coordinators =>
      r ← observeRolloutRole namespace (rc_data replicas) (DataPodSelector name) DataInstanceName
            (statefulSet applied (rr_name (rc_data replicas))).2;
      match r with
      | inr err => mret (inr err)
      | inl data =>
          mret (inl (mkRolloutRoles (or_Role coordinators) (or_Role data) (or_flags coordinators) (or_flags data)
                       (or_podFlags data ∪ or_podFlags coordinators) (or_template coordinators) (or_template data)
                       (or_podTemplates data ∪ or_podTemplates coordinators)))
      end
  end.

Definition onTemplate (roles : rolloutRoles) (pod template : string) : bool :=
  let hash := ro_podTemplates roles !!? pod | "" in
  negb (bool_decide (hash = "")) && bool_decide (hash = template).

(** The body of the loop of [workloadsReady]. *)
Definition role_ready (replicas : roleReplicas) (role : Role) : bool :=
  match rr_statefulSet replicas with
  | None => false
  | Some sts =>
      let required :=
        if InProgress role && bool_decide (ks_StatusReplicas sts = rr_applied replicas)
        then wrap32 (rr_applied replicas - 1) else rr_applied replicas in
      negb (ks_ReadyReplicas sts <? required)%Z
  end.

Definition workloadsReady (replicas : replicaCounts) (roles : rolloutRoles) : bool :=
  role_ready (rc_coordinators replicas) (ro_coordinators roles) && role_ready (rc_data replicas) (ro_data roles).

(** The delete is conditioned on the UID that was observed. *)
Definition restartPod (namespace : string) (decision : Decision) : prog eff (option error) :=
  r ← trigger (EDeletePod namespace (p_Name (de_Pod decision)) (p_UID (de_Pod decision)));
  mret match r with
       | None => None
       | Some err =>
           if IsNotFound err || IsConflict err then None
           else Some (wrap ("deleting pod " ^^ p_Name (de_Pod decision) ^^ " to restart it") err)
       end.

(** ** Lemmas *)

(** A pod name and its ordinal determine each other. *)
Lemma podOrdinal_Some statefulSet pod ordinal :
  podOrdinal statefulSet pod = Some ordinal ↔ pod = PodName statefulSet ordinal ∧ (0 ≤ ordinal)%Z ∧ is_int32 ordinal.
Proof.
  unfold podOrdinal, PodName. destruct (CutPrefix pod _) as [suffix|] eqn:E.
  - apply CutPrefix_Some in E as ->. rewrite app_assoc_s. split.
    + destruct (ParseInt32 suffix) as [z|] eqn:Ez; [|done]. destruct (_ || _) eqn:Eb; [done|]. intros [= ->].
      bool_split. apply ParseInt32_range in Ez. by subst.
    + intros (E & H0 & H1). do 2 apply app_inj_l_s in E. subst. rewrite ParseInt32_Itoa by done.
      rewrite bool_decide_eq_true_2 by done. by rewrite (proj2 (Z.ltb_ge _ _)) by done.
  - split; [done|]. intros [-> _]. rewrite <- app_assoc_s, CutPrefix_app in E. done.
Qed.

Lemma count_pod_mono statefulSet count pod : (count ≤ count_pod statefulSet count pod)%Z.
Proof. unfold count_pod. destruct (podOrdinal _ _); lia. Qed.

(** The count read off the pods covers every ordinal but the last int32, is the least such,
    and never goes below where it starts. *)
Lemma count_pods_spec statefulSet pods count :
  let result := foldl (count_pod statefulSet) count pods in
  (0 ≤ count)%Z → (count ≤ result)%Z ∧
  (∀ pod ordinal, pod ∈ pods → podOrdinal statefulSet (kp_Name pod) = Some ordinal →
     (ordinal + 1 < 2 ^ 31)%Z → (ordinal < result)%Z) ∧
  (result = count ∨ ∃ pod, pod ∈ pods ∧ podOrdinal statefulSet (kp_Name pod) = Some (result - 1)%Z).
Proof.
  revert count. induction pods as [|pod pods IH]; intros count; simpl; intros Hc.
  { split; [lia|]. split; [|by left]. intros pod o []%elem_of_nil. }
  pose proof (count_pod_mono statefulSet count pod).
  destruct (IH (count_pod statefulSet count pod)) as (H1 & H2 & H3); [lia|]. clear IH. split; [lia|]. split.
  - intros p o [->|Hp]%elem_of_cons Ho Hlt; [|by eapply H2]. unfold count_pod in *. rewrite Ho in *.
    apply podOrdinal_Some in Ho as (_ & ? & ?). rewrite wrap32_id in * by (unfold is_int32 in *; lia). lia.
  - destruct H3 as [E|(p & Hp & Ho)]; [|right; exists p; split; [by right|done]].
    rewrite E. unfold count_pod. destruct (podOrdinal statefulSet (kp_Name pod)) as [o|] eqn:Ho; [|by left].
    pose proof (proj1 (podOrdinal_Some _ _ _) Ho) as (_ & ? & ?). destruct (Z.max_spec count (wrap32 (o + 1))) as [[? ->]|[? ->]]; [|by left].
    destruct (decide (o + 1 < 2 ^ 31)%Z).
    + right. exists pod. rewrite wrap32_id by (unfold is_int32 in *; lia). replace (o + 1 - 1)%Z with o by lia.
      split; [left|done].
    + left. assert (o = 2 ^ 31 - 1)%Z as -> by (unfold is_int32 in *; lia). rewrite wrap32_max in *. lia.
Qed.

(** How the count of a role came about: from the StatefulSet the pass read, or, when there
    is none, from the pods it left behind. *)
Record resolved (namespace name : string) (declared : Z) (selector : gmap string string)
    (t : list (event eff)) (role : roleReplicas) : Prop := {
  resolved_name : rr_name role = name;
  resolved_declared : rr_declared role = declared ∧ (declared ≤ rr_applied role)%Z;
  resolved_found sts : rr_statefulSet role = Some sts →
    Event (EGetStatefulSet namespace name) (inl sts) ∈ t ∧
    rr_applied role = Z.max declared (default 0%Z (ks_SpecReplicas sts));
  resolved_missing : rr_statefulSet role = None →
    ∃ err pods, Event (EGetStatefulSet namespace name) (inr err) ∈ t ∧ IsNotFound err = true ∧
      Event (EListPods namespace selector) (inl pods) ∈ t ∧
      (∀ pod ordinal, pod ∈ pods → kp_Name pod = PodName name ordinal → (0 ≤ ordinal < 2 ^ 31 - 1)%Z →
         (ordinal < rr_applied role)%Z) ∧
      (rr_applied role = Z.max declared 0 ∨
       ∃ pod, pod ∈ pods ∧ kp_Name pod = PodName name (rr_applied role - 1))
}.

Lemma resolved_app namespace name declared selector t u v role :
  resolved namespace name declared selector t role → resolved namespace name declared selector (u ++ t ++ v) role.
Proof.
  intros [? ? Hf Hm]. split; [done|done| |].
  - intros sts [? ?]%Hf. split; [set_solver|done].
  - intros (err & pods & ? & ? & ? & ?)%Hm. exists err, pods. set_solver.
Qed.

Lemma Satisfied_spec shrinks name cached :
  (Satisfied shrinks name cached).2 = trusted shrinks name cached ∧
  ∀ other, other ≠ name → (Satisfied shrinks name cached).1 !! other = shrinks !! other.
Proof.
  unfold Satisfied, trusted. destruct (shrinks !! name) as [want|]; [|done].
  destruct (caught_up_with want cached); [|done]. split; [done|]. intros other Hne. simpl. by rewrite lookup_delete_ne.
Qed.

Lemma runningOrdinals_spec namespace statefulSet selector t r :
  returns (runningOrdinals namespace statefulSet selector) t r →
  match r with
  | inl count => ∃ pods, t = [Event (EListPods namespace selector) (inl pods)] ∧
                   count = foldl (count_pod statefulSet) 0%Z pods
  | inr _ => True
  end.
Proof.
  intros ([pods|err] & t' & -> & H)%returns_trigger; cbn in H; destruct H as [-> ->]; [|done]. by exists pods.
Qed.

Lemma resolve_role_spec namespace name declared selector shrinks unseen t shrinks' unseen' role :
  returns (resolve_role namespace name declared selector shrinks unseen) t (shrinks', inl (unseen', role)) →
  resolved namespace name declared selector t role ∧
  (∀ other, other ≠ (namespace, name) → shrinks' !! other = shrinks !! other) ∧
  unseen' = unseen ++ (if trusted shrinks (namespace, name) (cachedOf <$> rr_statefulSet role) then [] else [name]).
Proof.
  unfold resolve_role. intros (t1 & r & t2 & -> & Hget & H)%returns_bind.
  apply returns_trigger in Hget as (answer & t1' & -> & [-> ->]).
  assert (∀ sts, (let '(s, satisfied) := Satisfied shrinks (namespace, name) (cachedOf <$> sts) in
    (s, if satisfied then unseen else unseen ++ [name])) = ((Satisfied shrinks (namespace, name) (cachedOf <$> sts)).1,
      unseen ++ if trusted shrinks (namespace, name) (cachedOf <$> sts) then [] else [name])) as Hsat.
  { intros sts. destruct (Satisfied_spec shrinks (namespace, name) (cachedOf <$> sts)) as [<- _].
    destruct (Satisfied _ _ _) as [? []]; simpl; by rewrite ?app_nil_r. }
  assert (∀ sts other, other ≠ (namespace, name) →
    (Satisfied shrinks (namespace, name) (cachedOf <$> sts)).1 !! other = shrinks !! other) as Hother.
  { intros sts. apply Satisfied_spec. }
  destruct answer as [sts|err].
  - specialize (Hsat (Some sts)). specialize (Hother (Some sts)). destruct (Satisfied _ _ _) as [s b].
    injection Hsat as Hu. cbn in H. rewrite Hu in H. destruct H as [-> [= -> -> ->]]. split; [|done].
    split; simpl; [done|split; [done|lia]| |done]. intros ? [= ->]. split; [left|done].
  - destruct (IsNotFound err) eqn:Enf; [|by destruct H as [_ [=]]].
    specialize (Hsat None). specialize (Hother None). destruct (Satisfied _ _ _) as [s b]. injection Hsat as Hu. rewrite Hu in H.
    apply returns_bind in H as (t3 & r & t4 & -> & Hrun%runningOrdinals_spec & H).
    destruct r as [count|e]; [|by destruct H as [_ [=]]]. destruct Hrun as (pods & -> & ->).
    destruct H as [-> [= -> -> ->]]. split; [|done].
    destruct (count_pods_spec name pods 0) as (H1 & H2 & H3); [done|].
    split; simpl; [done|split; [done|lia]|done|]. intros _. exists err, pods. split; [left|]. split; [done|].
    split; [right; left|]. split.
    + intros pod o Hp E Ho. apply (Z.lt_le_trans _ (foldl (count_pod name) 0%Z pods)); [|lia].
      eapply H2; [done| |lia]. apply podOrdinal_Some. unfold is_int32. split; [done|lia].
    + destruct H3 as [->|(pod & Hp & Ho%podOrdinal_Some)]; [by left|].
      destruct (Z.max_spec declared (foldl (count_pod name) 0%Z pods)) as [[? ->]|[? ->]].
      * right. exists pod. naive_solver.
      * left. lia.
Qed.

(** What the loop over the ordinals makes of the pods by name. *)
Lemma observe_ordinals_spec name instanceName byName os observed :
  let result := foldl (observe_ordinal name instanceName byName) observed os in
  or_Role result = mkRole (r_Replicas (or_Role observed)) (r_UpdateRevision (or_Role observed))
    (r_Stale (or_Role observed))
    (r_Pods (or_Role observed) ++ omap (λ o, rolloutPod instanceName o <$> byName !! PodName name o) os) ∧
  or_flags result = or_flags observed ∧ or_template result = or_template observed.
Proof.
  revert observed. induction os as [|o os IH]; intros observed; simpl.
  { rewrite app_nil_r. by destruct observed as [[] ? ? ? ?]. }
  destruct (IH (observe_ordinal name instanceName byName observed o)) as (-> & -> & ->).
  unfold observe_ordinal. destruct (byName !! _); simpl; [|done]. by rewrite <- app_assoc.
Qed.

(** A pod of an observed role is one the API server listed, under the name of its ordinal. *)
Definition listed (namespace name : string) (selector : gmap string string) (instanceName : Z → string)
    (applied : Z) (t : list (event eff)) (p : Pod) : Prop :=
  ∃ ordinal pods pod, (0 ≤ ordinal < applied)%Z ∧ p = rolloutPod instanceName ordinal pod ∧
    kp_Name pod = PodName name ordinal ∧ pod ∈ pods ∧ Event (EListPods namespace selector) (inl pods) ∈ t.

Lemma listed_app namespace name selector instanceName applied t u v p :
  listed namespace name selector instanceName applied t p →
  listed namespace name selector instanceName applied (u ++ t ++ v) p.
Proof. intros (o & pods & pod & ? & ? & ? & ? & ?). exists o, pods, pod. set_solver. Qed.

Lemma observed_names_NoDup name instanceName byName (pods : list KPod) os :
  byName = index_by kp_Name pods → NoDup os →
  NoDup (p_Ordinal <$> omap (λ o, rolloutPod instanceName o <$> byName !! PodName name o) os).
Proof.
  intros -> Hnd. induction Hnd as [|o os Ho _ IH]; simpl; [constructor|].
  destruct (index_by kp_Name pods !! PodName name o) as [k|]; simpl; [|done]. constructor; [|done].
  intros (p & E & (o' & Ho' & Hp)%list_elem_of_omap)%list_elem_of_fmap.
  destruct (index_by kp_Name pods !! PodName name o') as [k'|]; simplify_eq/=. done.
Qed.

Lemma observeRolloutRole_spec namespace role selector instanceName generation t observed :
  returns (observeRolloutRole namespace role selector instanceName generation) t (inl observed) →
  r_Replicas (or_Role observed) = rr_applied role ∧ NoDup (p_Ordinal <$> r_Pods (or_Role observed)) ∧
  ∀ p, p ∈ r_Pods (or_Role observed) →
    listed namespace (rr_name role) selector instanceName (rr_applied role) t p.
Proof.
  unfold observeRolloutRole. destruct (rr_statefulSet role) as [sts|].
  2: { intros [-> [= ->]]. simpl. split; [done|]. split; [constructor|]. by intros p ?%elem_of_nil. }
  intros ([pods|err] & t' & -> & H)%returns_trigger; cbn [mbind prog_bind] in H; destruct H as [-> [= ->]].
  destruct (observe_ordinals_spec (rr_name role) instanceName (index_by kp_Name pods) (ordinals (rr_applied role))
    (mkObservedRole (mkRole (rr_applied role) (ks_UpdateRevision sts) (stale sts generation) [])
      (ks_TemplateAnnotations sts !!? FlagsAnnotation | "") ∅
      (ks_TemplateAnnotations sts !!? TemplateHashAnnotation | "") ∅)) as (-> & _ & _). simpl.
  split; [done|]. split; [eapply observed_names_NoDup; [done|apply NoDup_seqZ]|].
  intros p (o & Ho & Hp)%list_elem_of_omap. destruct (index_by _ _ !! _) as [k|] eqn:Ek; simplify_eq/=.
  apply index_by_Some_1 in Ek as [Hk Hn]. apply elem_of_seqZ in Ho.
  exists o, pods, k. split; [lia|]. do 3 (split; [done|]). left.
Qed.

(** The names of listed pods differ when their ordinals do. *)
Lemma listed_names namespace name selector instanceName applied t (pods : list Pod) :
  (∀ p, p ∈ pods → listed namespace name selector instanceName applied t p) →
  NoDup (p_Ordinal <$> pods) → NoDup (p_Name <$> pods).
Proof.
  intros Hl Hnd. rewrite (list_fmap_ext p_Name (λ p, PodName name (p_Ordinal p))).
  - rewrite (list_fmap_compose p_Ordinal (PodName name)). apply NoDup_fmap_2; [intros ??; apply PodName_inj|done].
  - intros i p Hi%list_elem_of_lookup_2. destruct (Hl p Hi) as (o & pods' & k & _ & -> & E & _). done.
Qed.

Lemma listed_instances namespace name selector applied t (pods : list Pod) :
  (∀ p, p ∈ pods → listed namespace name selector DataInstanceName applied t p) →
  NoDup (p_Ordinal <$> pods) → NoDup (p_Instance <$> pods).
Proof.
  intros Hl Hnd. rewrite (list_fmap_ext p_Instance (λ p, DataInstanceName (p_Ordinal p))).
  - rewrite (list_fmap_compose p_Ordinal DataInstanceName).
    apply NoDup_fmap_2; [intros ??; apply DataInstanceName_inj|done].
  - intros i p Hi%list_elem_of_lookup_2. destruct (Hl p Hi) as (o & pods' & k & _ & -> & E & _). done.
Qed.

(** How both roles' counts came about, and which shrinks are unseen. *)
Lemma resolveReplicaCounts_spec `{Kube} {L} (cluster : MemgraphDBCluster L) shrinks t shrinks' counts :
  returns (resolveReplicaCounts cluster shrinks) t (shrinks', inl counts) →
  let namespace := m_Namespace (Meta cluster) in
  let name := m_Name (Meta cluster) in
  resolved namespace (CoordinatorName name) (DeclaredCoordinators cluster) (CoordinatorPodSelector name) t
    (rc_coordinators counts) ∧
  resolved namespace (DataName name) (DeclaredDataInstances cluster) (DataPodSelector name) t (rc_data counts) ∧
  ∀ unseen, unseen ∈ rc_unseenShrinks counts ↔
    ∃ role, role ∈ [rc_coordinators counts; rc_data counts] ∧ unseen = rr_name role ∧
      trusted shrinks (namespace, rr_name role) (cachedOf <$> rr_statefulSet role) = false.
Proof.
  intros Hrun namespace name. unfold resolveReplicaCounts in Hrun. fold namespace name in Hrun.
  apply returns_bind in Hrun as (t1 & [s1 r] & t2 & -> & H1 & H2).
  destruct r as [[unseen coordinators]|]; [|by destruct H2].
  apply returns_bind in H2 as (t3 & [s2 r] & t4 & -> & H2 & H3).
  destruct r as [[unseen2 data]|]; [|by destruct H3]. destruct H3 as [-> [= -> ->]]. simpl.
  apply resolve_role_spec in H1 as (Hc & Hs & ->), H2 as (Hd & _ & ->).
  split; [by apply (resolved_app _ _ _ _ t1 [])|]. split; [by apply resolved_app|]. intros u.
  assert (∀ (b : bool) x, u ∈ (if b then [] else [x]) ↔ u = x ∧ b = false) as Hif by (intros [] x; set_solver).
  assert (trusted s1 (namespace, DataName name) (cachedOf <$> rr_statefulSet data) =
          trusted shrinks (namespace, DataName name) (cachedOf <$> rr_statefulSet data)) as ->.
  { unfold trusted. rewrite Hs; [done|]. intros [= E]. unfold DataName, CoordinatorName in E. by apply app_inj_l_s in E. }
  destruct Hc as [<- _ _ _], Hd as [<- _ _ _]. cbn [app]. rewrite elem_of_app, !Hif.
  split.
  - intros [[-> Hu]|[-> Hu]]; [exists coordinators|exists data]; (split; [|done]); [left|right; left].
  - intros (role & [E|E]%elem_of_cons & -> & Hu); [|apply list_elem_of_singleton in E]; subst; auto.
Qed.

(** ** Properties *)

(** Resolving the counts never lowers one: the count to apply to a role is the larger of
    the declared count and the one its StatefulSet runs, or, where the StatefulSet is missing,
    a count that keeps every pod the API server still lists under the role (up to the last
    ordinal an int32 count can reach). The shrinks reported unseen are exactly those whose
    StatefulSet was read older than the write the pass waits for. *)
Theorem replicaCounts_never_shrinks `{Kube} {L} (cluster : MemgraphDBCluster L) shrinks t shrinks' counts :
  returns (resolveReplicaCounts cluster shrinks) t (shrinks', inl counts) →
  let namespace := m_Namespace (Meta cluster) in
  let name := m_Name (Meta cluster) in
  resolved namespace (CoordinatorName name) (DeclaredCoordinators cluster) (CoordinatorPodSelector name) t
    (rc_coordinators counts) ∧
  resolved namespace (DataName name) (DeclaredDataInstances cluster) (DataPodSelector name) t (rc_data counts) ∧
  ∀ unseen, unseen ∈ rc_unseenShrinks counts ↔
    ∃ role, role ∈ [rc_coordinators counts; rc_data counts] ∧ unseen = rr_name role ∧
      trusted shrinks (namespace, rr_name role) (cachedOf <$> rr_statefulSet role) = false.
Proof. apply resolveReplicaCounts_spec. Qed.

(** The pods rollout.go judges are the ones the API server listed: each is listed under
    its role's selector and carries the name, the instance and the UID of its ordinal, none
    beyond the applied count; it counts as ready only when its Ready condition is True and it
    is not being deleted; and names tell pods apart across both roles, as instances do among
    the data pods. *)
Theorem observeRollout_identity namespace name replicas applied t roles :
  returns (observeRollout namespace name replicas applied) t (inl roles) →
  rr_name (rc_coordinators replicas) = CoordinatorName name → rr_name (rc_data replicas) = DataName name →
  NoDup (p_Name <$> r_Pods (ro_data roles) ++ r_Pods (ro_coordinators roles)) ∧
  NoDup (p_Instance <$> r_Pods (ro_data roles)) ∧
  r_Replicas (ro_data roles) = rr_applied (rc_data replicas) ∧
  r_Replicas (ro_coordinators roles) = rr_applied (rc_coordinators replicas) ∧
  ∀ p, (p ∈ r_Pods (ro_data roles) → listed namespace (DataName name) (DataPodSelector name) DataInstanceName
          (rr_applied (rc_data replicas)) t p) ∧
       (p ∈ r_Pods (ro_coordinators roles) → listed namespace (CoordinatorName name) (CoordinatorPodSelector name)
          CoordinatorInstanceName (rr_applied (rc_coordinators replicas)) t p).
Proof.
  intros (t1 & r & t2 & -> & H1 & H2)%returns_bind Hcn Hdn. destruct r as [coordinators|]; [|by destruct H2].
  apply returns_bind in H2 as (t3 & r & t4 & -> & H2 & H3). destruct r as [data|]; [|by destruct H3].
  destruct H3 as [-> [= ->]]. simpl.
  apply observeRolloutRole_spec in H1 as (Hrc & Hnc & Hlc), H2 as (Hrd & Hnd & Hld). rewrite Hcn in Hlc. rewrite Hdn in Hld.
  split.
  { rewrite fmap_app. apply NoDup_app. split; [by eapply listed_names|]. split; [|by eapply listed_names].
    intros n (p & -> & Hp)%list_elem_of_fmap (q & E & Hq)%list_elem_of_fmap.
    destruct (Hld p Hp) as (o & ? & k & _ & -> & Ek & _), (Hlc q Hq) as (o' & ? & k' & _ & -> & Ek' & _).
    simpl in E. rewrite Ek, Ek' in E. by apply symmetry, PodName_roles in E. }
  split; [by eapply listed_instances|]. do 2 (split; [done|]). intros p. split.
  - intros Hp%Hld. by apply listed_app.
  - intros Hp%Hlc. by apply (listed_app _ _ _ _ _ _ []).
Qed.

(** ** Witnesses: a roll of a cluster whose data StatefulSet is being recreated *)

Module Example.
Definition cluster : MemgraphDBCluster (gmap string Condition) := Api.Example.cluster (Some 1%Z) (Some 1%Z).
Definition kpod (name : string) : KPod :=
  mkKPod name ("uid-" ^^ name) {[ StatefulSetRevisionLabel := "r1" ]} {[ FlagsAnnotation := "a=1" ]} false
    [mkPodCondition PodReady "True"] [].
Definition sts : KStatefulSet := mkKStatefulSet "u" 3 (Some 3%Z) {[ FlagsAnnotation := "a=1" ]} 3 3 "r2" 3 false [].

(** The coordinator StatefulSet exists, the data one does not, and three data pods run. *)
Definition handle (X : Type) (e : eff X) (s : unit) : unit * X :=
  (s, match e in eff X return X with
      | EGetStatefulSet _ name => if decide (name = "db-coordinator") then inl sts else inr (StatusError NotFound name)
      | EListPods _ _ => inl (kpod <$> ["db-data-2"; "db-data-0"; "db-coordinator-0"; "db-coordinator-1"])
      | e => idle _ e
      end).

Definition counts := Effects.run handle (resolveReplicaCounts cluster {[ ("default", "db-coordinator") := mkWritten "u" 4 ]}) tt.
Definition replicas : replicaCounts :=
  mkReplicaCounts (mkRoleReplicas "db-coordinator" 3 3 (Some sts)) (mkRoleReplicas "db-data" 2 3 (Some sts)) [].
Definition rollout := Effects.run handle (observeRollout "default" "db" replicas ∅) tt.
End Example.

(** The data pods the missing StatefulSet left keep the count at 3 over the declared 1. *)
Lemma replicaCounts_never_shrinks_witness :
  ∃ counts, Example.counts.2.2 = inl counts ∧ rr_applied (rc_data counts) = 3%Z ∧
    resolved "default" "db-data" 1 (DataPodSelector "db") Example.counts.1.2 (rc_data counts).
Proof.
  assert (∃ counts, Example.counts.2.2 = inl counts ∧ rr_applied (rc_data counts) = 3%Z) as (counts & E & Ha)
    by (eexists; split; vm_compute; reflexivity).
  exists counts. split; [exact E|]. split; [exact Ha|].
  apply (replicaCounts_never_shrinks Example.cluster {[ ("default", "db-coordinator") := mkWritten "u" 4 ]}
    Example.counts.1.2 Example.counts.2.1 counts).
  pose proof (run_returns Example.handle (resolveReplicaCounts Example.cluster
    {[ ("default", "db-coordinator") := mkWritten "u" 4 ]}) tt) as H.
  rewrite <- E. fold Example.counts in H. by destruct Example.counts as [[? ?] [? ?]].
Defined.

Lemma observeRollout_identity_witness :
  ∃ roles, Example.rollout.2 = inl roles ∧ p_Name <$> r_Pods (ro_data roles) = ["db-data-0"; "db-data-2"] ∧
    NoDup (p_Name <$> r_Pods (ro_data roles) ++ r_Pods (ro_coordinators roles)).
Proof.
  assert (∃ roles, Example.rollout.2 = inl roles ∧ p_Name <$> r_Pods (ro_data roles) = ["db-data-0"; "db-data-2"])
    as (roles & E & Hp) by (eexists; split; vm_compute; reflexivity).
  exists roles. split; [exact E|]. split; [exact Hp|].
  apply (observeRollout_identity "default" "db" Example.replicas ∅ Example.rollout.1.2 roles); [|done..].
  rewrite <- E. apply (run_returns Example.handle (observeRollout "default" "db" Example.replicas ∅) tt).
Defined.
