(* ===== verification/VolumePass.v ===== *)
(** * Package controller: the volume pass

    reconcileVolumes with observeClaims and growClaim: a grown storage size is patched onto
    the claims of both roles, and the StatefulSet deleted with its pods and claims orphaned
    once none is left to patch. What to do is volumes.go's [Decide]; here is how a pass
    carries it out, and what the API server may answer. *)

From S2P Require Import Prelude GoStrings GoErrors K8s Api Client Planner Volumes Effects.
From S2P Require Import Resources Topology Flags Vector Workloads Status World Events Replicas.

(** ** Definitions *)

(** One role as the pass needs it: its replica arithmetic, the name and the claim templates
    of the StatefulSet the spec describes, and the selector of its pods and claims. *)
Record claimedRole := mkClaimedRole {
  cr_replicas : roleReplicas;
  cr_desired : string;
  cr_claims : list (ClaimTemplate Quantity);
  cr_selector : gmap string string
}.

(** How the pass ends: it goes on, it ends with a StatefulSet being recreated, it fails, or
    it panics on a nil claim or StatefulSet. *)
Inductive volumesResult := VolumesSettled | Recreating (message : string) | VolumesFailed (err : error) | VolumesPanicked.

Section volumes.
Context `{RangeOrder} `{QuantityOrder Quantity}.

Abbreviation claim_map := (gmap string (PersistentVolumeClaim Quantity)).

(** The pods of a role by the ordinal of their names. *)
Definition observePods (name : string) (pods : list KPod) : list VPod :=
  omap (λ pod, (λ ordinal, mkVPod (kp_Name pod) ordinal) <$> podOrdinal name (kp_Name pod)) pods.

Definition observes (name : string) (templates : list string) (pvc : PersistentVolumeClaim Quantity) : bool :=
  match Observe name templates pvc with Some _ => true | None => false end.

Definition observeClaims (namespace : string) (role : claimedRole)
    : prog eff ((VRole Quantity * claim_map) + error) :=
  let name := cr_desired role in
  let desired := TemplateSizes (cr_claims role) in
  let live := (λ sts, TemplateSizes (ks_ClaimTemplates sts)) <$> rr_statefulSet (cr_replicas role) in
  let templates := SortedKeys desired in
  r ← trigger (EListClaims namespace (cr_selector role));
  match r with
  | inr err => mret (inr (wrap ("listing PersistentVolumeClaims of StatefulSet " ^^ name) err))
  | inl list =>
      let observed := List.filter (observes name templates) list in
      r ← trigger (EListPods namespace (cr_selector role));
      match r with
      | inr err => mret (inr (wrap ("listing pods of StatefulSet " ^^ name) err))
      | inl pods =>
          mret (inl (mkVRole name desired live (omap (Observe name templates) list) (observePods name pods),
                     index_by pv_Name observed))
      end
  end.

(** A claim gone or changed in between is judged again next pass. *)
Definition growClaim (pvc : PersistentVolumeClaim Quantity) (size : Quantity) : prog eff (option error) :=
  r ← trigger (EPatchClaim pvc size);
  mret match r with
       | None => None
       | Some err =>
           if IsNotFound err || IsConflict err then None
           else Some (wrap ("patching PersistentVolumeClaim " ^^ pv_Name pvc) err)
       end.

(** The loop over the patches of a decision: the refused claims, or the error that ends the
    pass; [None] is the nil claim. *)
Fixpoint patch_loop (pvcs : claim_map) (patches : list (Patch Quantity)) (refused : list string)
    : prog eff (list string * option (option error)) :=
  match patches with
  | [] => mret (refused, Some None)
  | patch :: patches =>
      match pvcs !! pt_Claim patch with
      | None => mret (refused, None)
      | Some pvc =>
          r ← growClaim pvc (pt_Size patch);
          match r with
          | Some err =>
              if negb (IsForbidden err) && negb (IsInvalid err) then mret (refused, Some (Some err))
              else patch_loop pvcs patches (refused ++ [pt_Claim patch ^^ ": " ^^ Error err])
          | None =>
              _ ← trigger (EEvent (normal (ClaimRef (pt_Claim patch)) EventReasonVolumeExpansionRequested
                    eventActionExpandVolume
                    ("Requested " ^^ pt_Size patch ^^ " for PersistentVolumeClaim " ^^ pt_Claim patch)));
              patch_loop pvcs patches refused
          end
      end
  end.

Definition orphan (namespace name uid : string) : prog eff (option error) :=
  r ← trigger (EOrphanStatefulSet namespace name uid);
  mret match r with
       | None => None
       | Some err =>
           if IsNotFound err || IsConflict err then None
           else Some (wrap ("deleting StatefulSet " ^^ name ^^ " to recreate it") err)
       end.

Definition orphan_event (name : string) : KEvent :=
  normal (StatefulSetRef name) EventReasonStatefulSetOrphaned eventActionRecreate
    ("Deleted StatefulSet " ^^ name ^^ " with its pods and claims orphaned, to recreate it with grown claim templates").
Definition recreating_message (name : string) : string :=
  "Recreating StatefulSet " ^^ name ^^ " with the grown claim sizes; its pods and claims are kept".

(** The loop of [reconcileVolumes] over the roles. *)
Fixpoint volumes_loop (namespace : string) (roles : list claimedRole) (outcome : volumeOutcome)
    : prog eff (volumeOutcome * volumesResult) :=
  match roles with
  | [] => mret (outcome, VolumesSettled)
  | role :: roles =>
      let live := rr_statefulSet (cr_replicas role) in
      let name := rr_name (cr_replicas role) in
      if match live with Some sts => ks_Deleting sts | None => false end
      then mret (outcome, Recreating ("Waiting for StatefulSet " ^^ name ^^ " to be deleted before recreating it; " ^^
                                      "its pods and claims are kept"))
      else
        r ← observeClaims namespace role;
        match r with
        | inr err => mret (outcome, VolumesFailed err)
        | inl (observed, pvcs) =>
            let decision := Decide observed in
            '(refused, r) ← patch_loop pvcs (vd_Patches decision) (vo_refused outcome);
            match r with
            | None => mret (outcome, VolumesPanicked)
            | Some (Some err) =>
                mret (mkVolumeOutcome (vo_growing outcome) (vo_errors outcome) refused (vo_failed outcome),
                      VolumesFailed err)
            | Some None =>
                let outcome := mkVolumeOutcome (vo_growing outcome ++ vd_Growing decision)
                                 (vo_errors outcome ++ vd_Errors decision) refused
                                 (vo_failed outcome ++ vd_Failed decision) in
                if vd_Recreate decision
                then
                  match live with
                  | None => mret (outcome, VolumesPanicked)
                  | Some sts =>
                      err ← orphan namespace name (ks_UID sts);
                      match err with
                      | Some err => mret (outcome, VolumesFailed err)
                      | None =>
                          _ ← trigger (EEvent (orphan_event name));
                          mret (outcome, Recreating (recreating_message name))
                      end
                  end
                else volumes_loop namespace roles outcome
            end
        end
  end.

Definition reconcileVolumes (namespace : string) (roles : list claimedRole)
    : prog eff (volumeOutcome * volumesResult) :=
  volumes_loop namespace roles (mkVolumeOutcome [] [] [] []).

(** ** Lemmas *)

(** The claims of a role in a list of the API server. *)
Definition claims_of (role : claimedRole) : list (PersistentVolumeClaim Quantity) → list (Claim Quantity) :=
  omap (Observe (cr_desired role) (SortedKeys (TemplateSizes (cr_claims role)))).

(** What a role's claims were seen as: the decision's input and the claims by name come from
    one list of the API server. *)
Lemma observeClaims_spec namespace role t observed pvcs :
  returns (observeClaims namespace role) t (inl (observed, pvcs)) →
  mutations t = [] ∧ vr_Desired observed = TemplateSizes (cr_claims role) ∧
  vr_Live observed = (λ sts, TemplateSizes (ks_ClaimTemplates sts)) <$> rr_statefulSet (cr_replicas role) ∧
  ∃ list, Event (EListClaims namespace (cr_selector role)) (inl list) ∈ t ∧ vr_Claims observed = claims_of role list ∧
    ∀ claim, claim ∈ vr_Claims observed → ∃ pvc, pvcs !! cl_Name claim = Some pvc ∧ pv_Name pvc = cl_Name claim.
Proof.
  intros ([list|err] & t1 & -> & Hrun)%returns_trigger; cbn [mbind prog_bind] in Hrun; [|by destruct Hrun as [_ [=]]].
  apply returns_trigger in Hrun as ([pods|err] & t2 & -> & Hrun); cbn [mbind prog_bind] in Hrun; [|by destruct Hrun as [_ [=]]].
  destruct Hrun as [-> [= -> ->]]. do 3 (split; [done|]). exists list. split; [left|]. split; [done|].
  intros claim (pvc & Hin & Hobs)%list_elem_of_omap. cbn in *.
  assert (cl_Name claim = pv_Name pvc) as En.
  { revert Hobs. generalize (SortedKeys (TemplateSizes (cr_claims role))). intros ts.
    induction ts as [|t ts IH]; cbn [Observe]; [done|]. destruct (claimOrdinal _ _ _); [by intros [= <-]|done]. }
  destruct (index_by_is_Some pv_Name (List.filter (observes (cr_desired role) (SortedKeys (TemplateSizes (cr_claims role)))) list)
    (cl_Name claim)) as [_ [pvc' Hpvc']].
  { exists pvc. split; [|done]. apply elem_of_bfilter. split; [done|]. unfold observes. by rewrite Hobs. }
  exists pvc'. split; [done|]. by apply index_by_Some_1 in Hpvc' as [_ ?].
Qed.

Lemma observeClaims_quiet namespace role : all_effects quiet (observeClaims namespace role).
Proof. unfold observeClaims. all_effects. Qed.

(** The growths of a list of patches. *)
Definition growing (patch : Patch Quantity) : mutation := MGrow (pt_Claim patch) (pt_Size patch).

Lemma patch_loop_spec pvcs patches refused t refused' r :
  (∀ p, p ∈ patches → ∃ pvc, pvcs !! pt_Claim p = Some pvc ∧ pv_Name pvc = pt_Claim p) →
  returns (patch_loop pvcs patches refused) t (refused', r) →
  r ≠ None ∧ mutations t `prefix_of` growing <$> patches ∧ (patches = [] → refused' = refused).
Proof.
  revert refused t. induction patches as [|p patches IH]; intros refused t Hp Hrun; cbn [patch_loop] in Hrun.
  { destruct Hrun as [-> [= -> ->]]. done. }
  destruct (Hp p) as (pvc & Hpvc & Hn); [left|]. rewrite Hpvc in Hrun.
  assert (∀ q, q ∈ patches → ∃ pvc, pvcs !! pt_Claim q = Some pvc ∧ pv_Name pvc = pt_Claim q) as Hp'
    by (intros; apply Hp; by right).
  apply returns_bind in Hrun as (t1 & e & t2 & -> & Hg & Hrun).
  apply returns_trigger in Hg as (answer & t3 & -> & [-> ->]). rewrite mutations_app.
  cbn [mutations mbind list_bind mutation_of app fmap list_fmap]. rewrite Hn. fold (growing p).
  destruct (match answer with Some err => _ | None => None end) as [err|].
  - destruct (negb (IsForbidden err) && negb (IsInvalid err)).
    + destruct Hrun as [-> [= -> ->]]. split; [done|]. split; [apply prefix_cons, prefix_nil|done].
    + apply IH in Hrun as (Hr & Hm & _); [|done]. split; [done|]. split; [by apply prefix_cons|done].
  - apply returns_trigger in Hrun as (u & t4 & -> & Hrun). rewrite mutations_cons.
    apply IH in Hrun as (Hr & Hm & _); [|done]. split; [done|]. split; [by apply prefix_cons|done].
Qed.

Lemma orphan_spec namespace name uid t r :
  returns (orphan namespace name uid) t r → mutations t = [MOrphan name uid].
Proof. by intros (answer & t1 & -> & [-> ->])%returns_trigger. Qed.

Lemma volumes_loop_unconnected namespace roles outcome : all_effects unconnected (volumes_loop namespace roles outcome).
Proof.
  assert (∀ pvcs patches refused, all_effects unconnected (patch_loop pvcs patches refused)) as Hp.
  { intros pvcs patches. induction patches as [|p patches IH]; intros; cbn [patch_loop]; unfold growClaim; all_effects. }
  revert outcome. induction roles as [|role roles IH]; intros outcome; cbn [volumes_loop]; unfold observeClaims, orphan; all_effects.
Qed.

(** A growth a pass may ask for: of a bound claim of a role, listed by the API server and
    asking for less than the role declares, to the size it declares. *)
Definition grows namespace (roles : list claimedRole) (t : list (event eff)) (m : mutation) : Prop :=
  ∃ role list claim size, role ∈ roles ∧ Event (EListClaims namespace (cr_selector role)) (inl list) ∈ t ∧
    claim ∈ claims_of role list ∧ cl_Bound claim = true ∧
    TemplateSizes (cr_claims role) !! cl_Template claim = Some size ∧ smaller (cl_Request claim) size = true ∧
    m = MGrow (cl_Name claim) size.

(** A StatefulSet a pass may delete: the live one of a role whose declared sizes outgrew its
    claim templates, once no bound claim of the role asks for less than declared. *)
Definition orphans namespace (roles : list claimedRole) (t : list (event eff)) (m : mutation) : Prop :=
  ∃ role sts list, role ∈ roles ∧ rr_statefulSet (cr_replicas role) = Some sts ∧ ks_Deleting sts = false ∧
    m = MOrphan (rr_name (cr_replicas role)) (ks_UID sts) ∧
    Event (EListClaims namespace (cr_selector role)) (inl list) ∈ t ∧
    (∀ claim size, claim ∈ claims_of role list → cl_Bound claim = true →
       TemplateSizes (cr_claims role) !! cl_Template claim = Some size → smaller (cl_Request claim) size = false) ∧
    ∃ template size current, TemplateSizes (cr_claims role) !! template = Some size ∧
      TemplateSizes (ks_ClaimTemplates sts) !! template = Some current ∧ smaller current size = true.

Lemma grows_mono namespace roles roles' t t' m :
  (∀ role, role ∈ roles → role ∈ roles') → (∀ e, e ∈ t → e ∈ t') → grows namespace roles t m → grows namespace roles' t' m.
Proof. intros Hr Ht (role & list & claim & size & ? & ? & ?). exists role, list, claim, size. auto. Qed.
Lemma orphans_mono namespace roles roles' t t' m :
  (∀ role, role ∈ roles → role ∈ roles') → (∀ e, e ∈ t → e ∈ t') → orphans namespace roles t m → orphans namespace roles' t' m.
Proof. intros Hr Ht (role & sts & list & ? & ? & ? & ? & ? & ?). exists role, sts, list. auto 10. Qed.

Lemma volumes_loop_spec namespace roles outcome t outcome' result :
  returns (volumes_loop namespace roles outcome) t (outcome', result) →
  result ≠ VolumesPanicked ∧ ∃ grown orphaned, mutations t = grown ++ orphaned ∧ Forall (grows namespace roles t) grown ∧
    (orphaned = [] ∨ ∃ m, orphaned = [m] ∧ orphans namespace roles t m ∧ result ≠ VolumesSettled).
Proof.
  revert outcome t. induction roles as [|role roles IH]; intros outcome t Hrun; cbn [volumes_loop] in Hrun.
  { destruct Hrun as [-> [= -> ->]]. split; [done|]. exists [], []. auto. }
  destruct (match rr_statefulSet _ with Some sts => ks_Deleting sts | None => false end) eqn:Edel.
  { destruct Hrun as [-> [= -> ->]]. split; [done|]. exists [], []. auto. }
  apply returns_bind in Hrun as (t1 & r & t2 & -> & Hobs & Hrun).
  destruct r as [[observed pvcs]|err].
  2: { pose proof (quiet_mutations _ _ _ (observeClaims_quiet namespace role) Hobs) as Hq.
       destruct Hrun as [-> [= -> ->]]. rewrite app_nil_r, Hq. split; [done|]. exists [], []. auto. }
  apply observeClaims_spec in Hobs as (Hq & Hdes & Hlive & list & Hlist & Hclaims & Hpvcs).
  rewrite mutations_app, Hq. apply returns_bind in Hrun as (t3 & [refused r] & t4 & -> & Hpatch & Hrun).
  pose proof (patches_spec observed) as Hps. apply patch_loop_spec in Hpatch as (Hr & Hm & _).
  2: { intros p (claim & Hc & -> & _)%Hps. by apply Hpvcs. }
  assert (∀ m, m ∈ mutations t3 → grows namespace (role :: roles) (t1 ++ t3 ++ t4) m) as Hgrow.
  { intros m Hin. destruct Hm as [rest E]. assert (m ∈ growing <$> vd_Patches (Decide observed)) as Hin'
      by (rewrite E; apply elem_of_app; by left).
    apply list_elem_of_fmap in Hin' as (p & -> & (claim & Hc & Hn & Hb & Hd & Hs)%Hps).
    exists role, list, claim, (pt_Size p). rewrite <- Hclaims, <- Hdes. unfold growing. rewrite Hn.
    split; [left|]. split; [apply elem_of_app; by left|]. auto 10. }
  rewrite mutations_app. destruct r as [[err|]|]; [| |done].
  { destruct Hrun as [-> [= -> ->]]. split; [done|]. exists (mutations t3), []. rewrite Forall_forall. auto. }
  destruct (vd_Recreate (Decide observed)) eqn:Erec.
  - apply recreate_spec in Erec as (Hnop & live & template & size & current & El & Ed & Ec & Hlt).
    rewrite Hlive in El. destruct (rr_statefulSet (cr_replicas role)) as [sts|] eqn:Ests; [|done]. cbn in El. injection El as <-.
    assert (orphans namespace (role :: roles) (t1 ++ t3 ++ t4) (MOrphan (rr_name (cr_replicas role)) (ks_UID sts))) as Horph.
    { exists role, sts, list. split; [left|]. do 3 (split; [done|]). split; [apply elem_of_app; by left|]. split.
      - intros claim want Hc Hb Hw. apply not_true_iff_false. intros Hs.
        enough (mkPatch (cl_Name claim) want ∈ vd_Patches (Decide observed)) as Hin by (rewrite Hnop in Hin; by apply elem_of_nil in Hin).
        apply Hps. exists claim. rewrite Hclaims, Hdes. auto.
      - exists template, size, current. by rewrite <- Hdes. }
    apply returns_bind in Hrun as (t5 & e & t6 & -> & Horp%orphan_spec & Hrun).
    rewrite Hnop in Hm. apply prefix_nil_inv in Hm. rewrite Hm, mutations_app, Horp. cbn [app].
    destruct e as [err|].
    + destruct Hrun as [-> [= -> ->]]. split; [done|]. exists [], [MOrphan (rr_name (cr_replicas role)) (ks_UID sts)].
      split; [done|]. split; [done|]. right. eexists. split; [done|]. split; [done|done].
    + apply returns_trigger in Hrun as (u & t7 & -> & [-> [= -> ->]]). split; [done|].
      exists [], [MOrphan (rr_name (cr_replicas role)) (ks_UID sts)].
      split; [done|]. split; [done|]. right. eexists. split; [done|]. split; [done|done].
  - apply IH in Hrun as (Hres & grown & orphaned & Hmu & Hg & Ho). split; [done|].
    exists (mutations t3 ++ grown), orphaned. split; [by rewrite Hmu, <- app_assoc|]. split.
    + apply Forall_app. split; [by apply Forall_forall|]. eapply Forall_impl; [exact Hg|]. intros m. apply grows_mono; [by right|].
      intros e He. rewrite !elem_of_app. auto.
    + destruct Ho as [->|(m & -> & Ho & Hne)]; [by left|]. right. exists m. split; [done|]. split; [|done].
      revert Ho. apply orphans_mono; [by right|]. intros e He. rewrite !elem_of_app. auto.
Qed.

(** Only the step that orphans a StatefulSet issues its deletion. *)
Definition keeps_statefulSets (X : Type) (e : eff X) : Prop :=
  match e with EOrphanStatefulSet _ _ _ => False | _ => True end.
#[local] Hint Extern 0 (keeps_statefulSets _ _) => exact I : effects.

(** The deletion an event is. *)
Definition orphan_of (e : event eff) : option (string * string * option error) :=
  match e with Event (EOrphanStatefulSet _ name uid) r => Some (name, uid, r) | _ => None end.

Lemma keeps_not_in {A} (p : prog eff A) t a namespace name uid r :
  all_effects keeps_statefulSets p → returns p t a → Event (EOrphanStatefulSet namespace name uid) r ∉ t.
Proof. intros Hp Hrun Hin. exact (all_effects_returns keeps_statefulSets p t a Hp Hrun _ _ _ Hin). Qed.

Lemma volumes_loop_conflict namespace roles start t outcome result name uid msg :
  returns (volumes_loop namespace roles start) t (outcome, result) →
  Event (EOrphanStatefulSet namespace name uid) (Some (StatusError Conflict msg)) ∈ t →
  Event (EEvent (orphan_event name)) tt ∈ t ∧ result = Recreating (recreating_message name).
Proof.
  assert (∀ pvcs patches refused, all_effects keeps_statefulSets (patch_loop pvcs patches refused)) as Hk.
  { intros pvcs patches. induction patches as [|p patches IH]; intros; cbn [patch_loop]; unfold growClaim; all_effects. }
  revert start t. induction roles as [|role roles IH]; intros start t Hrun Hin; cbn [volumes_loop] in Hrun.
  { destruct Hrun as [-> _]. by apply elem_of_nil in Hin. }
  destruct (match rr_statefulSet _ with Some sts => ks_Deleting sts | None => false end).
  { destruct Hrun as [-> _]. by apply elem_of_nil in Hin. }
  apply returns_bind in Hrun as (t1 & r & t2 & -> & Hobs & Hrun). apply elem_of_app in Hin as [Hin|Hin].
  { destruct (keeps_not_in (observeClaims namespace role) t1 r namespace name uid (Some (StatusError Conflict msg)));
      [unfold observeClaims; all_effects|done..]. }
  destruct r as [[observed pvcs]|err]; [|destruct Hrun as [-> _]; by apply elem_of_nil in Hin].
  apply returns_bind in Hrun as (t3 & [refused r] & t4 & -> & Hpatch & Hrun). apply elem_of_app in Hin as [Hin|Hin].
  { by destruct (keeps_not_in _ _ _ namespace name uid (Some (StatusError Conflict msg)) (Hk _ _ _) Hpatch). }
  rewrite !elem_of_app. destruct r as [[err|]|]; [destruct Hrun as [-> _]; by apply elem_of_nil in Hin| |
    destruct Hrun as [-> _]; by apply elem_of_nil in Hin].
  destruct (vd_Recreate _); [|destruct (IH _ _ Hrun Hin); auto].
  destruct (rr_statefulSet _) as [sts|]; [|destruct Hrun as [-> _]; by apply elem_of_nil in Hin].
  apply returns_bind in Hrun as (t5 & e & t6 & -> & Horp & Hrun).
  apply returns_trigger in Horp as (answer & t7 & -> & [-> ->]).
  assert (∀ u, Event (EOrphanStatefulSet namespace name uid) (Some (StatusError Conflict msg)) ∈ [Event (EEvent u) tt] → False)
    as Hev.
  { intros u [Ho|Ho%elem_of_nil]%elem_of_cons; [|done]. by apply (f_equal orphan_of) in Ho. }
  apply elem_of_cons in Hin as [Ho|Hin].
  - apply (f_equal orphan_of) in Ho. cbn in Ho. injection Ho as Hn Hu Ha. subst answer. cbn in Hrun.
    apply returns_trigger in Hrun as ([] & t8 & -> & [-> [= _ ->]]). rewrite Hn. split; [|done].
    do 2 right. apply elem_of_app. right. left.
  - exfalso. destruct (match answer with Some err => _ | None => None end).
    + destruct Hrun as [-> _]. by apply elem_of_nil in Hin.
    + apply returns_trigger in Hrun as ([] & t8 & -> & [-> _]). by eapply Hev.
Qed.
End volumes.

(** ** Properties *)

(** C18: a volume pass never loses data: whatever the API server answers it ends without
    panicking, and all it changes are storage requests it raises to the declared size, of
    bound claims of a role that asked for less, and then at most one StatefulSet, deleted
    with its pods and claims orphaned: the live one of a role whose declared sizes outgrew
    its claim templates, by the UID it was read under, while no bound claim of the role
    still asks for less, so a refused patch holds it back. That deletion ends the pass. *)
Theorem volume_pass_did `{RangeOrder} `{QuantityOrder Quantity} namespace roles t outcome result :
  returns (reconcileVolumes namespace roles) t (outcome, result) →
  leaves_open t [] ∧ result ≠ VolumesPanicked ∧
  ∃ grown orphaned, mutations t = grown ++ orphaned ∧ Forall (grows namespace roles t) grown ∧
    (orphaned = [] ∨ ∃ m, orphaned = [m] ∧ orphans namespace roles t m ∧ result ≠ VolumesSettled).
Proof.
  intros Hrun. split; [eapply unconnected_leaves; [apply volumes_loop_unconnected|exact Hrun]|]. by eapply volumes_loop_spec.
Qed.

(** C35: an Event does not say what was done: when the API server answers the delete of a
    StatefulSet with a conflict, because the object was changed or replaced in between, the
    StatefulSet stands and the pass still records an Event that says it was deleted. *)
Theorem orphan_event_on_conflict `{RangeOrder} `{QuantityOrder Quantity} namespace roles t outcome result name uid msg :
  returns (reconcileVolumes namespace roles) t (outcome, result) →
  Event (EOrphanStatefulSet namespace name uid) (Some (StatusError Conflict msg)) ∈ t →
  Event (EEvent (orphan_event name)) tt ∈ t ∧ result = Recreating (recreating_message name).
Proof. apply volumes_loop_conflict. Qed.

(** ** Witnesses: data volumes grown from 10Gi to 20Gi *)

#[local] Existing Instance Workloads.Example.quantity_Gi.

Module Example.
Definition sts : KStatefulSet :=
  mkKStatefulSet "u" 3 (Some 2%Z) ∅ 2 2 "r1" 3 false [mkClaimTemplate "lib-storage" (Some "10Gi")].
Definition role : claimedRole :=
  mkClaimedRole (mkRoleReplicas "db-data" 2 2 (Some sts)) "db-data" [mkClaimTemplate "lib-storage" (Some "20Gi")]
    (DataPodSelector "db").
Definition pvc (name request : string) : PersistentVolumeClaim Quantity :=
  mkPVC name ClaimBound (Some request) (Some request) [] None.

(** The claims of the two data instances ask for the given sizes, and a delete conflicts. *)
Definition handle (request0 request1 : string) (X : Type) (e : eff X) (s : unit) : unit * X :=
  (s, match e in eff X return X with
      | EListClaims _ _ => inl [pvc "lib-storage-db-data-0" request0; pvc "lib-storage-db-data-1" request1]
      | EOrphanStatefulSet _ _ _ => Some (StatusError Conflict "changed")
      | e => idle _ e
      end).
Definition volumes (request0 request1 : string) :=
  Effects.run (handle request0 request1) (reconcileVolumes "default" [role]) tt.
End Example.

Lemma volume_pass_did_witness :
  mutations (Example.volumes "10Gi" "20Gi").1.2 = [MGrow "lib-storage-db-data-0" "20Gi"] ∧
  leaves_open (Example.volumes "10Gi" "20Gi").1.2 [].
Proof.
  split; [vm_compute; reflexivity|].
  apply (volume_pass_did "default" [Example.role] (Example.volumes "10Gi" "20Gi").1.2 (Example.volumes "10Gi" "20Gi").2.1
    (Example.volumes "10Gi" "20Gi").2.2).
  pose proof (run_returns (Example.handle "10Gi" "20Gi") (reconcileVolumes "default" [Example.role]) tt) as Hrun.
  fold (Example.volumes "10Gi" "20Gi") in Hrun. by destruct (Example.volumes "10Gi" "20Gi") as [[? ?] [? ?]].
Defined.

Lemma orphan_event_on_conflict_witness :
  mutations (Example.volumes "20Gi" "20Gi").1.2 = [MOrphan "db-data" "u"] ∧
  (Example.volumes "20Gi" "20Gi").2.2 = Recreating (recreating_message "db-data").
Proof.
  split; [vm_compute; reflexivity|].
  apply (orphan_event_on_conflict "default" [Example.role] (Example.volumes "20Gi" "20Gi").1.2 (Example.volumes "20Gi" "20Gi").2.1
    _ "db-data" "u" "changed").
  - pose proof (run_returns (Example.handle "20Gi" "20Gi") (reconcileVolumes "default" [Example.role]) tt) as Hrun.
    fold (Example.volumes "20Gi" "20Gi") in Hrun. by destruct (Example.volumes "20Gi" "20Gi") as [[? ?] [? ?]].
  - assert ((Example.volumes "20Gi" "20Gi").1.2 !! 2 =
      Some (Event (EOrphanStatefulSet "default" "db-data" "u") (Some (StatusError Conflict "changed")))) as E
      by (vm_compute; reflexivity).
    by apply list_elem_of_lookup_2 in E.
Defined.
