(* ===== verification/FlagClasses.v ===== *)
(** * Package controller: what the running Memgraph says the flags are

    classifyFlags, showConfig and what a pass does with their answer:
    reconcileCoordinatorSettings, unknownMessage and exemptCurrentPods. A view that was not
    read is [None]; the source keeps it as an empty map with a "known" bit. *)

From S2P Require Import Prelude GoStrings GoErrors K8s Api Client Planner Effects Settings Rollout.
From S2P Require Import Resources Topology Flags Status World Events SettingsPass Replicas.

(** ** Definitions *)

Record flagClasses := mkFlagClasses {
  fc_config : gmap string string;
  fc_configKnown : bool;
  fc_coordinatorSettings : gmap string string;
  fc_coordinatorSettingsKnown : bool;
  fc_coordinatorSettingsErr : string;
  fc_coordinators : Classification;
  fc_data : Classification
}.

Definition noClassification : Classification := mkClassification [] [] [].

(** The loops that return at the first answer. *)
Fixpoint first_answer {A B} (f : A → prog eff (option B)) (l : list A) : prog eff (option B) :=
  match l with
  | [] => mret None
  | x :: l =>
      r ← f x;
      match r with
      | Some b => mret (Some b)
      | None => first_answer f l
      end
  end.

(** The body of the loop over a pod's endpoints. *)
Definition ask_endpoint (pod : Pod) (endpoint : Endpoint) : prog eff (option (gmap string string)) :=
  if negb (bool_decide (ep_Pod endpoint = p_Name pod)) then mret None
  else
    r ← readInstance endpoint (λ c, trigger (EShowConfig c));
    mret match r with
         | inl config => if 0 <? size config then Some config else None
         | inr _ => None
         end.

Definition ask_pod (roles : rolloutRoles) (template : string) (endpoints : list Endpoint) (pod : Pod)
    : prog eff (option (gmap string string)) :=
  if negb (p_Ready pod) || negb (onTemplate roles (p_Name pod) template) then mret None
  else first_answer (ask_endpoint pod) endpoints.

Section passes.
Context `{RangeOrder} `{Kube} {L : Type} (cluster : MemgraphDBCluster L).

Definition showConfig (leader : conn) (replicas : replicaCounts) (roles : rolloutRoles)
    : prog eff (gmap string string + error) :=
  r ← first_answer (λ '(pods, template, endpoints), first_answer (ask_pod roles template endpoints) (r_Pods pods))
        [(ro_data roles, ro_dataTemplate roles, DataEndpoints cluster (rr_applied (rc_data replicas)));
         (ro_coordinators roles, ro_coordinatorTemplate roles,
          CoordinatorEndpoints cluster (rr_applied (rc_coordinators replicas)))];
  match r with
  | Some config => mret (inl config)
  | None => trigger (EShowConfig leader)
  end.

(** The role's own keys that are not run-time flags. *)
Definition startupKeys (flags : gmap string FlagValue) : list string :=
  List.filter (λ key, negb (IsRuntime key)) (range flags).*1.

Definition classifyFlags (leader : conn) (replicas : replicaCounts) (roles : rolloutRoles)
    : prog eff flagClasses :=
  r ← showConfig leader replicas roles;
  let '(config, configKnown) :=
    match r with
    | inl config => if decide (size config = 0) then (∅, false) else (config, true)
    | inr _ => (∅, false)
    end in
  r ← trigger (EShowCoordinatorSettings leader);
  let '(settings, settingsKnown, settingsErr) :=
    match r with
    | inl settings => if decide (size settings = 0) then (∅, false, "no ready leader reported them") else (settings, true, "")
    | inr err => (∅, false, Error err)
    end in
  mret (if negb configKnown
        then mkFlagClasses ∅ false settings settingsKnown settingsErr noClassification noClassification
        else mkFlagClasses config true settings settingsKnown settingsErr
               (Classify (startupKeys (fs_Coordinators (sp_Flags (Spec cluster)))) config settings)
               (Classify (startupKeys (fs_Data (sp_Flags (Spec cluster)))) config settings)).

(** ** The coordinator settings *)

Definition coordinatorSettingsSubject : string :=
  "the Raft leader, which did not report the coordinator settings".

Definition recordRanCoordinator (pod : Related) (ran : list string) : prog eff unit :=
  match ran with
  | [] => mret tt
  | _ => trigger (EEvent (normal pod EventReasonCoordinatorSettingApplied eventActionSetCoordinatorSetting
                            ("Ran " ^^ Join ran ", ")))
  end.

Definition setCoordinatorSetting (change : Change) : string :=
  "SET COORDINATOR SETTING " ^^ Quote (ch_Setting change) ^^ " TO " ^^ Quote (ch_Value change).

Fixpoint coordinator_loop (leader : conn) (pod : Related) (changes : list Change) (ran : list string)
    : prog eff settingsOutcome :=
  match changes with
  | [] => _ ← recordRanCoordinator pod ran; mret (mkSettingsOutcome [] [] "")
  | change :: changes =>
      r ← trigger (ESetCoordinatorSetting leader (ch_Setting change) (ch_Value change));
      match r with
      | Some err =>
          let rejected := "the coordinators rejected " ^^ setCoordinatorSetting change ^^ ": " ^^ Error err in
          _ ← recordRanCoordinator pod ran;
          _ ← trigger (EEvent (warning pod EventReasonSettingRejected eventActionSetCoordinatorSetting rejected));
          mret (mkSettingsOutcome [] [rejected] "")
      | None => coordinator_loop leader pod changes (ran ++ [setCoordinatorSetting change])
      end
  end.

(** The settings the spec asks of the coordinators, of the keys classified as such. *)
Definition desiredCoordinatorSettings (flags : gmap string string) (keys : list string) : gmap string string :=
  foldl (λ desired key, <[key := flags !!? key | ""]> desired) ∅ keys.

Definition reconcileCoordinatorSettings (leader : conn) (leaderName : string) (classes : flagClasses)
    : prog eff settingsOutcome :=
  let flags := CoordinatorFlags (Spec cluster) in
  if negb (fc_coordinatorSettingsKnown classes)
  then mret (if decide (size (fs_Coordinators (sp_Flags (Spec cluster))) = 0) then mkSettingsOutcome [] [] ""
             else mkSettingsOutcome [coordinatorSettingsSubject] [] "")
  else
    let desired := desiredCoordinatorSettings flags (cf_CoordinatorSettings (fc_coordinators classes)) in
    if decide (size desired = 0) then mret (mkSettingsOutcome [] [] "")
    else coordinator_loop leader (coordinatorPodRef (m_Name (Meta cluster)) leaderName)
           (Diff desired (fc_coordinatorSettings classes)) [].
End passes.

(** ** The keys Memgraph does not have *)

Definition unknownMessage (c : flagClasses) : string :=
  if negb (fc_configKnown c) || negb (fc_coordinatorSettingsKnown c) then ""
  else
    let unknown := cf_Unknown (fc_data c) ++ cf_CoordinatorSettings (fc_data c) in
    let parts :=
      (if 0 <? length (cf_Unknown (fc_coordinators c))
       then ["coordinators: " ^^ Join (cf_Unknown (fc_coordinators c)) ", "] else []) ++
      (if 0 <? length unknown then ["data: " ^^ Join (SortStrings unknown) ", "] else []) in
    if decide (length parts = 0) then ""
    else
      let msg := "spec.flags names flags this Memgraph does not have (" ^^ Join parts "; " ^^
                 "); nothing is restarted or applied for them until they are removed or corrected" in
      if 0 <? length (cf_CoordinatorSettings (fc_data c))
      then msg ^^ "; a coordinator setting belongs under flags.coordinators" else msg.

(** ** The pods a changed template leaves with nothing to restart for *)

(** [slices.Compact]. *)
Fixpoint Compact (l : list string) : list string :=
  match l with
  | x :: (y :: _) as k => if decide (x = y) then Compact k else x :: Compact k
  | _ => l
  end.

Section exempt.
Context `{RangeOrder}.

Definition with_Current (pod : Pod) (current : bool) : Pod :=
  mkPod (p_Name pod) (p_UID pod) (p_Instance pod) (p_Ordinal pod) (p_RevisionHash pod) current (p_Ready pod).

(** The loop body: the pod as it leaves it, and the keys that could not be classified. *)
Definition exempt_pod (roles : rolloutRoles) (classes : flagClasses) (updateRevision flags template : string)
    (pod : Pod) : Pod * list string :=
  if bool_decide (p_RevisionHash pod = "") || bool_decide (p_RevisionHash pod = updateRevision) then (pod, [])
  else if negb (onTemplate roles (p_Name pod) template) then (pod, [])
  else
    let changed := ChangedFlags (ro_podFlags roles !!? (p_Name pod) | "") flags in
    if decide (length changed = 0) then (pod, [])
    else if negb (fc_configKnown classes) || negb (fc_coordinatorSettingsKnown classes) then (pod, changed)
    else
      let sorted := Classify changed (fc_config classes) (fc_coordinatorSettings classes) in
      (with_Current pod (bool_decide (length (cf_Flags sorted) = 0)), []).

Definition exempt_role (roles : rolloutRoles) (classes : flagClasses) (role : Role) (flags template : string)
    : Role * list string :=
  let results := exempt_pod roles classes (r_UpdateRevision role) flags template <$> r_Pods role in
  (mkRole (r_Replicas role) (r_UpdateRevision role) (r_Stale role) results.*1, concat results.*2).

(** [None] for the keys says the pods are classified. *)
Definition exemptCurrentPods (roles : rolloutRoles) (classes : flagClasses)
    : rolloutRoles * option (list string) :=
  let '(data, unclassified) := exempt_role roles classes (ro_data roles) (ro_dataFlags roles) (ro_dataTemplate roles) in
  let '(coordinators, unclassified') :=
    exempt_role roles classes (ro_coordinators roles) (ro_coordinatorFlags roles) (ro_coordinatorTemplate roles) in
  let unclassified := unclassified ++ unclassified' in
  (mkRolloutRoles coordinators data (ro_coordinatorFlags roles) (ro_dataFlags roles) (ro_podFlags roles)
     (ro_coordinatorTemplate roles) (ro_dataTemplate roles) (ro_podTemplates roles),
   if 0 <? length unclassified then Some (Compact (SortStrings unclassified)) else None).
End exempt.

(** ** Lemmas *)

Lemma elem_of_Flags keys config settings name :
  name ∈ cf_Flags (Classify keys config settings) ↔ name ∈ Normalize <$> keys ∧ classOf config settings name = IsFlag.
Proof.
  unfold Classify. cbn [cf_Flags].
  destruct (classify_fold config settings keys (mkClassification [] [] [])) as (-> & _). apply elem_of_class.
Qed.

Lemma Flags_nil keys config settings :
  cf_Flags (Classify keys config settings) = [] ↔
  ∀ key, key ∈ keys → classOf config settings (Normalize key) ≠ IsFlag.
Proof.
  split.
  - intros E key Hk Hc. assert (Normalize key ∈ cf_Flags (Classify keys config settings)) as Hin.
    { apply elem_of_Flags. split; [|done]. by apply list_elem_of_fmap_2. }
    rewrite E in Hin. by apply elem_of_nil in Hin.
  - intros Hn. destruct (cf_Flags _) as [|x l] eqn:E; [done|]. exfalso.
    assert (x ∈ cf_Flags (Classify keys config settings)) as Hin by (rewrite E; left).
    apply elem_of_Flags in Hin as [(key & -> & Hk)%list_elem_of_fmap Hc]. by eapply Hn.
Qed.

(** [slices.Compact] of a sorted list is the list without repetitions. *)
Lemma elem_of_Compact l x : x ∈ Compact l ↔ x ∈ l.
Proof.
  induction l as [|y [|z l] IH]; [done|done|]. change (Compact (y :: z :: l)) with
    (if decide (y = z) then Compact (z :: l) else y :: Compact (z :: l)). case_decide as E.
  - subst. rewrite IH, !elem_of_cons. tauto.
  - rewrite elem_of_cons, IH, (elem_of_cons (z :: l)). done.
Qed.

Lemma Compact_Sorted l : Sorted String.le l → Sorted String.le (Compact l) ∧ NoDup (Compact l).
Proof.
  intros Hs. apply Sorted_StronglySorted in Hs; [|apply _].
  induction Hs as [|y l Hs IH Hf]; [split; constructor|].
  destruct l as [|z l]; [split; repeat constructor; by intros ?%elem_of_nil|].
  change (Compact (y :: z :: l)) with (if decide (y = z) then Compact (z :: l) else y :: Compact (z :: l)).
  destruct IH as [H1 H2]. case_decide as E; [done|]. split.
  - constructor; [done|]. destruct (Compact (z :: l)) as [|w k] eqn:Ec; constructor.
    assert (w ∈ z :: l) as Hw by (rewrite <- elem_of_Compact, Ec; left).
    by eapply Forall_forall in Hf.
  - constructor; [|done]. rewrite elem_of_Compact. intros Hy.
    assert (Forall (String.le z) l) as Hz by (by inversion Hs).
    apply elem_of_cons in Hy as [?|Hy]; [done|]. apply E.
    apply (anti_symm String.le); [by inversion Hf|]. by eapply Forall_forall in Hz.
Qed.

(** A pod whose template changed in keys that need no restart, and in nothing else. *)
Definition spared (roles : rolloutRoles) (classes : flagClasses) (changed : list string) (template : string)
    (pod : Pod) : Prop :=
  onTemplate roles (p_Name pod) template = true ∧ changed ≠ [] ∧
  fc_configKnown classes = true ∧ fc_coordinatorSettingsKnown classes = true ∧
  ∀ key, key ∈ changed → hiddenFlags (Normalize key) = false ∧ fc_config classes !! Normalize key = None.

(** A pod no view can be asked about. *)
Definition unclassifiable (roles : rolloutRoles) (classes : flagClasses) (updateRevision template : string)
    (pod : Pod) : Prop :=
  p_RevisionHash pod ≠ "" ∧ p_RevisionHash pod ≠ updateRevision ∧ onTemplate roles (p_Name pod) template = true ∧
  (fc_configKnown classes = false ∨ fc_coordinatorSettingsKnown classes = false).

Section exempt_lemmas.
Context `{RangeOrder} (roles : rolloutRoles) (classes : flagClasses).
Abbreviation changed_of flags pod := (ChangedFlags (ro_podFlags roles !!? (p_Name pod) | "") flags).

Lemma classOf_not_flag config settings name :
  classOf config settings name ≠ IsFlag ↔ hiddenFlags name = false ∧ config !! name = None.
Proof.
  unfold classOf, hasKey. destruct (hiddenFlags name); [naive_solver|].
  case_bool_decide as E; [|case_bool_decide]; rewrite <- ?not_eq_None_Some, ?eq_None_not_Some in *; naive_solver.
Qed.

(** What the loop body makes of a pod. *)
Definition exempt_result (flags template updateRevision : string) (pod : Pod) (result : Pod * list string) : Prop :=
  (is_outdated (mkRole 0 updateRevision false []) result.1 = true ↔
     is_outdated (mkRole 0 updateRevision false []) pod = true ∧
     ¬ spared roles classes (changed_of flags pod) template pod) ∧
  (is_outdated (mkRole 0 updateRevision false []) result.1 = true → result.1 = pod) ∧
  (∀ key, key ∈ result.2 ↔ key ∈ changed_of flags pod ∧ unclassifiable roles classes updateRevision template pod).

Lemma exempt_pod_spec updateRevision flags template pod :
  p_Current pod = false →
  exempt_result flags template updateRevision pod (exempt_pod roles classes updateRevision flags template pod).
Proof.
  intros Hc. set (changed := changed_of flags pod).
  assert (Hkeep : (is_outdated (mkRole 0 updateRevision false []) pod = true → ¬ spared roles classes changed template pod) →
    ¬ unclassifiable roles classes updateRevision template pod ∨ changed = [] → exempt_result flags template updateRevision pod (pod, [])).
  { intros Hs Hu. split; [naive_solver|]. split; [done|]. intros key. split; [by intros ?%elem_of_nil|].
    destruct Hu as [Hu|Hu]; [by intros [_ ?%Hu]|]. intros [Hk _]. fold changed in Hk. rewrite Hu in Hk. by apply elem_of_nil in Hk. }
  unfold exempt_pod. fold changed.
  case_bool_decide as E1.
  { apply Hkeep; [|left; by intros (? & _)]. unfold is_outdated. by rewrite E1. }
  case_bool_decide as E2; cbn [orb].
  { apply Hkeep; [|left; by intros (_ & ? & _)]. unfold is_outdated. cbn. rewrite (bool_decide_eq_true_2 (_ = updateRevision)) by done. by rewrite andb_false_r. }
  destruct (onTemplate _ _ _) eqn:E3; cbn [negb].
  2: { apply Hkeep; [intros _ (? & _)|left; intros (_ & _ & ? & _)]; congruence. }
  case_decide as E4.
  { apply nil_length_inv in E4. apply Hkeep; [|by right]. by intros _ (_ & ? & _). }
  assert (changed ≠ []) as Hne by (by intros E; rewrite E in E4).
  destruct (fc_configKnown classes && fc_coordinatorSettingsKnown classes) eqn:E5; rewrite <- negb_andb, E5; cbn [negb].
  - apply andb_true_iff in E5 as [Hk1 Hk2].
    assert (spared roles classes changed template pod ↔
      cf_Flags (Classify changed (fc_config classes) (fc_coordinatorSettings classes)) = []) as Hsp.
    { rewrite Flags_nil. setoid_rewrite classOf_not_flag. unfold spared. naive_solver. }
    split; [|split].
    + fold changed. rewrite Hsp. unfold is_outdated, with_Current.
      cbn [p_RevisionHash p_Current fst r_UpdateRevision]. rewrite Hc, (bool_decide_eq_false_2 _ E1), (bool_decide_eq_false_2 _ E2).
      cbn [negb andb]. case_bool_decide as E7; [apply nil_length_inv in E7; naive_solver|].
      split; [|done]. intros _. split; [done|]. intros E. by rewrite E in E7.
    + unfold is_outdated, with_Current. cbn [p_RevisionHash p_Current fst]. intros [_ Hcur%negb_true_iff]%andb_true_iff.
      rewrite Hcur. destruct pod; simpl in *; congruence.
    + intros key. split; [by intros ?%elem_of_nil|]. intros [_ (_ & _ & _ & [?|?])]; congruence.
  - assert (¬ spared roles classes changed template pod) as Hs.
    { intros (_ & _ & Hk1 & Hk2 & _). by rewrite Hk1, Hk2 in E5. }
    split; [naive_solver|]. split; [done|]. intros key. fold changed. split; [|by intros []]. intros Hk. split; [done|].
    repeat split; try done. by apply andb_false_iff.
Qed.

Lemma exempt_role_spec role flags template :
  (∀ p, p ∈ r_Pods role → p_Current p = false) →
  let result := exempt_role roles classes role flags template in
  (∀ p, p ∈ outdated result.1 ↔ p ∈ outdated role ∧ ¬ spared roles classes (changed_of flags p) template p) ∧
  (∀ key, key ∈ result.2 ↔ ∃ p, p ∈ r_Pods role ∧ key ∈ changed_of flags p ∧
     unclassifiable roles classes (r_UpdateRevision role) template p).
Proof.
  intros Hc. unfold exempt_role. cbn [fst snd]. set (f := exempt_pod _ _ _ _ _).
  assert (∀ p, p ∈ r_Pods role → exempt_result flags template (r_UpdateRevision role) p (f p)) as Hf.
  { intros p Hp. apply exempt_pod_spec. by apply Hc. }
  split.
  - intros p. rewrite !elem_of_outdated. cbn [r_Pods r_UpdateRevision]. rewrite <- list_fmap_compose, list_elem_of_fmap.
    split.
    + intros (Hu & (q & E & Hq) & Ho). destruct (Hf q Hq) as (H1 & H2 & _). cbn in E. subst p.
      pose proof (H2 Ho) as E. rewrite E in *. apply H1 in Ho as [Ho Hs]. auto.
    + intros [(Hu & Hp & Ho) Hs]. destruct (Hf p Hp) as (H1 & H2 & _).
      assert (is_outdated (mkRole 0 (r_UpdateRevision role) false []) (f p).1 = true) as Ho' by (by apply H1).
      split; [done|]. rewrite (H2 Ho') in Ho'. split; [|done]. exists p. split; [symmetry; apply H2|done]. by apply H1.
  - intros key. rewrite list_elem_of_In, in_concat. setoid_rewrite <- list_elem_of_In. setoid_rewrite list_elem_of_fmap.
    split.
    + intros (keys & (result & -> & (p & -> & Hp)%list_elem_of_fmap) & Hk). exists p. split; [done|]. by apply (Hf p Hp).
    + intros (p & Hp & Hk). exists (f p).2. split; [|by apply (Hf p Hp)]. exists (f p). split; [done|].
      by apply list_elem_of_fmap_2.
Qed.
End exempt_lemmas.

(** ** Properties *)

(** A pod is spared a restart for exactly one reason: everything besides the flags is
    what its role's template says, and none of the flags that changed is a flag of the
    running Memgraph. A pod that differs in a startup flag, or in anything besides the flags,
    stays outdated. When a view is missing no pod is spared, and the keys in question are
    reported, sorted and once each, exactly when some pod waits for them. *)
Theorem restart_only_for_flags `{RangeOrder} roles classes roles' waitFor :
  (∀ p, p ∈ r_Pods (ro_data roles) ++ r_Pods (ro_coordinators roles) → p_Current p = false) →
  exemptCurrentPods roles classes = (roles', waitFor) →
  (∀ p, p ∈ outdated (ro_data roles') ↔ p ∈ outdated (ro_data roles) ∧
     ¬ spared roles classes (ChangedFlags (ro_podFlags roles !!? (p_Name p) | "") (ro_dataFlags roles))
         (ro_dataTemplate roles) p) ∧
  (∀ p, p ∈ outdated (ro_coordinators roles') ↔ p ∈ outdated (ro_coordinators roles) ∧
     ¬ spared roles classes (ChangedFlags (ro_podFlags roles !!? (p_Name p) | "") (ro_coordinatorFlags roles))
         (ro_coordinatorTemplate roles) p) ∧
  Sorted String.le (default [] waitFor) ∧ NoDup (default [] waitFor) ∧ waitFor ≠ Some [] ∧
  ∀ key, key ∈ default [] waitFor ↔ ∃ role flags template p,
    (role, flags, template) ∈ [(ro_data roles, ro_dataFlags roles, ro_dataTemplate roles);
                               (ro_coordinators roles, ro_coordinatorFlags roles, ro_coordinatorTemplate roles)] ∧
    p ∈ r_Pods role ∧ key ∈ ChangedFlags (ro_podFlags roles !!? (p_Name p) | "") flags ∧
    unclassifiable roles classes (r_UpdateRevision role) template p.
Proof.
  intros Hc. setoid_rewrite elem_of_app in Hc. unfold exemptCurrentPods.
  destruct (exempt_role_spec roles classes (ro_data roles) (ro_dataFlags roles) (ro_dataTemplate roles)) as [Hd Hdk]; [auto|].
  destruct (exempt_role_spec roles classes (ro_coordinators roles) (ro_coordinatorFlags roles) (ro_coordinatorTemplate roles))
    as [Hr Hrk]; [auto|].
  destruct (exempt_role _ _ (ro_data roles) _ _) as [data keys], (exempt_role _ _ (ro_coordinators roles) _ _) as [coordinators keys'].
  intros [= <- <-]. cbn [ro_data ro_coordinators fst snd] in *. split; [done|]. split; [done|].
  assert (∀ l : list string, default [] (if 0 <? length l then Some (Compact (SortStrings l)) else None) = Compact (SortStrings l)) as ->.
  { intros [|x l]; done. }
  destruct (Compact_Sorted (SortStrings (keys ++ keys'))) as [Hs Hn]; [apply SortStrings_sorted|].
  split; [done|]. split; [done|]. split.
  - destruct (keys ++ keys') as [|x l]; [done|]. cbn [length Nat.ltb Nat.leb]. intros [= E].
    assert (x ∈ Compact (SortStrings (x :: l))) as Hx by (apply elem_of_Compact, elem_of_SortStrings; left).
    rewrite E in Hx. by apply elem_of_nil in Hx.
  - intros key. rewrite elem_of_Compact, elem_of_SortStrings, elem_of_app, Hdk, Hrk. split.
    + intros [(p & ?)|(p & ?)]; eexists _, _, _, p; (split; [|done]); [left|right; left].
    + intros (role & flags & template & p & [E|E%list_elem_of_singleton]%elem_of_cons & ?); simplify_eq; eauto.
Qed.

(** The SETs the leader accepted. *)
Definition landed_of (e : event eff) : list Change :=
  match e with
  | Event (ESetCoordinatorSetting _ name value) None => [mkChange name value]
  | _ => []
  end.
Definition landed (t : list (event eff)) : list Change := t ≫= landed_of.

Lemma recordRanCoordinator_spec pod ran t u :
  returns (recordRanCoordinator pod ran) t u → leaves_open t [] ∧ landed t = [].
Proof.
  unfold recordRanCoordinator. destruct ran; [intros [-> _]; split; [connections|done]|].
  intros (x & t' & -> & [-> _]). split; [connections|done].
Qed.

Lemma coordinator_loop_spec leader pod changes ran t outcome :
  returns (coordinator_loop leader pod changes ran) t outcome →
  leaves_open t [] ∧ so_pending outcome = [] ∧ so_unknown outcome = "" ∧
  ∃ rest, changes = landed t ++ rest ∧ (so_rejected outcome = [] ↔ rest = []) ∧ length (so_rejected outcome) ≤ 1.
Proof.
  revert ran t. induction changes as [|change changes IH]; intros ran t H; cbn [coordinator_loop] in H.
  - apply returns_bind in H as (t1 & u & t2 & -> & [Ho Hl]%recordRanCoordinator_spec & [-> ->]). rewrite app_nil_r.
    split; [done|]. do 2 (split; [done|]). exists []. rewrite Hl. simpl. split; [done|]. split; [done|lia].
  - apply returns_trigger in H as (r & t' & -> & H). cbn [mbind prog_bind] in H. destruct r as [err|].
    + apply returns_bind in H as (t1 & u & t2 & -> & [Ho Hl]%recordRanCoordinator_spec & H).
      apply returns_trigger in H as (u' & t3 & -> & [-> ->]). split.
      { apply leaves_open_skip; [done|done|]. apply leaves_open_after; [done|connections]. }
      do 2 (split; [done|]). exists (change :: changes). simpl. split; [|split; [done|lia]].
      unfold landed in *. cbn. by rewrite bind_app, Hl.
    + apply IH in H as (Ho & Hp & Hu & rest & -> & Hr & Hlen). split; [by apply leaves_open_skip|].
      do 2 (split; [done|]). exists rest. split; [|done]. unfold landed. cbn. by destruct change.
Qed.

Lemma desiredCoordinatorSettings_lookup flags keys k :
  desiredCoordinatorSettings flags keys !! k = if decide (k ∈ keys) then Some (flags !!? k | "") else None.
Proof.
  unfold desiredCoordinatorSettings. induction keys as [|x keys IH] using rev_ind.
  { rewrite decide_False; [done|by intros ?%elem_of_nil]. }
  rewrite foldl_app. cbn [foldl]. destruct (decide (k = x)) as [->|Hne].
  - rewrite lookup_insert_eq, decide_True; [done|]. apply elem_of_app. right. left.
  - rewrite lookup_insert_ne by done. rewrite IH.
    assert (k ∈ keys ++ [x] ↔ k ∈ keys) as E by (rewrite elem_of_app, list_elem_of_singleton; naive_solver).
    by apply decide_ext.
Qed.

(** A pass that reports nothing about the coordinator settings has brought every key the
    running Memgraph classifies as one to the value the spec gives it, over the view the
    leader reported; whatever it reports, the SETs that landed are a prefix of the difference
    in name order, so no other setting is written; a view that was not read writes nothing. *)
Theorem coordinatorSettings_land `{RangeOrder} `{Kube} {L} (cluster : MemgraphDBCluster L) leader leaderName classes t outcome :
  returns (reconcileCoordinatorSettings cluster leader leaderName classes) t outcome →
  let keys := cf_CoordinatorSettings (fc_coordinators classes) in
  let flags := CoordinatorFlags (Spec cluster) in
  (∀ change, change ∈ landed t → fc_coordinatorSettingsKnown classes = true ∧ ch_Setting change ∈ keys ∧
     ch_Value change = flags !!? (ch_Setting change) | "" ∧
     fc_coordinatorSettings classes !! ch_Setting change ≠ Some (ch_Value change)) ∧
  landed t `prefix_of` Diff (desiredCoordinatorSettings flags keys) (fc_coordinatorSettings classes) ∧
  (fc_coordinatorSettingsKnown classes = true → so_pending outcome = [] ∧
   (so_rejected outcome = [] → ∀ k,
      issue (fc_coordinatorSettings classes) (landed t) !! k =
        if decide (k ∈ keys) then Some (flags !!? k | "") else fc_coordinatorSettings classes !! k)).
Proof.
  intros Hrun keys flags. unfold reconcileCoordinatorSettings in Hrun. fold keys flags in Hrun.
  set (desired := desiredCoordinatorSettings flags keys) in *.
  destruct (fc_coordinatorSettingsKnown classes); cbn [negb] in Hrun.
  2: { destruct Hrun as [-> _]. split; [by intros ? ?%elem_of_nil|]. split; [apply prefix_nil|done]. }
  assert (∃ rest, Diff desired (fc_coordinatorSettings classes) = landed t ++ rest ∧
    (so_rejected outcome = [] → rest = []) ∧ so_pending outcome = []) as (rest & E & Hrest & Hp).
  { case_decide as Hsize.
    - destruct Hrun as [-> ->]. exists []. split; [|done]. apply map_size_empty_inv in Hsize. rewrite Hsize.
      destruct (Diff _ _) as [|c l] eqn:E; [done|].
      assert (c ∈ Diff ∅ (fc_coordinatorSettings classes)) as [Hd _]%elem_of_Diff by (rewrite E; left). done.
    - apply coordinator_loop_spec in Hrun as (_ & Hp & _ & rest & E & Hr & _). exists rest. naive_solver. }
  split; [|split].
  - intros change Hc. assert (change ∈ Diff desired (fc_coordinatorSettings classes)) as [Hd Hn]%elem_of_Diff
      by (rewrite E; apply elem_of_app; by left).
    unfold desired in Hd. rewrite desiredCoordinatorSettings_lookup in Hd. case_decide; [|done]. by simplify_eq.
  - by exists rest.
  - intros _. split; [done|]. intros Hrej k. rewrite (Hrest Hrej), app_nil_r in E. rewrite <- E, issue_Diff.
    unfold desired. rewrite desiredCoordinatorSettings_lookup. by destruct (decide (k ∈ keys)).
Qed.

(** ** Connections *)

Lemma first_answer_leaves {A B} (f : A → prog eff (option B)) l t r :
  (∀ x t r, x ∈ l → returns (f x) t r → leaves_open t []) → returns (first_answer f l) t r → leaves_open t [].
Proof.
  revert t. induction l as [|x l IH]; intros t Hf H; cbn [first_answer] in H.
  { destruct H as [-> _]. apply leaves_open_nil. }
  apply returns_bind in H as (t1 & a & t2 & -> & Ha & H).
  apply leaves_open_after; [eapply Hf; [left|done]|]. destruct a; [destruct H as [-> _]; apply leaves_open_nil|].
  apply IH; [|done]. intros y u v Hy. apply Hf. by right.
Qed.

Lemma ask_endpoint_leaves pod endpoint t r : returns (ask_endpoint pod endpoint) t r → leaves_open t [].
Proof.
  unfold ask_endpoint. destruct (negb _); [intros [-> _]; apply leaves_open_nil|].
  intros (t1 & a & t2 & -> & H & H2)%returns_bind.
  assert (leaves_open t1 []) as Ho; [|destruct a; destruct H2 as [-> _]; by rewrite app_nil_r].
  unfold readInstance in H. apply returns_trigger in H as ([c|err] & t' & -> & H); cbn [mbind prog_bind] in H.
  - apply returns_bind in H as (t3 & v & t4 & -> & (x & t5 & -> & [-> ->]) & H).
    apply returns_trigger in H as (u & t6 & -> & [-> ->]). connections.
  - destruct H as [-> ->]. connections.
Qed.

(** Reading the flags closes every connection it opens; the leader's stays as it was. *)
Lemma classifyFlags_leaves `{RangeOrder} `{Kube} {L} (cluster : MemgraphDBCluster L) leader replicas roles t classes :
  returns (classifyFlags cluster leader replicas roles) t classes → leaves_open t [].
Proof.
  intros (t1 & r & t2 & -> & H1 & H2)%returns_bind. apply leaves_open_after.
  - apply returns_bind in H1 as (t3 & a & t4 & -> & Ha & H1). apply leaves_open_after.
    + eapply first_answer_leaves; [|exact Ha]. intros [[pods template] endpoints] u v _ Hu.
      eapply first_answer_leaves; [|exact Hu]. intros pod w x _ Hw. unfold ask_pod in Hw.
      destruct (_ || _); [destruct Hw as [-> _]; apply leaves_open_nil|].
      eapply first_answer_leaves; [|exact Hw]. intros e y z _. apply ask_endpoint_leaves.
    + destruct a; [destruct H1 as [-> _]; apply leaves_open_nil|]. destruct H1 as (x & u & -> & [-> _]). connections.
  - destruct r as [config|err]; [case_decide|]; apply returns_trigger in H2 as (x & u & -> & H2); cbn in H2;
      destruct x as [settings|e]; [case_decide| |case_decide| |case_decide|]; destruct H2 as [-> _]; connections.
Qed.

Lemma reconcileCoordinatorSettings_leaves `{RangeOrder} `{Kube} {L} (cluster : MemgraphDBCluster L) leader leaderName classes t outcome :
  returns (reconcileCoordinatorSettings cluster leader leaderName classes) t outcome → leaves_open t [].
Proof.
  unfold reconcileCoordinatorSettings. destruct (negb _); [intros [-> _]; apply leaves_open_nil|].
  case_decide; [intros [-> _]; apply leaves_open_nil|]. by intros [? _]%coordinator_loop_spec.
Qed.

(** Reading and setting flags changes no membership and no pod. *)
Lemma first_answer_quiet {A B} (f : A → prog eff (option B)) l :
  (∀ x, all_effects quiet (f x)) → all_effects quiet (first_answer f l).
Proof. intros Hf. induction l as [|x l IH]; cbn [first_answer]; all_effects. Qed.
#[export] Hint Resolve first_answer_quiet : effects.

Lemma ask_endpoint_quiet pod endpoint : all_effects quiet (ask_endpoint pod endpoint).
Proof. unfold ask_endpoint. all_effects. Qed.
#[export] Hint Resolve ask_endpoint_quiet : effects.

Lemma ask_pod_quiet roles template endpoints pod : all_effects quiet (ask_pod roles template endpoints pod).
Proof. unfold ask_pod. all_effects. Qed.
#[export] Hint Resolve ask_pod_quiet : effects.

Lemma classifyFlags_quiet `{RangeOrder} `{Kube} {L} (cluster : MemgraphDBCluster L) leader replicas roles :
  all_effects quiet (classifyFlags cluster leader replicas roles).
Proof.
  unfold classifyFlags, showConfig. all_effects.
Qed.

Lemma coordinator_loop_quiet leader pod changes ran : all_effects quiet (coordinator_loop leader pod changes ran).
Proof.
  revert ran. induction changes as [|change changes IH]; intros; cbn [coordinator_loop];
    unfold recordRanCoordinator; all_effects.
Qed.
#[export] Hint Resolve coordinator_loop_quiet : effects.

Lemma reconcileCoordinatorSettings_quiet `{RangeOrder} `{Kube} {L} (cluster : MemgraphDBCluster L) leader leaderName classes :
  all_effects quiet (reconcileCoordinatorSettings cluster leader leaderName classes).
Proof. unfold reconcileCoordinatorSettings. all_effects. Qed.
#[export] Hint Resolve classifyFlags_quiet reconcileCoordinatorSettings_quiet : effects.

(** ** Witnesses: a changed coordinator setting spares the pod, a changed flag does not *)

Module Example.
Definition pod (name : string) : Pod := mkPod name "uid" "instance_0" 0 "r1" false true.
Definition line (s : string) : string := s ^^ String newline "".
Definition roles : rolloutRoles :=
  mkRolloutRoles (mkRole 1 "r2" false [pod "db-coordinator-0"]) (mkRole 1 "r2" false [pod "db-data-0"])
    (line "failover_timeout=2") (line "bolt_num_workers=2")
    {[ "db-coordinator-0" := line "failover_timeout=1"; "db-data-0" := line "bolt_num_workers=1" ]} "t" "t"
    {[ "db-coordinator-0" := "t"; "db-data-0" := "t" ]}.
Definition config : gmap string string := {[ "bolt_num_workers" := "1" ]}.
Definition settings : gmap string string := {[ "failover_timeout" := "1" ]}.
Definition classes : flagClasses :=
  mkFlagClasses config true settings true "" (mkClassification [] ["failover_timeout"] []) noClassification.
Definition cluster : MemgraphDBCluster (gmap string Condition) :=
  let c := Api.Example.cluster (Some 1%Z) (Some 1%Z) in
  mkCluster (Meta c) (Api.Example.spec (Some 1%Z) (Some 1%Z) (mkFlagsSpec {[ "failover_timeout" := "2" ]} ∅))
    (Status_ c).

(** The leader accepts every SET. *)
Definition handle (X : Type) (e : eff X) (s : unit) : unit * X :=
  (s, match e in eff X return X with
      | EShowConfig _ => inl config
      | EShowCoordinatorSettings _ => inl settings
      | e => idle _ e
      end).
Definition settings_run := Effects.run handle (reconcileCoordinatorSettings cluster 0 "coordinator_0" classes) tt.
End Example.

Lemma restart_only_for_flags_witness :
  let roles' := (exemptCurrentPods Example.roles Example.classes).1 in
  outdated (ro_coordinators roles') = [] ∧ Example.pod "db-coordinator-0" ∈ outdated (ro_coordinators Example.roles) ∧
  ∀ p, p ∈ outdated (ro_data roles') ↔ p ∈ outdated (ro_data Example.roles) ∧
     ¬ spared Example.roles Example.classes
         (ChangedFlags (ro_podFlags Example.roles !!? (p_Name p) | "") (ro_dataFlags Example.roles))
         (ro_dataTemplate Example.roles) p.
Proof.
  split; [vm_compute; reflexivity|]. split; [apply (bool_decide_unpack _); vm_compute; exact I|].
  apply (restart_only_for_flags Example.roles Example.classes _ (exemptCurrentPods Example.roles Example.classes).2).
  - apply Forall_forall. apply (bool_decide_unpack _). vm_compute. exact I.
  - by destruct (exemptCurrentPods Example.roles Example.classes).
Defined.

Lemma coordinatorSettings_land_witness :
  landed Example.settings_run.1.2 = [mkChange "failover_timeout" "2"] ∧
  landed Example.settings_run.1.2 `prefix_of`
    Diff (desiredCoordinatorSettings (CoordinatorFlags (Spec Example.cluster)) ["failover_timeout"]) Example.settings.
Proof.
  split; [vm_compute; reflexivity|].
  apply (coordinatorSettings_land Example.cluster 0 "coordinator_0" Example.classes Example.settings_run.1.2 Example.settings_run.2).
  apply (run_returns Example.handle (reconcileCoordinatorSettings Example.cluster 0 "coordinator_0" Example.classes) tt).
Defined.
