(* ===== verification/Connections.v ===== *)
(** * Package controller: finding the coordinator leader

    [showInstances], [observeCluster], [observedLeader] and [leaderAddress] of the
    controller: which coordinator's view a pass plans on and over which connection it runs
    its commands. *)

From S2P Require Import Prelude GoStrings GoErrors Client Planner Effects Topology World.

(** ** Definitions *)

(** [observedLeader]. *)
Definition observedLeader (observed : list Instance) : string :=
  match List.find IsLeader observed with Some i => i_Name i | None => "" end.

Definition leaderAddress (endpoints : list Endpoint) (observed : list Instance) (name : string)
    : option string :=
  match List.find (λ e, bool_decide (ep_Name e = name)) endpoints with
  | Some e => Some (ep_Address e)
  | None =>
      match List.find (λ i, bool_decide (i_Name i = name) && negb (bool_decide (i_BoltServer i = ""))) observed with
      | Some i => Some (i_BoltServer i)
      | None => None
      end
  end.

Definition showInstances (address : string) (tls : bool) : prog eff (conn * list Instance + error) :=
  r ← trigger (EConnect address tls);
  match r with
  | inr err => mret (inr err)
  | inl c =>
      r ← trigger (EShowInstances c);
      match r with
      | inr err =>
          closeErr ← trigger (EClose c);
          match closeErr with
          | Some closeErr => mret (inr (Joined [err; closeErr]))
          | None => mret (inr err)
          end
      | inl observed => mret (inl (c, observed))
      end
  end.

Definition errNoCoordinatorLeader : error := Sentinel "no coordinator reported a leader".

(** The loop of [observeCluster] over the endpoints left, with its accumulators. *)
Fixpoint observe_loop (endpoints todo : list Endpoint) (errs : list error) (leaderless : bool)
    : prog eff (conn * list Instance + error) :=
  match todo with
  | [] =>
      let joined := errors_Join errs in
      mret (inr (if leaderless
                 then Errorf (Error errNoCoordinatorLeader ^^ ": " ^^ wrapped_text joined)
                        (errNoCoordinatorLeader :: option_list joined)
                 else Errorf ("no coordinator answered SHOW INSTANCES: " ^^ wrapped_text joined)
                        (option_list joined)))
  | coordinator :: todo =>
      r ← showInstances (ep_Address coordinator) (ep_TLS coordinator);
      match r with
      | inr err => observe_loop endpoints todo (errs ++ [err]) leaderless
      | inl (conn, observed) =>
          let leaderName := observedLeader observed in
          if decide (leaderName = ep_Name coordinator) then mret (inl (conn, observed))
          else
            closeErr ← trigger (EClose conn);
            let errs := errs ++ option_list closeErr in
            if decide (leaderName = "")
            then observe_loop endpoints todo
                   (errs ++ [Errorf (ep_Name coordinator ^^ " reported no leader") []]) true
            else match leaderAddress endpoints observed leaderName with
                 | None =>
                     observe_loop endpoints todo
                       (errs ++ [Errorf (ep_Name coordinator ^^ " reported leader " ^^ leaderName ^^
                                         " without a Bolt address") []]) leaderless
                 | Some address =>
                     r ← trigger (EConnect address (ep_TLS coordinator));
                     match r with
                     | inr err => observe_loop endpoints todo (errs ++ [err]) leaderless
                     | inl leader => mret (inl (leader, observed))
                     end
                 end
      end
  end.

Definition observeCluster (endpoints : list Endpoint) : prog eff (conn * list Instance + error) :=
  observe_loop endpoints endpoints [] false.

(** ** Lemmas *)

Lemma observedLeader_spec observed :
  observedLeader observed ≠ "" → ∃ i, i ∈ observed ∧ i_Name i = observedLeader observed ∧ IsLeader i.
Proof.
  unfold observedLeader. destruct (List.find _ _) as [i|] eqn:E; [|done]. intros _.
  apply find_Some_elem in E as [Hi Hl]. exists i. by rewrite Hl.
Qed.

(** What a run of [showInstances] leaves: the connection it returns is the one it opened
    at the address, and the view is that connection's answer. *)
Lemma showInstances_spec address tls t r :
  returns (showInstances address tls) t r →
  match r with
  | inl (c, observed) => leaves_open t [c] ∧ Event (EConnect address tls) (inl c) ∈ t ∧
                         Event (EShowInstances c) (inl observed) ∈ t
  | inr _ => leaves_open t []
  end.
Proof.
  intros ([c|err] & t' & -> & H)%returns_trigger.
  2: { destruct H as [-> ->]. connections. }
  apply returns_trigger in H as ([observed|err] & t1 & -> & H).
  - destruct H as [-> ->]. split_and!; [connections|left|right; left].
  - apply returns_trigger in H as (closeErr & t2 & -> & H).
    destruct closeErr; destruct H as [-> ->]; connections.
Qed.

Lemma leaderAddress_endpoint endpoints observed name e :
  NoDup (ep_Name <$> endpoints) → e ∈ endpoints → ep_Name e = name →
  leaderAddress endpoints observed name = Some (ep_Address e).
Proof.
  intros Hnd He Hn. unfold leaderAddress. destruct (List.find _ _) as [e'|] eqn:E.
  - apply find_Some_elem in E as [He' Hn']. apply bool_decide_eq_true in Hn'.
    do 2 f_equal. by eapply (NoDup_fmap_unique ep_Name); [done..|congruence].
  - rewrite find_None_iff in E. apply E in He. by rewrite bool_decide_eq_true_2 in He.
Qed.

(** The connection of a usable observation: [leader] was opened at the address the leader
    is reached at. *)
Definition leader_connection (endpoints : list Endpoint) (t : list (event eff)) (leader : conn)
    (observed : list Instance) : Prop :=
  ∃ coordinator asked, coordinator ∈ endpoints ∧
    Event (EShowInstances asked) (inl observed) ∈ t ∧
    Event (EConnect (ep_Address coordinator) (ep_TLS coordinator)) (inl asked) ∈ t ∧
    observedLeader observed ≠ "" ∧
    ((asked = leader ∧ observedLeader observed = ep_Name coordinator) ∨
     ∃ address, leaderAddress endpoints observed (observedLeader observed) = Some address ∧
       Event (EConnect address (ep_TLS coordinator)) (inl leader) ∈ t).

Lemma leader_connection_app endpoints t u leader observed :
  leader_connection endpoints u leader observed → leader_connection endpoints (t ++ u) leader observed.
Proof.
  intros (co & a & ? & ? & ? & ? & Hl). exists co, a. rewrite !elem_of_app. split_and!; auto.
  destruct Hl as [?|(ad & ? & ?)]; [by left|]. right. exists ad. rewrite elem_of_app. auto.
Qed.

(** What a run of [observeCluster] promises: a usable observation comes with the leader's
    connection and no other, an error with none. *)
Definition observation_ok (endpoints : list Endpoint) (t : list (event eff))
    (r : conn * list Instance + error) : Prop :=
  match r with
  | inl (leader, observed) => leaves_open t [leader] ∧ leader_connection endpoints t leader observed
  | inr _ => leaves_open t []
  end.

Lemma observation_ok_after endpoints t u r :
  leaves_open t [] → observation_ok endpoints u r → observation_ok endpoints (t ++ u) r.
Proof.
  intros Ht Hu. destruct r as [[leader observed]|err]; [destruct Hu; split|]; simpl;
    eauto using leaves_open_after, leader_connection_app.
Qed.

Lemma observe_loop_spec endpoints todo errs leaderless t r :
  (∀ e, e ∈ todo → e ∈ endpoints ∧ ep_Name e ≠ "") →
  returns (observe_loop endpoints todo errs leaderless) t r → observation_ok endpoints t r.
Proof.
  revert errs leaderless t. induction todo as [|co todo IH]; intros errs leaderless t Hin H; cbn [observe_loop] in H.
  { destruct H as [-> ->]. apply leaves_open_nil. }
  destruct (Hin co) as [Hco Hne]; [left|].
  assert (∀ errs leaderless u t, leaves_open u [] → returns (observe_loop endpoints todo errs leaderless) t r →
    observation_ok endpoints (u ++ t) r) as IH'.
  { intros. apply observation_ok_after; [done|]. eapply IH; [|done]. intros e He. apply Hin. by right. }
  clear IH Hin. apply returns_bind in H as (t1 & [[c observed]|err] & t2 & -> & H1 & H2);
    apply showInstances_spec in H1; [|by eapply IH'].
  destruct H1 as (Hopen & Hconn & Hshow). case_decide as Hl.
  { destruct H2 as [-> ->]. rewrite app_nil_r. split; [done|]. exists co, c. split_and!; auto; congruence. }
  apply returns_trigger in H2 as (closeErr & t3 & -> & H2). rewrite cons_middle, app_assoc.
  assert (leaves_open (t1 ++ [Event (EClose c) closeErr]) []) as Hclosed.
  { by apply leaves_open_close, leaves_open_nil. }
  case_decide; [by eapply IH'|]. destruct (leaderAddress _ _ _) as [address|] eqn:Ha; [|by eapply IH'].
  apply returns_trigger in H2 as ([leader|err] & t4 & -> & H2).
  - destruct H2 as [-> ->]. split; [apply leaves_open_after; [done|connections]|].
    exists co, c. rewrite !elem_of_app. split_and!; auto. right. exists address.
    rewrite !elem_of_app. split; [done|]. right. left.
  - rewrite cons_middle, app_assoc. eapply IH'; [|done]. apply leaves_open_after; [done|connections].
Qed.

(** Finding the leader changes nothing. *)
Lemma observe_loop_quiet endpoints todo errs leaderless : all_effects quiet (observe_loop endpoints todo errs leaderless).
Proof.
  revert errs leaderless. induction todo as [|coordinator todo IH]; intros errs leaderless; cbn [observe_loop];
    unfold showInstances; all_effects.
Qed.
#[export] Hint Resolve observe_loop_quiet : effects.

(** ** Properties *)

(** Whatever the coordinators answer, [observeCluster] leaks no connection: an error
    leaves none open, and a usable observation leaves exactly the connection it returns. That
    connection was opened at a reporting coordinator, or at the address [leaderAddress]
    resolves for the leader the view names, and the view it is paired with names a leader. *)
Theorem observeCluster_no_leak endpoints t r :
  (∀ e, e ∈ endpoints → ep_Name e ≠ "") → returns (observeCluster endpoints) t r →
  match r with
  | inl (leader, observed) => leaves_open t [leader] ∧ leader_connection endpoints t leader observed
  | inr _ => leaves_open t []
  end.
Proof. intros Hne H. by eapply observe_loop_spec in H; [|by eauto]. Qed.

(** ** Witness: a follower forwards, the leader's endpoint is dialled *)

Module Example.
Definition endpoints : list Endpoint :=
  [mkEndpoint "coordinator_0" "coordinator-0" "c0:7687" false; mkEndpoint "coordinator_1" "coordinator-1" "c1:7687" false].
Definition view : list Instance :=
  [mkInstance "coordinator_0" "" "" "" "up" "follower"; mkInstance "coordinator_1" "" "" "" "up" "leader"].
Definition trace : list (event eff) :=
  [Event (EConnect "c0:7687" false) (inl 0); Event (EShowInstances 0) (inl view);
   Event (EClose 0) None; Event (EConnect "c1:7687" false) (inl 1)].
End Example.

Lemma observeCluster_no_leak_witness :
  returns (observeCluster Example.endpoints) Example.trace (inl (1, Example.view)) ∧
  leaves_open Example.trace [1] ∧ leader_connection Example.endpoints Example.trace 1 Example.view.
Proof.
  assert (returns (observeCluster Example.endpoints) Example.trace (inl (1, Example.view))) as H.
  { repeat (eexists _, _; split; [reflexivity|]). cbn. done. }
  split; [exact H|]. refine (observeCluster_no_leak Example.endpoints _ _ _ H).
  intros e [->|[->|[]%elem_of_nil]%elem_of_cons]%elem_of_cons; done.
Defined.
