(* ===== verification/Registration.v ===== *)
(** * Package controller: the registration pass

    reconcileRegistration with what it ends in: shedRetiredPods, the roll's restartPod and
    the wait for an unclassified flag. A pass is a program over the state it mutates: the
    status of the resource and the shrinks it waits for. A registration command is one effect,
    [ERun]: [PlanRun.Run] on the recording client of Events.v is what it stands for. *)

From S2P Require Import Prelude GoStrings GoErrors K8s Api Client Planner PlanRun Effects Settings Volumes Rollout.
From S2P Require Import Resources Topology Flags Vector Workloads Expectations Status World Apply Events SettingsPass.
From S2P Require Import Monitoring ExposurePass Replicas FlagClasses Connections.

(** ** Definitions *)

(** Delays in seconds. *)
Definition requeueWhilePending : Z := 10.
Definition requeueAfterRegistration : Z := 10.
Definition resyncInterval : Z := 30.

(** [ctrl.Result] and the error; [Panicked] is a run-time panic. *)
Inductive Result := Requeue (after : Z) | Failed (err : error) | Panicked.

Section Registration.
Context `{RangeOrder} `{Kube} `{QuantityOrder Quantity} {L : Type} `{ConditionsAPI L}
  (cluster : MemgraphDBCluster L) (reconciler : Reconciler).

(** [setStatus] on the cluster of the pass. *)
Definition set_status : passState L → observation → list Condition → passState L :=
  set_status_at (m_Generation (Meta cluster)).

(** A role as [shedRetiredPods] lists it, with the claim templates its builder describes. *)
Record shedRole := mkShedRole {
  sh_retiring : nat;
  sh_replicas : roleReplicas;
  sh_claims : list (ClaimTemplate Quantity)
}.

(** The loop of [shedRetiredPods]. *)
Fixpoint shed_roles (roles : list shedRole) (st : passState L) : prog eff (passState L * option error) :=
  match roles with
  | [] => mret (st, None)
  | role :: roles =>
      if decide (sh_retiring role = 0) then shed_roles roles st
      else
        let replicas := sh_replicas role in
        let claims := KeepLiveSizes (sh_claims role) (ks_ClaimTemplates <$> rr_statefulSet replicas) in
        '(st, r) ← applyDesired (m_Generation (Meta cluster))
                     [DStatefulSet (rr_name replicas) (rr_declared replicas) claims] st;
        match r with
        | inr err => mret (st, Some err)
        | inl applied =>
            let '(uid, generation) := statefulSet applied (rr_name replicas) in
            let st := mkPassState (ps_status st)
                        (Expect (ps_shrinks st) (m_Namespace (Meta cluster), rr_name replicas) uid generation) in
            _ ← trigger (EEvent (normal (StatefulSetRef (rr_name replicas)) EventReasonStatefulSetShrunk
                  eventActionScaleDown ("Shrank StatefulSet " ^^ rr_name replicas ^^ " to " ^^
                    Itoa (rr_declared replicas) ^^ " replicas, shedding the pods of members that left the cluster")));
            shed_roles roles st
        end
  end.

(** The claim templates the two StatefulSets' builders describe. *)
Definition roleClaims (role : normalizedRole) : list (ClaimTemplate Quantity) :=
  (λ t, mkClaimTemplate (ts_Name t) (Some (ts_Storage t))) <$> volumeClaimTemplates role.

Definition sheddable (topology : Topology) (replicas : replicaCounts) : list shedRole :=
  let spec := normalize (Spec cluster) in
  [mkShedRole (length (t_RetiringCoordinators topology)) (rc_coordinators replicas) (roleClaims (n_coordinatorRole spec));
   mkShedRole (length (t_RetiringDataInstances topology)) (rc_data replicas) (roleClaims (n_dataRole spec))].

Definition shedRetiredPods (topology : Topology) (replicas : replicaCounts) (st : passState L)
    : prog eff (passState L * option error) := shed_roles (sheddable topology replicas) st.

Definition waitForFlagClasses (latest : observation) (converged : Condition) (keys : list string)
    (st : passState L) : passState L * Result :=
  let msg := "Waiting for a coordinator leader to say whether " ^^ Join keys ", " ^^
             " are startup flags before restarting any pod for them" in
  (set_status st latest [servingOrNot (ob_main latest); converged; notUpdatedCondition ReasonFlagsUnclassified msg],
   Requeue requeueWhilePending).

(** The end of a pass whose registration is converged: the roll. *)
Definition roll (roles : rolloutRoles) (observed : list Instance) (lag : list ReplicationLag)
    (latest : observation) (converged : Condition) (done : bool) (st : passState L)
    : prog eff (passState L * Result) :=
  match Next (ro_data roles) (ro_coordinators roles) observed lag with
  | None => mret (st, Panicked)
  | Some decision =>
      let waiting := set_status st latest
        [servingOrNot (ob_main latest); converged; notUpdatedCondition (de_Reason decision) (de_Message decision)] in
      match de_Action decision with
      | Delete =>
          err ← restartPod (m_Namespace (Meta cluster)) decision;
          match err with
          | Some err => mret (waiting, Failed err)
          | None =>
              _ ← trigger (EEvent (normal (PodRef (p_Name (de_Pod decision))) EventReasonPodRestarted
                    eventActionRestart ("Deleted pod " ^^ p_Name (de_Pod decision) ^^ " to restart it: " ^^
                      de_Message decision)));
              mret (waiting, Requeue requeueWhilePending)
          end
      | Wait => mret (waiting, Requeue requeueWhilePending)
      | Done =>
          let updated := trueCondition ConditionUpdated ReasonAllPodsUpdated
                           "All workload pods run the pod template the spec describes" in
          mret (set_status st latest [servingOrNot (ob_main latest); converged; updated],
                Requeue (if negb done then requeueWhilePending else resyncInterval))
      end
  end.

(** The branch of an empty plan with nothing retiring. *)
Definition reconcileConverged (leader : conn) (topology : Topology) (reads : podSettings) (replicas : replicaCounts)
    (exposure : exposure) (roles : rolloutRoles) (claims : volumeOutcome) (observed : list Instance)
    (lag : list ReplicationLag) (latest : observation) (st : passState L) : prog eff (passState L * Result) :=
  let coordinators := rr_applied (rc_coordinators replicas) in
  let data := rr_applied (rc_data replicas) in
  '(reads, applied) ← reconcileSettings cluster coordinators data (ro_data roles) (ro_coordinators roles) reads;
  '(reads, aws) ← reconcileAWSCredentials cluster data (ro_data roles) reads;
  classes ← classifyFlags cluster leader replicas roles;
  owed ← reconcileCoordinatorSettings cluster leader (observedLeader observed) classes;
  let applied := settings_merge (settings_merge applied aws) owed in
  let applied := mkSettingsOutcome (so_pending applied) (so_rejected applied) (unknownMessage classes) in
  let converged := convergedCondition topology exposure (serviceMonitorFailure cluster reconciler) applied claims in
  let '(roles, waitFor) := exemptCurrentPods roles classes in
  match waitFor with
  | Some keys => mret (waitForFlagClasses latest converged keys st)
  | None => roll roles observed lag latest converged (settings_done applied && volumes_done claims) st
  end.

(** The branch of an empty plan with members retiring. *)
Definition finishRetirement (topology : Topology) (retiring : string) (replicas : replicaCounts)
    (observed : list Instance) (latest : observation) (st : passState L) : prog eff (passState L * Result) :=
  if negb (Retired topology observed)
  then
    let msg := "Waiting for a surviving data instance that is reachable and caught up with MAIN " ^^
               "before moving MAIN off the instance being retired" in
    mret (set_status st latest [servingOrNot (ob_main latest); notConvergedCondition ReasonNoCaughtUpSurvivor msg],
          Requeue requeueWhilePending)
  else
    '(st, err) ← shedRetiredPods topology replicas st;
    match err with
    | Some err => mret (st, Failed err)
    | None =>
        mret (set_status st latest [servingOrNot (ob_main latest); notConvergedCondition ReasonRetirementInProgress retiring],
              Requeue requeueAfterRegistration)
    end.

(** The loop over the commands of a plan. *)
Fixpoint run_commands (leader : conn) (commands : list Command) (latest : observation) (st : passState L)
    : prog eff (passState L * Result) :=
  match commands with
  | [] => mret (st, Requeue requeueAfterRegistration)
  | command :: commands =>
      r ← trigger (ERun leader command);
      match r with
      | Some err =>
          let commandErr := wrap ("executing registration command " ^^ Quote (Command_String command)) err in
          let msg := truncateMessage (Error commandErr) in
          mret (set_status st latest [servingOrNot (ob_main latest); notConvergedCondition ReasonRegistrationFailed msg],
                Failed commandErr)
      | None => run_commands leader commands latest st
      end
  end.

(** The condition a pass reports before it runs the commands. *)
Definition inProgress (commands : list Command) (retiring : string) : Condition :=
  if decide (yieldedLeader commands ≠ "")
  then notConvergedCondition ReasonLeadershipTransferInProgress
         ("Retiring coordinator " ^^ yieldedLeader commands ^^
          " holds Raft leadership, which cannot be removed: yielding it to another member")
  else if decide (retiring ≠ "") then notConvergedCondition ReasonRetirementInProgress retiring
  else notConvergedCondition ReasonRegistrationInProgress
         ("Issuing " ^^ Itoa (Z.of_nat (length commands)) ^^ " registration command(s) to converge the cluster").

(** The part of [reconcileRegistration] that holds the leader connection. *)
Definition register (leader : conn) (topology : Topology) (reads : podSettings) (replicas : replicaCounts)
    (exposure : exposure) (roles : rolloutRoles) (claims : volumeOutcome) (observed : list Instance)
    (st : passState L) : prog eff (passState L * Result) :=
  let retiring := retirementMessage topology in
  r ← trigger (EShowReplicationLag leader);
  let lag := match r with inl lag => lag | inr _ => [] end in
  let latest := exposedAt (observe topology observed) exposure in
  let commands := Planner.Plan topology observed lag in
  if decide (length commands = 0)
  then
    if decide (retiring ≠ "") then finishRetirement topology retiring replicas observed latest st
    else reconcileConverged leader topology reads replicas exposure roles claims observed lag latest st
  else
    run_commands leader commands latest
      (set_status st latest [servingOrNot (ob_main latest); inProgress commands retiring]).

Definition reconcileRegistration (reads : podSettings) (replicas : replicaCounts) (exposure : exposure)
    (roles : rolloutRoles) (claims : volumeOutcome) (st : passState L) : prog eff (passState L * Result) :=
  let last := exposedAt (lastObserved (ps_status st)) exposure in
  if negb (workloadsReady replicas roles)
  then
    let msg := "Waiting for all workload pods to become ready" in
    mret (set_status st last [notServingCondition ReasonWorkloadsNotReady msg;
                              notConvergedCondition ReasonWorkloadsNotReady msg],
          Requeue requeueWhilePending)
  else
    let coordinators := rr_applied (rc_coordinators replicas) in
    let topology := passTopology cluster (ea_addresses exposure) coordinators (rr_applied (rc_data replicas)) in
    r ← observeCluster (CoordinatorEndpoints cluster coordinators);
    match r with
    | inr err =>
        let '(reason, msg) :=
          if errors_Is (Error errNoCoordinatorLeader) err
          then (ReasonNoCoordinatorLeader, "No coordinator reported a leader, so the cluster has no Raft quorum")
          else (ReasonCoordinatorUnreachable, "No coordinator answered SHOW INSTANCES") in
        mret (set_status st last [notServingCondition reason msg; notConvergedCondition reason msg],
              Requeue requeueWhilePending)
    | inl (leader, observed) =>
        result ← register leader topology reads replicas exposure roles claims observed st;
        _ ← trigger (EClose leader);
        mret result
    end.
End Registration.

(** ** Lemmas *)

Section lemmas.
Context `{RangeOrder} `{Kube} `{QuantityOrder Quantity} {L : Type} `{ConditionsAPI L}
  (cluster : MemgraphDBCluster L) (reconciler : Reconciler).

(** The shrinks a retirement ends in: the declared count of each role that sheds a member. *)
Definition shrink_of (role : shedRole) : list mutation :=
  if decide (sh_retiring role = 0) then [] else [MApply (rr_name (sh_replicas role)) (rr_declared (sh_replicas role))].
Definition shrinks_of (topology : Topology) (replicas : replicaCounts) : list mutation :=
  sheddable cluster topology replicas ≫= shrink_of.

(** The one object a shed applies: the declared count, with the claim templates that live. *)
Definition shrunk (role : shedRole) : desired :=
  DStatefulSet (rr_name (sh_replicas role)) (rr_declared (sh_replicas role))
    (KeepLiveSizes (sh_claims role) (ks_ClaimTemplates <$> rr_statefulSet (sh_replicas role))).

Lemma apply_shrunk role (st : passState L) t st' r :
  returns (applyDesired (m_Generation (Meta cluster)) [shrunk role] st) t (st', r) →
  match r with
  | inl applied => st' = st ∧ mutations t = [MApply (rr_name (sh_replicas role)) (rr_declared (sh_replicas role))] ∧
                   Event (apply (shrunk role)) (inl (statefulSet applied (rr_name (sh_replicas role)))) ∈ t
  | inr _ => mutations t `prefix_of` [MApply (rr_name (sh_replicas role)) (rr_declared (sh_replicas role))]
  end.
Proof.
  intros (_ & _ & Hr)%apply_loop_spec. destruct r as [applied|err]; [|done]. destruct Hr as (-> & -> & _ & Hw).
  do 2 (split; [done|]). destruct (Hw (NoDup_singleton _) (shrunk role)) as (written & Hin & Hl); [left|].
  unfold statefulSet. unfold appliedKey in Hl. cbn [shrunk desired_kind desired_name] in Hl.
  change ("StatefulSet" ^^ "/" ^^ rr_name (sh_replicas role)) with ("StatefulSet/" ^^ rr_name (sh_replicas role)) in Hl.
  by rewrite Hl.
Qed.

Lemma shed_roles_mutations roles (st : passState L) t st' err :
  returns (shed_roles cluster roles st) t (st', err) → mutations t `prefix_of` (roles ≫= shrink_of).
Proof.
  revert st t. induction roles as [|role roles IH]; intros st t Hrun; cbn [shed_roles] in Hrun.
  { destruct Hrun as [-> _]. done. }
  cbn [mbind list_bind]. unfold shrink_of at 1. case_decide; [by eapply IH|].
  apply returns_bind in Hrun as (t1 & [st1 r] & t2 & -> & Hr3%(apply_shrunk role) & Hrun). rewrite mutations_app.
  destruct r as [applied|e].
  - destruct Hr3 as (-> & -> & _). destruct (statefulSet applied _) as [uid generation].
    apply returns_trigger in Hrun as (u & t3 & -> & Hrun). rewrite mutations_cons. apply prefix_app. by eapply IH.
  - destruct Hrun as [-> _]. rewrite app_nil_r. by apply prefix_app_r.
Qed.

(** A shed that succeeds writes every shrinking role, and expects each write to be seen. *)
Lemma shed_roles_spec roles (st : passState L) t st' :
  NoDup ((λ role, rr_name (sh_replicas role)) <$> roles) → returns (shed_roles cluster roles st) t (st', None) →
  mutations t = roles ≫= shrink_of ∧
  (∀ name, name ∉ (λ role, rr_name (sh_replicas role)) <$> roles →
     ps_shrinks st' !! (m_Namespace (Meta cluster), name) = ps_shrinks st !! (m_Namespace (Meta cluster), name)) ∧
  ∀ role, role ∈ roles → sh_retiring role ≠ 0 →
    ∃ uid generation, Event (apply (shrunk role)) (inl (uid, generation)) ∈ t ∧
      ps_shrinks st' !! (m_Namespace (Meta cluster), rr_name (sh_replicas role)) = Some (mkWritten uid generation).
Proof.
  revert st t. induction roles as [|role roles IH]; intros st t Hnd Hrun; cbn [shed_roles] in Hrun.
  { destruct Hrun as [-> [= ->]]. split; [done|]. split; [done|]. by intros ? ?%elem_of_nil. }
  cbn [fmap list_fmap] in *. apply NoDup_cons in Hnd as [Hn Hnd]. cbn [mbind list_bind]. unfold shrink_of at 1.
  case_decide as Hr.
  - destruct (IH _ _ Hnd Hrun) as (Hm & Hk & Hw). split; [done|]. split.
    + intros name Hname. apply Hk. set_solver.
    + intros r [->|Hin]%elem_of_cons ?; [done|by eapply Hw].
  - apply returns_bind in Hrun as (t1 & [st1 r] & t2 & -> & Hr3%(apply_shrunk role) & Hrun).
    destruct r as [applied|e]; [|by destruct Hrun as [_ [=]]]. destruct Hr3 as (-> & Hm1 & Hin1).
    destruct (statefulSet applied _) as [uid generation].
    apply returns_trigger in Hrun as (u & t3 & -> & Hrun). destruct (IH _ _ Hnd Hrun) as (Hm & Hk & Hw).
    rewrite mutations_app, Hm1, mutations_cons, Hm. split; [done|]. cbn [ps_shrinks] in Hk. unfold Expect in Hk. split.
    + intros name Hname. rewrite Hk by set_solver. rewrite lookup_insert_ne; [done|]. intros [= <-]. set_solver.
    + intros r [->|Hin]%elem_of_cons Hne.
      * exists uid, generation. split; [apply elem_of_app; by left|]. rewrite Hk by done. by rewrite lookup_insert_eq.
      * destruct (Hw r Hin Hne) as (uid' & g' & He & Hs). exists uid', g'. split; [|done].
        apply elem_of_app. right. by right.
Qed.

Lemma run_commands_mutations leader commands latest (st : passState L) t st' r :
  returns (run_commands cluster leader commands latest st) t (st', r) →
  ∃ k, mutations t = MCommand <$> take k commands.
Proof.
  revert st t. induction commands as [|command commands IH]; intros st t Hrun; cbn [run_commands] in Hrun.
  { destruct Hrun as [-> _]. by exists 0. }
  apply returns_trigger in Hrun as ([err|] & t1 & -> & Hrun); cbn [mbind prog_bind] in Hrun.
  - destruct Hrun as [-> _]. by exists 1.
  - apply IH in Hrun as [k Hk]. exists (S k). by rewrite mutations_cons, Hk.
Qed.

Lemma roll_mutations roles observed lag latest converged done (st : passState L) t st' r :
  returns (roll cluster roles observed lag latest converged done st) t (st', r) →
  mutations t = [] ∨ ∃ d, Next (ro_data roles) (ro_coordinators roles) observed lag = Some d ∧
    de_Action d = Delete ∧ mutations t = [MDelete (p_Name (de_Pod d)) (p_UID (de_Pod d))].
Proof.
  unfold roll. destruct (Next _ _ _ _) as [d|]; [|intros [-> _]; by left].
  destruct (de_Action d) eqn:Ea; [intros [-> _]; by left..|].
  intros (t1 & err & t2 & -> & Hdel & Hrun)%returns_bind. right. exists d. split; [done|]. split; [done|].
  apply returns_trigger in Hdel as (x & t3 & -> & [-> _]).
  destruct err; [by destruct Hrun as [-> _]|]. by apply returns_trigger in Hrun as (u & t4 & -> & [-> _]).
Qed.

(** What the pass owes at its end: what its three rounds of settings left pending or rejected,
    and the flags no member could classify. *)
Definition owes (applied aws owed : settingsOutcome) (classes : flagClasses) : settingsOutcome :=
  let all := settings_merge (settings_merge applied aws) owed in
  mkSettingsOutcome (so_pending all) (so_rejected all) (unknownMessage classes).

(** The calls of the branch, in order, and what it makes of their answers. *)
Definition converged_calls (leader : conn) (reads : podSettings) (replicas : replicaCounts) (roles : rolloutRoles)
    (observed : list Instance) (t : list (event eff)) (applied aws owed : settingsOutcome) (classes : flagClasses) : Prop :=
  let coordinators := rr_applied (rc_coordinators replicas) in
  let data := rr_applied (rc_data replicas) in
  ∃ t1 t2 t3 t4 reads1 reads2, t = t1 ++ t2 ++ t3 ++ t4 ∧
    returns (reconcileSettings cluster coordinators data (ro_data roles) (ro_coordinators roles) reads) t1 (reads1, applied) ∧
    returns (reconcileAWSCredentials cluster data (ro_data roles) reads1) t2 (reads2, aws) ∧
    returns (classifyFlags cluster leader replicas roles) t3 classes ∧
    returns (reconcileCoordinatorSettings cluster leader (observedLeader observed) classes) t4 owed.

Lemma converged_calls_quiet leader reads replicas roles observed t applied aws owed classes :
  converged_calls leader reads replicas roles observed t applied aws owed classes → mutations t = [] ∧ leaves_open t [].
Proof.
  intros (t1 & t2 & t3 & t4 & reads1 & reads2 & -> & Hr3 & Hr4 & Hr5 & Hr6). split.
  - rewrite !mutations_app, (quiet_mutations _ _ _ (reconcileSettings_quiet _ _ _ _ _ _) Hr3),
      (quiet_mutations _ _ _ (reconcileAWSCredentials_quiet _ _ _ _) Hr4),
      (quiet_mutations _ _ _ (classifyFlags_quiet _ _ _ _) Hr5),
      (quiet_mutations _ _ _ (reconcileCoordinatorSettings_quiet _ _ _ _) Hr6). done.
  - apply reconcileSettings_run in Hr3 as [Hr3 _ _].
    apply (reconcileAWSCredentials_run _ _ _ (ro_coordinators roles)) in Hr4 as [Hr4 _ _].
    apply classifyFlags_leaves in Hr5. apply reconcileCoordinatorSettings_leaves in Hr6.
    by repeat apply leaves_open_after.
Qed.

Lemma reconcileConverged_calls leader topology reads replicas exposure roles claims observed lag latest (st : passState L) t st' r :
  returns (reconcileConverged cluster reconciler leader topology reads replicas exposure roles claims observed lag latest st)
    t (st', r) →
  ∃ t1 t2 applied aws owed classes roles' waitFor, t = t1 ++ t2 ∧
    converged_calls leader reads replicas roles observed t1 applied aws owed classes ∧
    exemptCurrentPods roles classes = (roles', waitFor) ∧
    let outcome := owes applied aws owed classes in
    let converged := convergedCondition topology exposure (serviceMonitorFailure cluster reconciler) outcome claims in
    match waitFor with
    | Some keys => t2 = [] ∧ (st', r) = waitForFlagClasses cluster latest converged keys st
    | None => returns (roll cluster roles' observed lag latest converged (settings_done outcome && volumes_done claims) st)
                t2 (st', r)
    end.
Proof.
  intros (t1 & [reads1 applied] & t2 & -> & Hr3 & Hrun)%returns_bind.
  apply returns_bind in Hrun as (t3 & [reads2 aws] & t4 & -> & Hr4 & Hrun).
  apply returns_bind in Hrun as (t5 & classes & t6 & -> & Hr5 & Hrun).
  apply returns_bind in Hrun as (t7 & owed & t8 & -> & Hr6 & Hrun).
  destruct (exemptCurrentPods roles classes) as [roles' waitFor] eqn:E.
  exists (t1 ++ t3 ++ t5 ++ t7), t8, applied, aws, owed, classes, roles', waitFor.
  rewrite <- !app_assoc. split; [done|]. split; [|split; [done|by destruct waitFor]].
  by exists t1, t3, t5, t7, reads1, reads2.
Qed.

Lemma reconcileConverged_spec leader topology reads replicas exposure roles claims observed lag latest (st : passState L) t st' r :
  returns (reconcileConverged cluster reconciler leader topology reads replicas exposure roles claims observed lag latest st)
    t (st', r) →
  ∃ t1 t2 classes applied roles' waitFor, t = t1 ++ t2 ∧ mutations t1 = [] ∧ leaves_open t1 [] ∧
    exemptCurrentPods roles classes = (roles', waitFor) ∧ so_unknown applied = unknownMessage classes ∧
    let converged := convergedCondition topology exposure (serviceMonitorFailure cluster reconciler) applied claims in
    match waitFor with
    | Some keys => t2 = [] ∧ (st', r) = waitForFlagClasses cluster latest converged keys st
    | None => returns (roll cluster roles' observed lag latest converged (settings_done applied && volumes_done claims) st)
                t2 (st', r)
    end.
Proof.
  intros (t1 & t2 & applied & aws & owed & classes & roles' & waitFor & -> & [Hq Ho]%converged_calls_quiet & E & Hw)%reconcileConverged_calls.
  by exists t1, t2, classes, (owes applied aws owed classes), roles', waitFor.
Qed.





(** What a pass may do to the cluster, given the plan of the view it holds: run commands of
    the plan, in order; or, with nothing planned, shed the members that have left; or, with
    nothing planned and nothing retiring, delete the one pod [Next] picks. *)
Definition pass_did (topology : Topology) (replicas : replicaCounts) (roles : rolloutRoles)
    (observed : list Instance) (lag : list ReplicationLag) (done : list mutation) : Prop :=
  let plan := Planner.Plan topology observed lag in
  (∃ k, done = MCommand <$> take k plan) ∨
  (plan = [] ∧ retirementMessage topology ≠ "" ∧ Retired topology observed = true ∧
     done `prefix_of` shrinks_of topology replicas) ∨
  (plan = [] ∧ retirementMessage topology = "" ∧ ∃ classes roles' d,
     exemptCurrentPods roles classes = (roles', None) ∧
     Next (ro_data roles') (ro_coordinators roles') observed lag = Some d ∧ de_Action d = Delete ∧
     done = [MDelete (p_Name (de_Pod d)) (p_UID (de_Pod d))]).

Lemma shed_roles_unconnected roles (st : passState L) : all_effects unconnected (shed_roles cluster roles st).
Proof.
  revert st. induction roles as [|role roles IH]; intros; cbn [shed_roles]; unfold applyDesired; all_effects.
Qed.
#[local] Hint Resolve shed_roles_unconnected : effects.

Lemma run_commands_unconnected leader commands latest (st : passState L) :
  all_effects unconnected (run_commands cluster leader commands latest st).
Proof. revert st. induction commands as [|c commands IH]; intros; cbn [run_commands]; all_effects. Qed.

Lemma roll_unconnected roles observed lag latest converged done (st : passState L) :
  all_effects unconnected (roll cluster roles observed lag latest converged done st).
Proof. unfold roll, restartPod. all_effects. Qed.

Lemma finishRetirement_unconnected topology retiring replicas observed latest (st : passState L) :
  all_effects unconnected (finishRetirement cluster topology retiring replicas observed latest st).
Proof. unfold finishRetirement, shedRetiredPods. all_effects. Qed.

Lemma finishRetirement_mutations topology retiring replicas observed latest (st : passState L) t st' r :
  returns (finishRetirement cluster topology retiring replicas observed latest st) t (st', r) →
  mutations t = [] ∨ Retired topology observed = true ∧ mutations t `prefix_of` shrinks_of topology replicas.
Proof.
  unfold finishRetirement. destruct (Retired topology observed); cbn [negb]; [|intros [-> _]; by left].
  intros (t1 & [st1 err] & t2 & -> & Hshed%shed_roles_mutations & Hrun)%returns_bind. right. split; [done|].
  assert (t2 = []) as -> by (by destruct err; destruct Hrun as [-> _]). by rewrite app_nil_r.
Qed.

Lemma register_spec leader topology reads replicas exposure roles claims observed (st : passState L) t st' r :
  returns (register cluster reconciler leader topology reads replicas exposure roles claims observed st) t (st', r) →
  leaves_open t [] ∧ ∃ lag, (lag = [] ∨ Event (EShowReplicationLag leader) (inl lag) ∈ t) ∧
    pass_did topology replicas roles observed lag (mutations t).
Proof.
  unfold register. intros (answer & t1 & -> & Hrun)%returns_trigger. cbn [mbind prog_bind] in Hrun. rewrite mutations_cons. cbn [mutation_of app].
  set (lag := match answer with inl lag => lag | inr _ => [] end) in *.
  assert (∀ k, leaves_open t1 [] → pass_did topology replicas roles observed lag (mutations t1) → k = answer →
    leaves_open (Event (EShowReplicationLag leader) k :: t1) [] ∧ ∃ lag, (lag = [] ∨
      Event (EShowReplicationLag leader) (inl lag) ∈ Event (EShowReplicationLag leader) k :: t1) ∧
    pass_did topology replicas roles observed lag (mutations t1)) as Hgo.
  { intros k Ho Hd ->. split; [by apply leaves_open_skip|]. exists lag. split; [|done].
    subst lag. destruct answer; [right; left|by left]. }
  apply Hgo; clear Hgo; [| |done]; case_decide as Hplan;
    [|eapply unconnected_leaves; [|exact Hrun]; apply run_commands_unconnected| |].
  - case_decide; [eapply unconnected_leaves; [|exact Hrun]; apply finishRetirement_unconnected|].
    apply reconcileConverged_spec in Hrun as (u & v & classes & applied & roles' & waitFor & -> & _ & Ho & _ & _ & Hroll).
    apply leaves_open_after; [done|]. destruct waitFor; [destruct Hroll as [-> _]; apply leaves_open_nil|].
    eapply unconnected_leaves; [|exact Hroll]; apply roll_unconnected.
  - apply nil_length_inv in Hplan. unfold pass_did. rewrite Hplan. case_decide as Hret.
    + apply finishRetirement_mutations in Hrun as [->|[? ?]]; [left; by exists 0|right; by left].
    + apply reconcileConverged_spec in Hrun as (u & v & classes & applied & roles' & waitFor & -> & Hq & _ & E & _ & Hroll).
      rewrite mutations_app, Hq. destruct waitFor; [destruct Hroll as [-> _]; left; by exists 0|].
      apply roll_mutations in Hroll as [->|(d & Hn & Ha & ->)]; [left; by exists 0|].
      right; right. do 2 (split; [done|]). by exists classes, roles', d.
  - left. by apply run_commands_mutations in Hrun.
Qed.

(** No branch of a pass panics. *)
Lemma register_total leader topology reads replicas exposure roles claims observed (st : passState L) t st' r :
  returns (register cluster reconciler leader topology reads replicas exposure roles claims observed st) t (st', r) →
  r ≠ Panicked.
Proof.
  unfold register. intros (answer & t1 & -> & Hrun)%returns_trigger. cbn [mbind prog_bind] in Hrun. case_decide; [case_decide|].
  - unfold finishRetirement in Hrun. destruct (negb _); [destruct Hrun as [_ [= -> ->]]; done|].
    apply returns_bind in Hrun as (t2 & [st1 [err|]] & t3 & -> & _ & [_ [= -> ->]]); done.
  - apply reconcileConverged_spec in Hrun as (u & v & classes & applied & roles' & [keys|] & -> & _ & _ & _ & _ & Hroll).
    + destruct Hroll as [_ E]. unfold waitForFlagClasses in E. by simplify_eq.
    + unfold roll in Hroll. match type of Hroll with context [Next ?d ?c ?o ?l] => destruct (Next_total d c o l) as [dec E] end.
      rewrite E in Hroll. destruct (de_Action dec); [destruct Hroll as [_ [= -> ->]]; done..|].
      apply returns_bind in Hroll as (t2 & [err|] & t3 & -> & _ & Hroll); [destruct Hroll as [_ [= -> ->]]; done|].
      apply returns_trigger in Hroll as (x & t4 & -> & [_ [= -> ->]]). done.
  - revert Hrun. generalize (set_status cluster st) as f. intros f. set (st0 := f _ _). clearbody st0. clear f.
    generalize (Planner.Plan topology observed match answer with inl lag => lag | inr _ => [] end) as commands.
    intros commands. revert t1 st0. induction commands as [|c commands IH]; intros t1 st0 Hrun; cbn [run_commands] in Hrun.
    + by destruct Hrun as [_ [= -> ->]].
    + apply returns_trigger in Hrun as ([err|] & t2 & -> & Hrun); [by destruct Hrun as [_ [= -> ->]]|by eapply IH].
Qed.
End lemmas.

(** What a registration pass does, branch by branch. *)
Lemma reconcileRegistration_spec `{RangeOrder} `{Kube} `{QuantityOrder Quantity} {L} `{ConditionsAPI L} (cluster : MemgraphDBCluster L) reconciler
    reads replicas exposure roles claims st t st' result :
  returns (reconcileRegistration cluster reconciler reads replicas exposure roles claims st) t (st', result) →
  let coordinators := rr_applied (rc_coordinators replicas) in
  let topology := passTopology cluster (ea_addresses exposure) coordinators (rr_applied (rc_data replicas)) in
  leaves_open t [] ∧ result ≠ Panicked ∧
  (mutations t = [] ∨
   workloadsReady replicas roles = true ∧ ∃ leader observed lag u,
     u `prefix_of` t ∧ returns (observeCluster (CoordinatorEndpoints cluster coordinators)) u (inl (leader, observed)) ∧
     (lag = [] ∨ Event (EShowReplicationLag leader) (inl lag) ∈ t) ∧
     pass_did cluster topology replicas roles observed lag (mutations t)).
Proof.
  intros Hrun coordinators topology. unfold reconcileRegistration in Hrun.
  destruct (workloadsReady replicas roles); cbn [negb] in Hrun.
  2: { destruct Hrun as [-> [= -> ->]]. split; [apply leaves_open_nil|]. split; [done|by left]. }
  fold coordinators topology in Hrun. apply returns_bind in Hrun as (u & r & v & -> & Hobs & Hrun).
  pose proof (quiet_mutations _ _ _ (observe_loop_quiet _ _ _ _) Hobs) as Hq.
  assert (observation_ok (CoordinatorEndpoints cluster coordinators) u r) as Hok.
  { eapply observe_loop_spec; [|exact Hobs]. intros e He. split; [done|].
    apply list_elem_of_fmap in He as (o & -> & _). done. }
  rewrite mutations_app, Hq. destruct r as [[leader observed]|err].
  2: { destruct (errors_Is _ _); destruct Hrun as [-> [= -> ->]]; rewrite app_nil_r;
       (split; [done|split; [done|by left]]). }
  apply returns_bind in Hrun as (w & [st1 r1] & x & -> & Hreg & Hrun).
  apply returns_trigger in Hrun as (closed & y & -> & [-> [= -> ->]]).
  split; [|split; [by eapply register_total|right; split; [done|]]].
  - apply register_spec in Hreg as [Hw _]. destruct Hok as [Hu _]. rewrite app_assoc.
    apply leaves_open_close; [|apply leaves_open_nil]. apply (leaves_open_app u w [leader] []); done.
  - apply register_spec in Hreg as (_ & lag & Hlag & Hdid). exists leader, observed, lag, u.
    split; [by apply prefix_app_r|]. split; [done|]. split; [|by rewrite mutations_app, app_nil_r].
    rewrite !elem_of_app. destruct Hlag; auto.
Qed.

(** ** Properties *)

(** C9: whatever the cluster and the API server answer, a registration pass ends in a result
    without panicking, closes every connection it opened, and does one kind of thing to the
    cluster: it changes nothing, or, under the view of the leader it found and with every
    workload ready, it runs commands of the plan in order; or, when the plan is empty and the
    retiring members have left, it applies the declared count of a role that sheds one; or,
    when the plan is empty and nothing is retiring, it deletes exactly the pod [Next] picks,
    by the UID it was seen under. *)
Theorem pass_mutations `{RangeOrder} `{Kube} `{QuantityOrder Quantity} {L} `{ConditionsAPI L} (cluster : MemgraphDBCluster L) reconciler
    reads replicas exposure roles claims st t st' result :
  returns (reconcileRegistration cluster reconciler reads replicas exposure roles claims st) t (st', result) →
  let coordinators := rr_applied (rc_coordinators replicas) in
  let topology := passTopology cluster (ea_addresses exposure) coordinators (rr_applied (rc_data replicas)) in
  leaves_open t [] ∧ result ≠ Panicked ∧
  (mutations t = [] ∨
   workloadsReady replicas roles = true ∧ ∃ leader observed lag u,
     u `prefix_of` t ∧ returns (observeCluster (CoordinatorEndpoints cluster coordinators)) u (inl (leader, observed)) ∧
     (lag = [] ∨ Event (EShowReplicationLag leader) (inl lag) ∈ t) ∧
     pass_did cluster topology replicas roles observed lag (mutations t)).
Proof. apply reconcileRegistration_spec. Qed.


(** ** Witnesses: a two-member cluster, before and after the roll of its data pod *)

Import Workloads.Example.

Module Example.
Definition cluster : MemgraphDBCluster (gmap string Condition) := Api.Example.cluster (Some 1%Z) (Some 1%Z).
Definition noExposure : Status.exposure := mkExposure (mkExternalAddresses "" ∅) [] "" None.
Definition topology : Topology := passTopology cluster (ea_addresses noExposure) 1 1.
Definition view : list Instance :=
  ((λ c, mkInstance (c_Name c) (c_BoltServer c) "" "" "up" "leader") <$> Coordinators topology) ++
  ((λ i, mkInstance (d_Name i) (d_BoltServer i) "" "" "up" "main") <$> DataInstances topology).
Definition reconciler : Reconciler := mkReconciler true "" true "" "gateway.networking.k8s.io/v1" "monitoring.coreos.com/v1".
Definition sts : KStatefulSet := mkKStatefulSet "u" 1 (Some 1%Z) ∅ 1 1 "r2" 1 false [].
Definition replicas (data : Z) : replicaCounts :=
  mkReplicaCounts (mkRoleReplicas "db-coordinator" 1 1 (Some sts)) (mkRoleReplicas "db-data" 1 data (Some sts)) [].
Definition roles (revision : string) : rolloutRoles :=
  mkRolloutRoles (mkRole 1 "r2" false [mkPod "db-coordinator-0" "uid-c" "coordinator_0" 0 "r2" false true])
    (mkRole 1 "r2" false [mkPod "db-data-0" "uid-d" "instance_0" 0 revision false true]) "" "" ∅ "" "" ∅.
Definition st : passState (gmap string Condition) := mkPassState (Status_ cluster) ∅.
Definition claims : volumeOutcome := mkVolumeOutcome [] [] [] [].

Definition handle (X : Type) (e : eff X) (s : unit) : unit * X :=
  (s, match e in eff X return X with
      | EConnect _ _ => inl 0
      | EShowInstances _ => inl view
      | EShowConfig _ => inl {[ "bolt_num_workers" := "1" ]}
      | EShowCoordinatorSettings _ => inl {[ "failover_timeout" := "1" ]}
      | EApplyStatefulSet _ _ _ => inl ("u", 7%Z)
      | e => idle _ e
      end).

Definition pass (revision : string) :=
  Effects.run handle
    (reconcileRegistration cluster reconciler ∅ (replicas 1) noExposure (roles revision) claims st) tt.
Definition shedding : Topology := passTopology cluster (ea_addresses noExposure) 1 3.
Definition sheddingData : shedRole :=
  mkShedRole 2 (rc_data (replicas 3)) (roleClaims (n_dataRole (normalize (Spec cluster)))).
Definition shed := Effects.run handle (shedRetiredPods cluster shedding (replicas 3) st) tt.
End Example.

Lemma pass_mutations_witness :
  mutations (Example.pass "r1").1.2 = [MDelete "db-data-0" "uid-d"] ∧ leaves_open (Example.pass "r1").1.2 [].
Proof.
  split; [vm_compute; reflexivity|].
  apply (pass_mutations Example.cluster Example.reconciler ∅ (Example.replicas 1) Example.noExposure (Example.roles "r1")
    Example.claims Example.st (Example.pass "r1").1.2 (Example.pass "r1").2.1 (Example.pass "r1").2.2).
  pose proof (run_returns Example.handle (reconcileRegistration Example.cluster Example.reconciler ∅ (Example.replicas 1)
    Example.noExposure (Example.roles "r1") Example.claims Example.st) tt) as Hrun.
  fold (Example.pass "r1") in Hrun. by destruct (Example.pass "r1") as [[? ?] [? ?]].
Defined.


(** The shed of two data instances, written at generation 7: a copy at generation 6 is stale. *)
