(* ===== verification/FakeCluster.v ===== *)
(** * The fake Memgraph behind the Connector

    The rest of fake_memgraph_test.go: the connections it hands out, the views it answers and
    the settings it keeps, as an environment that answers the Memgraph effects of a pass. A
    run is [served] when the fake gave every answer it can give; what Kubernetes answers
    stays open. The theorems run whole registration and settings passes against it. The
    password of each dial, which no effect shows, is not kept, and what the setters of a test
    arrange is a value of [fakeSetup] or of the state. *)

From S2P Require Import Prelude GoStrings GoErrors K8s Api Client Planner PlanRun FakeMemgraph Convergence Effects Settings.
From S2P Require Import Volumes Rollout Resources Topology Flags Vector Workloads Monitoring Expectations Status World.
From S2P Require Import Exposure Apply ExposurePass Events SettingsPass Replicas VolumePass FlagClasses Connections Registration.

(** ** Definitions *)

(** A client [Connect] handed out. *)
Record fakeSession := mkFakeSession { fc_address : string; fc_closed : bool }.

(** What a test arranges, and the operator does not change. *)
Record fakeSetup := mkFakeSetup {
  fs_staleViews : gmap string (list Instance);
  fs_behind : gmap string Z;
  fs_connectErr : option error;
  fs_unreachable : gmap string bool;
  fs_coordinatorSettingsUnknown : bool;
  fs_configUnknown : bool;
  fs_configByAddress : gmap string (gmap string string);
  fs_rejected : gmap string error
}.

Record fakeMemgraph := mkFakeMemgraph {
  fm_instances : list Instance;
  fm_connectAttempts : Z;
  fm_tlsConnectAttempts : Z;
  fm_settings : gmap string (gmap string string);
  fm_settingsReads : gmap string Z;
  fm_coordinatorSettings : option (gmap string string);
  fm_knownFlags : option (gmap string string);
  fm_executed : list string;
  fm_clients : list fakeSession
}.

Definition newFakeMemgraph : fakeMemgraph := mkFakeMemgraph [] 0 0 ∅ ∅ None None [] [].

Definition baselineConfig : gmap string string :=
  {[ "log_level" := "INFO"; "log_retention_days" := "35"; "log_file" := "/var/lib/memgraph/logs/memgraph.log";
     "query_execution_timeout_sec" := "600"; "storage_snapshot_interval" := "300"; "storage_snapshot_on_exit" := "true";
     "memory_limit" := "0"; "bolt_num_workers" := "0"; "query_modules_directory" := "/usr/lib/memgraph/query_modules";
     "experimental_enabled" := ""; "bolt_port" := "7687" ]}.

Definition baselineCoordinatorSettings : gmap string string :=
  {[ "enabled_reads_on_main" := "false"; "sync_failover_only" := "true"; "max_failover_replica_lag" := "10";
     "max_replica_read_lag" := "10"; "deltas_batch_progress_size" := "1000"; "instance_down_timeout_sec" := "5";
     "instance_health_check_frequency_sec" := "1"; "global_read_only" := "false" ]}.

Definition startupLicense : string := "license-the-pods-started-with".
Definition startupOrganization : string := "Memgraph Test".

Definition baselineSettings : gmap string string :=
  {[ "enterprise.license" := startupLicense; "organization.name" := startupOrganization;
     "aws.access_key" := ""; "aws.secret_key" := ""; "aws.region" := ""; "aws.endpoint_url" := "";
     "log.level" := "INFO"; "log.to_stderr" := "true"; "query.timeout" := "600"; "storage.snapshot.interval" := "300" ]}.

Section state.
Implicit Types (s : fakeMemgraph).

Definition with_clients (attempts tls : Z) (clients : list fakeSession) s : fakeMemgraph :=
  mkFakeMemgraph (fm_instances s) attempts tls (fm_settings s) (fm_settingsReads s) (fm_coordinatorSettings s)
    (fm_knownFlags s) (fm_executed s) clients.
Definition with_settings (settings : gmap string (gmap string string)) (reads : gmap string Z) s : fakeMemgraph :=
  mkFakeMemgraph (fm_instances s) (fm_connectAttempts s) (fm_tlsConnectAttempts s) settings reads
    (fm_coordinatorSettings s) (fm_knownFlags s) (fm_executed s) (fm_clients s).
Definition with_coordinatorSettings (settings : gmap string string) s : fakeMemgraph :=
  mkFakeMemgraph (fm_instances s) (fm_connectAttempts s) (fm_tlsConnectAttempts s) (fm_settings s) (fm_settingsReads s)
    (Some settings) (fm_knownFlags s) (fm_executed s) (fm_clients s).
Definition with_knownFlags (flags : gmap string string) s : fakeMemgraph :=
  mkFakeMemgraph (fm_instances s) (fm_connectAttempts s) (fm_tlsConnectAttempts s) (fm_settings s) (fm_settingsReads s)
    (fm_coordinatorSettings s) (Some flags) (fm_executed s) (fm_clients s).
Definition with_instances (instances : list Instance) (executed : list string) s : fakeMemgraph :=
  mkFakeMemgraph instances (fm_connectAttempts s) (fm_tlsConnectAttempts s) (fm_settings s) (fm_settingsReads s)
    (fm_coordinatorSettings s) (fm_knownFlags s) executed (fm_clients s).

(** The maps that are filled when they are first looked at. *)
Definition settingsLocked (address : string) s : fakeMemgraph * gmap string string :=
  let settings := default baselineSettings (fm_settings s !! address) in
  (with_settings (<[address := settings]> (fm_settings s)) (fm_settingsReads s) s, settings).
Definition coordinatorSettingsLocked s : fakeMemgraph * gmap string string :=
  let settings := default baselineCoordinatorSettings (fm_coordinatorSettings s) in
  (with_coordinatorSettings settings s, settings).
End state.

Section fake.
Context `{RangeOrder} (setup : fakeSetup).
Implicit Types (s : fakeMemgraph).

Definition Connect (address : string) (tls : bool) s : fakeMemgraph * (conn + error) :=
  let attempts := (fm_connectAttempts s + 1)%Z in
  let tlsAttempts := if tls then (fm_tlsConnectAttempts s + 1)%Z else fm_tlsConnectAttempts s in
  let s := with_clients attempts tlsAttempts (fm_clients s) s in
  match fs_connectErr setup with
  | Some err => (s, inr err)
  | None =>
      if (fs_unreachable setup !!? address | false) then (s, inr (refuse (address ^^ " refused the connection")))
      else (with_clients attempts tlsAttempts (fm_clients s ++ [mkFakeSession address false]) s, inl (length (fm_clients s)))
  end.

Definition closedError (address : string) : error := refuse ("connection to " ^^ address ^^ " already closed").

(** The loop over the rejected prefixes. *)
Definition rejectedBy (command : string) : option error :=
  snd <$> List.find (λ '(prefix, _), HasPrefix command prefix) (range (fs_rejected setup)).

(** The client of a connection, as the commands of FakeMemgraph.v see it: a closed one
    refuses every command. *)
Definition clientOf (session : fakeSession) s : fakeClient :=
  mkFakeClient (fc_address session) (fm_instances s)
    (λ command, if fc_closed session then Some (closedError (fc_address session)) else rejectedBy command) (fm_executed s).

(** [ShowInstances], its stale views included. *)
Definition showInstancesView (session : fakeSession) s : list Instance + error :=
  if fc_closed session then inr (closedError (fc_address session))
  else match fs_staleViews setup !! fc_address session with
       | Some stale => inl stale
       | None => ShowInstances (clientOf session s)
       end.

Definition showReplicationLag (session : fakeSession) s : list ReplicationLag + error :=
  if fc_closed session then inr (closedError (fc_address session))
  else if negb (existsb IsMain (fm_instances s)) then inl []
  else inl ((λ i, let behind := if IsMain i then 0%Z else (fs_behind setup !!? (i_Name i) | 0%Z) in
                  mkReplicationLag (i_Name i) [mkDatabaseLag "memgraph" (100 - behind) behind]) <$>
              List.filter (λ i, negb (HasPrefix (i_Name i) coordinatorNamePrefix)) (fm_instances s)).

Definition showSettings (session : fakeSession) s : fakeMemgraph * (gmap string string + error) :=
  let address := fc_address session in
  if fc_closed session then (s, inr (closedError address))
  else
    let '(s, settings) := settingsLocked address s in
    (with_settings (fm_settings s) (<[address := ((fm_settingsReads s !!? address | 0) + 1)%Z]> (fm_settingsReads s)) s,
     inl settings).

(** [execute], for a command that changes no instance. *)
Definition executeOn (session : fakeSession) (command : string) (apply : fakeMemgraph → fakeMemgraph * option error) s
    : fakeMemgraph * option error :=
  if fc_closed session then (s, Some (closedError (fc_address session)))
  else match rejectedBy command with
       | Some err => (s, Some err)
       | None =>
           match apply s with
           | (s, Some err) => (s, Some err)
           | (s, None) =>
               (with_instances (fm_instances s) (fm_executed s ++ [fc_address session ^^ ": " ^^ command]) s, None)
           end
       end.

Definition setSetting (session : fakeSession) (name value : string) s : fakeMemgraph * option error :=
  let address := fc_address session in
  executeOn session ("SET DATABASE SETTING " ^^ Quote name ^^ " TO " ^^ Quote value) (λ s,
    let '(s, settings) := settingsLocked address s in
    if decide (settings !! name = None) then (s, Some (refuse ("Unknown setting name '" ^^ name ^^ "'")))
    else if decide (name = "log.to_stderr" ∧ value ≠ "true" ∧ value ≠ "false")
    then (s, Some (refuse ("Cannot update setting '" ^^ name ^^
                           "': Boolean value supports only 'false' or 'true' as the input.")))
    else (with_settings (<[address := <[name := value]> settings]> (fm_settings s)) (fm_settingsReads s) s, None)) s.

Definition showConfig (session : fakeSession) s : fakeMemgraph * (gmap string string + error) :=
  if fc_closed session then (s, inr (closedError (fc_address session)))
  else if fs_configUnknown setup then (s, inr (refuse (fc_address session ^^ " does not answer SHOW CONFIG")))
  else match fs_configByAddress setup !! fc_address session with
       | Some config => (s, inl config)
       | None => let flags := default baselineConfig (fm_knownFlags s) in (with_knownFlags flags s, inl flags)
       end.

Definition showCoordinatorSettings (session : fakeSession) s : fakeMemgraph * (gmap string string + error) :=
  if fc_closed session then (s, inr (closedError (fc_address session)))
  else if fs_coordinatorSettingsUnknown setup then (s, inl ∅)
  else let '(s, settings) := coordinatorSettingsLocked s in (s, inl settings).

Definition setCoordinatorSetting (session : fakeSession) (name value : string) s : fakeMemgraph * option error :=
  executeOn session ("SET COORDINATOR SETTING " ^^ Quote name ^^ " TO " ^^ Quote value) (λ s,
    let '(s, settings) := coordinatorSettingsLocked s in
    if decide (settings !! name = None) then (s, Some (refuse ("Setting " ^^ name ^^ " doesn't exist on coordinators.")))
    else if decide (name = "global_read_only" ∧ value ≠ "true" ∧ value ≠ "false")
    then (s, Some (refuse ("Invalid argument detected while trying to update setting " ^^ name)))
    else (with_coordinatorSettings (<[name := value]> settings) s, None)) s.

(** A command of a plan, run over the client of the connection. *)
Definition runCommand (session : fakeSession) (command : Command) s : fakeMemgraph * option error :=
  let '(client, r) := Run command (clientOf session s) in
  (with_instances (f_instances client) (f_executed client) s, r).

Definition closeClient (c : conn) s : fakeMemgraph :=
  with_clients (fm_connectAttempts s) (fm_tlsConnectAttempts s)
    (alter (λ session, mkFakeSession (fc_address session) true) c (fm_clients s)) s.

(** What the fake answers: nothing to an effect that is not Memgraph's. A connection that was
    never handed out has no client. *)
Definition onSession {X} (c : conn) s (f : fakeSession → fakeMemgraph * X) : fakeMemgraph * option X :=
  match fm_clients s !! c with
  | Some session => let '(s, x) := f session in (s, Some x)
  | None => (s, None)
  end.
Definition fakeAnswer {X} (e : eff X) s : fakeMemgraph * option X :=
  match e in eff X return fakeMemgraph * option X with
  | EConnect address tls => let '(s, r) := Connect address tls s in (s, Some r)
  | EClose c => (closeClient c s, Some None)
  | EShowInstances c => onSession c s (λ session, (s, showInstancesView session s))
  | EShowReplicationLag c => onSession c s (λ session, (s, showReplicationLag session s))
  | ERun c command => onSession c s (λ session, runCommand session command s)
  | EShowSettings c => onSession c s (λ session, showSettings session s)
  | ESetSetting c name value => onSession c s (λ session, setSetting session name value s)
  | EShowConfig c => onSession c s (λ session, showConfig session s)
  | EShowCoordinatorSettings c => onSession c s (λ session, showCoordinatorSettings session s)
  | ESetCoordinatorSetting c name value => onSession c s (λ session, setCoordinatorSetting session name value s)
  | _ => (s, None)
  end.

(** A trace the fake served, from [s] to [s']. *)
Definition serves (ev : event eff) s s' : Prop :=
  match ev with Event e x => s' = (fakeAnswer e s).1 ∧ ∀ y, (fakeAnswer e s).2 = Some y → x = y end.
Fixpoint served (t : list (event eff)) s s' : Prop :=
  match t with
  | [] => s' = s
  | ev :: t => ∃ s1, serves ev s s1 ∧ served t s1 s'
  end.
End fake.

(** The answer a command was refused with. *)
Definition refusal (ev : event eff) : option error :=
  match ev with Event (ERun _ _) r => r | _ => None end.
Definition unrefused (t : list (event eff)) : Prop := Forall (λ ev, refusal ev = None) t.

(** A fake as [newFakeMemgraph] leaves it: everything answers, nothing is refused out of turn. *)
Definition healthy (setup : fakeSetup) : Prop :=
  fs_staleViews setup = ∅ ∧ fs_connectErr setup = None ∧ (∀ address, (fs_unreachable setup !!? address | false) = false) ∧
  fs_rejected setup = ∅.

(** ** Lemmas: the address of a coordinator names it *)

Lemma after_last_app s c r : after_last r c = None → after_last (s ^^ String c r) c = Some r.
Proof.
  intros Hr. induction s as [|d s IH]; [by rewrite app_nil_l_s; cbn [after_last]; rewrite Hr, decide_True|]. rewrite app_cons_s. cbn [after_last]. by rewrite IH.
Qed.

(** The digits of an ordinal are free of any character that is not a digit. *)
Lemma Itoa_free c z : (0 ≤ z)%Z → digit c = None → free_of c (Itoa z) = true.
Proof.
  intros Hz Hc. assert (∀ s a n, digits a s = Some n → free_of c s = true) as Hd.
  { induction s as [|d s IH]; intros a n; [done|]. unfold free_of. cbn [digits all_chars]. destruct (digit d) as [k|] eqn:Ed; [|done].
    cbn. intros Hs. rewrite bool_decide_eq_false_2 by congruence. cbn. by eapply IH. }
  destruct z as [|p|p]; [|by eapply Hd, (digits_pretty (N.pos p))|lia]. by eapply Hd, (digits_pretty 0).
Qed.

Lemma free_after_last c s : free_of c s = true → after_last s c = None.
Proof.
  induction s as [|d s IH]; [done|]. unfold free_of. cbn [all_chars after_last]. intros [Hd Hs]%andb_true_iff.
  rewrite (IH Hs). case_decide as E; [|done]. subst. by rewrite bool_decide_eq_true_2 in Hd.
Qed.

Lemma Atoi_Itoa z : (0 ≤ z)%Z → is_int64 z → Atoi (Itoa z) = inl z.
Proof.
  intros Hz Hr. replace z with (Z.of_N (Z.to_N z)) by lia.
  set (n := Z.to_N z). assert (Itoa (Z.of_N n) = pretty n) as -> by (by destruct n).
  destruct (pretty_N_head n) as (c & s & E & Hc). pose proof (digits_pretty n) as Hd. rewrite E in Hd |- *.
  assert (is_int64 (Z.of_N n)) by (subst n; by rewrite Z2N.id).
  assert (∃ e e', Atoi (String c s) = match (if decide (String c s = "") then None else digits 0 (String c s)) with
                         | None => inr e
                         | Some n => if decide (is_int64 (Z.of_N n)) then inl (Z.of_N n) else inr e'
                         end) as (e & e' & ->).
  { apply digit_cases in Hc as (k & Hk & ->). do 10 (destruct k as [|k]; [by eexists _, _|]). lia. }
  rewrite decide_False by done. by rewrite Hd, decide_True.
Qed.

Lemma selfName_pod name rest ordinal :
  free_of "." name = true → (0 ≤ ordinal)%Z → is_int64 ordinal →
  selfName (name ^^ "-" ^^ Itoa ordinal ^^ "." ^^ rest) = inl (coordinatorName ordinal).
Proof.
  intros Hn Ho Hr. unfold selfName.
  assert (name ^^ "-" ^^ Itoa ordinal ^^ "." ^^ rest = (name ^^ "-" ^^ Itoa ordinal) ^^ String "." rest) as ->.
  { by rewrite !app_assoc_s. }
  rewrite Cut_app.
  2: { apply Is_true_true. unfold free_of in *. rewrite !all_chars_app, Hn. exact (Itoa_free "." ordinal Ho eq_refl). }
  change (name ^^ "-" ^^ Itoa ordinal) with (name ^^ String "-" (Itoa ordinal)).
  rewrite after_last_app by (by apply free_after_last, Itoa_free). by rewrite Atoi_Itoa.
Qed.

(** ** Lemmas: served traces *)

Section served.
Context `{RangeOrder} (setup : fakeSetup).
Implicit Types (s : fakeMemgraph).
Local Abbreviation serves := (serves setup).
Local Abbreviation served := (served setup).

Lemma served_app t u s s' : served (t ++ u) s s' ↔ ∃ s1, served t s s1 ∧ served u s1 s'.
Proof.
  revert s. induction t as [|ev t IH]; intros s; cbn [app FakeCluster.served].
  - split; [intros Hu; by exists s|]. by intros (? & -> & ?).
  - setoid_rewrite IH. naive_solver.
Qed.

(** Only a command changes the members. *)
Lemma executeOn_instances session command apply s :
  (∀ s, fm_instances (apply s).1 = fm_instances s) → fm_instances (executeOn setup session command apply s).1 = fm_instances s.
Proof.
  intros Ha. unfold executeOn. repeat case_match; try done; cbn; match goal with E : apply s = _ |- _ => by rewrite <- (Ha s), E end.
Qed.

Lemma serves_instances ev s s' :
  serves ev s s' → (∀ command, MCommand command ∉ mutation_of ev) → fm_instances s' = fm_instances s.
Proof.
  destruct ev as [X e x]. intros [-> _] Hn.
  assert (∀ Y (f : fakeSession → fakeMemgraph * Y) c, (∀ session, fm_instances (f session).1 = fm_instances s) →
    fm_instances (onSession c s f).1 = fm_instances s) as Hon.
  { intros Y f c Hf. unfold onSession. destruct (fm_clients s !! c) as [session|]; [|done]. specialize (Hf session).
    by destruct (f session). }
  destruct e; cbn [fakeAnswer]; try done; try (apply Hon; intros session); try done.
  - destruct (Connect _ _ _ _) eqn:E. unfold Connect in E. repeat case_match; by simplify_eq.
  - destruct (Hn command). left.
  - unfold showSettings. by destruct (fc_closed session).
  - apply executeOn_instances. intros s0. cbn. by repeat case_decide.
  - unfold showConfig. destruct (fc_closed session), (fs_configUnknown setup); [done..|]. by destruct (_ !! _).
  - unfold showCoordinatorSettings. by destruct (fc_closed session), (fs_coordinatorSettingsUnknown setup).
  - apply executeOn_instances. intros s0. cbn. by repeat case_decide.
Qed.

Lemma served_instances t s s' :
  served t s s' → (∀ command, MCommand command ∉ mutations t) → fm_instances s' = fm_instances s.
Proof.
  revert s. induction t as [|ev t IH]; intros s; cbn [FakeCluster.served]; [by intros ->|].
  intros (s1 & He & Ht) Hn. rewrite mutations_cons in Hn. setoid_rewrite elem_of_app in Hn.
  rewrite (IH s1 Ht) by naive_solver. eapply serves_instances; [exact He|]. naive_solver.
Qed.

End served.

(** ** Lemmas: a command over a connection *)

Lemma execute_frame command apply (s : fakeClient) :
  f_address (execute command apply s).1 = f_address s ∧ f_rejected (execute command apply s).1 = f_rejected s.
Proof. unfold execute. destruct (f_rejected s command); [done|]. by destruct (apply (f_instances s)). Qed.

Lemma Run_frame command (s : fakeClient) :
  f_address (Run command s).1 = f_address s ∧ f_rejected (Run command s).1 = f_rejected s.
Proof.
  destruct command as [c|i|c|i|cs restore|n|n|c|l]; cbn [Run fake_client client_AddCoordinator client_RegisterInstance
    client_UpdateCoordinatorBoltServer client_UpdateInstanceBoltServer client_DemoteInstance client_UnregisterInstance
    client_RemoveCoordinator client_YieldLeadership]; try apply execute_frame.
  - assert (∀ errs (s : fakeClient), f_address (try_candidates cs errs s).1.1 = f_address s ∧
      f_rejected (try_candidates cs errs s).1.1 = f_rejected s) as Htry.
    { induction cs as [|n cs IH]; intros errs s0; cbn [try_candidates]; [done|].
      cbn [fake_client client_SetInstanceToMain]. pose proof (execute_frame ("SET INSTANCE " ^^ n ^^ " TO MAIN") (set_main n) s0) as He.
      destruct (execute _ _ s0) as [s1 [err|]]; [|done]. destruct (IH (errs ++ [wrap ("promoting " ^^ n) err]) s1) as [-> ->]. done. }
    unfold run_SetInstanceToMain. specialize (Htry [] s). destruct (try_candidates cs [] s) as [[s1 errs] [|]]; [done|].
    case_decide; [done|]. cbn [fake_client client_SetInstanceToMain].
    pose proof (execute_frame ("SET INSTANCE " ^^ restore ^^ " TO MAIN") (set_main restore) s1) as He.
    cbn [fst] in Htry. destruct Htry as [<- <-]. by destruct (execute _ _ s1) as [s2 [err|]].
  - destruct (selfName (f_address s)); [apply execute_frame|done].
Qed.

Lemma at_first_names p f l l' :
  at_first p f l = Some (inl l') → (∀ i l0, f i = inl l0 → ∀ j, j ∈ l0 → i_Name j = i_Name i) →
  ∀ j, j ∈ l' → i_Name j ∈ i_Name <$> l.
Proof.
  intros Hat Hf. revert l' Hat. induction l as [|i l IH]; intros l'; cbn [at_first]; [done|]. rewrite fmap_cons.
  destruct (p i).
  - destruct (f i) as [l0|] eqn:E; [|done]. intros [= <-] j [Hj|Hj]%elem_of_app; [rewrite (Hf _ _ E j Hj); left|].
    right. by apply list_elem_of_fmap_2.
  - destruct (at_first p f l) as [[l0|]|]; [|done..]. intros [= <-] j [->|Hj]%elem_of_cons; [left|right; by apply (IH l0)].
Qed.

(** The names a command can add. *)
Definition adds (command : Command) (name : string) : Prop :=
  match command with
  | AddCoordinator c => name = c_Name c
  | RegisterInstance i => name = d_Name i
  | _ => False
  end.

Definition names_within (added : string → Prop) (l l' : list Instance) : Prop :=
  ∀ j, j ∈ l' → i_Name j ∈ i_Name <$> l ∨ added (i_Name j).

Lemma names_within_refl added l : names_within added l l.
Proof. intros j Hj. left. by apply list_elem_of_fmap_2. Qed.

Lemma names_within_trans added l1 l2 l3 :
  names_within added l1 l2 → names_within added l2 l3 → names_within added l1 l3.
Proof.
  intros H12 H23 j [(i & -> & Hi)%list_elem_of_fmap|?]%H23; [|by right]. by apply H12.
Qed.

Lemma execute_names command apply added (s : fakeClient) :
  (∀ l l', apply l = inl l' → names_within added l l') → names_within added (f_instances s) (f_instances (execute command apply s).1).
Proof.
  intros Ha. unfold execute. destruct (f_rejected s command); [apply names_within_refl|].
  destruct (apply (f_instances s)) eqn:E; [by apply Ha|apply names_within_refl].
Qed.

Lemma or_refuse_names p f what added l l' :
  or_refuse (at_first p f l) what = inl l' → (∀ i l0, f i = inl l0 → ∀ j, j ∈ l0 → i_Name j = i_Name i) → names_within added l l'.
Proof.
  unfold or_refuse. destruct (at_first p f l) as [r|] eqn:E; [|done]. intros -> Hf j Hj. left. by eapply at_first_names.
Qed.

Lemma set_main_names name added l l' : set_main name l = inl l' → names_within added l l'.
Proof.
  unfold set_main. destruct (List.find _ _); [done|]. intros E. eapply or_refuse_names; [exact E|].
  by intros i l0 [= <-] j ->%list_elem_of_singleton.
Qed.

Lemma Run_names command (s : fakeClient) :
  names_within (adds command) (f_instances s) (f_instances (Run command s).1).
Proof.
  destruct command as [c|i|c|i|cs restore|n|n|c|l]; cbn [Run fake_client client_AddCoordinator client_RegisterInstance
    client_UpdateCoordinatorBoltServer client_UpdateInstanceBoltServer client_DemoteInstance client_UnregisterInstance
    client_RemoveCoordinator client_YieldLeadership]; try (apply execute_names; intros l0 l').
  - unfold add_coordinator. destruct (at_first _ _ _) as [r|] eqn:E.
    + intros ->. intros j Hj. left. eapply at_first_names; [exact E| |done].
      intros i l1. cbn beta. case_decide; [|done]. by intros [= <-] j' ->%list_elem_of_singleton.
    + destruct (selfName _); [|done]. intros [= <-] j [Hj| ->%list_elem_of_singleton]%elem_of_app; [left; by apply list_elem_of_fmap_2|by right].
  - unfold register_instance. destruct (hasInstance _ _); [done|].
    intros [= <-] j [Hj| ->%list_elem_of_singleton]%elem_of_app; [left; by apply list_elem_of_fmap_2|by right].
  - intros E. eapply or_refuse_names; [exact E|]. by intros ? ? [= <-] j ->%list_elem_of_singleton.
  - intros E. eapply or_refuse_names; [exact E|]. by intros ? ? [= <-] j ->%list_elem_of_singleton.
  - assert (∀ errs (s : fakeClient), names_within (λ _, False) (f_instances s) (f_instances (try_candidates cs errs s).1.1)) as Htry.
    { induction cs as [|n cs IH]; intros errs s0; cbn [try_candidates]; [apply names_within_refl|].
      cbn [fake_client client_SetInstanceToMain].
      pose proof (execute_names ("SET INSTANCE " ^^ n ^^ " TO MAIN") (set_main n) (λ _, False) s0 (set_main_names n _)) as He.
      destruct (execute _ _ s0) as [s1 [err|]]; cbn [fst] in He |- *; [|exact He]. eapply names_within_trans; [exact He|apply IH]. }
    unfold run_SetInstanceToMain. specialize (Htry [] s). destruct (try_candidates cs [] s) as [[s1 errs] [|]]; cbn [fst] in Htry |- *; [exact Htry|].
    case_decide; [exact Htry|]. cbn [fake_client client_SetInstanceToMain].
    pose proof (execute_names ("SET INSTANCE " ^^ restore ^^ " TO MAIN") (set_main restore) (λ _, False) s1 (set_main_names restore _)) as He.
    destruct (execute _ _ s1) as [s2 [err|]]; cbn [fst] in He |- *; (eapply names_within_trans; [exact Htry|exact He]).
  - intros E. eapply or_refuse_names; [exact E|]. intros i0 l1. cbn beta. destruct (IsMain i0); [|done]. by intros [= <-] j ->%list_elem_of_singleton.
  - intros E. eapply or_refuse_names; [exact E|]. intros i0 l1. cbn beta. destruct (IsMain i0); [done|]. by intros [= <-] j ?%elem_of_nil.
  - intros E. eapply or_refuse_names; [exact E|]. intros i0 l1. cbn beta. destruct (IsLeader i0); [done|]. by intros [= <-] j ?%elem_of_nil.
  - destruct (selfName (f_address s)) as [self|]; [|apply names_within_refl]. apply execute_names. intros l0 l' E.
    unfold yield_leadership in E. assert (names_within (adds (YieldLeadership l)) ((λ i, if is_named self i then with_Role RoleFollower i else i) <$> l0) l') as Hn.
    { eapply or_refuse_names; [exact E|]. by intros ? ? [= <-] j ->%list_elem_of_singleton. }
    intros j [(i & -> & (i' & -> & Hi)%list_elem_of_fmap)%list_elem_of_fmap|?]%Hn; [|done]. left.
    replace (i_Name (if is_named self i' then _ else i')) with (i_Name i') by (by destruct (is_named self i')). by apply list_elem_of_fmap_2.
Qed.

(** A plan adds only the members it is for. *)
Lemma run_plan_names commands (s : fakeClient) :
  names_within (λ n, ∃ command, command ∈ commands ∧ adds command n) (f_instances s) (f_instances (run_plan commands s).1).
Proof.
  assert (∀ commands' (s : fakeClient), commands' ⊆ commands →
    names_within (λ n, ∃ command, command ∈ commands ∧ adds command n) (f_instances s) (f_instances (run_plan commands' s).1)) as Hall;
    [|by apply Hall].
  induction commands' as [|command commands' IH]; intros s0 Hsub; cbn [run_plan]; [apply names_within_refl|].
  assert (names_within (λ n, ∃ command, command ∈ commands ∧ adds command n) (f_instances s0) (f_instances (Run command s0).1)) as H1.
  { intros j [?|Hj]%(Run_names command s0); [by left|]. right. exists command. split; [apply Hsub; left|done]. }
  destruct (Run command s0) as [s1 [err|]]; cbn [fst] in H1 |- *; [exact H1|]. eapply names_within_trans; [exact H1|]. apply IH. set_solver.
Qed.

(** ** Lemmas: a pass against a healthy fake *)

Section healthy.
Context `{RangeOrder} (setup : fakeSetup) (Hok : healthy setup).
Implicit Types (s : fakeMemgraph).
Local Abbreviation serves := (serves setup).
Local Abbreviation served := (served setup).

(** The cluster as an open connection to an address sees it. *)
Definition seat (address : string) s : fakeClient := clientOf setup (mkFakeSession address false) s.

Lemma rejectedBy_none command : rejectedBy setup command = None.
Proof.
  unfold rejectedBy. destruct Hok as (_ & _ & _ & ->).
  assert (range (∅ : gmap string error) = []) as ->; [|done]. apply Permutation_nil. by rewrite (range_perm ∅), map_to_list_empty.
Qed.

Lemma runCommand_seat address command s :
  let '(s', r) := runCommand setup (mkFakeSession address false) command s in
  Run command (seat address s) = (seat address s', r) ∧ fm_clients s' = fm_clients s.
Proof.
  unfold runCommand. pose proof (Run_frame command (seat address s)) as [Ha Hr]. unfold seat in *.
  destruct (Run command _) as [client r]. cbn in Ha, Hr |- *. split; [|done]. destruct client. cbn in *. by subst.
Qed.

Lemma serves_run leader address command r s s' :
  fm_clients s !! leader = Some (mkFakeSession address false) → serves (Event (ERun leader command) r) s s' →
  Run command (seat address s) = (seat address s', r) ∧ fm_clients s' = fm_clients s.
Proof.
  intros Hc [-> Hx]. cbn [fakeAnswer] in *. unfold onSession in *. rewrite Hc in *.
  pose proof (runCommand_seat address command s) as Hrun. destruct (runCommand _ _ _ _) as [s1 r1]. cbn in *. by rewrite (Hx r1).
Qed.

(** The loop over the commands runs the plan. *)
Lemma run_commands_served {L} `{ConditionsAPI L} `{Kube} (cluster : MemgraphDBCluster L) leader commands latest (st : passState L) t st' r s s' address client :
  fm_clients s !! leader = Some (mkFakeSession address false) →
  returns (run_commands cluster leader commands latest st) t (st', r) → served t s s' →
  run_plan commands (seat address s) = (client, None) →
  seat address s' = client ∧ mutations t = MCommand <$> commands ∧ unrefused t.
Proof.
  revert st t s. induction commands as [|command commands IH]; intros st t s Hc Hrun; cbn [run_commands] in Hrun.
  { destruct Hrun as [-> _]. intros -> [= <-]. split; [done|]. split; [done|]. constructor. }
  apply returns_trigger in Hrun as (answer & t1 & -> & Hrun). cbn [mbind prog_bind] in Hrun.
  intros (s1 & Hserved & Ht) Hplan. apply (serves_run _ address) in Hserved as [Hrun1 Hc1]; [|done].
  cbn [run_plan] in Hplan. rewrite Hrun1 in Hplan. destruct answer as [err|]; [done|].
  rewrite <- Hc1 in Hc. destruct (IH _ _ _ Hc Hrun Ht Hplan) as (Hs & Hm & Hall). split; [done|].
  split; [by rewrite mutations_cons, Hm|]. by constructor.
Qed.

(** A connection to any address is accepted. *)
Lemma serves_connect address tls x s s' :
  serves (Event (EConnect address tls) x) s s' →
  x = inl (length (fm_clients s)) ∧ fm_clients s' !! length (fm_clients s) = Some (mkFakeSession address false) ∧
  fm_instances s' = fm_instances s ∧ fm_settings s' = fm_settings s.
Proof.
  intros [-> Hx]. cbn [fakeAnswer] in *. unfold Connect in *. destruct Hok as (_ & Hce & Hun & _). rewrite Hce, Hun in *.
  cbn in Hx |- *. rewrite (Hx _ eq_refl). split; [done|]. split; [|done].
  rewrite lookup_app_r, Nat.sub_diag by lia. done.
Qed.

Lemma serves_showInstances c address x s s' :
  fm_clients s !! c = Some (mkFakeSession address false) → serves (Event (EShowInstances c) x) s s' →
  x = ShowInstances (seat address s) ∧ s' = s.
Proof.
  intros Hc [-> Hx]. cbn [fakeAnswer] in *. unfold onSession in *. rewrite Hc in *. cbn in *. rewrite (Hx _ eq_refl).
  unfold showInstancesView. cbn. destruct Hok as (-> & _). by rewrite lookup_empty.
Qed.

(** A cluster the fake serves: [self] leads it, is one of the endpoints and, once there are
    members, one of them, as the first endpoint is; and its coordinators are endpoints. *)
Record seated (endpoints : list Endpoint) (self : string) s : Prop := mkSeated {
  seated_leads : leads self (seat "" s);
  seated_self : self ∈ ep_Name <$> endpoints;
  seated_first : ∀ e, endpoints !! 0 = Some e →
    (fm_instances s = [] ∧ ep_Name e = self) ∨
    (ep_Name e ∈ i_Name <$> fm_instances s ∧ self ∈ i_Name <$> fm_instances s);
  seated_known : ∀ i, i ∈ fm_instances s → HasPrefix (i_Name i) coordinatorNamePrefix = true → i_Name i ∈ ep_Name <$> endpoints
}.

(** Every endpoint's address is that of the coordinator it names. *)
Definition addressed (endpoints : list Endpoint) : Prop :=
  NoDup (ep_Name <$> endpoints) ∧ ∀ e, e ∈ endpoints → selfName (ep_Address e) = inl (ep_Name e).

Lemma hasInstance_in l name : hasInstance l name = true ↔ name ∈ i_Name <$> l.
Proof.
  unfold hasInstance. rewrite existsb_exists, list_elem_of_fmap. setoid_rewrite bool_decide_eq_true. setoid_rewrite <- list_elem_of_In.
  naive_solver.
Qed.

(** The first coordinator serves what the leader would. *)
Lemma seated_view endpoints self s e address :
  seated endpoints self s → addressed endpoints → endpoints !! 0 = Some e → selfName address = inl self →
  ShowInstances (seat (ep_Address e) s) = ShowInstances (seat address s).
Proof.
  intros Hs [_ Ha] He Hself. assert (e ∈ endpoints) as Hin by (by eapply list_elem_of_lookup_2).
  unfold ShowInstances, seat, clientOf. cbn [f_address f_instances fc_address]. rewrite (Ha e Hin), Hself.
  destruct (seated_first _ _ _ Hs e He) as [[Hn ->]|[H1 H2]]; [done|].
  by rewrite (proj2 (hasInstance_in _ (ep_Name e)) H1), (proj2 (hasInstance_in _ self) H2).
Qed.

Lemma ShowInstances_instances address s s' : fm_instances s' = fm_instances s → ShowInstances (seat address s') = ShowInstances (seat address s).
Proof. unfold ShowInstances, seat, clientOf. cbn [f_address f_instances fc_address]. by intros ->. Qed.

Lemma seated_instances endpoints self s s' : fm_instances s' = fm_instances s → seated endpoints self s → seated endpoints self s'.
Proof.
  intros E [Hl Hself Hf Hk]. split; [|done|by rewrite E..]. intros address Ha. destruct (Hl address Ha) as [[? ? Hn] ? ? ?].
  cbn in Hn. unfold rows in *. cbn in *. split; [split|..]; unfold rows; cbn; by rewrite ?E.
Qed.

(** The leader's connection, and the view the leader serves. *)
Lemma observeCluster_finds endpoints self s t r s' :
  endpoints ≠ [] → seated endpoints self s → addressed endpoints →
  returns (observeCluster endpoints) t r → served t s s' →
  ∃ leader address observed, r = inl (leader, observed) ∧ fm_clients s' !! leader = Some (mkFakeSession address false) ∧
    selfName address = inl self ∧ ShowInstances (seat address s') = inl observed ∧ fm_instances s' = fm_instances s.
Proof.
  intros Hne Hs Ha Hrun Ht. destruct endpoints as [|e0 endpoints]; [done|]. set (es := e0 :: endpoints) in *.
  pose proof (seated_self _ _ _ Hs) as (e & Ee & He)%list_elem_of_fmap.
  assert (selfName (ep_Address e) = inl self) as Hself by (rewrite Ee; by apply Ha).
  pose proof (seated_leads _ _ _ Hs (ep_Address e) Hself) as Hcoh. change (reconnect _ _) with (seat (ep_Address e) s) in Hcoh.
  destruct (ShowInstances_total _ _ Hcoh) as [observed Hv]. pose proof (view_leader _ _ _ Hcoh Hv) as Hleader.
  assert (self ≠ "") as Hnil by (intros ->; by apply self_prefix in Hcoh).
  unfold observeCluster in Hrun. cbn [observe_loop] in Hrun.
  apply returns_bind in Hrun as (t1 & shown & t2 & -> & Hshow & Hrun). apply served_app in Ht as (s2 & Ht1 & Ht2).
  unfold showInstances in Hshow. apply returns_trigger in Hshow as (c & t3 & -> & Hshow). destruct Ht1 as (s3 & Hc & Ht1).
  apply serves_connect in Hc as (-> & Hc & Hi & _). cbn [mbind prog_bind] in Hshow.
  apply returns_trigger in Hshow as (view & t4 & -> & Hshow). destruct Ht1 as (s4 & Hview & Ht1).
  eapply serves_showInstances in Hview as [Eview Es]; [|exact Hc]. subst view s4.
  rewrite (ShowInstances_instances _ _ _ Hi), (seated_view es self s e0 (ep_Address e)), Hv in Hshow by done.
  cbn [mbind prog_bind] in Hshow. destruct Hshow as [-> ->]. cbn in Ht1. subst s2.
  cbv beta zeta in Hrun. change (observedLeader observed) with (leaderName observed) in Hrun. rewrite Hleader in Hrun. case_decide as E0.
  { destruct Hrun as [-> ->]. cbn in Ht2. subst s'. eexists _, _, observed. split; [done|]. split; [exact Hc|].
    rewrite E0. split; [apply Ha; left|]. split; [|done].
    by rewrite (ShowInstances_instances _ _ _ Hi), (seated_view es self s e0 (ep_Address e)), Hv. }
  apply returns_trigger in Hrun as (closeErr & t5 & -> & Hrun). destruct Ht2 as (s5 & Hclose & Ht2). cbn [mbind prog_bind] in Hrun.
  assert (fm_instances s5 = fm_instances s) as Hi5 by (destruct Hclose as [-> _]; exact Hi).
  rewrite decide_False in Hrun by done. rewrite (leaderAddress_endpoint es observed self e) in Hrun; [|apply Ha|done|done].
  apply returns_trigger in Hrun as (leader & t6 & -> & Hrun). destruct Ht2 as (s6 & Hc6 & Ht2).
  apply serves_connect in Hc6 as (-> & Hc6 & Hi6 & _). cbn [mbind prog_bind] in Hrun. destruct Hrun as [-> ->]. cbn in Ht2. subst s6.
  eexists _, _, observed. split; [done|]. split; [exact Hc6|]. split; [exact Hself|]. split; [|by rewrite Hi6].
  rewrite <- Hv. apply ShowInstances_instances. by rewrite Hi6.
Qed.

(** The lag the fake reports depends on the members only. *)
Definition lagOf (instances : list Instance) : list ReplicationLag :=
  match showReplicationLag setup (mkFakeSession "" false) (with_instances instances [] newFakeMemgraph) with inl lag => lag | inr _ => [] end.

Lemma serves_lag c address x s s' :
  fm_clients s !! c = Some (mkFakeSession address false) → serves (Event (EShowReplicationLag c) x) s s' →
  match x with inl lag => lag | inr _ => [] end = lagOf (fm_instances s) ∧ s' = s.
Proof.
  intros Hc [-> Hx]. cbn [fakeAnswer] in *. unfold onSession in *. rewrite Hc in *. cbn in Hx |- *. split; [|done].
  rewrite (Hx _ eq_refl). unfold lagOf, showReplicationLag. cbn. by destruct (negb _).
Qed.

Lemma unrefused_idle t : (∀ command, MCommand command ∉ mutations t) → unrefused t.
Proof.
  intros Hn. apply Forall_forall. intros ev Hin. destruct (refusal ev) eqn:E; [|done]. exfalso.
  destruct ev as [X ef x]. destruct ef; try done. apply (Hn command). apply list_elem_of_bind.
  eexists. split; [|exact Hin]. left.
Qed.

Lemma unrefused_app t u : unrefused (t ++ u) ↔ unrefused t ∧ unrefused u.
Proof. apply Forall_app. Qed.
End healthy.

Section passes.
Context `{RangeOrder} `{Kube} `{QuantityOrder Quantity} {L : Type} `{ConditionsAPI L}
  (setup : fakeSetup) (cluster : MemgraphDBCluster L) (reconciler : Reconciler).
Implicit Types (s : fakeMemgraph).
Local Abbreviation served := (served setup).

(** A registration pass over pods that are all ready, at given counts and addresses. *)
Definition passed (external : ExternalAddresses) (coordinators data : Z) (t : list (event eff)) s s' : Prop :=
  ∃ reads replicas (exposure : exposure) roles claims (st st' : passState L) result,
    rr_applied (rc_coordinators replicas) = coordinators ∧ rr_applied (rc_data replicas) = data ∧
    ea_addresses exposure = external ∧ workloadsReady replicas roles = true ∧
    returns (reconcileRegistration cluster reconciler reads replicas exposure roles claims st) t (st', result) ∧
    served t s s'.

(** The lag is read, and the plan run; with nothing to run, no command is issued. *)
Lemma register_shape leader topology reads replicas exposure roles claims observed (st : passState L) t st' r :
  returns (register cluster reconciler leader topology reads replicas exposure roles claims observed st) t (st', r) →
  ∃ answer t', t = Event (EShowReplicationLag leader) answer :: t' ∧
    let commands := Planner.Plan topology observed match answer with inl lag => lag | inr _ => [] end in
    (commands = [] ∧ ∀ command, MCommand command ∉ mutations t') ∨
    ∃ latest st1, returns (run_commands cluster leader commands latest st1) t' (st', r).
Proof.
  intros (answer & t' & -> & Hrun). exists answer, t'. split; [done|]. cbn [mbind prog_bind] in Hrun. cbv zeta in Hrun |- *.
  case_decide as Hnil; [left|right; by eexists _, _]. apply length_zero_iff_nil in Hnil. split; [done|]. intros command.
  case_decide.
  - apply finishRetirement_mutations in Hrun as [->|[_ [x Hx]]]; [by intros ?%elem_of_nil|]. intros Hin.
    assert (MCommand command ∈ mutations t' ++ x) as Hc by (apply elem_of_app; by left). rewrite <- Hx in Hc.
    apply list_elem_of_bind in Hc as (role & Hc & _). unfold shrink_of in Hc.
    case_decide; [by apply elem_of_nil in Hc|by apply list_elem_of_singleton in Hc].
  - apply reconcileConverged_spec in Hrun as (u & v & classes & applied & roles' & waitFor & -> & Hq & _ & _ & _ & Hroll).
    rewrite mutations_app, Hq. destruct waitFor; [destruct Hroll as [-> _]; by intros ?%elem_of_nil|].
    apply roll_mutations in Hroll as [->|(d & _ & _ & ->)]; [by intros ?%elem_of_nil|by intros [=]%list_elem_of_singleton].
Qed.

Lemma pass_served external coordinators data self t s s' :
  let endpoints := CoordinatorEndpoints cluster coordinators in
  healthy setup → endpoints ≠ [] → seated setup endpoints self s → addressed endpoints → passed external coordinators data t s s' →
  ∃ s1 address observed, fm_instances s1 = fm_instances s ∧ selfName address = inl self ∧
    ShowInstances (seat setup address s1) = inl observed ∧
    let commands := Planner.Plan (passTopology cluster external coordinators data) observed (lagOf setup (fm_instances s)) in
    (commands = [] → ∀ command, MCommand command ∉ mutations t) ∧
    ∀ client, run_plan commands (seat setup address s1) = (client, None) → fm_instances s' = f_instances client ∧ unrefused t.
Proof.
  intros endpoints Hok Hne Hs Ha (reads & replicas & exposure & roles & claims & st & st' & result & Hco & Hda & Hex & Hready & Hrun & Ht).
  unfold reconcileRegistration in Hrun. rewrite Hready in Hrun. cbn [negb] in Hrun. cbv zeta in Hrun. rewrite Hco, Hda, Hex in Hrun.
  apply returns_bind in Hrun as (u & r & v & -> & Hobs & Hrun). apply served_app in Ht as (s1 & Hu & Hv).
  pose proof (quiet_mutations _ _ _ (observe_loop_quiet _ _ _ _) Hobs) as Hq.
  destruct (observeCluster_finds setup Hok endpoints self s u r s1 Hne Hs Ha Hobs Hu)
    as (leader & address & observed & -> & Hc & Hself & Hview & Hi).
  exists s1, address, observed. do 3 (split; [done|]). intros commands.
  apply returns_bind in Hrun as (w & [st1 r1] & x & -> & Hreg & Hrun). apply served_app in Hv as (s2 & Hw & Hx).
  apply returns_trigger in Hrun as (closed & y & -> & [-> [= <- <-]]). destruct Hx as (s3 & [-> _] & ->). cbn [fst] in *.
  change (fm_instances (fakeAnswer setup (EClose leader) s2).1) with (fm_instances s2).
  apply register_shape in Hreg as (answer & w' & -> & Hreg). destruct Hw as (s4 & Hlag & Hw).
  apply (serves_lag setup leader address) in Hlag as [Elag ->]; [|done]. rewrite Elag, Hi in Hreg. fold commands in Hreg. cbv zeta in Hreg.
  assert (∀ w0, mutations (u ++ (Event (EShowReplicationLag leader) answer :: w0) ++ [Event (EClose leader) closed]) = mutations w0) as Em.
  { intros w0. rewrite !mutations_app, mutations_cons, Hq. cbn. by rewrite app_nil_r. }
  rewrite Em. assert (unrefused w' → unrefused (u ++ (Event (EShowReplicationLag leader) answer :: w') ++ [Event (EClose leader) closed])) as Hun.
  { intros Hw'. rewrite !unrefused_app. split; [apply unrefused_idle; intros ?; rewrite Hq; by intros ?%elem_of_nil|].
    split; [by constructor|by repeat constructor]. }
  destruct Hreg as [[Hnil Hidle]|(latest & st2 & Hcmds)].
  - split; [done|]. intros client Hplan. rewrite Hnil in Hplan. injection Hplan as <-.
    split; [|by apply Hun, unrefused_idle]. by rewrite (served_instances _ _ _ _ Hw Hidle).
  - assert (∀ client, run_plan commands (seat setup address s1) = (client, None) →
      seat setup address s2 = client ∧ mutations w' = MCommand <$> commands ∧ unrefused w') as Hall.
    { intros client Hplan. by eapply run_commands_served. }
    split.
    + intros Hnil. rewrite Hnil in Hall. destruct (Hall _ eq_refl) as (_ & -> & _). by intros ? ?%elem_of_nil.
    + intros client (<- & _ & Hw')%Hall. split; [done|by apply Hun].
Qed.
End passes.

(** ** Lemmas: from one pass to the next *)

Section settle.
Context `{RangeOrder} `{Kube} `{QuantityOrder Quantity} {L : Type} `{ConditionsAPI L}
  (setup : fakeSetup) (cluster : MemgraphDBCluster L) (reconciler : Reconciler)
  (external : ExternalAddresses) (coordinators data : Z).
Context (Hok : healthy setup) (Hname : free_of "." (m_Name (Meta cluster)) = true)
  (Hcoords : (1 ≤ DeclaredCoordinators cluster ≤ coordinators)%Z) (Hdata : (0 ≤ DeclaredDataInstances cluster)%Z)
  (Hint32 : (coordinators ≤ 2 ^ 31)%Z).
Implicit Types (s : fakeMemgraph).
Local Abbreviation topology := (passTopology cluster external coordinators data).
Local Abbreviation es := (CoordinatorEndpoints cluster coordinators).
Local Abbreviation seated := (seated setup es).

Lemma endpoint_names : ep_Name <$> es = c_Name <$> Coordinators topology ++ t_RetiringCoordinators topology.
Proof.
  unfold CoordinatorEndpoints, endpoints. rewrite <- list_fmap_compose.
  change (c_Name <$> ?l) with (coordinatorName ∘ c_ID <$> l). rewrite (list_fmap_compose c_ID coordinatorName).
  cbn [passTopology Coordinators t_RetiringCoordinators]. rewrite coordinator_ids by lia. by rewrite Z.max_r by lia.
Qed.

Lemma endpoints_addressed : addressed es.
Proof.
  split.
  - rewrite endpoint_names. change (c_Name <$> ?l) with (coordinatorName ∘ c_ID <$> l). rewrite (list_fmap_compose c_ID coordinatorName).
    apply NoDup_fmap_2; [intros ? ? E; by apply app_inj_l_s, Itoa_inj in E|].
    cbn [passTopology Coordinators t_RetiringCoordinators]. rewrite coordinator_ids by lia. apply NoDup_seqZ.
  - intros e (o & -> & Ho%elem_of_seqZ)%list_elem_of_fmap. cbn [ep_Address ep_Name]. unfold hostPort, podFQDN.
    assert (∀ a b c d f g : string, (a ^^ b ^^ c ^^ d ^^ f) ^^ g = a ^^ b ^^ c ^^ d ^^ (f ^^ g)) as Eassoc by (intros; by rewrite !app_assoc_s).
    rewrite Eassoc. apply selfName_pod; [|lia|unfold is_int64; lia].
    unfold CoordinatorName, free_of in *. by rewrite all_chars_app, Hname.
Qed.

Lemma coordinator_endpoint k : k ∈ Coordinators topology → c_Name k ∈ ep_Name <$> es.
Proof. intros Hk. rewrite endpoint_names. apply list_elem_of_fmap_2, elem_of_app. by left. Qed.

Lemma first_endpoint : ∃ e k, es !! 0 = Some e ∧ k ∈ Coordinators topology ∧ ep_Name e = c_Name k.
Proof.
  assert (∃ n, coordinators = Z.of_nat (S n)) as [n En] by (exists (pred (Z.to_nat coordinators)); lia).
  eexists. exists (coordinator cluster (normalize (Spec cluster)) 0 (ex_Coordinators external)). split; [|split].
  - unfold CoordinatorEndpoints, endpoints, ordinals. rewrite En. rewrite list_lookup_fmap.
    by rewrite (lookup_seqZ_lt 0 (Z.of_nat (S n)) 0) by lia.
  - cbn [passTopology DeclaredTopology Coordinators]. apply list_elem_of_fmap. exists 0%Z. split; [done|].
    apply elem_of_seqZ. unfold DeclaredCoordinators in Hcoords. lia.
  - reflexivity.
Qed.

Lemma topology_facts : wf_topology topology ∧ data_names_apart topology ∧ Coordinators topology ≠ [].
Proof.
  split; [by apply passTopology_wf; lia|]. split.
  - intros i Hi. apply elem_of_data in Hi as [o ->]; [|done]. unfold DataInstanceName, HasPrefix. by apply bool_decide_eq_false_2; intros [].
  - destruct first_endpoint as (_ & k & _ & Hk & _). intros E. rewrite E in Hk. by apply elem_of_nil in Hk.
Qed.

(** The cluster stays seated where a plan has left it staffed. *)
Lemma seated_next (self self1 : string) s (seat1 client : fakeClient) commands observed lag :
  seated self s → commands = Planner.Plan topology observed lag →
  run_plan commands seat1 = (client, None) → f_instances seat1 = fm_instances s →
  staffed topology self1 client → (self1 = self ∨ is_Some (rows client !! self1) ∧ HasPrefix self1 coordinatorNamePrefix = true) → (self1 ∉ c_Name <$> t_RetiringCoordinators topology) →
  ∀ s', fm_instances s' = f_instances client → seated self1 s' ∧ self1 ∈ i_Name <$> fm_instances s'.
Proof.
  intros Hs -> Hrun Hi1 [Hl Hmem] Hself1 Hret s' Hi'.
  assert (∀ n, is_Some (rows client !! n) ↔ n ∈ i_Name <$> fm_instances s') as Hrow.
  { intros n. rewrite Hi', <- hasInstance_in, hasInstance_spec, bool_decide_eq_true. done. }
  pose proof (run_plan_names (Planner.Plan topology observed lag) seat1) as Hnames. rewrite Hrun in Hnames. cbn [fst] in Hnames.
  assert (∀ i, i ∈ fm_instances s' → HasPrefix (i_Name i) coordinatorNamePrefix = true → i_Name i ∈ ep_Name <$> es) as Hknown.
  { intros i Hi Hp. rewrite Hi' in Hi. apply Hnames in Hi as [(j & E & Hj)%list_elem_of_fmap|(command & Hin & Hadd)].
    - rewrite E in Hp |- *. rewrite Hi1 in Hj. by apply (seated_known _ _ _ _ Hs).
    - destruct command; cbn in Hadd; try done; apply elem_of_Plan in Hin as [Hin _].
      + rewrite Hadd. by apply coordinator_endpoint.
      + destruct topology_facts as (_ & Hapart & _). rewrite Hadd, Hapart in Hp; [done|]. apply elem_of_app. by left. }
  assert (is_Some (rows client !! self1)) as Hsome.
  { destruct Hself1 as [->|[? _]]; [|done]. pose proof (seated_self _ _ _ _ Hs) as Hin. rewrite endpoint_names, fmap_app in Hin.
    apply elem_of_app in Hin as [(k & -> & Hk)%list_elem_of_fmap|?]; [by apply Hmem|done]. }
  apply Hrow in Hsome as Hin1. split; [|done]. split.
  - intros address Ha. destruct (Hl address Ha) as [[? ? Hn] Hlead Hmain Hcoord]. unfold rows in *. cbn in *.
    split; [split; [done|by intros; apply rejectedBy_none|]|..]; unfold rows; cbn; rewrite Hi'; done.
  - assert (∃ i, i ∈ fm_instances s' ∧ i_Name i = self1) as (i & Hi & <-) by (apply list_elem_of_fmap in Hin1 as (i & -> & Hi); eauto).
    apply Hknown; [done|]. destruct Hself1 as [->|[_ ?]]; [|done]. pose proof (seated_self _ _ _ _ Hs) as Hin.
    rewrite endpoint_names in Hin. apply list_elem_of_fmap in Hin as (k & -> & _). apply c_Name_prefix.
  - intros e He. right. split; [|done]. destruct first_endpoint as (e' & k & He' & Hk & En). simplify_eq.
    rewrite En. by apply Hrow, Hmem.
  - exact Hknown.
Qed.

(** A pass from a seated cluster plans over the leader's view; it runs its plan if that runs. *)
Lemma settle_pass self t s s' :
  seated self s → passed setup cluster reconciler external coordinators data t s s' →
  ∃ leader observed, f_instances leader = fm_instances s ∧ coherent self leader ∧ ShowInstances leader = inl observed ∧
    let commands := Planner.Plan topology observed (lagOf setup (fm_instances s)) in
    (commands = [] → ∀ command, MCommand command ∉ mutations t) ∧
    ∀ client, run_plan commands leader = (client, None) → fm_instances s' = f_instances client ∧ unrefused t.
Proof.
  intros Hs Ht. destruct first_endpoint as (e & _ & He & _).
  apply (pass_served setup cluster reconciler external coordinators data self) in Ht
    as (s1 & address & observed & Hi & Ha & Hv & Hx); [|done|by intros E; rewrite E in He|done|apply endpoints_addressed].
  exists (seat setup address s1), observed. split; [exact Hi|]. split; [|split; [done|exact Hx]].
  exact (seated_leads _ _ _ _ (seated_instances setup es self s s1 Hi Hs) address Ha).
Qed.
End settle.

(** ** Lemmas: settings against a healthy fake *)

Lemma bind_ext_in {A B} (f g : A → list B) l : (∀ x, x ∈ l → f x = g x) → l ≫= f = l ≫= g.
Proof.
  induction l as [|x l IH]; intros Hf; [done|]. rewrite !bind_cons, (Hf x) by left. f_equal. apply IH. intros. apply Hf. by right.
Qed.

(** [settingsOf]. *)
Definition settingsOf (address : string) (s : fakeMemgraph) : gmap string string :=
  default baselineSettings (fm_settings s !! address).

(** What the instance holds is a setting it knows, with a boolean where it asks for one. *)
Definition acceptable (observed : gmap string string) (change : Change) : Prop :=
  is_Some (observed !! ch_Setting change) ∧
  (ch_Setting change = "log.to_stderr" → ch_Value change = "true" ∨ ch_Value change = "false").

Section settings.
Context `{RangeOrder} (setup : fakeSetup) (Hok : healthy setup).
Implicit Types (s : fakeMemgraph).
Local Abbreviation serves := (serves setup).
Local Abbreviation served := (served setup).

(** Every instance but that of [address] keeps its settings. *)
Definition moved (address : string) (settings : gmap string string) s s' : Prop :=
  ∀ a, settingsOf a s' = if decide (a = address) then settings else settingsOf a s.

Lemma moved_refl address s : moved address (settingsOf address s) s s.
Proof. intros a. case_decide; by subst. Qed.

Lemma moved_trans address settings1 settings2 s s1 s2 :
  moved address settings1 s s1 → moved address settings2 s1 s2 → moved address settings2 s s2.
Proof. intros H1 H2 a. rewrite H2. case_decide as E; [done|]. by rewrite H1, decide_False. Qed.

Lemma moved_same address s s' : fm_settings s' = fm_settings s → moved address (settingsOf address s) s s'.
Proof. intros E a. unfold settingsOf. rewrite E. case_decide; by subst. Qed.

Lemma serves_showSettings c address x s s' :
  fm_clients s !! c = Some (mkFakeSession address false) → serves (Event (EShowSettings c) x) s s' →
  x = inl (settingsOf address s) ∧ moved address (settingsOf address s) s s'.
Proof.
  intros Hc [-> Hx]. cbn [fakeAnswer] in *. unfold onSession in *. rewrite Hc in *. cbn in Hx |- *. rewrite (Hx _ eq_refl).
  split; [done|]. intros a. unfold settingsOf. cbn. case_decide as E; [subst; by rewrite lookup_insert_eq|].
  by rewrite lookup_insert_ne by congruence.
Qed.

Lemma serves_setSetting c address change x s s' :
  fm_clients s !! c = Some (mkFakeSession address false) → acceptable (settingsOf address s) change →
  serves (Event (ESetSetting c (ch_Setting change) (ch_Value change)) x) s s' →
  x = None ∧ fm_clients s' = fm_clients s ∧ moved address (<[ch_Setting change := ch_Value change]> (settingsOf address s)) s s'.
Proof.
  intros Hc [[old Hold] Hbool] [-> Hx]. cbn [fakeAnswer] in *. unfold onSession in *. rewrite Hc in *.
  unfold setSetting, executeOn in *. cbn [fc_closed fc_address] in *. rewrite rejectedBy_none in * by done.
  unfold settingsLocked in *. fold (settingsOf address s) in *.
  rewrite decide_False in Hx by (by rewrite Hold). rewrite decide_False in Hx by (intros (E & ? & ?); by destruct (Hbool E)).
  rewrite decide_False by (by rewrite Hold). rewrite decide_False by (intros (E & ? & ?); by destruct (Hbool E)).
  cbn in Hx |- *. rewrite (Hx _ eq_refl). split; [done|]. split; [done|].
  intros a. unfold settingsOf. cbn. case_decide as E; [subst; by rewrite lookup_insert_eq|].
  by rewrite !lookup_insert_ne by congruence.
Qed.

Lemma acceptable_insert observed change k v : acceptable observed change → acceptable (<[k := v]> observed) change.
Proof.
  intros [Hs Hb]. split; [|done]. destruct (decide (k = ch_Setting change)) as [->|]; [rewrite lookup_insert_eq; eauto|].
  by rewrite lookup_insert_ne.
Qed.

Lemma recordRan_served action pod ran t u s s' :
  returns (recordRan action pod ran) t u → served t s s' → s' = s.
Proof. unfold recordRan. destruct ran; [by intros [-> _] ->|]. by intros (x & t' & -> & [-> _]) (s1 & [-> _] & ->). Qed.

(** Every SET lands. *)
Lemma set_loop_served action describe c address pod changes observed applied ran t observed' applied' err s s' :
  fm_clients s !! c = Some (mkFakeSession address false) → Forall (acceptable (settingsOf address s)) changes →
  returns (set_loop action describe c pod changes observed applied ran) t (observed', applied', err) → served t s s' →
  err = None ∧ applied' = applied ++ changes ∧ observed' = issue observed changes ∧
  moved address (issue (settingsOf address s) changes) s s'.
Proof.
  revert observed applied ran t s. induction changes as [|change changes IH]; intros observed applied ran t s Hc Hall Hrun Ht;
    cbn [set_loop] in Hrun.
  - apply returns_bind in Hrun as (t1 & u & t2 & -> & Hr & [-> [= -> -> ->]]). rewrite app_nil_r in Ht.
    rewrite (recordRan_served _ _ _ _ _ _ _ Hr Ht), app_nil_r. do 3 (split; [done|]). apply moved_refl.
  - apply returns_trigger in Hrun as (x & t' & -> & Hrun). destruct Ht as (s1 & Hset & Ht). cbn [mbind prog_bind] in Hrun.
    apply Forall_cons in Hall as [Hch Hall]. apply (serves_setSetting c address) in Hset as (-> & Hc1 & Hm); [|done..].
    pose proof (Hm address) as Ha. rewrite decide_True in Ha by done.
    rewrite <- Hc1 in Hc. assert (Forall (acceptable (settingsOf address s1)) changes) as Hall1.
    { rewrite Ha. eapply Forall_impl; [exact Hall|]. intros. by apply acceptable_insert. }
    destruct (IH _ _ _ _ s1 Hc Hall1 Hrun Ht) as (-> & -> & -> & Hm').
    split; [done|]. split; [by rewrite <- app_assoc|]. split; [done|]. rewrite Ha in Hm'. by eapply moved_trans.
Qed.

(** The reads of a pass so far are what the instances hold. *)
Definition tracks (all : list Endpoint) (reads : podSettings) s : Prop :=
  ∀ e r, e ∈ all → reads !! ep_Pod e = Some r → r = inl (settingsOf (ep_Address e) s).

Lemma observedSettings_served reads endpoint t reads' view s s' :
  tracks [endpoint] reads s → returns (observedSettings reads endpoint) t (reads', view) → served t s s' →
  view = inl (settingsOf (ep_Address endpoint) s) ∧ reads' !! ep_Pod endpoint = Some view ∧
  (∀ pod, pod ≠ ep_Pod endpoint → reads' !! pod = reads !! pod) ∧
  moved (ep_Address endpoint) (settingsOf (ep_Address endpoint) s) s s' ∧ accepted t = [].
Proof.
  intros Htr Hrun Ht. unfold observedSettings in Hrun. destruct (reads !! ep_Pod endpoint) as [r|] eqn:E.
  - destruct Hrun as [-> [= -> ->]]. cbn in Ht. subst s'. rewrite (Htr endpoint r) in E |- * by (done || left).
    split; [done|]. split; [done|]. split; [done|]. split; [apply moved_refl|done].
  - apply returns_bind in Hrun as (t1 & r & t2 & -> & Hread & [-> [= -> ->]]). rewrite app_nil_r in Ht |- *.
    unfold readInstance in Hread. apply returns_trigger in Hread as (c & t3 & -> & Hread). destruct Ht as (s1 & Hconn & Ht).
    apply serves_connect in Hconn as (-> & Hc & _ & E1); [|done]. cbn [mbind prog_bind] in Hread.
    apply returns_bind in Hread as (t4 & view & t5 & -> & Hshow & Hread). apply returns_trigger in Hshow as (x & t6 & -> & [-> ->]).
    destruct Ht as (s2 & Hshow & Ht). eapply serves_showSettings in Hshow as [Ex Hm]; [|exact Hc]. subst x.
    apply returns_trigger in Hread as (closed & t7 & -> & [-> ->]). destruct Ht as (s3 & [-> _] & ->).
    assert (∀ a, settingsOf a s1 = settingsOf a s) as Es by (intros; unfold settingsOf; by rewrite E1).
    rewrite Es in Hm |- *. split; [done|]. split; [by rewrite lookup_insert_eq|].
    split; [intros pod Hne; by rewrite lookup_insert_ne|]. split; [|done].
    intros a. rewrite <- (Es a). exact (Hm a).
Qed.

Lemma applySettings_served action describe reads endpoint plan t reads' applied err s s' :
  tracks [endpoint] reads s → Forall (acceptable (settingsOf (ep_Address endpoint) s)) (plan (settingsOf (ep_Address endpoint) s)) →
  returns (applySettings action describe reads endpoint plan) t (reads', applied, err) → served t s s' →
  let before := settingsOf (ep_Address endpoint) s in
  err = None ∧ moved (ep_Address endpoint) (issue before (plan before)) s s' ∧
  reads' !! ep_Pod endpoint = Some (inl (issue before (plan before))) ∧
  (∀ pod, pod ≠ ep_Pod endpoint → reads' !! pod = reads !! pod) ∧ accepted t = plan before.
Proof.
  intros Htr Hall Hrun Ht before. pose proof (applySettings_spec _ _ _ _ _ _ _ _ _ Hrun) as (_ & _ & Hacc & _).
  unfold applySettings in Hrun. apply returns_bind in Hrun as (t1 & [reads1 view] & t2 & -> & Hread & Hrun).
  apply served_app in Ht as (s1 & Ht1 & Ht2).
  destruct (observedSettings_served _ _ _ _ _ _ _ Htr Hread Ht1) as (-> & Hpod & Hother & Hm & _). fold before in Hpod, Hm, Hrun, Hall.
  destruct (plan before) as [|change changes] eqn:Eplan.
  { destruct Hrun as [-> [= -> -> ->]]. cbn in Ht2. subst s1. do 4 (split; [done|]). by rewrite Hacc. }
  rewrite <- Eplan in *. assert (plan before ≠ []) as Hne by (by rewrite Eplan).
  assert (returns (r ← trigger (EConnect (ep_Address endpoint) (ep_TLS endpoint));
      match r with
      | inr err => mret (reads1, [], Some err)
      | inl c =>
          '(observed, applied, err) ← set_loop action describe c (ep_Pod endpoint) (plan before) before [] [];
          _ ← trigger (EClose c);
          mret (<[ep_Pod endpoint := inl observed]> reads1, applied, err)
      end) t2 (reads', applied, err)) as Hset by (by rewrite Eplan in Hrun |- * ).
  clear Hrun Eplan Hne. apply returns_trigger in Hset as (c & t3 & -> & Hset). destruct Ht2 as (s2 & Hconn & Ht2).
  apply serves_connect in Hconn as (-> & Hc & _ & E1); [|done]. cbn [mbind prog_bind] in Hset.
  apply returns_bind in Hset as (t4 & [[observed' applied'] err'] & t5 & -> & Hloop & Hset). apply served_app in Ht2 as (s3 & Ht2 & Ht3).
  apply returns_trigger in Hset as (closed & t6 & -> & [-> [= -> -> ->]]). destruct Ht3 as (s4 & [-> _] & ->).
  pose proof (moved_trans _ _ _ _ _ _ Hm (moved_same (ep_Address endpoint) _ _ E1)) as Hm2.
  pose proof (Hm2 (ep_Address endpoint)) as Ha. rewrite decide_True in Ha by done.
  assert (settingsOf (ep_Address endpoint) s1 = before) as Eb.
  { specialize (Hm (ep_Address endpoint)). by rewrite decide_True in Hm. }
  assert (settingsOf (ep_Address endpoint) s2 = before) as Eb2 by (by rewrite Ha).
  assert (Forall (acceptable (settingsOf (ep_Address endpoint) s2)) (plan before)) as Hall2 by (by rewrite Eb2).
  destruct (set_loop_served _ _ _ _ _ _ _ _ _ _ _ _ _ s2 s3 Hc Hall2 Hloop Ht2) as (-> & -> & -> & Hm3).
  rewrite Eb2 in Hm3. split; [done|]. split; [|split; [by rewrite lookup_insert_eq|split; [|exact Hacc]]].
  - intros a. change (settingsOf a (fakeAnswer _ _ s3).1) with (settingsOf a s3). exact (moved_trans _ _ _ _ _ _ Hm2 Hm3 a).
  - intros pod Hne. rewrite lookup_insert_ne by done. by apply Hother.
Qed.

(** The pods the loop acts on. *)
Definition chosen (ready : gmap string bool) (endpoints : list Endpoint) (e : Endpoint) : bool :=
  (ready !!? (ep_Pod e) | false) && bool_decide (ep_Pod e ∈ ep_Pod <$> endpoints).

(** A loop over the pods of a role, among all the pods of the cluster, whose addresses differ. *)
Lemma apply_to_pods_lands action describe (all : list Endpoint) plan ready endpoints reads rejected pending t reads' rejected' pending' s s' :
  (∀ e e', e ∈ all → e' ∈ all → (ep_Pod e = ep_Pod e' ↔ ep_Address e = ep_Address e')) →
  endpoints ⊆ all → NoDup (ep_Pod <$> endpoints) → tracks all reads s →
  (∀ e, e ∈ endpoints → (ready !!? (ep_Pod e) | false) = true →
     Forall (acceptable (settingsOf (ep_Address e) s)) (plan (settingsOf (ep_Address e) s))) →
  returns (apply_to_pods action describe plan ready endpoints reads rejected pending) t (reads', rejected', pending') → served t s s' →
  rejected' = rejected ∧ pending' = pending ∧ tracks all reads' s' ∧
  (∀ e, e ∈ all → let before := settingsOf (ep_Address e) s in
     settingsOf (ep_Address e) s' = if chosen ready endpoints e then issue before (plan before) else before) ∧
  accepted t = endpoints ≫= λ e, if (ready !!? (ep_Pod e) | false) then plan (settingsOf (ep_Address e) s) else [].
Proof.
  intros Hinj. revert reads t s. induction endpoints as [|endpoint endpoints IH]; intros reads t s Hsub Hnd Htr Hacc Hrun Ht; cbn [apply_to_pods] in Hrun.
  { destruct Hrun as [-> [= -> -> ->]]. cbn in Ht. subst s'. do 3 (split; [done|]). split; [|done].
    intros e _. unfold chosen. by rewrite andb_comm. }
  rewrite fmap_cons in Hnd. apply NoDup_cons in Hnd as [Hfresh Hnd].
  assert (endpoint ∈ all) as Hin by (apply Hsub; left).
  assert (∀ e, chosen ready (endpoint :: endpoints) e = chosen ready endpoints e || ((ready !!? (ep_Pod e) | false) && bool_decide (ep_Pod e = ep_Pod endpoint))) as Hchosen.
  { intros e. unfold chosen. rewrite <- andb_orb_distrib_r. f_equal. rewrite fmap_cons. rewrite <- bool_decide_or.
    apply bool_decide_ext. rewrite elem_of_cons. tauto. }
  rewrite bind_cons. destruct (ready !!? (ep_Pod endpoint) | false) eqn:Er; cbn [negb] in Hrun.
  2: { destruct (IH reads t s) as (? & ? & ? & Hset & Ha); [by intros x ?; apply Hsub; right|done|done|intros; apply Hacc; [by right|done]|done..|].
       do 3 (split; [done|]). split; [|done]. intros e He. rewrite Hset by done. rewrite Hchosen.
       destruct (decide (ep_Pod e = ep_Pod endpoint)) as [E|E]; [rewrite E, Er|rewrite (bool_decide_eq_false_2 (ep_Pod e = _)) by done]; by rewrite ?andb_false_r, ?orb_false_r. }
  apply returns_bind in Hrun as (t1 & [[reads1 applied] err] & t2 & -> & H1 & Hrun). apply served_app in Ht as (s1 & Ht1 & Ht2).
  assert (tracks [endpoint] reads s) as Htr1 by (intros e r ->%list_elem_of_singleton; by apply Htr).
  destruct (applySettings_served _ _ _ _ _ _ _ _ _ _ _ Htr1 (Hacc endpoint ltac:(left) Er) H1 Ht1) as (-> & Hm & Hpod & Hother & Ha).
  assert (∀ e, e ∈ all → settingsOf (ep_Address e) s1 =
    if decide (ep_Pod e = ep_Pod endpoint)
    then issue (settingsOf (ep_Address e) s) (plan (settingsOf (ep_Address e) s)) else settingsOf (ep_Address e) s) as Hs1.
  { intros e He. rewrite (Hm (ep_Address e)). pose proof (Hinj e endpoint He Hin) as Hiff.
    destruct (decide (ep_Pod e = ep_Pod endpoint)) as [E|E]; [|by rewrite decide_False by (by rewrite <- Hiff)].
    apply Hiff in E. by rewrite E, decide_True. }
  destruct (IH reads1 t2 s1) as (-> & -> & Htr' & Hset & Hrest); [by intros x ?; apply Hsub; right|done| | |done..|].
  { intros e r He Hr. destruct (decide (ep_Pod e = ep_Pod endpoint)) as [E|E].
    - rewrite Hs1, decide_True by done. rewrite E, Hpod in Hr. apply (Hinj e endpoint) in E; [|done..]. rewrite E. by simplify_eq.
    - rewrite Hs1, decide_False by done. rewrite Hother in Hr by done. by apply Htr. }
  { intros e He Hr. rewrite Hs1 by (apply Hsub; by right). rewrite decide_False; [apply Hacc; [by right|done]|].
    intros E. apply Hfresh. rewrite <- E. by apply list_elem_of_fmap_2. }
  do 3 (split; [done|]). split.
  - intros e He before. rewrite Hset, Hchosen, Hs1 by done. case_decide as E.
    + unfold chosen at 1. rewrite E, Er. rewrite bool_decide_eq_false_2 by done. rewrite bool_decide_eq_true_2 by done.
      by rewrite orb_true_r.
    + rewrite (bool_decide_eq_false_2 (ep_Pod e = _)) by done. by rewrite andb_false_r, orb_false_r.
  - rewrite accepted_app, Ha, Hrest. f_equal. apply bind_ext_in. intros e He.
    rewrite Hs1 by (apply Hsub; by right). rewrite decide_False; [done|]. intros E. apply Hfresh. rewrite <- E. by apply list_elem_of_fmap_2.
Qed.
End settings.

(** The address of an endpoint is its pod's, in the service of its role. *)
Lemma endpoints_address `{Kube} {L} (cluster : MemgraphDBCluster L) sts running name e :
  e ∈ endpoints cluster sts running name → free_of "." sts = true →
  ∃ o, (0 ≤ o)%Z ∧ ep_Pod e = PodName sts o ∧ free_of "." (ep_Pod e) = true ∧
    ep_Address e = ep_Pod e ^^ String "." (hostPort (podFQDNSuffix (m_Namespace (Meta cluster)) sts
      (n_clusterDomain (normalize (Spec cluster)))) BoltPort).
Proof.
  intros (o & -> & [Ho _]%elem_of_seqZ)%list_elem_of_fmap Hs. exists o. cbn [ep_Pod ep_Address]. split; [done|]. split; [done|]. split.
  - unfold PodName, free_of in *. rewrite !all_chars_app, Hs. exact (Itoa_free "." o Ho eq_refl).
  - unfold hostPort, podFQDN, PodName. rewrite !app_assoc_s. done.
Qed.

Section roles.
Context `{RangeOrder} `{Kube} {L : Type} (cluster : MemgraphDBCluster L) (appliedCoordinators appliedData : Z).
Context (Hname : free_of "." (m_Name (Meta cluster)) = true).
Definition pods : list Endpoint := DataEndpoints cluster appliedData ++ CoordinatorEndpoints cluster appliedCoordinators.

Lemma pods_addresses e e' : e ∈ pods → e' ∈ pods → (ep_Pod e = ep_Pod e' ↔ ep_Address e = ep_Address e').
Proof.
  assert (∀ e, e ∈ pods → ∃ sts o, (sts = DataName (m_Name (Meta cluster)) ∨ sts = CoordinatorName (m_Name (Meta cluster))) ∧
    ep_Pod e = PodName sts o ∧ free_of "." (ep_Pod e) = true ∧
    ep_Address e = ep_Pod e ^^ String "." (hostPort (podFQDNSuffix (m_Namespace (Meta cluster)) sts
      (n_clusterDomain (normalize (Spec cluster)))) BoltPort)) as Hpod.
  { assert (∀ suffix, all_chars (λ c, negb (bool_decide (c = "."%char))) suffix = true → free_of "." (m_Name (Meta cluster) ^^ suffix) = true) as Hfree
      by (intros suffix Hs; unfold free_of in *; by rewrite all_chars_app, Hname).
    intros e0 [He|He]%elem_of_app; apply endpoints_address in He as (o & _ & Hp & Hf & Ha); try (by apply Hfree);
      eexists _, o; (split; [|split; [exact Hp|split; [done|exact Ha]]]); [by left|by right]. }
  intros (sts & o & Hsts & Ep & Hf & ->)%Hpod (sts' & o' & Hsts' & Ep' & Hf' & ->)%Hpod. split.
  - intros E. rewrite E. assert (sts = sts') as ->; [|done]. rewrite Ep, Ep' in E.
    destruct Hsts as [->| ->], Hsts' as [->| ->]; [done| | |done]; [symmetry in E|]; by apply PodName_roles in E.
  - intros E. pose proof (f_equal (λ s, Cut s ".") E) as Ec. cbn beta in Ec. rewrite !Cut_app in Ec by (by apply Is_true_true). by simplify_eq.
Qed.
End roles.

(** The flags a ready pod is to run. *)
Definition asked `{RangeOrder} `{Kube} {L} (cluster : MemgraphDBCluster L) appliedCoordinators appliedData (data coordinators : Role)
    (e : Endpoint) (flags : gmap string string) : Prop :=
  (e ∈ DataEndpoints cluster appliedData ∧ readyPods data !! ep_Pod e = Some true ∧ flags = DataFlags (Spec cluster)) ∨
  (e ∈ CoordinatorEndpoints cluster appliedCoordinators ∧ readyPods coordinators !! ep_Pod e = Some true ∧
   flags = CoordinatorFlags (Spec cluster)).

(** Every setting a pod is asked for is one its instance knows, with a boolean where it asks for one. *)
Definition known `{RangeOrder} `{Kube} {L} (cluster : MemgraphDBCluster L) appliedCoordinators appliedData data coordinators s : Prop :=
  ∀ e flags setting value, asked cluster appliedCoordinators appliedData data coordinators e flags →
    desired_settings flags !! setting = Some value → acceptable (settingsOf (ep_Address e) s) (mkChange setting value).

Section reconcile.
Context `{RangeOrder} `{Kube} {L : Type} (setup : fakeSetup) (cluster : MemgraphDBCluster L)
  (appliedCoordinators appliedData : Z) (data coordinators : Role).
Context (Hok : healthy setup) (Hname : free_of "." (m_Name (Meta cluster)) = true).
Local Abbreviation all := (pods cluster appliedCoordinators appliedData).
Local Abbreviation asked := (asked cluster appliedCoordinators appliedData data coordinators).

Lemma ready_true (ready : gmap string bool) pod : (ready !!? pod | false) = true ↔ ready !! pod = Some true.
Proof. destruct (ready !! pod) as [[]|]; done. Qed.

Lemma issue_union desired observed : issue observed (Diff desired observed) = desired ∪ observed.
Proof. apply map_eq. intros k. rewrite issue_Diff, lookup_union. by destruct (desired !! k), (observed !! k). Qed.

(** The pods of one role are not chosen when the loop is over the other's. *)
Lemma chosen_in ready endpoints e : e ∈ endpoints → ready !! ep_Pod e = Some true → chosen ready endpoints e = true.
Proof. intros He Hr. unfold chosen. rewrite Hr, bool_decide_eq_true_2; [done|by apply list_elem_of_fmap_2]. Qed.
Lemma chosen_apart ready endpoints e : (∀ e', e' ∈ endpoints → ep_Pod e ≠ ep_Pod e') → chosen ready endpoints e = false.
Proof.
  intros Hne. unfold chosen. rewrite bool_decide_eq_false_2; [by rewrite andb_false_r|].
  intros (e' & E & He')%list_elem_of_fmap. by apply (Hne e').
Qed.

(** What a run of [reconcileSettings] makes of the instances. *)
Lemma reconcileSettings_served reads t reads' outcome s s' :
  tracks all reads s → known cluster appliedCoordinators appliedData data coordinators s →
  returns (reconcileSettings cluster appliedCoordinators appliedData data coordinators reads) t (reads', outcome) → served setup t s s' →
  so_pending outcome = [] ∧ so_rejected outcome = [] ∧
  (∀ e flags, asked e flags → settingsOf (ep_Address e) s' = desired_settings flags ∪ settingsOf (ep_Address e) s) ∧
  ∀ change, change ∈ accepted t → ∃ e flags, asked e flags ∧ change ∈ Settings.Plan flags (settingsOf (ep_Address e) s).
Proof.
  intros Htr Hkn Hrun Ht. apply returns_bind in Hrun as (t1 & [[reads1 rejected] pending] & t2 & -> & Hd & Hrun).
  apply returns_bind in Hrun as (t3 & [[reads2 rejected2] pending2] & t4 & -> & Hc & [-> [= -> ->]]). cbn [so_pending so_rejected].
  rewrite app_nil_r in Ht |- *. apply served_app in Ht as (s1 & Ht1 & Ht2).
  assert (∀ flags e, (e ∈ DataEndpoints cluster appliedData ∧ readyPods data !! ep_Pod e = Some true ∧ flags = DataFlags (Spec cluster)) ∨
    (e ∈ CoordinatorEndpoints cluster appliedCoordinators ∧ readyPods coordinators !! ep_Pod e = Some true ∧ flags = CoordinatorFlags (Spec cluster)) →
    Forall (acceptable (settingsOf (ep_Address e) s)) (Settings.Plan flags (settingsOf (ep_Address e) s))) as Hacc.
  { intros flags e He. apply Forall_forall. intros [setting value] [Hd' _]%elem_of_Diff. by eapply Hkn. }
  pose proof (pods_addresses cluster appliedCoordinators appliedData Hname) as Hinj.
  assert (∀ e, e ∈ CoordinatorEndpoints cluster appliedCoordinators → chosen (readyPods data) (DataEndpoints cluster appliedData) e = false) as Hco
    by (intros e He; apply chosen_apart; intros e' He' E; by eapply roles_apart).
  assert (∀ e, e ∈ DataEndpoints cluster appliedData → chosen (readyPods coordinators) (CoordinatorEndpoints cluster appliedCoordinators) e = false) as Hda
    by (intros e He; apply chosen_apart; intros e' He' E; by eapply roles_apart).
  eapply (apply_to_pods_lands setup Hok _ _ all) in Hd as (-> & -> & Htr1 & Hs1 & Ha1);
    [|exact Hinj|by intros e ?; apply elem_of_app; left|apply endpoints_NoDup|done| |exact Ht1].
  2: { intros e He Hr%ready_true. apply Hacc. by left. }
  eapply (apply_to_pods_lands setup Hok _ _ all) in Hc as (-> & -> & _ & Hs2 & Ha2);
    [|exact Hinj|by intros e ?; apply elem_of_app; right|apply endpoints_NoDup|done| |exact Ht2].
  2: { intros e He Hr%ready_true. rewrite Hs1 by (apply elem_of_app; by right). rewrite Hco by done. apply Hacc. by right. }
  split; [done|]. split; [done|]. split.
  - intros e flags [(He & Hr & ->)|(He & Hr & ->)]; (rewrite Hs2 by (apply elem_of_app; auto)); (rewrite Hs1 by (apply elem_of_app; auto)).
    + rewrite Hda, chosen_in by done. apply issue_union.
    + rewrite Hco, chosen_in by done. apply issue_union.
  - intros change. rewrite accepted_app, Ha1, Ha2. intros [(e & Hch & He)%list_elem_of_bind|(e & Hch & He)%list_elem_of_bind]%elem_of_app;
      destruct (_ !!? (ep_Pod e) | false) eqn:Er; try by apply elem_of_nil in Hch.
    + apply ready_true in Er. exists e, (DataFlags (Spec cluster)). split; [by left|done].
    + apply ready_true in Er. exists e, (CoordinatorFlags (Spec cluster)). split; [by right|].
      rewrite Hs1, Hco in Hch by (done || (apply elem_of_app; by right)). done.
Qed.
End reconcile.

(** ** Properties *)

(** C1: against the fake Memgraph of the controller's own tests, registration converges pass
    by pass. When it leads a cluster of the operator's members, every pod is ready and no
    retiring MAIN waits for a survivor, then of three registration passes no command is ever
    refused, and by the third there is none left to issue: its view holds every declared
    member at its address and a MAIN that stays, and shows every retiring member gone, so
    that the pass goes on to shed their pods, or to the rollout. *)
Theorem registration_passes_converge `{RangeOrder} `{Kube} `{QuantityOrder Quantity} {L} `{ConditionsAPI L} setup
    (cluster : MemgraphDBCluster L) reconciler external coordinators data self t1 t2 t3 s0 s1 s2 s3 :
  let topology := passTopology cluster external coordinators data in
  let pass := passed setup cluster reconciler external coordinators data in
  healthy setup → free_of "." (m_Name (Meta cluster)) = true →
  (1 ≤ DeclaredCoordinators cluster ≤ coordinators)%Z → (0 ≤ DeclaredDataInstances cluster)%Z → (coordinators ≤ 2 ^ 31)%Z →
  seated setup (CoordinatorEndpoints cluster coordinators) self s0 →
  (∀ address observed, selfName address = inl self → ShowInstances (seat setup address s0) = inl observed →
     nothing_waits topology observed (lagOf setup (fm_instances s0))) →
  pass t1 s0 s1 → pass t2 s1 s2 → pass t3 s2 s3 →
  unrefused (t1 ++ t2 ++ t3) ∧ (∀ command, MCommand command ∉ mutations t3) ∧
  Retired topology (fm_instances s3) = true ∧ settled topology (fm_instances s3) (lagOf setup (fm_instances s3)).
Proof.
  intros topology pass Hok Hname Hco Hda Hint Hs0 Hwait Ht1 Ht2 Ht3.
  destruct (topology_facts cluster external coordinators data Hco Hda) as (Hwf & Hapart & Hne).
  pose proof (settle_pass setup cluster reconciler external coordinators data Hok Hname Hco Hint) as Hpass.
  pose proof (seated_next setup cluster external coordinators data Hok Hco Hda) as Hnext.
  destruct (Hpass self t1 s0 s1 Hs0 Ht1) as (leader & observed & Hi & Hc & Hv & _ & Hrun).
  destruct (passes_settle _ self leader observed (lagOf setup (fm_instances s0)) Hwf Hapart Hne Hc Hv)
    as (client & self1 & Hplan & Hstaffed & Hself1 & Hret & Hlater).
  { apply (Hwait (f_address leader)); [apply Hc|]. rewrite <- Hv. unfold ShowInstances. cbn. by rewrite Hi. }
  destruct (Hrun _ Hplan) as [Hi1 Hun1].
  destruct (Hnext self self1 s0 leader client _ observed _ Hs0 eq_refl Hplan Hi Hstaffed Hself1 Hret s1 Hi1) as [Hs1 _].
  destruct (Hpass self1 t2 s1 s2 Hs1 Ht2) as (leader1 & observed1 & Hi1' & Hc1 & Hv1 & _ & Hrun1).
  destruct (Hlater leader1 observed1 (lagOf setup (fm_instances s1))) as (client1 & Hplan1 & Hstaffed1 & Hend); [congruence|done..|].
  destruct (Hrun1 _ Hplan1) as [Hi2 Hun2].
  destruct (Hnext self1 self1 s1 leader1 client1 _ observed1 _ Hs1 eq_refl Hplan1 Hi1' Hstaffed1 (or_introl eq_refl) Hret s2 Hi2)
    as [Hs2 Hmember].
  destruct (Hpass self1 t3 s2 s3 Hs2 Ht3) as (leader2 & observed2 & Hi2' & Hc2 & Hv2 & Hidle & Hrun2).
  destruct (Hend leader2 observed2) as [Hretired Hnil]; [congruence|done..|]. rewrite Hnil in Hidle, Hrun2.
  destruct (Hrun2 leader2 eq_refl) as [Hi3 Hun3].
  assert (fm_instances s3 = observed2) as ->.
  { rewrite (view_eq _ _ _ Hc2 Hv2), Hi2', (proj2 (hasInstance_in _ self1) Hmember). congruence. }
  split; [by rewrite !unrefused_app|]. split; [by apply Hidle|]. split; [done|].
  apply Plan_nil_settled_1; [done|by eapply view_single|apply Hnil].
Qed.

(** C8: one pass brings every ready pod in line: against the fake Memgraph of the controller's
    own tests, where an instance knows the settings it is asked for, [reconcileSettings] ends
    with nothing pending and nothing rejected, the instance of every ready pod then holds
    exactly its role's run-time flags over the settings it held, and the next pass SETs
    nothing. *)
Theorem reconcileSettings_converges `{RangeOrder} `{Kube} {L} setup (cluster : MemgraphDBCluster L)
    appliedCoordinators appliedData data coordinators reads t reads' outcome s s' :
  healthy setup → free_of "." (m_Name (Meta cluster)) = true →
  tracks (pods cluster appliedCoordinators appliedData) reads s →
  known cluster appliedCoordinators appliedData data coordinators s →
  returns (reconcileSettings cluster appliedCoordinators appliedData data coordinators reads) t (reads', outcome) →
  served setup t s s' →
  so_pending outcome = [] ∧ so_rejected outcome = [] ∧
  (∀ e flags, asked cluster appliedCoordinators appliedData data coordinators e flags →
     settingsOf (ep_Address e) s' = desired_settings flags ∪ settingsOf (ep_Address e) s) ∧
  ∀ t2 reads2 outcome2 s2,
    returns (reconcileSettings cluster appliedCoordinators appliedData data coordinators ∅) t2 (reads2, outcome2) →
    served setup t2 s' s2 → accepted t2 = [].
Proof.
  intros Hok Hname Htr Hkn Hrun Ht.
  destruct (reconcileSettings_served _ _ _ _ _ _ Hok Hname _ _ _ _ _ _ Htr Hkn Hrun Ht) as (Hp & Hr & Hset & _).
  do 3 (split; [done|]). intros t2 reads2 outcome2 s2 Hrun2 Ht2.
  assert (tracks (pods cluster appliedCoordinators appliedData) ∅ s') as Htr2
    by (intros e r _ Hread; by rewrite lookup_empty in Hread).
  assert (known cluster appliedCoordinators appliedData data coordinators s') as Hkn2.
  { intros e flags setting value He Hd. split; [|by apply (Hkn e flags setting value He Hd)].
    rewrite (Hset e flags He). cbn [ch_Setting]. rewrite lookup_union, Hd. by destruct (settingsOf (ep_Address e) s !! setting); eexists. }
  destruct (reconcileSettings_served _ _ _ _ _ _ Hok Hname _ _ _ _ _ _ Htr2 Hkn2 Hrun2 Ht2) as (_ & _ & _ & Hacc).
  destruct (accepted t2) as [|change changes]; [done|]. exfalso.
  destruct (Hacc change) as (e & flags & He & [Hd Hne]%elem_of_Diff); [left|]. apply Hne.
  rewrite (Hset e flags He), lookup_union, Hd. by destruct (settingsOf (ep_Address e) s !! ch_Setting change).
Qed.

(** ** Witnesses: a shrink that retires the Raft leader and the MAIN *)

(** An environment: the fake's answer, or another for what is not Memgraph's. *)
Definition fakeHandle `{RangeOrder} (setup : fakeSetup) (other : ∀ X, eff X → X) (X : Type) (e : eff X) (s : fakeMemgraph)
    : fakeMemgraph * X :=
  let '(s', answer) := fakeAnswer setup e s in (s', default (other X e) answer).

Lemma run_served `{RangeOrder} setup other {A} (p : prog eff A) s :
  served setup (Effects.run (fakeHandle setup other) p s).1.2 s (Effects.run (fakeHandle setup other) p s).1.1.
Proof.
  revert s. induction p as [a|X e k IH]; intros s; cbn [Effects.run]; [done|].
  assert (serves setup (Event e (fakeHandle setup other X e s).2) s (fakeHandle setup other X e s).1) as He.
  { unfold fakeHandle. cbn [serves]. destruct (fakeAnswer setup e s) as [s1 answer]. cbn. split; [done|]. by intros y ->. }
  destruct (fakeHandle setup other X e s) as [s1 x]. specialize (IH x s1).
  destruct (Effects.run _ (k x) s1) as [[s2 t] a]. by exists s1.
Qed.

Import Workloads.Example.
#[local] Existing Instance Api.Example.kube_text.

Module Example.
Definition cluster : MemgraphDBCluster (gmap string Condition) := Api.Example.cluster (Some 1%Z) (Some 1%Z).
Definition setup : fakeSetup := mkFakeSetup ∅ ∅ None ∅ false false ∅ ∅.
Definition topology : Topology := passTopology cluster (mkExternalAddresses "" ∅) 2 2.

(** Two members of each role, the second of each in charge and about to be retired. *)
Definition start : fakeMemgraph :=
  with_instances
    (((λ '(c, role), mkInstance (c_Name c) (c_BoltServer c) "" "" "up" role) <$>
        zip (Coordinators topology ++ t_RetiringCoordinators topology) ["follower"; "leader"]) ++
     ((λ '(i, role), mkInstance (d_Name i) (d_BoltServer i) "" "" "up" role) <$>
        zip (DataInstances topology ++ t_RetiringDataInstances topology) ["replica"; "main"])) [] newFakeMemgraph.
Definition sts : KStatefulSet := mkKStatefulSet "u" 1 (Some 2%Z) ∅ 2 2 "r2" 1 false [].
Definition replicas : replicaCounts :=
  mkReplicaCounts (mkRoleReplicas "db-coordinator" 1 2 (Some sts)) (mkRoleReplicas "db-data" 1 2 (Some sts)) [].
Definition pass (s : fakeMemgraph) :=
  Effects.run (fakeHandle setup idle)
    (reconcileRegistration cluster Registration.Example.reconciler ∅ replicas Registration.Example.noExposure
       (Registration.Example.roles "r2") Registration.Example.claims Registration.Example.st) s.
Definition after1 : fakeMemgraph := (pass start).1.1.
Definition after2 : fakeMemgraph := (pass after1).1.1.
End Example.

Lemma example_passed s :
  passed Example.setup Example.cluster Registration.Example.reconciler (mkExternalAddresses "" ∅) 2 2 (Example.pass s).1.2 s
    (Example.pass s).1.1.
Proof.
  eexists ∅, Example.replicas, Registration.Example.noExposure, (Registration.Example.roles "r2"), Registration.Example.claims,
    Registration.Example.st, _, _.
  do 3 (split; [done|]). split; [vm_compute; reflexivity|]. split; [|apply run_served].
  pose proof (run_returns (fakeHandle Example.setup idle) (reconcileRegistration Example.cluster Registration.Example.reconciler ∅
    Example.replicas Registration.Example.noExposure (Registration.Example.roles "r2") Registration.Example.claims
    Registration.Example.st) s) as Hrun.
  fold (Example.pass s) in Hrun. rewrite (surjective_pairing (Example.pass s).2) in Hrun. exact Hrun.
Qed.

Lemma example_leads address :
  selfName address = inl "coordinator_1" → coherent "coordinator_1" (seat Example.setup address Example.start).
Proof.
  intros Ha. apply coherent_of_list; [exact Ha|intros; by apply rejectedBy_none| | |].
  - change (NoDup (i_Name <$> fm_instances Example.start)). by_decide.
  - change (f_instances _) with (fm_instances Example.start). by_decide.
  - change (f_instances _) with (fm_instances Example.start). apply (bool_decide_unpack _). vm_compute. exact I.
Qed.

Lemma registration_passes_converge_witness :
  mutations (Example.pass Example.after2).1.2 = [MApply "db-coordinator" 1; MApply "db-data" 1] ∧
  unrefused ((Example.pass Example.start).1.2 ++ (Example.pass Example.after1).1.2 ++ (Example.pass Example.after2).1.2) ∧
  Retired Example.topology (fm_instances (Example.pass Example.after2).1.1) = true.
Proof.
  split; [vm_compute; reflexivity|].
  destruct (registration_passes_converge Example.setup Example.cluster Registration.Example.reconciler (mkExternalAddresses "" ∅) 2 2
    "coordinator_1" (Example.pass Example.start).1.2 (Example.pass Example.after1).1.2 (Example.pass Example.after2).1.2
    Example.start Example.after1 Example.after2 (Example.pass Example.after2).1.1) as (Hun & _ & Hret & _).
  - by split.
  - vm_compute. reflexivity.
  - split; vm_compute; discriminate.
  - vm_compute. discriminate.
  - vm_compute. discriminate.
  - split.
    + intros address Ha. exact (example_leads address Ha).
    + by_decide.
    + intros e [= <-]. right. split; by_decide.
    + refine (proj1 (Forall_forall (λ i, HasPrefix (i_Name i) coordinatorNamePrefix = true → i_Name i ∈ _) _) _). by_decide.
  - intros address observed Ha Hv. rewrite (view_eq _ _ _ (example_leads address Ha) Hv).
    change (hasInstance _ _) with true. intros n [_ Hw].
    specialize (Hw (Topology.dataInstance Example.cluster (normalize (Spec Example.cluster)) 0 "")). vm_compute in Hw. discriminate Hw. left.
  - apply example_passed.
  - apply example_passed.
  - apply example_passed.
  - split; [exact Hun|exact Hret].
Defined.

(** The settings of the same cluster: one ready pod per role, whose instances log at another level. *)
Module SettingsExample.
Definition level (value : string) : gmap string string := <["log.level" := value]> baselineSettings.
Definition dataAddress : string := "db-data-0.db-data.default.svc.cluster.local:7687".
Definition coordinatorAddress : string := "db-coordinator-0.db-coordinator.default.svc.cluster.local:7687".
Definition start : fakeMemgraph :=
  with_settings {[ dataAddress := level "TRACE"; coordinatorAddress := level "DEBUG" ]} ∅ newFakeMemgraph.
Definition run :=
  Effects.run (fakeHandle Example.setup idle)
    (reconcileSettings SettingsPass.Example.cluster 1 1 SettingsPass.Example.data SettingsPass.Example.coordinators ∅) start.
End SettingsExample.

#[local] Instance acceptable_dec observed change : base.Decision (acceptable observed change).
Proof. unfold acceptable. apply _. Defined.

Lemma settings_example_known :
  known SettingsPass.Example.cluster 1 1 SettingsPass.Example.data SettingsPass.Example.coordinators SettingsExample.start.
Proof.
  assert (∀ flags endpoints,
    Forall (λ e, map_Forall (λ setting value, acceptable (settingsOf (ep_Address e) SettingsExample.start) (mkChange setting value))
      (desired_settings flags)) endpoints →
    ∀ e setting value, e ∈ endpoints → desired_settings flags !! setting = Some value →
      acceptable (settingsOf (ep_Address e) SettingsExample.start) (mkChange setting value)) as Hall.
  { intros flags es Hes e setting value He. rewrite Forall_forall in Hes. apply (Hes e He). }
  intros e flags setting value [(He & _ & ->)|(He & _ & ->)]; (eapply Hall; [|exact He]); by_decide.
Qed.

Lemma reconcileSettings_converges_witness :
  accepted SettingsExample.run.1.2 = [mkChange "log.level" "INFO"; mkChange "log.level" "INFO"] ∧
  settingsOf SettingsExample.dataAddress SettingsExample.run.1.1 =
    desired_settings (DataFlags (Spec SettingsPass.Example.cluster)) ∪ SettingsExample.level "TRACE".
Proof.
  split; [vm_compute; reflexivity|].
  destruct (reconcileSettings_converges Example.setup SettingsPass.Example.cluster 1 1 SettingsPass.Example.data
    SettingsPass.Example.coordinators ∅ SettingsExample.run.1.2 SettingsExample.run.2.1 SettingsExample.run.2.2 SettingsExample.start
    SettingsExample.run.1.1) as (_ & _ & Hset & _).
  - by split.
  - vm_compute. reflexivity.
  - exact (λ e r _ Hr, ltac:(by rewrite lookup_empty in Hr)).
  - exact settings_example_known.
  - pose proof (run_returns (fakeHandle Example.setup idle) (reconcileSettings SettingsPass.Example.cluster 1 1
      SettingsPass.Example.data SettingsPass.Example.coordinators ∅) SettingsExample.start) as Hrun.
    fold SettingsExample.run in Hrun. rewrite (surjective_pairing SettingsExample.run.2) in Hrun. exact Hrun.
  - apply run_served.
  - apply (Hset (mkEndpoint "instance_0" "db-data-0" SettingsExample.dataAddress false) (DataFlags (Spec SettingsPass.Example.cluster))).
    left. split; [|split; [by vm_compute|done]]. apply (bool_decide_unpack _). by vm_compute.
Defined.
