(* ===== verification/Reconcile.v ===== *)
(** * Package controller: a whole pass

    Reconcile and reconcileCluster: the stages of the other controller files in the order a
    pass runs them, each ending it early on an error, and the status written back when the
    pass changed it. *)

From S2P Require Import Prelude GoStrings GoErrors K8s Api Client Planner PlanRun Effects Settings Volumes Rollout.
From S2P Require Import Resources Topology Flags Vector Workloads Monitoring Expectations Status World Exposure Apply.
From S2P Require Import ExposurePass Events SystemUser SettingsPass Replicas VolumePass FlagClasses Connections Registration.

(** ** Definitions *)

(** What the pass takes from third-party packages and embedded files. *)
Record Primitives `{Kube} := mkPrimitives {
  pm_digest : string → string;
  pm_marshal : gmap string string → gmap string string * PodSpec → option string;
  pm_dashboard : string;
  pm_scrape : scrapeConfig → string;
  pm_vector : vectorConfig → string;
  pm_pbkdf2Key : string → string → Z → Z → string + error;
  pm_bcryptMatches : string → string → bool
}.
Arguments mkPrimitives {_}.

Section Reconcile.
Context `{RangeOrder} `{Kube} `{QuantityOrder Quantity} {L : Type} `{ConditionsAPI L}
  (primitives : Primitives) (reconciler : Reconciler) (cluster : MemgraphDBCluster L).

Definition coordinatorSet (replicas : replicaCounts) : StatefulSetSpec :=
  CoordinatorStatefulSet (pm_digest primitives) (pm_marshal primitives) cluster (rr_applied (rc_coordinators replicas)).
Definition dataSet (replicas : replicaCounts) : StatefulSetSpec :=
  DataStatefulSet (pm_digest primitives) (pm_marshal primitives) cluster (rr_applied (rc_data replicas)).

(** The roles whose claims a pass grows. *)
Definition claimedRoles (replicas : replicaCounts) : list claimedRole :=
  let name := m_Name (Meta cluster) in
  [mkClaimedRole (rc_coordinators replicas) (km_Name (sf_Meta (coordinatorSet replicas)))
     (claimTemplates (coordinatorSet replicas)) (CoordinatorPodSelector name);
   mkClaimedRole (rc_data replicas) (km_Name (sf_Meta (dataSet replicas)))
     (claimTemplates (dataSet replicas)) (DataPodSelector name)].

(** A StatefulSet as it is applied, with the claim templates that live. *)
Definition desiredSet (sts : StatefulSetSpec) (live : option KStatefulSet) : desired :=
  DStatefulSet (km_Name (sf_Meta sts)) (sf_Replicas sts) (KeepLiveSizes (claimTemplates sts) (ks_ClaimTemplates <$> live)).

Definition monitoringObjects (replicas : replicaCounts) : list desired :=
  desiredMonitoring cluster reconciler (pm_dashboard primitives) (pm_scrape primitives) (pm_vector primitives)
    (rr_applied (rc_coordinators replicas)) (rr_applied (rc_data replicas)).

(** Everything a pass applies, in order. *)
Definition desiredObjects (replicas : replicaCounts) : list desired :=
  [DObject "Service" (km_Name (sv_Meta (CoordinatorHeadlessService cluster)));
   DObject "Service" (km_Name (sv_Meta (DataHeadlessService cluster)));
   DObject "ConfigMap" (km_Name (cm_Meta (CoordinatorFlagsConfigMap cluster)));
   DObject "ConfigMap" (km_Name (cm_Meta (DataFlagsConfigMap cluster)));
   desiredSet (coordinatorSet replicas) (rr_statefulSet (rc_coordinators replicas));
   desiredSet (dataSet replicas) (rr_statefulSet (rc_data replicas))] ++
  desiredExternal cluster reconciler (rr_applied (rc_data replicas)) ++ monitoringObjects replicas.

(** From the exposure to the end of the pass, over what was applied. *)
Definition observeAndRegister (replicas : replicaCounts) (claims : volumeOutcome) (applied : appliedObjects)
    (st : passState L) : prog eff (passState L * Result) :=
  r ← observeExternalAccess cluster reconciler;
  match r with
  | inr err => mret (st, Failed err)
  | inl exposure =>
      r ← observeRollout (m_Namespace (Meta cluster)) (m_Name (Meta cluster)) replicas applied;
      match r with
      | inr err => mret (st, Failed err)
      | inl roles =>
          '(reads, license) ← reconcileLicense cluster (rr_applied (rc_coordinators replicas)) (rr_applied (rc_data replicas))
                                (ro_data roles) (ro_coordinators roles) ∅;
          let st := set_status cluster st (lastObserved (ps_status st)) [license] in
          reconcileRegistration cluster reconciler reads replicas exposure roles claims st
      end
  end.

(** Applying and pruning, then the rest. *)
Definition applyAndPrune (replicas : replicaCounts) (claims : volumeOutcome) (st : passState L)
    : prog eff (passState L * Result) :=
  '(st, r) ← applyDesired (m_Generation (Meta cluster)) (desiredObjects replicas) st;
  match r with
  | inr err => mret (st, Failed err)
  | inl applied =>
      err ← pruneExternal cluster reconciler (desiredExternal cluster reconciler (rr_applied (rc_data replicas)));
      match err with
      | Some err => mret (st, Failed err)
      | None =>
          err ← pruneMonitoring cluster reconciler (monitoringObjects replicas);
          match err with
          | Some err => mret (st, Failed err)
          | None => observeAndRegister replicas claims applied st
          end
      end
  end.

(** From the volumes to the end of the pass. *)
Definition growAndApply (replicas : replicaCounts) (st : passState L) : prog eff (passState L * Result) :=
  '(claims, r) ← reconcileVolumes (m_Namespace (Meta cluster)) (claimedRoles replicas);
  match r with
  | VolumesPanicked => mret (st, Panicked)
  | VolumesFailed err => mret (st, Failed err)
  | Recreating recreating =>
      mret (set_status cluster st (lastObserved (ps_status st))
              [notConvergedCondition ReasonVolumeExpansionInProgress recreating],
            Requeue requeueWhilePending)
  | VolumesSettled => applyAndPrune replicas claims st
  end.

Definition reconcileCluster (st : passState L) : prog eff (passState L * Result) :=
  '(shrinks, r) ← resolveReplicaCounts cluster (ps_shrinks st);
  let st := mkPassState (ps_status st) shrinks in
  match r with
  | inr err => mret (st, Failed err)
  | inl replicas =>
      if 0 <? length (rc_unseenShrinks replicas) then mret (st, Requeue requeueWhilePending)
      else
        '(st, r) ← reconcileSystemUser (pm_pbkdf2Key primitives) (pm_bcryptMatches primitives) cluster st;
        match r with
        | inr err => mret (st, Failed err)
        | inl password => growAndApply replicas st
        end
  end.

(** [equality.Semantic.DeepEqual] of two statuses. *)
Context (semanticDeepEqual : MemgraphDBClusterStatus L → MemgraphDBClusterStatus L → bool).

(** The pass over the cluster as it was read; [Requeue 0] is the result that asks for none. *)
Definition reconcilePass (shrinks : StatefulSets) : prog eff (passState L * Result) :=
  let generation := m_Generation (Meta cluster) in
  let orig := Status_ cluster in
  let initialized := mkStatus (su_Main orig) (su_Coordinators orig) (su_DataInstances orig) (su_ExternalAccess orig)
                       (InitializeConditions generation (su_Conditions orig)) in
  '(st, result) ← reconcileCluster (mkPassState initialized shrinks);
  match result with
  | Panicked => mret (st, Panicked)
  | _ =>
      let st := mkPassState (summarizeReady generation (ps_status st)) (ps_shrinks st) in
      if semanticDeepEqual orig (ps_status st) then mret (st, result)
      else
        r ← trigger EPatchStatus;
        mret (st, match r with
                  | None => result
                  | Some err =>
                      Failed (Joined (match result with Failed err => [err] | _ => [] end ++
                                      [wrap "patching MemgraphDBCluster status" err]))
                  end)
  end.
End Reconcile.

(** [Reconcile], on the answer of the read of the cluster: the status it leaves, if it read
    one, and the shrinks the process waits for. *)
Definition Reconcile `{RangeOrder} `{Kube} `{QuantityOrder Quantity} {L} `{ConditionsAPI L} (primitives : Primitives)
    (reconciler : Reconciler) (semanticDeepEqual : MemgraphDBClusterStatus L → MemgraphDBClusterStatus L → bool)
    (read : MemgraphDBCluster L + error) (shrinks : StatefulSets)
    : prog eff (option (MemgraphDBClusterStatus L) * StatefulSets * Result) :=
  match read with
  | inr err => mret (None, shrinks, if IsNotFound err then Requeue 0 else Failed err)
  | inl cluster =>
      '(st, result) ← reconcilePass primitives reconciler cluster semanticDeepEqual shrinks;
      mret (Some (ps_status st), ps_shrinks st, result)
  end.

(** ** Lemmas *)

(** Two programs one after the other, by what each changes and leaves open. *)
Lemma quiet_then {A B} (p : prog eff A) (f : A → prog eff B) t b :
  all_effects quiet p → all_effects unconnected p → returns (p ≫= f) t b →
  ∃ u a v, t = u ++ v ∧ returns p u a ∧ returns (f a) v b ∧ mutations t = mutations v ∧
    (leaves_open v [] → leaves_open t []).
Proof.
  intros Hq Hu (u & a & v & -> & Hp & Hf)%returns_bind. exists u, a, v. repeat (split; [done|]). split.
  - by rewrite mutations_app, (quiet_mutations _ _ _ Hq Hp).
  - intros Hv. apply (leaves_open_after u v []); [by eapply unconnected_leaves|done].
Qed.

Section reads.
Context `{Kube} {L : Type} (cluster : MemgraphDBCluster L).

Lemma resolveReplicaCounts_effects shrinks :
  all_effects quiet (resolveReplicaCounts cluster shrinks) ∧ all_effects unconnected (resolveReplicaCounts cluster shrinks).
Proof.
  unfold resolveReplicaCounts, resolve_role, getStatefulSet, runningOrdinals. split; all_effects.
Qed.

Lemma observeRollout_effects namespace name replicas applied :
  all_effects quiet (observeRollout namespace name replicas applied) ∧
  all_effects unconnected (observeRollout namespace name replicas applied).
Proof.
  unfold observeRollout, observeRolloutRole, getStatefulSet. split; all_effects.
Qed.

Lemma reconcileLicense_quiet `{RangeOrder} coordinators data p q reads :
  all_effects quiet (reconcileLicense cluster coordinators data p q reads).
Proof. unfold reconcileLicense, readLicense. all_effects. Qed.
End reads.

Section stages.
Context `{RangeOrder} `{Kube} `{QuantityOrder Quantity} {L : Type} `{ConditionsAPI L}
  (primitives : Primitives) (reconciler : Reconciler) (cluster : MemgraphDBCluster L).
Local Abbreviation namespace := (m_Namespace (Meta cluster)).
Local Abbreviation name := (m_Name (Meta cluster)).

(** What a registration pass did, under what this pass observed. *)
Definition registered (replicas : replicaCounts) (t : list (event eff)) (done : list mutation) : Prop :=
  done = [] ∨ ∃ exposure applied roles leader observed lag,
    ran_in t (observeExternalAccess cluster reconciler) (inl exposure) ∧
    ran_in t (observeRollout namespace name replicas applied) (inl roles) ∧
    ran_in t (observeCluster (CoordinatorEndpoints cluster (rr_applied (rc_coordinators replicas)))) (inl (leader, observed)) ∧
    workloadsReady replicas roles = true ∧
    (lag = [] ∨ Event (EShowReplicationLag leader) (inl lag) ∈ t) ∧
    pass_did cluster
      (passTopology cluster (ea_addresses exposure) (rr_applied (rc_coordinators replicas)) (rr_applied (rc_data replicas)))
      replicas roles observed lag done.

Lemma registered_mono replicas t t' done : t ⊆ t' → registered replicas t done → registered replicas t' done.
Proof.
  intros Ht [->|(e & a & ro & l & o & lag & Hx)]; [by left|right]. exists e, a, ro, l, o, lag.
  destruct Hx as (? & ? & ? & ? & Hlag & ?). repeat (split; [by eapply ran_in_mono || done|]).
  split; [|done]. destruct Hlag as [?|?]; [by left|right; by apply Ht].
Qed.

Lemma observeAndRegister_spec replicas claims applied (st : passState L) t st' r :
  returns (observeAndRegister reconciler cluster replicas claims applied st) t (st', r) →
  leaves_open t [] ∧ r ≠ Panicked ∧ registered replicas t (mutations t).
Proof.
  unfold observeAndRegister. intros Hrun.
  destruct (observeExternalAccess_quiet cluster reconciler) as [Hq1 Hu1].
  apply quiet_then in Hrun as (t1 & exposure & t2 & -> & Hx & Hrun & -> & Ho1); [|done..].
  destruct exposure as [exposure|err].
  2: { destruct Hrun as [-> [= -> ->]]. split; [apply Ho1, leaves_open_nil|]. split; [done|by left]. }
  destruct (observeRollout_effects namespace name replicas applied) as [Hq2 Hu2].
  apply quiet_then in Hrun as (t3 & roles & t4 & -> & Hro & Hrun & -> & Ho2); [|done..].
  destruct roles as [roles|err].
  2: { destruct Hrun as [-> [= -> ->]]. split; [apply Ho1, Ho2, leaves_open_nil|]. split; [done|by left]. }
  apply returns_bind in Hrun as (t5 & [reads license] & t6 & -> & Hl & Hrun).
  pose proof (quiet_mutations _ _ _ (reconcileLicense_quiet cluster _ _ _ _ _) Hl) as Hm.
  apply reconcileLicense_run in Hl as [Hol _ _]. rewrite mutations_app, Hm. cbn [app].
  apply reconcileRegistration_spec in Hrun as (Ho3 & Hp & Hd).
  split; [by apply Ho1, Ho2, leaves_open_after|]. split; [done|].
  destruct Hd as [->|(Hready & leader & observed & lag & u & Hu & Hobs & Hlag & Hdid)]; [by left|right].
  exists exposure, applied, roles, leader, observed, lag.
  split; [exists t1; split; [by apply list_subseteq_app_l|done]|].
  split; [exists t3; split; [by apply list_subseteq_app_r, list_subseteq_app_l|done]|].
  split. { exists u. split; [|done]. do 3 apply list_subseteq_app_r. destruct Hu as [v ->]. by apply list_subseteq_app_l. }
  split; [done|]. split; [|done]. destruct Hlag as [?|?]; [by left|right]. do 3 (apply elem_of_app; right). done.
Qed.
(** A deletion a pass may ask for by pruning. *)
Definition prunes (replicas : replicaCounts) (t : list (event eff)) (m : mutation) : Prop :=
  pruned namespace (ExternalServicesSelector name) (externalKinds reconciler)
    (keptNames (desiredExternal cluster reconciler (rr_applied (rc_data replicas)))) t m ∨
  pruned namespace (MonitoringSelector name) (monitoringKinds reconciler)
    (keptNames (monitoringObjects primitives reconciler cluster replicas)) t m.

Lemma prunes_mono replicas t t' m : t ⊆ t' → prunes replicas t m → prunes replicas t' m.
Proof. intros Ht [Hp|Hp]; [left|right]; (eapply pruned_mono; [| |exact Hp]; [done|by intros e He; apply Ht]). Qed.

Lemma pruning_spec replicas t err :
  returns (pruneExternal cluster reconciler (desiredExternal cluster reconciler (rr_applied (rc_data replicas)))) t err ∨
  returns (pruneMonitoring cluster reconciler (monitoringObjects primitives reconciler cluster replicas)) t err →
  leaves_open t [] ∧ Forall (prunes replicas t) (mutations t).
Proof.
  intros [Hrun|Hrun]; (split; [eapply unconnected_leaves; [apply prune_kinds_unconnected|exact Hrun]|]);
    apply prune_kinds_spec in Hrun as [Hm _]; apply Forall_forall; intros m ?%Hm; [by left|by right].
Qed.

(** The mutations of applying, pruning and registering. *)
Record worked (replicas : replicaCounts) (t : list (event eff)) (app pr reg : list mutation) : Prop := {
  wk_applied : app `prefix_of` (applying <$> desiredObjects primitives reconciler cluster replicas);
  wk_pruned : Forall (prunes replicas t) pr;
  wk_whole : pr ++ reg ≠ [] → app = applying <$> desiredObjects primitives reconciler cluster replicas;
  wk_registered : registered replicas t reg
}.

Lemma worked_mono replicas t t' app pr reg : t ⊆ t' → worked replicas t app pr reg → worked replicas t' app pr reg.
Proof.
  intros Ht [? Hp ? ?]. split; [done| |done|by eapply registered_mono].
  apply (Forall_impl _ _ _ Hp). intros m Hx. by eapply prunes_mono.
Qed.

Lemma applyAndPrune_spec replicas claims (st : passState L) t st' r :
  returns (applyAndPrune primitives reconciler cluster replicas claims st) t (st', r) →
  leaves_open t [] ∧ r ≠ Panicked ∧ ∃ app pr reg, mutations t = app ++ pr ++ reg ∧ worked replicas t app pr reg.
Proof.
  unfold applyAndPrune, applyDesired. intros (t1 & [st1 r1] & t2 & -> & Hp1 & Hrun)%returns_bind.
  apply apply_loop_spec in Hp1 as (_ & Ho1 & Hr1). rewrite mutations_app. destruct r1 as [applied|err].
  2: { destruct Hrun as [-> [= -> ->]]. rewrite app_nil_r. split; [done|]. split; [done|].
       exists (mutations t1), [], []. split; [done|]. split; [done|constructor|done|by left]. }
  destruct Hr1 as (-> & Hm1 & _). set (all := applying <$> _) in Hm1. fold (namespace) in Hrun.
  apply returns_bind in Hrun as (t3 & e1 & t4 & -> & Hp2 & Hrun).
  destruct (pruning_spec replicas _ _ (or_introl Hp2)) as [Ho2 Hf2]. rewrite mutations_app.
  assert (∀ u m, t3 ⊆ u → m ∈ mutations t3 → prunes replicas u m) as Hf2'.
  { intros u m Hu Hin. rewrite Forall_forall in Hf2. by eapply prunes_mono, Hf2. }
  destruct e1 as [err|].
  { destruct Hrun as [-> [= -> ->]]. rewrite !app_nil_r. split; [by apply leaves_open_after|]. split; [done|].
    exists (mutations t1), (mutations t3), []. rewrite app_nil_r. split; [done|]. split; [by rewrite Hm1| |done|by left].
    apply Forall_forall. intros m. apply Hf2'. by apply list_subseteq_app_r. }
  apply returns_bind in Hrun as (t5 & e2 & t6 & -> & Hp3 & Hrun).
  destruct (pruning_spec replicas _ _ (or_intror Hp3)) as [Ho3 Hf3]. rewrite mutations_app.
  assert (Forall (prunes replicas (t1 ++ t3 ++ t5 ++ t6)) (mutations t3 ++ mutations t5)) as Hf.
  { apply Forall_app. split; apply Forall_forall; intros m Hin.
    - apply Hf2'; [by apply list_subseteq_app_r, list_subseteq_app_l|done].
    - rewrite Forall_forall in Hf3. eapply prunes_mono, Hf3, Hin. by do 2 apply list_subseteq_app_r; apply list_subseteq_app_l. }
  destruct e2 as [err|].
  { destruct Hrun as [-> [= -> ->]]. rewrite !app_nil_r in *. split; [by do 2 (apply leaves_open_after; [done|])|].
    split; [done|]. exists (mutations t1), (mutations t3 ++ mutations t5), []. rewrite app_nil_r.
    split; [done|]. split; [by rewrite Hm1|done|done|by left]. }
  apply observeAndRegister_spec in Hrun as (Ho4 & Hp & Hreg). split; [by do 3 (apply leaves_open_after; [done|])|].
  split; [done|]. exists (mutations t1), (mutations t3 ++ mutations t5), (mutations t6). rewrite <- app_assoc.
  split; [done|]. split; [by rewrite Hm1|done|done|]. eapply registered_mono, Hreg. by do 3 apply list_subseteq_app_r.
Qed.
(** The mutations of a whole pass, stage by stage: the Secrets of the system user; the claims
    grown, or one StatefulSet orphaned, which ends the pass; then the objects. *)
Record staged (replicas : replicaCounts) (t : list (event eff)) (user claims app pr reg : list mutation) : Prop := {
  sg_user : Forall (λ m, m = MApplyObject "Secret" (SystemUserSecretName name) ∨
                         m = MApplyObject "Secret" (SystemUserHashSecretName name)) user;
  sg_claims : ∃ grown orphaned, claims = grown ++ orphaned ∧
    Forall (grows namespace (claimedRoles primitives cluster replicas) t) grown ∧
    (orphaned = [] ∨
     ∃ m, orphaned = [m] ∧ orphans namespace (claimedRoles primitives cluster replicas) t m ∧ app ++ pr ++ reg = []);
  sg_worked : worked replicas t app pr reg
}.

Lemma worked_nil replicas t : worked replicas t [] [] [].
Proof. split; [apply prefix_nil|constructor|done|by left]. Qed.

Lemma staged_nil replicas t : staged replicas t [] [] [] [] [].
Proof. split; [constructor| |apply worked_nil]. exists [], []. split; [done|]. split; [constructor|by left]. Qed.

Lemma staged_mono replicas t t' user user' claims app pr reg :
  t ⊆ t' →
  Forall (λ m, m = MApplyObject "Secret" (SystemUserSecretName name) ∨
               m = MApplyObject "Secret" (SystemUserHashSecretName name)) user' →
  staged replicas t user claims app pr reg → staged replicas t' user' claims app pr reg.
Proof.
  intros Ht Hu [_ (grown & orphaned & -> & Hg & Ho) Hw]. split; [done| |by eapply worked_mono].
  exists grown, orphaned. split; [done|]. split.
  - apply (Forall_impl _ _ _ Hg). intros m Hm. eapply grows_mono, Hm; [done|]. intros e He. by apply Ht.
  - destruct Ho as [?|(m & ? & Hm & ?)]; [by left|right]. exists m. split; [done|]. split; [|done].
    eapply orphans_mono, Hm; [done|]. intros e He. by apply Ht.
Qed.

Lemma growAndApply_spec replicas (st : passState L) t st' r :
  returns (growAndApply primitives reconciler cluster replicas st) t (st', r) →
  leaves_open t [] ∧ r ≠ Panicked ∧ ∃ claims app pr reg,
    mutations t = claims ++ app ++ pr ++ reg ∧ staged replicas t [] claims app pr reg.
Proof.
  unfold growAndApply. intros (t1 & [claims result] & t2 & -> & Hvol & Hrun)%returns_bind.
  pose proof (unconnected_leaves _ _ _ (volumes_loop_unconnected _ _ _) Hvol) as Ho1.
  apply volumes_loop_spec in Hvol as (Hnp & grown & orphaned & Hm & Hg & Ho). rewrite mutations_app, Hm.
  assert (Forall (grows namespace (claimedRoles primitives cluster replicas) (t1 ++ t2)) grown) as Hg'.
  { apply (Forall_impl _ _ _ Hg). intros m Hx. eapply grows_mono, Hx; [done|]. intros e He. apply elem_of_app. by left. }
  assert (result = VolumesSettled ∨ result ≠ VolumesSettled) as [->|Hns] by (destruct result; auto).
  - destruct Ho as [->|(m & _ & _ & ?)]; [|done]. rewrite app_nil_r.
    apply applyAndPrune_spec in Hrun as (Ho2 & Hp & app & pr & reg & -> & Hw).
    split; [by apply leaves_open_after|]. split; [done|]. exists grown, app, pr, reg. split; [done|]. split; [constructor| |].
    + exists grown, []. split; [by rewrite app_nil_r|]. split; [done|by left].
    + eapply worked_mono, Hw. by apply list_subseteq_app_r.
  - assert (t2 = [] ∧ r ≠ Panicked) as [-> Hp] by (destruct result; try done; by destruct Hrun as [-> [= _ ->]]).
    rewrite app_nil_r in *. split; [done|]. split; [done|]. exists (grown ++ orphaned), [], [], [].
    rewrite !app_nil_r. split; [done|]. split; [constructor| |apply worked_nil]. exists grown, orphaned.
    split; [done|]. split; [done|]. destruct Ho as [?|(m & ? & ? & _)]; [by left|right]. by exists m.
Qed.

Lemma reconcileCluster_spec (st : passState L) t st' r :
  returns (reconcileCluster primitives reconciler cluster st) t (st', r) →
  leaves_open t [] ∧ r ≠ Panicked ∧ ∃ shrinks counts,
    ran_in t (resolveReplicaCounts cluster (ps_shrinks st)) (shrinks, counts) ∧
    match counts with
    | inr _ => mutations t = []
    | inl replicas =>
        (rc_unseenShrinks replicas ≠ [] → mutations t = [] ∧ r = Requeue requeueWhilePending) ∧
        ∃ user claims app pr reg, mutations t = user ++ claims ++ app ++ pr ++ reg ∧
          staged replicas t user claims app pr reg
    end.
Proof.
  unfold reconcileCluster. intros Hrun. destruct (resolveReplicaCounts_effects cluster (ps_shrinks st)) as [Hq Hu].
  apply quiet_then in Hrun as (t1 & [shrinks counts] & t2 & -> & Hc & Hrun & -> & Ho1); [|done..].
  assert (ran_in (t1 ++ t2) (resolveReplicaCounts cluster (ps_shrinks st)) (shrinks, counts)) as Hran.
  { exists t1. split; [by apply list_subseteq_app_l|done]. }
  destruct counts as [replicas|err].
  2: { destruct Hrun as [-> [= -> ->]]. split; [apply Ho1, leaves_open_nil|]. split; [done|]. by exists shrinks, (inr err). }
  destruct (rc_unseenShrinks replicas) as [|unseen unseens] eqn:Eu; cbn [length Nat.ltb Nat.leb] in Hrun.
  2: { destruct Hrun as [-> [= -> ->]]. split; [apply Ho1, leaves_open_nil|]. split; [done|]. exists shrinks, (inl replicas).
       split; [done|]. split; [done|]. exists [], [], [], [], []. split; [done|]. apply staged_nil. }
  apply returns_bind in Hrun as (t3 & [st1 password] & t4 & -> & Hsys & Hrun).
  pose proof (unconnected_leaves _ _ _ (reconcileSystemUser_unconnected cluster _ _ _) Hsys) as Ho3.
  apply reconcileSystemUser_spec in Hsys as [Hw _]. rewrite mutations_app.
  pose proof (λ m, only_writes_mutations cluster t3 t3 m Hw) as Hf3. rewrite <- Forall_forall in Hf3.
  destruct password as [password|err].
  - apply growAndApply_spec in Hrun as (Ho4 & Hp & claims & app & pr & reg & -> & Hs).
    split; [by apply Ho1, leaves_open_after|]. split; [done|]. exists shrinks, (inl replicas). split; [done|]. rewrite Eu. split; [done|].
    exists (mutations t3), claims, app, pr, reg. split; [done|]. eapply staged_mono, Hs; [|done]. by do 2 apply list_subseteq_app_r.
  - destruct Hrun as [-> [= -> ->]]. split; [by apply Ho1; rewrite app_nil_r|]. split; [done|].
    exists shrinks, (inl replicas). split; [done|]. rewrite Eu. split; [done|].
    exists (mutations t3), [], [], [], []. split; [done|]. eapply staged_mono, staged_nil; [|done]. reflexivity.
Qed.
End stages.

Section pass.
Context `{RangeOrder} `{Kube} `{QuantityOrder Quantity} {L : Type} `{ConditionsAPI L}
  (primitives : Primitives) (reconciler : Reconciler) (cluster : MemgraphDBCluster L)
  (semanticDeepEqual : MemgraphDBClusterStatus L → MemgraphDBClusterStatus L → bool).

(** The status a pass starts from. *)
Definition initialStatus : MemgraphDBClusterStatus L :=
  let orig := Status_ cluster in
  mkStatus (su_Main orig) (su_Coordinators orig) (su_DataInstances orig) (su_ExternalAccess orig)
    (InitializeConditions (m_Generation (Meta cluster)) (su_Conditions orig)).

Lemma reconcilePass_spec shrinks t st result :
  returns (reconcilePass primitives reconciler cluster semanticDeepEqual shrinks) t (st, result) →
  ∃ u st1 r, returns (reconcileCluster primitives reconciler cluster (mkPassState initialStatus shrinks)) u (st1, r) ∧
    ps_shrinks st = ps_shrinks st1 ∧
    ps_status st = summarizeReady (m_Generation (Meta cluster)) (ps_status st1) ∧
    if semanticDeepEqual (Status_ cluster) (ps_status st) then t = u ∧ result = r
    else ∃ answer, t = u ++ [Event EPatchStatus answer] ∧
      match answer with
      | None => result = r
      | Some err => ∃ errs, result = Failed (Joined (errs ++ [wrap "patching MemgraphDBCluster status" err])) ∧
          ∀ err, r = Failed err ↔ errs = [err]
      end.
Proof.
  unfold reconcilePass. fold initialStatus. intros (u & [st1 r] & v & -> & Hc & Hrun)%returns_bind.
  assert (r ≠ Panicked) as Hp by (by apply reconcileCluster_spec in Hc as (_ & ? & _)).
  exists u, st1, r. split; [done|]. set (status := summarizeReady _ (ps_status st1)) in *.
  assert (returns
    (if semanticDeepEqual (Status_ cluster) status then mret (mkPassState status (ps_shrinks st1), r)
     else x ← trigger EPatchStatus;
          mret (mkPassState status (ps_shrinks st1), match x with
                | None => r
                | Some err => Failed (Joined (match r with Failed err => [err] | _ => [] end ++
                                              [wrap "patching MemgraphDBCluster status" err]))
                end)) v (st, result)) as Hrun' by (destruct r; [exact Hrun|exact Hrun|done]). clear Hrun.
  destruct (semanticDeepEqual _ status) eqn:E.
  - destruct Hrun' as [-> [= -> ->]]. cbn. rewrite E, app_nil_r. done.
  - apply returns_trigger in Hrun' as (x & w & -> & [-> [= -> ->]]). cbn. rewrite E. do 2 (split; [done|]).
    exists x. split; [done|]. destruct x as [err|]; [|done]. eexists. split; [done|]. intros err'. destruct r; try done.
    split; by intros [= ->].
Qed.
(** What a whole pass does to the cluster, through the status write. *)
Lemma Reconcile_spec shrinks t status shrinks' result :
  returns (Reconcile primitives reconciler semanticDeepEqual (inl cluster) shrinks) t (status, shrinks', result) →
  leaves_open t [] ∧ result ≠ Panicked ∧ ∃ s counts,
    ran_in t (resolveReplicaCounts cluster shrinks) (s, counts) ∧
    match counts with
    | inr _ => mutations t = []
    | inl replicas =>
        (rc_unseenShrinks replicas ≠ [] → mutations t = []) ∧
        ∃ user claims app pr reg, mutations t = user ++ claims ++ app ++ pr ++ reg ∧
          staged primitives reconciler cluster replicas t user claims app pr reg
    end.
Proof.
  cbn [Reconcile]. intros (t0 & [st r0] & t1 & -> & Hrun & [-> [= _ _ ->]])%returns_bind. rewrite app_nil_r.
  apply reconcilePass_spec in Hrun as (u & st1 & r & Hc & _ & _ & Hend).
  apply reconcileCluster_spec in Hc as (Ho & Hp & s & counts & Hran & Hx).
  assert (leaves_open t0 [] ∧ r0 ≠ Panicked ∧ u ⊆ t0 ∧ mutations t0 = mutations u) as (Ho' & Hp' & Hu & Hm).
  { destruct (semanticDeepEqual _ _); [by destruct Hend as [-> ->]|]. destruct Hend as (answer & -> & Ha).
    split; [apply leaves_open_after; [done|by apply leaves_open_skip, leaves_open_nil]|]. split.
    - destruct answer; [by destruct Ha as (errs & -> & _)|by subst].
    - split; [by apply list_subseteq_app_l|]. by rewrite mutations_app, app_nil_r. }
  rewrite Hm. split; [done|]. split; [done|]. exists s, counts. split; [by eapply ran_in_mono|].
  destruct counts as [replicas|]; [|done]. destruct Hx as [Hdefer (user & claims & app & pr & reg & Em & Hs)].
  split; [intros Hn; by apply Hdefer|]. exists user, claims, app, pr, reg. split; [done|].
  destruct Hs as [Hsu ? ?]. by eapply staged_mono.
Qed.

(** The count a StatefulSet is applied at in the stages of a pass. *)
Lemma staged_counts replicas t user claims app pr reg set count :
  staged primitives reconciler cluster replicas t user claims app pr reg →
  MApply set count ∈ user ++ claims ++ app ++ pr ++ reg →
  (set = km_Name (sf_Meta (coordinatorSet primitives cluster replicas)) ∧ count = rr_applied (rc_coordinators replicas) ∨
   set = km_Name (sf_Meta (dataSet primitives cluster replicas)) ∧ count = rr_applied (rc_data replicas)) ∨
  MApply set count ∈ reg.
Proof.
  intros [Hu (grown & orphaned & -> & Hg & Ho) [Happ Hpr _ _]]. rewrite Forall_forall in Hu, Hg, Hpr.
  rewrite !elem_of_app. intros [Hin|[[Hin|Hin]|[Hin|[Hin|Hin]]]].
  - by destruct (Hu _ Hin) as [?|?].
  - by destruct (Hg _ Hin) as (? & ? & ? & ? & _ & _ & _ & _ & _ & _ & ?).
  - destruct Ho as [->|(m & -> & Hm & _)]; [by apply elem_of_nil in Hin|].
    apply list_elem_of_singleton in Hin as <-. by destruct Hm as (? & ? & ? & _ & _ & _ & ? & _).
  - left. destruct Happ as [rest E]. assert (MApply set count ∈ applying <$> desiredObjects primitives reconciler cluster replicas) as Hd.
    { rewrite E. apply elem_of_app. by left. }
    apply list_elem_of_fmap in Hd as (d & Ed & Hd). unfold desiredObjects in Hd. apply elem_of_app in Hd as [Hd|Hd].
    + repeat (apply elem_of_cons in Hd as [->|Hd]; [cbn in Ed; simplify_eq; auto|]). by apply elem_of_nil in Hd.
    + by apply desired_objects in Hd as (kind & object & ->).
  - by destruct (Hpr _ Hin) as [(? & ? & ? & _ & _ & _ & _ & _ & ?)|(? & ? & ? & _ & _ & _ & _ & _ & ?)].
  - by right.
Qed.
End pass.

(** The counts of a pass, as they were resolved. *)
Lemma counts_resolved `{Kube} {L} (cluster : MemgraphDBCluster L) shrinks t s replicas :
  ran_in t (resolveReplicaCounts cluster shrinks) (s, inl replicas) →
  rr_name (rc_coordinators replicas) = CoordinatorName (m_Name (Meta cluster)) ∧
  rr_name (rc_data replicas) = DataName (m_Name (Meta cluster)) ∧
  ∀ role, role ∈ [rc_coordinators replicas; rc_data replicas] →
    (rr_declared role ≤ rr_applied role)%Z ∧
    (∀ sts, rr_statefulSet role = Some sts → (default 0%Z (ks_SpecReplicas sts) ≤ rr_applied role)%Z).
Proof.
  intros (u & _ & Hr%resolveReplicaCounts_spec). destruct Hr as ([Hcn [Hc1 Hc2] Hcf _] & [Hdn [Hd1 Hd2] Hdf _] & _).
  split; [done|]. split; [done|]. intros role [->|Hin]%elem_of_cons.
  - rewrite Hc1. split; [done|]. intros sts Hl. destruct (Hcf sts Hl) as [_ ->]. lia.
  - apply list_elem_of_singleton in Hin as ->. rewrite Hd1. split; [done|]. intros sts Hl. destruct (Hdf sts Hl) as [_ ->]. lia.
Qed.

(** A count a registration pass writes is a declared one, once the retiring members left. *)
Lemma pass_did_count `{RangeOrder} `{Kube} `{QuantityOrder Quantity} {L} `{ConditionsAPI L} (cluster : MemgraphDBCluster L)
    topology replicas roles observed lag done set count :
  pass_did cluster topology replicas roles observed lag done → MApply set count ∈ done →
  Planner.Plan topology observed lag = [] ∧ Retired topology observed = true ∧
  ∃ role, role ∈ [rc_coordinators replicas; rc_data replicas] ∧ set = rr_name role ∧ count = rr_declared role.
Proof.
  intros [(k & ->)|[(Hp & _ & Hret & rest & E)|(_ & _ & ? & ? & ? & _ & _ & _ & ->)]] Hin.
  - by apply list_elem_of_fmap in Hin as (? & ? & _).
  - split; [done|]. split; [done|]. assert (MApply set count ∈ shrinks_of cluster topology replicas) as Hsh.
    { rewrite E. apply elem_of_app. by left. }
    apply list_elem_of_bind in Hsh as (role & Hsh & Hrole). unfold shrink_of in Hsh.
    case_decide; [by apply elem_of_nil in Hsh|]. apply list_elem_of_singleton in Hsh. injection Hsh as -> ->.
    exists (sh_replicas role). split; [|done].
    apply elem_of_cons in Hrole as [->|Hrole%list_elem_of_singleton]; [left|subst role; right; left].
  - by apply list_elem_of_singleton in Hin.
Qed.

(** ** Properties *)

(** C10: a whole pass, whatever the cluster and the API server answer, ends without panicking
    with every connection closed, and changes things in one order: nothing while a shrink it
    applied is not in its cache yet; else the system user's Secrets, then the claims it
    grows or the one StatefulSet it orphans, which ends the pass, then the desired objects
    in order, then, with all of them applied, the deletions of pruning, and last what the
    registration pass does under what this pass observed. *)
Theorem pass_by_stages `{RangeOrder} `{Kube} `{QuantityOrder Quantity} {L} `{ConditionsAPI L} primitives reconciler
    (cluster : MemgraphDBCluster L) semanticDeepEqual shrinks t status shrinks' result :
  returns (Reconcile primitives reconciler semanticDeepEqual (inl cluster) shrinks) t (status, shrinks', result) →
  leaves_open t [] ∧ result ≠ Panicked ∧ ∃ s counts,
    ran_in t (resolveReplicaCounts cluster shrinks) (s, counts) ∧
    match counts with
    | inr _ => mutations t = []
    | inl replicas =>
        (rc_unseenShrinks replicas ≠ [] → mutations t = []) ∧
        ∃ user claims app pr reg, mutations t = user ++ claims ++ app ++ pr ++ reg ∧
          staged primitives reconciler cluster replicas t user claims app pr reg
    end.
Proof. apply Reconcile_spec. Qed.

(** The view of this pass in which nothing was left to plan and the retiring members gone. *)
Definition left_the_cluster `{Kube} {L} reconciler (cluster : MemgraphDBCluster L) (replicas : replicaCounts)
    (t : list (event eff)) : Prop :=
  let '(coordinators, data) := (rr_applied (rc_coordinators replicas), rr_applied (rc_data replicas)) in
  ∃ exposure leader observed lag,
    ran_in t (observeExternalAccess cluster reconciler) (inl exposure) ∧
    ran_in t (observeCluster (CoordinatorEndpoints cluster coordinators)) (inl (leader, observed)) ∧
    let topology := passTopology cluster (ea_addresses exposure) coordinators data in
    Planner.Plan topology observed lag = [] ∧ Retired topology observed = true.

(** No pod is shed early: whenever a whole pass writes a StatefulSet, it is one of the two
    roles', with no shrink unseen, and at the count resolved this pass, which is at least the
    declared one and at least the live one; or, below that, at the declared count, after the
    leader's view of this pass left nothing to plan and every retiring member out of the
    cluster. *)
Theorem no_pod_shed_early `{RangeOrder} `{Kube} `{QuantityOrder Quantity} {L} `{ConditionsAPI L} primitives reconciler
    (cluster : MemgraphDBCluster L) semanticDeepEqual shrinks t status shrinks' result set count :
  returns (Reconcile primitives reconciler semanticDeepEqual (inl cluster) shrinks) t (status, shrinks', result) →
  MApply set count ∈ mutations t →
  ∃ s replicas role, ran_in t (resolveReplicaCounts cluster shrinks) (s, inl replicas) ∧ rc_unseenShrinks replicas = [] ∧
    role ∈ [rc_coordinators replicas; rc_data replicas] ∧ set = rr_name role ∧
    (rr_declared role ≤ rr_applied role)%Z ∧
    (∀ sts, rr_statefulSet role = Some sts → (default 0%Z (ks_SpecReplicas sts) ≤ rr_applied role)%Z) ∧
    (count = rr_applied role ∨ count = rr_declared role ∧ left_the_cluster reconciler cluster replicas t).
Proof.
  intros Hrun Hin. apply Reconcile_spec in Hrun as (_ & _ & s & counts & Hran & Hx).
  destruct counts as [replicas|err]; [|rewrite Hx in Hin; by apply elem_of_nil in Hin].
  destruct Hx as [Hdefer (user & claims & app & pr & reg & Em & Hs)].
  assert (rc_unseenShrinks replicas = []) as Hun.
  { destruct (rc_unseenShrinks replicas) eqn:E; [done|]. rewrite Hdefer in Hin by done. by apply elem_of_nil in Hin. }
  destruct (counts_resolved _ _ _ _ _ Hran) as (Hcn & Hdn & Hrole). rewrite Em in Hin.
  assert (∃ role, role ∈ [rc_coordinators replicas; rc_data replicas] ∧ set = rr_name role ∧
    (count = rr_applied role ∨ count = rr_declared role ∧ left_the_cluster reconciler cluster replicas t)) as (role & Hr & ? & ?).
  2: { exists s, replicas, role. destruct (Hrole role Hr). by repeat (split; [done|]). }
  destruct (staged_counts _ _ _ _ _ _ _ _ _ _ _ _ Hs Hin) as [[[-> ->]|[-> ->]]|Hreg].
  - exists (rc_coordinators replicas). split; [left|]. split; [by rewrite Hcn|by left].
  - exists (rc_data replicas). split; [right; left|]. split; [by rewrite Hdn|by left].
  - destruct Hs as [_ _ [_ _ _ Hregd]].
    destruct Hregd as [->|(e & a & ro & leader & obs & lag & He & _ & Ho & _ & _ & Hdid)]; [by apply elem_of_nil in Hreg|].
    destruct (pass_did_count _ _ _ _ _ _ _ _ _ Hdid Hreg) as (Hp & Hret & role & Hmem & -> & ->).
    exists role. split; [done|]. split; [done|]. right. split; [done|]. by exists e, leader, obs, lag.
Qed.

(** ** Witnesses: a whole pass over a two-member cluster whose data pod is outdated *)

Import Workloads.Example.
#[local] Existing Instance Api.Example.kube_text.

Module Example.
Definition cluster : MemgraphDBCluster (gmap string Condition) := Registration.Example.cluster.
Definition primitives : Primitives :=
  mkPrimitives digest_example Workloads.Example.marshal "" (λ _, "") (λ _, "") (λ _ _ _ _, inr (New "")) (λ hash password, bool_decide (hash = password)).
Definition reconciler : Reconciler := Registration.Example.reconciler.
Definition pod (name uid revision : string) : KPod :=
  mkKPod name uid {[ StatefulSetRevisionLabel := revision ]} ∅ false [mkPodCondition PodReady "True"] [].
Definition sts : KStatefulSet := mkKStatefulSet "u" 1 (Some 1%Z) ∅ 1 1 "r2" 1 false [].
Definition handle (X : Type) (e : eff X) (s : unit) : unit * X :=
  (s, match e in eff X return X with
      | EGetSecret _ _ => inl {[ SystemUserPasswordKey := "p"; SystemUserHashKey := "bcrypt:p" ]}
      | EListPods _ selector =>
          inl (if decide (selector = DataPodSelector "db") then [pod "db-data-0" "uid-d" "r1"]
               else [pod "db-coordinator-0" "uid-c" "r2"])
      | EGetStatefulSet _ _ => inl sts
      | EApplyStatefulSet _ _ _ => inl ("u", 1%Z)
      | EConnect _ _ => inl 0
      | EShowInstances _ => inl Registration.Example.view
      | EShowConfig _ => inl {[ "bolt_num_workers" := "1" ]}
      | EShowCoordinatorSettings _ => inl {[ "failover_timeout" := "1" ]}
      | e => idle _ e
      end).
Definition same (a b : MemgraphDBClusterStatus (gmap string Condition)) : bool := bool_decide (a = b).
Definition pass := Effects.run handle (Reconcile primitives reconciler same (inl cluster) ∅) tt.
End Example.

Lemma pass_by_stages_witness :
  leaves_open Example.pass.1.2 [] ∧
  mutations Example.pass.1.2 =
    [MApplyObject "Secret" "db-system-user-hash"; MApplyObject "Service" "db-coordinator"; MApplyObject "Service" "db-data";
     MApplyObject "ConfigMap" "db-coordinator-flags"; MApplyObject "ConfigMap" "db-data-flags";
     MApply "db-coordinator" 1; MApply "db-data" 1; MDelete "db-data-0" "uid-d"].
Proof.
  split; [|vm_compute; reflexivity].
  pose proof (run_returns Example.handle (Reconcile Example.primitives Example.reconciler Example.same (inl Example.cluster) ∅) tt)
    as Hrun.
  fold Example.pass in Hrun. destruct Example.pass as [[s t] [[status shrinks] result]].
  exact (proj1 (pass_by_stages Example.primitives Example.reconciler Example.cluster Example.same ∅ t status shrinks result Hrun)).
Defined.

Lemma no_pod_shed_early_witness :
  MApply "db-data" 1 ∈ mutations Example.pass.1.2 ∧
  ∃ s replicas, ran_in Example.pass.1.2 (resolveReplicaCounts Example.cluster ∅) (s, inl replicas) ∧ rc_unseenShrinks replicas = [].
Proof.
  assert (MApply "db-data" 1 ∈ mutations Example.pass.1.2) as Hin.
  { change (MApply "db-data" 1 ∈ mutations Example.pass.1.2). vm_compute. do 6 right. left. }
  split; [exact Hin|].
  pose proof (run_returns Example.handle (Reconcile Example.primitives Example.reconciler Example.same (inl Example.cluster) ∅) tt)
    as Hrun.
  fold Example.pass in Hrun. destruct Example.pass as [[s t] [[status shrinks] result]].
  destruct (no_pod_shed_early Example.primitives Example.reconciler Example.cluster Example.same ∅ t status shrinks result
    "db-data" 1 Hrun Hin) as (s' & replicas & role & Hran & Hun & _).
  by exists s', replicas.
Defined.
