(* ===== verification/PassEffects.v ===== *)
(** * Package controller: the calls of a pass

    Every effect a pass may issue, in one predicate over its programs: the kinds it reads
    through the manager's client, the kinds it applies, and that it writes the status nowhere
    but at its end. Manager.v and Main.v hold the informers and the watches against it. *)

From S2P Require Import Prelude GoStrings GoErrors K8s Api Client Planner PlanRun Effects Settings Volumes Rollout.
From S2P Require Import Resources Topology Flags Vector Workloads Monitoring Expectations Status World Exposure Apply.
From S2P Require Import ExposurePass Events SystemUser SettingsPass Replicas VolumePass FlagClasses Connections Registration.
From S2P Require Import Reconcile.

(** ** Definitions *)

(** The kind an effect reads through the manager's client, whose reads the cache answers. *)
Definition cachedRead `{Kube} {X} (e : eff X) : option string :=
  match e with
  | EGetStatefulSet _ _ => Some "StatefulSet"
  | EListPods _ _ => Some "Pod"
  | EListClaims _ _ => Some "PersistentVolumeClaim"
  | EGetService _ _ => Some "Service"
  | EGetGateway _ _ => Some "Gateway"
  | EGetTCPRoute _ _ => Some "TCPRoute"
  | EListObjects kind _ _ => Some kind
  | _ => None
  end.

(** The object an effect creates or applies, by kind and name. *)
Definition appliedObject `{Kube} {X} (e : eff X) : option (string * string) :=
  match e with
  | EApplyStatefulSet name _ _ => Some ("StatefulSet", name)
  | EApply kind name => Some (kind, name)
  | ECreateSecret name _ | EApplySecret name _ => Some ("Secret", name)
  | _ => None
  end.

(** The kinds of the objects a pass builds, which depend on what the cluster serves. *)
Definition builtKinds (r : Reconciler) : list string :=
  ["StatefulSet"; "Deployment"; "Service"; "ConfigMap"] ++
  (if GatewayAPI r then ["Gateway"; "TCPRoute"] else []) ++ (if ServiceMonitorAPI r then ["ServiceMonitor"] else []).

(** ** Lemmas *)

(** The kinds of the objects a pass applies. *)
Lemma desiredObjects_built `{RangeOrder} `{Kube} `{QuantityOrder Quantity} {L} primitives r (cluster : MemgraphDBCluster L) replicas d :
  d ∈ desiredObjects primitives r cluster replicas → desired_kind d ∈ builtKinds r.
Proof.
  assert (∀ (b : bool) (l : list desired), d ∈ (if b then l else []) → b = true ∧ d ∈ l) as Hif.
  { by intros [] l; [|intros ?%elem_of_nil]. }
  assert (∀ A kind (meta : A → KMeta) object, d ∈ ExposurePass.built kind meta object → desired_kind d = kind) as Hb.
  { intros A kind meta [object|]; cbn; [by intros ->%list_elem_of_singleton|by intros ?%elem_of_nil]. }
  unfold desiredObjects, monitoringObjects, desiredExternal, desiredMonitoring, builtKinds. rewrite !elem_of_app.
  intros [Hd|[[Hd|Hd]|[Hd|[Hd|[Hd|Hd]]]]].
  - repeat (apply elem_of_cons in Hd as [->|Hd]; [left; by_decide|]). by apply elem_of_nil in Hd.
  - apply list_elem_of_fmap in Hd as (s & -> & _). left. by_decide.
  - apply Hif in Hd as [[_ ->]%andb_true_iff Hd]. right; left.
    apply elem_of_cons in Hd as [->|(route & -> & _)%list_elem_of_fmap]; [left|right; left].
  - apply Hif in Hd as [[_ ->]%andb_true_iff ->%Hb]. right; right. left.
  - apply Hif in Hd as [_ ->%Hb]. left. by_decide.
  - apply Hif in Hd as [_ [->%Hb| ->%Hb]%elem_of_app]; left; by_decide.
  - apply Hif in Hd as [_ ->%Hb]. left. by_decide.
Qed.

Section issues.
Context `{RangeOrder} `{Kube} `{QuantityOrder Quantity} {L : Type} `{ConditionsAPI L}
  (primitives : Primitives) (r : Reconciler) (cluster : MemgraphDBCluster L).

(** What an effect of a pass up to its status write may be: a read of a kind it builds, or of
    the pods and claims; and a write of one it builds, or of a Secret of the system user. *)
Definition issues (X : Type) (e : eff X) : Prop :=
  (∀ kind, cachedRead e = Some kind → kind ∈ builtKinds r ++ ["PersistentVolumeClaim"; "Pod"]) ∧
  (∀ kind name, appliedObject e = Some (kind, name) →
     kind ∈ builtKinds r ∨ kind = "Secret" ∧ name ∈ [SystemUserSecretName (m_Name (Meta cluster)); SystemUserHashSecretName (m_Name (Meta cluster))]) ∧
  match e with EPatchStatus => False | _ => True end.

(** The kinds that are served in every cluster. *)
Lemma always_built kind : kind ∈ ["StatefulSet"; "Deployment"; "Service"; "ConfigMap"] → kind ∈ builtKinds r.
Proof. unfold builtKinds. rewrite elem_of_app. by left. Qed.

Lemma gateway_built : GatewayAPI r = true → "Gateway" ∈ builtKinds r ∧ "TCPRoute" ∈ builtKinds r.
Proof. intros E. unfold builtKinds. rewrite E. split; apply elem_of_app; right; [left|right; left]. Qed.

Lemma issues_read (X : Type) (e : eff X) :
  match cachedRead e with
  | Some kind => kind ∈ ["StatefulSet"; "Deployment"; "Service"; "ConfigMap"; "PersistentVolumeClaim"; "Pod"]
  | None => True
  end →
  appliedObject e = None → match e with EPatchStatus => False | _ => True end → issues X e.
Proof.
  intros Hr Ha Hp. split; [|split; [by rewrite Ha|done]]. intros kind E. rewrite E in Hr. apply elem_of_app.
  change (kind ∈ ["StatefulSet"; "Deployment"; "Service"; "ConfigMap"] ++ ["PersistentVolumeClaim"; "Pod"]) in Hr.
  apply elem_of_app in Hr as [Hr|Hr]; [left; by apply always_built|by right].
Qed.
Hint Extern 0 (issues _ _) => apply issues_read; [exact I || (cbn; by_decide)|reflexivity|exact I] : effects.

Lemma resolveReplicaCounts_issues shrinks : all_effects issues (resolveReplicaCounts cluster shrinks).
Proof. unfold resolveReplicaCounts, resolve_role, getStatefulSet, runningOrdinals. all_effects. Qed.

(** An object of a kind a pass builds, or a Secret of the system user. *)
Definition applies (d : desired) : Prop :=
  desired_kind d ∈ builtKinds r ∨
  desired_kind d = "Secret" ∧ desired_name d ∈ [SystemUserSecretName (m_Name (Meta cluster)); SystemUserHashSecretName (m_Name (Meta cluster))].

Lemma apply_issues d : applies d → issues _ (apply d).
Proof. intros Ha. destruct d; (split; [done|split; [|done]]); intros k n [= <- <-]; exact Ha. Qed.

Lemma applyDesired_issues generation desired (st : passState L) :
  Forall applies desired → all_effects issues (applyDesired generation desired st).
Proof.
  unfold applyDesired. generalize (∅ : appliedObjects) as applied.
  intros applied Hall. revert applied. induction Hall as [|d desired Hd Hall IH]; intros applied; cbn [apply_loop]; [done|].
  pose proof (apply_issues d Hd). all_effects.
Qed.

Lemma applies_statefulSet name count claims : applies (DStatefulSet name count claims).
Proof. left. apply always_built. left. Qed.

Lemma reconcileSystemUser_issues key matches (st : passState L) : all_effects issues (reconcileSystemUser key matches cluster st).
Proof.
  assert (∀ l, all_effects issues (needs_loop cluster l)) as Hn.
  { intros l. induction l as [|s l IH]; cbn [needs_loop]; all_effects. }
  assert (∀ hash (st : passState L), all_effects issues (applyHash cluster hash st)) as Ha.
  { intros. unfold applyHash. apply applyDesired_issues, Forall_singleton. right. split; [done|]. right. left. }
  assert (∀ data, issues _ (ECreateSecret (SystemUserSecretName (m_Name (Meta cluster))) data)) as Hc.
  { intros data. split; [done|]. split; [|done]. intros kind name [= <- <-]. right. split; [done|left]. }
  unfold reconcileSystemUser, systemUserPassword, createSystemUserSecret, systemUserNeedsPBKDF2, settleHash, writeHash,
    hashSystemUserPassword. all_effects.
Qed.

Lemma reconcileVolumes_issues namespace roles : all_effects issues (reconcileVolumes namespace roles).
Proof.
  assert (∀ pvcs patches refused, all_effects issues (patch_loop pvcs patches refused)) as Hp.
  { intros pvcs patches. induction patches as [|p patches IH]; intros; cbn [patch_loop]; unfold growClaim; all_effects. }
  unfold reconcileVolumes. generalize (mkVolumeOutcome [] [] [] []) as outcome.
  induction roles as [|role roles IH]; intros outcome; cbn [volumes_loop]; unfold observeClaims, orphan; all_effects.
Qed.

Lemma prune_issues namespace selector keep kinds :
  kinds ⊆ builtKinds r → all_effects issues (prune_kinds namespace selector keep kinds).
Proof.
  assert (∀ kind items, all_effects issues (prune_loop kind namespace keep items)) as Hl.
  { intros kind items. induction items as [|obj items IH]; cbn [prune_loop]; all_effects. }
  intros Hk. induction kinds as [|kind kinds IH]; cbn [prune_kinds]; [done|]. unfold pruneKind.
  assert (issues _ (EListObjects kind namespace selector)) as He.
  { split; [|split; [done|done]]. intros k [= <-]. apply elem_of_app. left. apply Hk. left. }
  assert (kinds ⊆ builtKinds r) as Hk' by (intros k ?; apply Hk; by right). specialize (IH Hk'). all_effects.
Qed.

Lemma pruning_issues desired :
  all_effects issues (pruneExternal cluster r desired) ∧ all_effects issues (pruneMonitoring cluster r desired).
Proof.
  split; apply prune_issues; intros kind; unfold externalKinds, monitoringKinds, builtKinds;
    rewrite ?elem_of_app, !elem_of_cons; [destruct (GatewayAPI r)|destruct (ServiceMonitorAPI r)];
    rewrite ?elem_of_cons, ?elem_of_nil; tauto.
Qed.

(** The Gateway kinds are only read where they are served. *)
Lemma observeExternalAccess_issues : all_effects issues (observeExternalAccess cluster r).
Proof.
  assert (∀ c d wc wd, all_effects issues c → (∀ o, all_effects issues (d o)) → all_effects issues (announce cluster c d wc wd)) as Ha.
  { intros c d wc wd Hc Hd. unfold announce. apply all_effects_bind; [done|]. intros [addr|err]; [|done].
    generalize (announceCoordinators newExternalAccess addr wc) as e.
    induction (ordinals (DeclaredDataInstances cluster)) as [|o l IH]; intros e; cbn [announce_loop]; [done|].
    apply all_effects_bind; [done|]. intros [a|err]; [apply IH|done]. }
  unfold observeExternalAccess. destruct (sp_ExternalAccess _); [|done]. case_match.
  2: { apply Ha; intros; unfold serviceAddress; all_effects. }
  unfold observeGatewayAccess. destruct (GatewayAPI r) eqn:E; cbn [negb]; [|done].
  destruct (gateway_built E) as [Hg Ht].
  assert (∀ namespace name, issues _ (EGetGateway namespace name)) as Hsg by (by intros; split; [|split; [done|done]]; intros kind [= <-]; apply elem_of_app; left).
  assert (∀ namespace name, issues _ (EGetTCPRoute namespace name)) as Hst by (by intros; split; [|split; [done|done]]; intros kind [= <-]; apply elem_of_app; left).
  assert (∀ namespace gateway name port, all_effects issues (routeAddress namespace gateway name port)) as Hr.
  { intros namespace [gateway|] name port; unfold routeAddress, getTCPRoute; all_effects. }
  all_effects.
Qed.

Lemma observeRollout_issues namespace name replicas applied : all_effects issues (observeRollout namespace name replicas applied).
Proof. unfold observeRollout, observeRolloutRole, getStatefulSet. all_effects. Qed.

Lemma apply_to_pods_issues action describe plan ready endpoints reads rejected pending :
  all_effects issues (apply_to_pods action describe plan ready endpoints reads rejected pending).
Proof.
  assert (∀ c pod changes observed applied ran, all_effects issues (set_loop action describe c pod changes observed applied ran)) as Hs.
  { intros c pod changes. induction changes as [|change changes IH]; intros; cbn [set_loop]; unfold recordRan; all_effects. }
  revert reads rejected pending. induction endpoints as [|endpoint endpoints IH]; intros; cbn [apply_to_pods];
    unfold applySettings, observedSettings, readInstance; all_effects.
Qed.
Hint Resolve apply_to_pods_issues : effects.

Lemma reconcileLicense_issues coordinators data p q reads :
  all_effects issues (reconcileLicense cluster coordinators data p q reads).
Proof. unfold reconcileLicense, readLicense. all_effects. Qed.

Lemma classifyFlags_issues leader replicas roles : all_effects issues (classifyFlags cluster leader replicas roles).
Proof.
  assert (∀ A B (f : A → prog eff (option B)) l, (∀ x, all_effects issues (f x)) → all_effects issues (first_answer f l)) as Hf.
  { intros A B f l Hx. induction l as [|x l IH]; cbn [first_answer]; all_effects. }
  assert (∀ roles template endpoints pod, all_effects issues (ask_pod roles template endpoints pod)) as Hp.
  { intros. unfold ask_pod. case_match; [done|]. apply Hf. intros. unfold ask_endpoint, readInstance. all_effects. }
  unfold classifyFlags, showConfig. all_effects.
Qed.

Lemma reconcileCoordinatorSettings_issues leader name classes :
  all_effects issues (reconcileCoordinatorSettings cluster leader name classes).
Proof.
  assert (∀ pod changes ran, all_effects issues (coordinator_loop leader pod changes ran)) as Hc.
  { intros pod changes. induction changes as [|c changes IH]; intros ran; cbn [coordinator_loop];
      unfold recordRanCoordinator; all_effects. }
  unfold reconcileCoordinatorSettings. all_effects.
Qed.

Lemma observeCluster_issues endpoints : all_effects issues (observeCluster endpoints).
Proof.
  unfold observeCluster. generalize endpoints at 2 as todo. generalize false as leaderless. generalize ([] : list error) as errs.
  intros errs leaderless todo. revert errs leaderless.
  induction todo as [|e todo IH]; intros; cbn [observe_loop]; unfold showInstances; all_effects.
Qed.
Hint Resolve classifyFlags_issues reconcileCoordinatorSettings_issues observeCluster_issues : effects.

Lemma reconcileRegistration_issues reads replicas exposure roles claims (st : passState L) :
  all_effects issues (reconcileRegistration cluster r reads replicas exposure roles claims st).
Proof.
  assert (∀ l (st : passState L), all_effects issues (shed_roles cluster l st)) as Hs.
  { assert (∀ generation name count claims (st : passState L), all_effects issues (applyDesired generation [DStatefulSet name count claims] st)) as Ha.
    { intros. apply applyDesired_issues, Forall_singleton. apply applies_statefulSet. }
    intros l. induction l as [|role l IH]; intros; cbn [shed_roles]; all_effects. }
  assert (∀ leader commands latest (st : passState L), all_effects issues (run_commands cluster leader commands latest st)) as Hc.
  { intros leader commands latest. induction commands as [|c commands IH]; intros; cbn [run_commands]; all_effects. }
  assert (∀ roles observed lag latest converged done (st : passState L),
    all_effects issues (roll cluster roles observed lag latest converged done st)) as Hr.
  { intros. unfold roll, restartPod. all_effects. }
  unfold reconcileRegistration, register, finishRetirement, shedRetiredPods, reconcileConverged, reconcileSettings,
    reconcileAWSCredentials, readAWSCredentials. all_effects.
Qed.

(** A pass up to its status write. *)
Lemma reconcileCluster_issues (st : passState L) : all_effects issues (reconcileCluster primitives r cluster st).
Proof.
  assert (∀ replicas (st : passState L), all_effects issues (applyDesired (m_Generation (Meta cluster)) (desiredObjects primitives r cluster replicas) st)).
  { intros. apply applyDesired_issues, Forall_forall. intros d Hd. left. by eapply desiredObjects_built. }
  pose proof (resolveReplicaCounts_issues). pose proof reconcileSystemUser_issues. pose proof reconcileVolumes_issues.
  pose proof (λ d, proj1 (pruning_issues d)). pose proof (λ d, proj2 (pruning_issues d)). pose proof observeExternalAccess_issues.
  pose proof observeRollout_issues. pose proof reconcileLicense_issues. pose proof reconcileRegistration_issues.
  unfold reconcileCluster, growAndApply, applyAndPrune, observeAndRegister. all_effects.
Qed.

(** A whole pass: nothing else but the status write. *)
Lemma Reconcile_issues semanticDeepEqual shrinks t out :
  returns (Reconcile primitives r semanticDeepEqual (inl cluster) shrinks) t out →
  ∀ X (e : eff X) x, Event e x ∈ t → issues X e ∨ ∃ answer, Event e x = Event EPatchStatus answer.
Proof.
  destruct out as [[status shrinks'] result]. cbn [Reconcile].
  intros (t0 & [st0 r0] & t1 & -> & Hrun & [-> _])%returns_bind X e x. rewrite app_nil_r.
  apply reconcilePass_spec in Hrun as (u & st1 & r1 & Hc & _ & _ & Hend).
  pose proof (all_effects_returns issues _ _ _ (reconcileCluster_issues _) Hc) as Hu.
  destruct (semanticDeepEqual _ _); [destruct Hend as [-> _]; left; by eapply Hu|].
  destruct Hend as (answer & -> & _). intros [Hin|Hin%list_elem_of_singleton]%elem_of_app; [left; by eapply Hu|right; by exists answer].
Qed.
End issues.

(** ** Properties *)

(** C25: the status is written exactly when the pass changed it, once and as the last thing it
    does: nothing writes it before that, whatever the stages do. What it then holds carries a
    Ready decided for the generation the pass read and never the internal serving verdict; a
    write that fails fails the pass, without losing the error it already had. *)
Theorem status_written_iff_changed `{RangeOrder} `{Kube} `{QuantityOrder Quantity} {L} `{ConditionsAPI L} primitives reconciler
    (cluster : MemgraphDBCluster L) semanticDeepEqual shrinks t status shrinks' result :
  (∀ a b, semanticDeepEqual a b = true ↔ a = b) →
  returns (Reconcile primitives reconciler semanticDeepEqual (inl cluster) shrinks) t (status, shrinks', result) →
  ∃ after u st r, status = Some after ∧
    returns (reconcileCluster primitives reconciler cluster (mkPassState (initialStatus cluster) shrinks)) u (st, r) ∧
    (∀ answer, Event EPatchStatus answer ∉ u) ∧
    (after = Status_ cluster → t = u ∧ result = r) ∧
    (after ≠ Status_ cluster → ∃ answer, t = u ++ [Event EPatchStatus answer] ∧
       match answer with
       | None => result = r
       | Some err => ∃ errs, result = Failed (Joined (errs ++ [wrap "patching MemgraphDBCluster status" err])) ∧
           ∀ err, r = Failed err ↔ errs = [err]
       end) ∧
    FindStatusCondition (su_Conditions after) conditionServing = None ∧
    ∃ ready, FindStatusCondition (su_Conditions after) ConditionReady = Some ready ∧
      ObservedGeneration ready = m_Generation (Meta cluster).
Proof.
  intros Heq. cbn [Reconcile]. intros (t0 & [st r0] & t1 & -> & Hrun & [-> [= -> -> ->]])%returns_bind. rewrite app_nil_r.
  apply reconcilePass_spec in Hrun as (u & st1 & r & Hc & _ & Est & Hend). exists (ps_status st), u, st1, r.
  destruct (summarizeReady_spec (m_Generation (Meta cluster)) (ps_status st1)) as ((ready & Hr & Hg & _) & Hserving & _).
  rewrite <- Est in Hr, Hserving. split; [done|]. split; [done|]. split.
  { intros answer Hin. by destruct (all_effects_returns _ _ _ _ (reconcileCluster_issues _ _ _ _) Hc _ _ _ Hin) as (_ & _ & ?). }
  split; [|split; [|split; [done|by exists ready]]].
  - intros E. destruct (semanticDeepEqual _ _) eqn:Ed; [done|]. by rewrite (proj2 (Heq _ _)) in Ed.
  - intros Hne. destruct (semanticDeepEqual _ _) eqn:Ed; [|done]. by apply Heq in Ed.
Qed.

Import Workloads.Example.
#[local] Existing Instance Api.Example.kube_text.

Lemma status_written_iff_changed_witness :
  ∃ answer, last Reconcile.Example.pass.1.2 = Some (Event EPatchStatus answer).
Proof.
  pose proof (run_returns Reconcile.Example.handle (Reconcile Reconcile.Example.primitives Reconcile.Example.reconciler Reconcile.Example.same (inl Reconcile.Example.cluster) ∅) tt)
    as Hrun.
  fold Reconcile.Example.pass in Hrun. destruct Reconcile.Example.pass as [[s t] [[status shrinks] result]] eqn:E.
  destruct (status_written_iff_changed Reconcile.Example.primitives Reconcile.Example.reconciler Reconcile.Example.cluster Reconcile.Example.same ∅ t status shrinks
    result) as (after & u & st & r & Hs & _ & _ & _ & Hne & _); [intros; apply bool_decide_eq_true|exact Hrun|].
  destruct (decide (after = Status_ Reconcile.Example.cluster)) as [Ha|Ha].
  - exfalso. assert (su_Main <$> Reconcile.Example.pass.2.1.1 = Some "instance_0") as Em by (vm_compute; reflexivity).
    rewrite E in Em. cbn [fst snd] in Em. rewrite Hs, Ha in Em. discriminate Em.
  - destruct (Hne Ha) as (answer & -> & _). exists answer. apply last_snoc.
Defined.
