(* ===== verification/PassShape.v ===== *)
(** * Package controller: the trace of a whole pass

    A run of [Reconcile] cut into the stages that touch what outlives it: the read of the two
    StatefulSets, the apply of the desired objects, and the registration pass. What lies
    between writes no StatefulSet and runs no command. With it goes what a pass leaves in the
    expectations: for each StatefulSet the last write of the registration pass that was
    answered, and otherwise what the read left. *)

From S2P Require Import Prelude GoStrings GoErrors K8s Api Client Planner PlanRun Effects Settings Volumes Rollout.
From S2P Require Import Resources Topology Flags Vector Workloads Monitoring Expectations Status World Exposure Apply.
From S2P Require Import ExposurePass Events SystemUser SettingsPass Replicas VolumePass FlagClasses Connections Registration.
From S2P Require Import Reconcile.

(** ** Definitions *)

(** The writes of a StatefulSet that were answered: the count, and the UID and generation the
    API server gave it. *)
Definition wrote_of (set : string) (ev : event eff) : list (Z * (string * Z)) :=
  match ev with
  | Event (EApplyStatefulSet name count _) (inl answer) => if decide (name = set) then [(count, answer)] else []
  | _ => []
  end.
Definition wrote (set : string) (t : list (event eff)) : list (Z * (string * Z)) := t ≫= wrote_of set.

(** Nothing of the trace writes a StatefulSet or runs a command. *)
Definition calm_mutation (m : mutation) : Prop :=
  match m with MCommand _ | MApply _ _ => False | _ => True end.
Definition calm (t : list (event eff)) : Prop := Forall calm_mutation (mutations t).

(** What a trace leaves in the expectations of a StatefulSet. *)
Definition expects (namespace : string) (t : list (event eff)) (before after : StatefulSets) : Prop :=
  ∀ set, after !! (namespace, set) =
    match last (wrote set t) with
    | Some (_, (uid, generation)) => Some (mkWritten uid generation)
    | None => before !! (namespace, set)
    end.

(** ** Lemmas: traces *)

Lemma wrote_app set t u : wrote set (t ++ u) = wrote set t ++ wrote set u.
Proof. apply bind_app. Qed.
Lemma wrote_cons set ev t : wrote set (ev :: t) = wrote_of set ev ++ wrote set t.
Proof. done. Qed.

Lemma calm_app t u : calm (t ++ u) ↔ calm t ∧ calm u.
Proof. unfold calm. by rewrite mutations_app, Forall_app. Qed.
Lemma calm_nil : calm [].
Proof. constructor. Qed.
Lemma calm_quiet {A} (p : prog eff A) t a : all_effects quiet p → returns p t a → calm t.
Proof. intros Hq Hr. unfold calm. rewrite (quiet_mutations _ _ _ Hq Hr). constructor. Qed.

(** What an event is to the StatefulSet of a role: a command, a write of it that was answered,
    or neither. *)
Lemma event_cases set ev :
  (∃ command, mutation_of ev = [MCommand command] ∧ wrote_of set ev = []) ∨
  (∃ count answer, mutation_of ev = [MApply set count] ∧ wrote_of set ev = [(count, answer)]) ∨
  wrote_of set ev = [] ∧ ∀ command, MCommand command ∉ mutation_of ev.
Proof.
  destruct ev as [X e x]. destruct e; cbn [mutation_of wrote_of];
    try (right; right; split; [done|]; intros command; rewrite ?elem_of_cons, elem_of_nil; naive_solver).
  - left. by eexists.
  - destruct x as [answer|]; [case_decide as E|]; [subst; right; left; by eexists _, _|..];
      right; right; (split; [done|]); by intros command [=]%list_elem_of_singleton.
Qed.

(** A write that was answered is a mutation of the trace. *)
Lemma wrote_mutation set t count answer : (count, answer) ∈ wrote set t → MApply set count ∈ mutations t.
Proof.
  induction t as [|[X e x] t IH]; [by intros ?%elem_of_nil|]. rewrite wrote_cons, mutations_cons, !elem_of_app.
  intros [Hw|?]; [left|right; by apply IH].
  destruct e; try by apply elem_of_nil in Hw. destruct x as [a|]; [|by apply elem_of_nil in Hw]. cbn in Hw.
  case_decide as E; [|by apply elem_of_nil in Hw]. apply list_elem_of_singleton in Hw. simplify_eq. left.
Qed.

Lemma wrote_nil set t : (∀ count, MApply set count ∉ mutations t) → wrote set t = [].
Proof.
  intros Hn. destruct (wrote set t) as [|[count answer] l] eqn:E; [done|].
  destruct (Hn count). apply (wrote_mutation _ _ _ answer). rewrite E. left.
Qed.

Lemma calm_wrote set t : calm t → wrote set t = [].
Proof. intros Hc. apply wrote_nil. intros count Hin. unfold calm in Hc. rewrite Forall_forall in Hc. by apply Hc in Hin. Qed.

Lemma wrote_event set name count claims answer t :
  Event (EApplyStatefulSet name count claims) (inl answer) ∈ t → name = set → (count, answer) ∈ wrote set t.
Proof.
  intros Hin <-. apply list_elem_of_split in Hin as (t1 & t2 & ->). rewrite wrote_app, wrote_cons. cbn.
  rewrite decide_True by done. apply elem_of_app. right. left.
Qed.

Lemma expects_refl namespace t before : (∀ set, wrote set t = []) → expects namespace t before before.
Proof. intros Hw set. by rewrite Hw. Qed.

Lemma expects_app namespace t u before middle after :
  expects namespace t before middle → expects namespace u middle after → expects namespace (t ++ u) before after.
Proof.
  intros H1 H2 set. rewrite H2, H1, wrote_app, last_app. by destruct (last (wrote set u)) as [[? []]|].
Qed.

Lemma expects_calm namespace t u before after :
  expects namespace t before after → calm u → expects namespace (t ++ u) before after.
Proof. intros H1 Hc. eapply expects_app; [exact H1|]. apply expects_refl. intros set. by apply calm_wrote. Qed.

(** ** Lemmas: the expectations of a registration pass *)

Section registration.
Context `{RangeOrder} `{Kube} `{QuantityOrder Quantity} {L : Type} `{ConditionsAPI L}
  (cluster : MemgraphDBCluster L) (reconciler : Reconciler).
Local Abbreviation namespace := (m_Namespace (Meta cluster)).

(** A program that leaves the expectations as they are. *)
Definition keeps_shrinks {B} (st : passState L) : passState L * B → Prop := λ '(st', _), ps_shrinks st' = ps_shrinks st.

Lemma run_commands_keeps leader commands latest (st : passState L) :
  all_results (keeps_shrinks st) (run_commands cluster leader commands latest st).
Proof. induction commands as [|c commands IH]; cbn [run_commands]; [done|]. intros [err|]; [done|apply IH]. Qed.

Lemma roll_keeps roles observed lag latest converged done (st : passState L) :
  all_results (keeps_shrinks st) (roll cluster roles observed lag latest converged done st).
Proof.
  unfold roll. destruct (Next _ _ _ _) as [d|]; [|done]. destruct (de_Action d); [done..|].
  apply all_results_then. intros [err|]; [done|]. by intros [].
Qed.

Lemma reconcileConverged_keeps leader topology reads replicas exposure roles claims observed lag latest (st : passState L) :
  all_results (keeps_shrinks st)
    (reconcileConverged cluster reconciler leader topology reads replicas exposure roles claims observed lag latest st).
Proof.
  unfold reconcileConverged. repeat (apply all_results_then; intros; repeat case_match).
  - done.
  - apply roll_keeps.
Qed.

(** The apply of one StatefulSet. *)
Lemma apply_one_wrote generation name count claims (st : passState L) t st' r :
  returns (applyDesired generation [DStatefulSet name count claims] st) t (st', r) →
  ps_shrinks st' = ps_shrinks st ∧
  ∀ set, wrote set t = match r with
                       | inl applied => if decide (name = set) then [(count, statefulSet applied name)] else []
                       | inr _ => []
                       end.
Proof.
  unfold applyDesired. cbn [apply_loop]. intros ([err|] & t1 & -> & Hrun)%returns_trigger; cbn [mbind prog_bind] in Hrun.
  { by destruct Hrun as [-> [= -> ->]]. }
  apply returns_trigger in Hrun as ([answer|err] & t2 & -> & Hrun); cbn [mbind prog_bind] in Hrun;
    destruct Hrun as [-> [= -> ->]]; (split; [done|]); intros set; rewrite !wrote_cons; [|done].
  cbn [wrote_of app apply]. rewrite app_nil_r. case_decide; [|done]. unfold statefulSet, appliedKey. cbn [desired_kind desired_name].
  change ("StatefulSet" ^^ "/" ^^ name) with ("StatefulSet/" ^^ name). by rewrite lookup_insert_eq.
Qed.

(** A write of the loop is expected as it was answered. *)
Lemma shed_roles_expects roles (st : passState L) t st' err :
  returns (shed_roles cluster roles st) t (st', err) → expects namespace t (ps_shrinks st) (ps_shrinks st').
Proof.
  revert st t. induction roles as [|role roles IH]; intros st t Hrun; cbn [shed_roles] in Hrun.
  { destruct Hrun as [-> [= -> _]]. by apply expects_refl. }
  case_decide; [by apply IH|].
  apply returns_bind in Hrun as (t1 & [st1 r] & t2 & -> & Hw & Hrun).
  apply apply_one_wrote in Hw as [Hs Hw]. rewrite <- Hs. destruct r as [applied|e].
  - destruct (statefulSet applied _) as [uid generation] eqn:E.
    apply returns_trigger in Hrun as (u & t3 & -> & Hrun). cbn [mbind prog_bind] in Hrun. apply IH in Hrun.
    eapply expects_app; [|exact Hrun]. intros set. rewrite Hw. cbn [ps_shrinks]. unfold Expect.
    case_decide as En; [subst set; by rewrite lookup_insert_eq|].
    rewrite lookup_insert_ne; [done|]. by intros [= ?].
  - destruct Hrun as [-> [= -> _]]. rewrite app_nil_r. by apply expects_refl.
Qed.

Lemma finishRetirement_expects topology retiring replicas observed latest (st : passState L) t st' r :
  returns (finishRetirement cluster topology retiring replicas observed latest st) t (st', r) →
  expects namespace t (ps_shrinks st) (ps_shrinks st').
Proof.
  unfold finishRetirement. destruct (negb _); [intros [-> [= -> _]]; by apply expects_refl|].
  intros (t1 & [st1 err] & t2 & -> & Hs%shed_roles_expects & Hrun)%returns_bind.
  assert (t2 = [] ∧ ps_shrinks st' = ps_shrinks st1) as [-> ->] by (by destruct err; destruct Hrun as [-> [= -> _]]).
  by rewrite app_nil_r.
Qed.

(** A program that keeps the expectations and writes no StatefulSet. *)
Lemma keeps_expects {B} (p : prog eff (passState L * B)) (st : passState L) t st' r :
  all_results (keeps_shrinks st) p → returns p t (st', r) → (∀ set count, MApply set count ∉ mutations t) →
  expects namespace t (ps_shrinks st) (ps_shrinks st').
Proof.
  intros Hk Hr Hm. pose proof (all_results_returns _ _ _ _ Hk Hr) as E. cbn in E. rewrite E.
  apply expects_refl. intros set. apply wrote_nil, Hm.
Qed.

Lemma register_expects leader topology reads replicas exposure roles claims observed (st : passState L) t st' r :
  returns (register cluster reconciler leader topology reads replicas exposure roles claims observed st) t (st', r) →
  expects namespace t (ps_shrinks st) (ps_shrinks st').
Proof.
  intros Hreg. pose proof Hreg as Hrun. unfold register in Hrun.
  apply returns_trigger in Hrun as (answer & t1 & -> & Hrun). cbn [mbind prog_bind] in Hrun.
  change (Event (EShowReplicationLag leader) answer :: t1) with ([Event (EShowReplicationLag leader) answer] ++ t1).
  eapply expects_app; [by apply expects_refl|]. case_decide; [case_decide|].
  - by apply finishRetirement_expects in Hrun.
  - eapply keeps_expects; [apply reconcileConverged_keeps|exact Hrun|].
    apply reconcileConverged_spec in Hrun as (u & v & classes & applied & roles' & waitFor & -> & Hq & _ & _ & _ & Hroll).
    rewrite mutations_app, Hq. destruct waitFor; [destruct Hroll as [-> _]; by intros ? ? ?%elem_of_nil|].
    apply roll_mutations in Hroll as [->|(d & _ & _ & ->)]; [by intros ? ? ?%elem_of_nil|].
    by intros set count [=]%list_elem_of_singleton.
  - apply (keeps_expects _ (set_status cluster st (exposedAt (Status.observe topology observed) exposure)
      [servingOrNot (ob_main (exposedAt (Status.observe topology observed) exposure)); inProgress
        (Planner.Plan topology observed match answer with inl lag => lag | inr _ => [] end) (retirementMessage topology)])
      t1 st' r) in Hrun; [done|apply run_commands_keeps|].
    apply run_commands_mutations in Hrun as [k ->]. by intros set count (? & ? & _)%list_elem_of_fmap.
Qed.

Lemma reconcileRegistration_expects reads replicas exposure roles claims (st : passState L) t st' result :
  returns (reconcileRegistration cluster reconciler reads replicas exposure roles claims st) t (st', result) →
  expects namespace t (ps_shrinks st) (ps_shrinks st').
Proof.
  unfold reconcileRegistration. destruct (workloadsReady replicas roles); cbn [negb];
    [|intros [-> [= -> _]]; by apply expects_refl].
  intros (u & r & v & -> & Hobs & Hrun)%returns_bind.
  pose proof (calm_quiet _ _ _ (observe_loop_quiet _ _ _ _) Hobs) as Hc.
  eapply expects_app; [apply expects_refl; intros set; by apply calm_wrote|].
  destruct r as [[leader observed]|err].
  - apply returns_bind in Hrun as (w & [st1 r1] & x & -> & Hreg & Hrun).
    apply returns_trigger in Hrun as (closed & y & -> & [-> [= -> ->]]). apply register_expects in Hreg.
    eapply expects_calm; [exact Hreg|constructor].
  - destruct (errors_Is _ _); destruct Hrun as [-> [= -> _]]; by apply expects_refl.
Qed.
End registration.

(** ** Lemmas: the stages before it *)

Section stages.
Context `{RangeOrder} `{Kube} `{QuantityOrder Quantity} {L : Type} `{ConditionsAPI L}
  (primitives : Primitives) (reconciler : Reconciler) (cluster : MemgraphDBCluster L).
Local Abbreviation namespace := (m_Namespace (Meta cluster)).

Lemma apply_loop_keeps generation desired applied (st : passState L) :
  all_results (keeps_shrinks st) (apply_loop generation desired applied st).
Proof.
  revert applied. induction desired as [|d desired IH]; intros applied; cbn [apply_loop]; [done|].
  intros [err|]; [done|]. intros [answer|err]; [apply IH|done].
Qed.

Lemma reconcileSystemUser_keeps key matches (st : passState L) :
  all_results (keeps_shrinks st) (reconcileSystemUser key matches cluster st).
Proof.
  assert (∀ hash, all_results (keeps_shrinks st) (applyHash cluster hash st)) as Ha by (intros; apply apply_loop_keeps).
  assert (∀ password fips existed, all_results (keeps_shrinks st) (writeHash key cluster password fips existed st)) as Hw.
  { intros. unfold writeHash. apply all_results_then. intros [hash|err]; [|done].
    eapply all_results_bind; [apply Ha|]. intros [st1 [applied|err]] E; [|done]. by intros []. }
  unfold reconcileSystemUser. apply all_results_then. intros [password|err]; [|done].
  apply all_results_then. intros [fips|err]; [|done]. apply all_results_then. intros [current|err]; unfold settleHash.
  - case_match; [|apply Hw]. eapply all_results_bind; [apply Ha|]. by intros [st1 r] E.
  - case_match; [apply Hw|done].
Qed.

Lemma reconcileSystemUser_calm key matches (st : passState L) t st' r :
  returns (reconcileSystemUser key matches cluster st) t (st', r) → calm t ∧ ps_shrinks st' = ps_shrinks st.
Proof.
  intros Hr. split; [|exact (all_results_returns _ _ _ _ (reconcileSystemUser_keeps _ _ _) Hr)].
  apply reconcileSystemUser_spec in Hr as [Hw _]. apply Forall_forall. intros m.
  by intros [->| ->]%(only_writes_mutations cluster _ _ _ Hw).
Qed.

Lemma volumes_calm ns roles t out : returns (reconcileVolumes ns roles) t out → calm t.
Proof.
  destruct out as [outcome result]. intros (_ & grown & orphaned & Hm & Hg & Ho)%volumes_loop_spec. unfold calm. rewrite Hm.
  apply Forall_app. split.
  - apply (Forall_impl _ _ _ Hg). by intros m (? & ? & ? & ? & _ & _ & _ & _ & _ & _ & ->).
  - destruct Ho as [->|(m & -> & (? & ? & ? & _ & _ & _ & -> & _) & _)]; by repeat constructor.
Qed.

Lemma pruning_calm ns selector keep kinds t err : returns (prune_kinds ns selector keep kinds) t err → calm t.
Proof.
  intros [Hm _]%prune_kinds_spec. apply Forall_forall. by intros m (? & ? & ? & _ & _ & _ & _ & _ & ->)%Hm.
Qed.

(** From the exposure to the end: a calm trace, the registration pass if it is reached, and
    the expectations it leaves. *)
Definition registration_of (t : list (event eff)) (replicas : replicaCounts) (before after : StatefulSets) : Prop :=
  (calm t ∧ after = before) ∨
  ∃ quiet_ tr reads exposure roles claims (st : passState L) st' result, t = quiet_ ++ tr ∧ calm quiet_ ∧ ps_shrinks st = before ∧
    returns (reconcileRegistration cluster reconciler reads replicas exposure roles claims st) tr (st', result) ∧
    ps_shrinks st' = after.

Lemma registration_of_after t u replicas before after :
  calm t → registration_of u replicas before after → registration_of (t ++ u) replicas before after.
Proof.
  intros Hc [[Hu ->]|(q & tr & reads & e & roles & claims & st & st' & r & -> & Hq & Hx)]; [left; split; [by apply calm_app|done]|].
  right. exists (t ++ q), tr, reads, e, roles, claims, st, st', r. rewrite app_assoc. split; [done|]. split; [by apply calm_app|done].
Qed.

Lemma observeAndRegister_shape replicas claims applied (st : passState L) t st' r :
  returns (observeAndRegister reconciler cluster replicas claims applied st) t (st', r) →
  registration_of t replicas (ps_shrinks st) (ps_shrinks st').
Proof.
  unfold observeAndRegister. intros (t1 & exposure & t2 & -> & Hx & Hrun)%returns_bind.
  apply registration_of_after; [exact (calm_quiet _ _ _ (proj1 (observeExternalAccess_quiet cluster reconciler)) Hx)|].
  destruct exposure as [exposure|err]; [|destruct Hrun as [-> [= -> _]]; left; by split; [apply calm_nil|]].
  apply returns_bind in Hrun as (t3 & roles & t4 & -> & Hro & Hrun).
  apply registration_of_after; [exact (calm_quiet _ _ _ (proj1 (observeRollout_effects _ _ _ _)) Hro)|].
  destruct roles as [roles|err]; [|destruct Hrun as [-> [= -> _]]; left; by split; [apply calm_nil|]].
  apply returns_bind in Hrun as (t5 & [reads license] & t6 & -> & Hl & Hrun).
  apply registration_of_after; [exact (calm_quiet _ _ _ (reconcileLicense_quiet cluster _ _ _ _ _) Hl)|].
  right. eexists [], t6, reads, exposure, roles, claims, _, st', r.
  split; [done|]. split; [apply calm_nil|]. split; [|split; [exact Hrun|done]]. done.
Qed.

(** Applying and pruning: the apply of the desired objects, and, when it went through, the rest. *)
Lemma applyAndPrune_shape replicas claims (st : passState L) t st' r :
  returns (applyAndPrune primitives reconciler cluster replicas claims st) t (st', r) →
  ∃ ta post st1 r1, t = ta ++ post ∧
    returns (applyDesired (m_Generation (Meta cluster)) (desiredObjects primitives reconciler cluster replicas) st) ta (st1, r1) ∧
    match r1 with
    | inr _ => post = [] ∧ ps_shrinks st' = ps_shrinks st
    | inl _ => registration_of post replicas (ps_shrinks st) (ps_shrinks st')
    end.
Proof.
  unfold applyAndPrune. intros (t1 & [st1 r1] & t2 & -> & Ha & Hrun)%returns_bind. exists t1, t2, st1, r1.
  split; [done|]. split; [done|]. pose proof (all_results_returns _ _ _ _ (apply_loop_keeps _ _ _ _) Ha) as Es. cbn in Es.
  destruct r1 as [applied|err]; [|by destruct Hrun as [-> [= -> _]]]. rewrite <- Es.
  apply returns_bind in Hrun as (t3 & e1 & t4 & -> & Hp%pruning_calm & Hrun). apply registration_of_after; [done|].
  destruct e1 as [err|]; [destruct Hrun as [-> [= -> _]]; left; by split; [apply calm_nil|]|].
  apply returns_bind in Hrun as (t5 & e2 & t6 & -> & Hp2%pruning_calm & Hrun). apply registration_of_after; [done|].
  destruct e2 as [err|]; [destruct Hrun as [-> [= -> _]]; left; by split; [apply calm_nil|]|].
  by eapply observeAndRegister_shape.
Qed.

(** The part of a pass between the counts and its end. *)
Definition worked_through (t : list (event eff)) (replicas : replicaCounts) (before after : StatefulSets) : Prop :=
  ∃ pre ta post (st st1 : passState L) r1, t = pre ++ ta ++ post ∧ calm pre ∧
    returns (applyDesired (m_Generation (Meta cluster)) (desiredObjects primitives reconciler cluster replicas) st) ta (st1, r1) ∧
    match r1 with
    | inr _ => calm post ∧ after = before
    | inl _ => registration_of post replicas before after
    end.

Lemma growAndApply_shape replicas (st : passState L) t st' r :
  returns (growAndApply primitives reconciler cluster replicas st) t (st', r) →
  (calm t ∧ ps_shrinks st' = ps_shrinks st) ∨ worked_through t replicas (ps_shrinks st) (ps_shrinks st').
Proof.
  unfold growAndApply. intros (t1 & [claims result] & t2 & -> & Hv%volumes_calm & Hrun)%returns_bind.
  destruct result; [|destruct Hrun as [-> [= -> _]]; left; (split; [by apply calm_app; split; [|apply calm_nil]|done])..].
  apply applyAndPrune_shape in Hrun as (ta & post & st1 & r1 & -> & Ha & Hp). right. exists t1, ta, post, st, st1, r1.
  do 3 (split; [done|]). destruct r1; [done|]. destruct Hp as [-> ->]. by split; [apply calm_nil|].
Qed.

Lemma reconcileCluster_shape (st : passState L) t st' r :
  returns (reconcileCluster primitives reconciler cluster st) t (st', r) →
  ∃ tc shrinks counts rest, t = tc ++ rest ∧ calm tc ∧
    returns (resolveReplicaCounts cluster (ps_shrinks st)) tc (shrinks, counts) ∧
    ((calm rest ∧ ps_shrinks st' = shrinks) ∨
     ∃ replicas, counts = inl replicas ∧ rc_unseenShrinks replicas = [] ∧ worked_through rest replicas shrinks (ps_shrinks st')).
Proof.
  unfold reconcileCluster. intros (tc & [shrinks counts] & rest & -> & Hc & Hrun)%returns_bind.
  pose proof (calm_quiet _ _ _ (proj1 (resolveReplicaCounts_effects cluster _)) Hc) as Hcalm.
  exists tc, shrinks, counts, rest. do 3 (split; [done|]).
  destruct counts as [replicas|err]; [|destruct Hrun as [-> [= -> _]]; left; by split; [apply calm_nil|]].
  destruct (rc_unseenShrinks replicas) as [|unseen unseens] eqn:Eu; cbn [length Nat.ltb Nat.leb] in Hrun;
    [|destruct Hrun as [-> [= -> _]]; left; by split; [apply calm_nil|]].
  apply returns_bind in Hrun as (t3 & [st1 password] & t4 & -> & [Hs Es]%reconcileSystemUser_calm & Hrun).
  cbn [ps_shrinks] in Es. destruct password as [password|err].
  - apply growAndApply_shape in Hrun as [[Hg ->]|(pre & ta & post & st2 & st3 & r1 & -> & Hp & Hx)].
    + left. split; [by apply calm_app|done].
    + right. exists replicas. do 2 (split; [done|]). exists (t3 ++ pre), ta, post, st2, st3, r1.
      rewrite <- app_assoc, <- Es. split; [done|]. split; [by apply calm_app|done].
  - destruct Hrun as [-> [= -> _]]. left. rewrite app_nil_r. by split.
Qed.
End stages.

(** A whole pass, from the read of the counts to the expectations it leaves. *)
Lemma Reconcile_shape `{RangeOrder} `{Kube} `{QuantityOrder Quantity} {L} `{ConditionsAPI L} primitives reconciler
    (cluster : MemgraphDBCluster L) semanticDeepEqual shrinks t status shrinks' result :
  returns (Reconcile primitives reconciler semanticDeepEqual (inl cluster) shrinks) t (status, shrinks', result) →
  ∃ tc resolved_ counts rest fin, t = tc ++ rest ++ fin ∧ calm tc ∧ calm fin ∧
    returns (resolveReplicaCounts cluster shrinks) tc (resolved_, counts) ∧
    ((calm rest ∧ shrinks' = resolved_) ∨
     ∃ replicas, counts = inl replicas ∧ rc_unseenShrinks replicas = [] ∧
       worked_through primitives reconciler cluster rest replicas resolved_ shrinks').
Proof.
  cbn [Reconcile]. intros (t0 & [st r0] & t1 & -> & Hrun & [-> [= -> -> ->]])%returns_bind. rewrite app_nil_r.
  apply reconcilePass_spec in Hrun as (u & st1 & r & Hc & -> & _ & Hend).
  apply reconcileCluster_shape in Hc as (tc & s & counts & rest & -> & Hcalm & Hres & Hx).
  assert (∃ fin, t0 = (tc ++ rest) ++ fin ∧ calm fin) as (fin & -> & Hfin).
  { destruct (semanticDeepEqual _ _); [exists []; destruct Hend as [-> _]; by rewrite app_nil_r; split; [|apply calm_nil]|].
    destruct Hend as (answer & -> & _). eexists. split; [done|]. by repeat constructor. }
  exists tc, s, counts, rest, fin. rewrite <- app_assoc. by repeat (split; [done|]).
Qed.
