(* ===== verification/Operator.v ===== *)
(** * The operator over time

    What the passes of one cluster amount to, one after another. The world outside is a role's
    StatefulSet, as the list of versions the API server had of it, deletions included, with
    the one the operator's cache shows, which may be any not older than the last one read; and
    the members the coordinators hold. A step is a whole pass of Reconcile.v over a spec that
    may have been edited since the last one, or a pass cut short anywhere by the process
    ending, after which the expectations are gone and the cache is filled anew. A pass that
    grows a volume deletes the StatefulSet and leaves its pods; a later one that does not find
    it reads the count off them and creates it again. What the theorems ask of the outside
    beyond [sees] is stated per pass: [keeps_pods] and [keeps_counts]. *)

From S2P Require Import Prelude GoStrings GoErrors K8s Api Client Planner PlanRun Effects Settings Volumes Rollout.
From S2P Require Import Resources Topology Flags Vector Workloads Monitoring Expectations Status World Exposure Apply.
From S2P Require Import ExposurePass Events SystemUser SettingsPass Replicas VolumePass FlagClasses Connections Registration.
From S2P Require Import Reconcile PassShape.

(** ** Definitions *)

Inductive RoleKind := Coordinating | Serving.

(** The StatefulSet as a write left it at the API server. *)
Record write := mkWrite { wr_uid : string; wr_generation : Z; wr_replicas : Z }.

(** The versions of a role's StatefulSet, oldest first, [None] where it was deleted; the one
    the cache shows; and the members of the Memgraph cluster, by name. *)
Record world := mkWorld { wo_versions : list (option write); wo_cache : nat; wo_members : gset string }.

(** The StatefulSet there is, and the one there was last: a deletion leaves its pods. *)
Definition current (s : world) : option write := mjoin (last (wo_versions s)).
Definition latest (s : world) : option write := last (omap id (wo_versions s)).

(** The number of pods the role runs. *)
Definition live (s : world) : Z := match latest s with Some w => wr_replicas w | None => 0%Z end.

(** What a registration command makes of the members. *)
Definition joined (command : Command) (members : gset string) : gset string :=
  match command with
  | AddCoordinator c => {[ c_Name c ]} ∪ members
  | RegisterInstance i => {[ d_Name i ]} ∪ members
  | UnregisterInstance name => members ∖ {[ name ]}
  | RemoveCoordinator c => members ∖ {[ c_Name c ]}
  | _ => members
  end.

(** A row of a member: every member was given a Bolt server when it joined. *)
Definition has_row (rows : list Instance) (name : string) : Prop :=
  ∃ row, Planner.index rows !! name = Some row ∧ i_BoltServer row ≠ "".

Section role.
Context (kind : RoleKind) (namespace name : string).

Definition setName : string := match kind with Coordinating => CoordinatorName name | Serving => DataName name end.
Definition podSelector : gmap string string :=
  match kind with Coordinating => CoordinatorPodSelector name | Serving => DataPodSelector name end.
Definition memberName (ordinal : Z) : string :=
  match kind with Coordinating => CoordinatorInstanceName ordinal | Serving => DataInstanceName ordinal end.
Definition countOf (replicas : replicaCounts) : roleReplicas :=
  match kind with Coordinating => rc_coordinators replicas | Serving => rc_data replicas end.
Definition declaredOf `{Kube} {L} (cluster : MemgraphDBCluster L) : Z :=
  match kind with Coordinating => DeclaredCoordinators cluster | Serving => DeclaredDataInstances cluster end.

(** What an event of a pass tells of the world, and makes of it. A read shows a version that
    is not older than the last one read. The API server raises the generation with every
    change of the count, gives a StatefulSet that is created a UID of its own, and deletes
    one only under the UID it has; a call it refuses changes nothing; a command that fails may
    have been carried out; and a view that names a leader lists every member. *)
Definition sees (ev : event eff) (s s' : world) : Prop :=
  match ev with
  | Event (EGetStatefulSet ns set) r =>
      if decide (ns = namespace ∧ set = setName)
      then match r with
           | inl sts => ∃ j w, wo_cache s ≤ j ∧ wo_versions s !! j = Some (Some w) ∧ ks_UID sts = wr_uid w ∧
               ks_Generation sts = wr_generation w ∧ ks_SpecReplicas sts = Some (wr_replicas w) ∧
               s' = mkWorld (wo_versions s) j (wo_members s)
           | inr err =>
               if IsNotFound err
               then ∃ j, wo_cache s ≤ j ∧ wo_versions s !! j = Some None ∧ s' = mkWorld (wo_versions s) j (wo_members s)
               else s' = s
           end
      else s' = s
  | Event (EApplyStatefulSet set count _) (inl (uid, generation)) =>
      if decide (set = setName)
      then match current s with
           | Some w => uid = wr_uid w ∧ (wr_generation w ≤ generation)%Z ∧
               (wr_replicas w ≠ count → (wr_generation w < generation)%Z)
           | None => ∀ w, Some w ∈ wo_versions s → wr_uid w ≠ uid
           end ∧
           s' = mkWorld (wo_versions s ++ [Some (mkWrite uid generation count)]) (wo_cache s) (wo_members s)
      else s' = s
  | Event (ERun _ command) r =>
      s' = mkWorld (wo_versions s) (wo_cache s) (joined command (wo_members s)) ∨ (is_Some r ∧ s' = s)
  | Event (EShowInstances _) (inl rows) =>
      (observedLeader rows ≠ "" → ∀ n, n ∈ wo_members s → has_row rows n) ∧ s' = s
  | Event (EOrphanStatefulSet ns set uid) None =>
      if decide (ns = namespace ∧ set = setName)
      then (∃ w, current s = Some w ∧ wr_uid w = uid) ∧ s' = mkWorld (wo_versions s ++ [None]) (wo_cache s) (wo_members s)
      else s' = s
  | _ => s' = s
  end.

Fixpoint seen (t : list (event eff)) (s s' : world) : Prop :=
  match t with
  | [] => s' = s
  | ev :: t => ∃ s1, sees ev s s1 ∧ seen t s1 s'
  end.

(** ** What the outside may do to a pass *)

(** No growth is outstanding below which the spec has been lowered: where the pass reads a
    copy of the StatefulSet, the live count is at most the declared count or the copy's. *)
Definition growth_shown (declared : Z) (t : list (event eff)) (s : world) : Prop :=
  ∀ sts, Event (EGetStatefulSet namespace setName) (inl sts) ∈ t →
    (live s ≤ Z.max declared (default 0%Z (ks_SpecReplicas sts)))%Z.

(** The pods a pass lists that finds no StatefulSet. *)
Definition left_behind (t : list (event eff)) (pods : list KPod) : Prop :=
  ∃ err, Event (EGetStatefulSet namespace setName) (inr err) ∈ t ∧ IsNotFound err = true ∧
    Event (EListPods namespace podSelector) (inl pods) ∈ t.

(** The pods that run the members are among them; so is the last one, or it was to be
    declared anyway; and there are no more of them than ran. *)
Definition members_listed (t : list (event eff)) (s : world) : Prop :=
  ∀ pods o, left_behind t pods → memberName o ∈ wo_members s → (o < live s)%Z →
    (0 ≤ o < 2 ^ 31 - 1)%Z ∧ PodName setName o ∈ kp_Name <$> pods.
Definition last_listed (declared : Z) (t : list (event eff)) (s : world) : Prop :=
  ∀ pods, left_behind t pods →
    (live s ≤ declared)%Z ∨ (0 < live s < 2 ^ 31)%Z ∧ PodName setName (live s - 1) ∈ kp_Name <$> pods.
Definition none_beyond (t : list (event eff)) (s : world) : Prop :=
  ∀ pods o, left_behind t pods → PodName setName o ∈ kp_Name <$> pods → (o < live s)%Z.

(** What a pass writes is the StatefulSet it read a copy of, when it read one. *)
Definition one_object (t : list (event eff)) : Prop :=
  ∀ sts count uid generation, Event (EGetStatefulSet namespace setName) (inl sts) ∈ t →
    (count, (uid, generation)) ∈ wrote setName t → uid = ks_UID sts.

(** A new process lists the StatefulSet before its first pass. *)
Definition restarted (s : world) : world := mkWorld (wo_versions s) (pred (length (wo_versions s))) (wo_members s).

(** The operator between passes: the world, and the expectations of the process. A step is a
    pass, or one cut short, that the outside is [fair] to. *)
Inductive step (fair : Z → list (event eff) → world → Prop)
    `{RangeOrder} `{Kube} `{QuantityOrder Quantity} {L} `{ConditionsAPI L} :
    world * StatefulSets → world * StatefulSets → Prop :=
| step_pass primitives reconciler semanticDeepEqual (cluster : MemgraphDBCluster L) t status result s s' shrinks shrinks' :
    m_Namespace (Meta cluster) = namespace → m_Name (Meta cluster) = name →
    returns (Reconcile primitives reconciler semanticDeepEqual (inl cluster) shrinks) t (status, shrinks', result) →
    seen t s s' → fair (declaredOf cluster) t s →
    step fair (s, shrinks) (s', shrinks')
| step_crash primitives reconciler semanticDeepEqual (cluster : MemgraphDBCluster L) t u status result s s' shrinks shrinks' :
    m_Namespace (Meta cluster) = namespace → m_Name (Meta cluster) = name →
    returns (Reconcile primitives reconciler semanticDeepEqual (inl cluster) shrinks) t (status, shrinks', result) →
    u `prefix_of` t → seen u s s' → fair (declaredOf cluster) u s →
    step fair (s, shrinks) (restarted s', ∅).

(** The outside keeps the pods of a role whose StatefulSet is deleted, and no growth is
    undone before it is seen. *)
Definition keeps_pods (declared : Z) (t : list (event eff)) (s : world) : Prop :=
  growth_shown declared t s ∧ members_listed t s.

(** No growth is undone before it is seen, with or without a StatefulSet, and no pass writes
    another object than it read. *)
Definition keeps_counts (declared : Z) (t : list (event eff)) (s : world) : Prop :=
  growth_shown declared t s ∧ last_listed declared t s ∧ one_object t.

(** One object's generations go up, one generation is one count, and an object that is
    deleted does not come back. *)
Definition ordered (l : list (option write)) : Prop :=
  ∀ i k j wi wj, i ≤ k ≤ j → l !! i = Some (Some wi) → l !! j = Some (Some wj) → wr_uid wi = wr_uid wj →
    (wr_generation wi ≤ wr_generation wj)%Z ∧ (wr_generation wi = wr_generation wj → wr_replicas wi = wr_replicas wj) ∧
    ∃ wk, l !! k = Some (Some wk) ∧ wr_uid wk = wr_uid wi.

(** A process that has just started, whatever became of the StatefulSet before, over members
    that all run. *)
Definition starts (s : world) : Prop :=
  wo_versions s ≠ [] ∧ ordered (wo_versions s) ∧ wo_cache s = pred (length (wo_versions s)) ∧
  ∀ o, memberName o ∈ wo_members s → (o < live s)%Z.

(** ** What a pass may do to a role *)

(** A mutation after the events [past] of a pass that resolved the count [applied] and whose
    spec declares [declared]: a member joins below the count once that was written, and the
    count only drops to the declared one, after a view without any of the members above it. *)
Definition law (applied declared : Z) (past : list (event eff)) (m : mutation) : Prop :=
  match m with
  | MCommand command =>
      wrote setName past ≠ [] ∧ (∀ count answer, (count, answer) ∈ wrote setName past → count = applied) ∧
      ∀ o members, memberName o ∈ joined command members → memberName o ∈ members ∨ (o < applied)%Z
  | MApply set count =>
      set = setName → count = applied ∨
      count = declared ∧ (declared ≤ applied)%Z ∧ (∀ command, MCommand command ∉ mutations past) ∧
      ∃ c rows, Event (EShowInstances c) (inl rows) ∈ past ∧ observedLeader rows ≠ "" ∧
        ∀ o, (declared ≤ o < applied)%Z → ¬ has_row rows (memberName o)
  | _ => True
  end.

Fixpoint lawful (applied declared : Z) (past t : list (event eff)) : Prop :=
  match t with
  | [] => True
  | ev :: t => Forall (law applied declared past) (mutation_of ev) ∧ lawful applied declared (past ++ [ev]) t
  end.

(** ** Lemmas: the world along a trace *)

Definition taken (w : Z * (string * Z)) : write := mkWrite w.2.1 w.2.2 w.1.

(** The versions an event adds. *)
Definition versions_of (ev : event eff) : list (option write) :=
  match ev with
  | Event (EApplyStatefulSet set count _) (inl answer) => if decide (set = setName) then [Some (taken (count, answer))] else []
  | Event (EOrphanStatefulSet ns set _) None => if decide (ns = namespace ∧ set = setName) then [None] else []
  | _ => []
  end.

Lemma versions_wrote ev : omap id (versions_of ev) = taken <$> wrote_of setName ev.
Proof.
  destruct ev as [X e x]. destruct e; try done; cbn; destruct x; try done; by case_decide.
Qed.

Lemma versions_wrote_all t : omap id (t ≫= versions_of) = taken <$> wrote setName t.
Proof.
  induction t as [|ev t IH]; [done|]. rewrite bind_cons, wrote_cons, omap_app, fmap_app, versions_wrote. by rewrite IH.
Qed.

Lemma seen_app t u s s' : seen (t ++ u) s s' ↔ ∃ s1, seen t s s1 ∧ seen u s1 s'.
Proof.
  revert s. induction t as [|ev t IH]; intros s; cbn [app seen].
  - split; [intros Hu; by exists s|]. by intros (? & -> & ?).
  - setoid_rewrite IH. naive_solver.
Qed.

(** An event's part of the world, by projection. *)
Lemma sees_world ev s s' :
  sees ev s s' →
  wo_versions s' = wo_versions s ++ versions_of ev ∧ wo_cache s ≤ wo_cache s' ∧
  match mutation_of ev with
  | [MCommand command] => wo_members s' = joined command (wo_members s) ∨ wo_members s' = wo_members s
  | _ => wo_members s' = wo_members s
  end.
Proof.
  destruct ev as [X e x]. destruct e; cbn; try (intros ->; by rewrite app_nil_r).
  - destruct x; [intros [_ ->]|intros ->]; by rewrite app_nil_r.
  - intros [->|[_ ->]]; cbn; rewrite app_nil_r; auto.
  - case_decide; [|intros ->; by rewrite app_nil_r]. destruct x as [sts|err].
    + intros (j & w & ? & _ & _ & _ & _ & ->). cbn. by rewrite app_nil_r.
    + destruct (IsNotFound err); [intros (j & ? & _ & ->)|intros ->]; cbn; by rewrite app_nil_r.
  - destruct x as [[written_ g]|]; [|intros ->; by rewrite app_nil_r].
    case_decide; [|intros ->; by rewrite app_nil_r]. by intros (_ & ->).
  - destruct x; [intros ->; by rewrite app_nil_r|]. case_decide; [intros [_ ->]; done|intros ->; by rewrite app_nil_r].
Qed.

Lemma seen_versions t s s' : seen t s s' → wo_versions s' = wo_versions s ++ (t ≫= versions_of).
Proof.
  revert s. induction t as [|ev t IH]; intros s; cbn [seen]; [intros ->; by rewrite app_nil_r|].
  intros (s1 & (Hw & _)%sees_world & ->%IH). by rewrite Hw, bind_cons, app_assoc.
Qed.

Lemma seen_latest t s s' :
  seen t s s' → latest s' = match last (wrote setName t) with Some w => Some (taken w) | None => latest s end.
Proof.
  intros Hs%seen_versions. unfold latest. rewrite Hs, omap_app, last_app, versions_wrote_all, fmap_last.
  by destruct (last (wrote setName t)).
Qed.

Lemma seen_live t s s' :
  seen t s s' → live s' = match last (wrote setName t) with Some (count, _) => count | None => live s end.
Proof. intros Hs%seen_latest. unfold live. rewrite Hs. by destruct (last (wrote setName t)) as [[? []]|]. Qed.

(** No command of the trace, no change of the members; and a view that names a leader lists them. *)
Lemma seen_members t s s' :
  seen t s s' → (∀ command, MCommand command ∉ mutations t) →
  wo_members s' = wo_members s ∧
  ∀ c rows n, Event (EShowInstances c) (inl rows) ∈ t → observedLeader rows ≠ "" → n ∈ wo_members s → has_row rows n.
Proof.
  revert s. induction t as [|ev t IH]; intros s; cbn [seen].
  { intros -> _. split; [done|]. by intros ? ? ? ?%elem_of_nil. }
  intros (s1 & He & Ht) Hn. rewrite mutations_cons in Hn. setoid_rewrite elem_of_app in Hn.
  destruct (IH s1 Ht) as [Hm Hv]; [naive_solver|].
  assert (wo_members s1 = wo_members s) as E.
  { destruct (sees_world _ _ _ He) as (_ & _ & Hc). destruct (mutation_of ev) as [|[] []] eqn:Em; try done.
    destruct (Hn command). left. left. }
  split; [congruence|]. intros c rows n [<-|Hin]%elem_of_cons Hl Hm0; [|apply (Hv c); by rewrite ?E].
  destruct He as [Hr _]. by apply Hr.
Qed.

(** ** Lemmas: a lawful trace sheds no member *)

(** Every member's pod runs. *)
(** Every member's ordinal is below a count. *)
Definition below (s : world) (count : Z) : Prop := ∀ o, memberName o ∈ wo_members s → (o < count)%Z.
Definition members_run (s : world) : Prop := below s (live s).

Lemma law_keeps applied declared past ev s0 s s' :
  below s applied → seen past s0 s → members_run s →
  Forall (law applied declared past) (mutation_of ev) → sees ev s s' →
  members_run s' ∧ below s' applied.
Proof.
  intros Hle Hpast Hrun Hlaw He. pose proof (sees_world _ _ _ He) as (_ & _ & Hm).
  assert (live s' = match last (wrote_of setName ev) with Some (count, _) => count | None => live s end) as Hlive.
  { rewrite (seen_live [ev] s s') by (by exists s'). unfold wrote. cbn. by rewrite app_nil_r. }
  unfold members_run, below in *.
  destruct (event_cases setName ev) as [(command & Em & Ew)|[(count & answer & Em & Ew)|[Ew Hno]]]; rewrite Ew in Hlive; cbn in Hlive.
  - rewrite Em in Hm, Hlaw. rewrite Forall_singleton in Hlaw. destruct Hlaw as (Hne & Hall & Hjoin).
    assert (live s = applied) as Ha.
    { rewrite (seen_live _ _ _ Hpast). destruct (last (wrote setName past)) as [[count [u g]]|] eqn:El.
      - apply last_Some_elem_of in El. by apply Hall in El.
      - by apply last_None in El. }
    rewrite Hlive, Ha in *. assert (∀ o, memberName o ∈ wo_members s' → (o < applied)%Z) as Hn; [|done].
    intros o Ho. destruct Hm as [Hm|Hm]; rewrite Hm in Ho; [|by apply Hrun].
    apply Hjoin in Ho as [Ho|Ho]; [by apply Hrun|done].
  - rewrite Em in Hm, Hlaw. rewrite Forall_singleton in Hlaw. rewrite Hm, Hlive.
    destruct (Hlaw eq_refl) as [->|(-> & Hda & Hno & c & rows & Hin & Hl & Hgone)]; [done|]. split; [|done].
    intros o Ho. pose proof (Hle o Ho). destruct (seen_members _ _ _ Hpast Hno) as [E Hv].
    destruct (decide (declared ≤ o)%Z); [|lia]. destruct (Hgone o); [lia|]. apply (Hv c); [done..|by rewrite <- E].
  - rewrite Hlive. assert (wo_members s' = wo_members s) as ->; [|done].
    destruct (mutation_of ev) as [|[] []] eqn:Em; try done. destruct (Hno command). left.
Qed.

Lemma lawful_keeps applied declared past t s0 s s' :
  lawful applied declared past t → below s applied → seen past s0 s → members_run s → seen t s s' → members_run s'.
Proof.
  revert past s. induction t as [|ev t IH]; intros past s Hlaw Hle Hpast Hrun; cbn [seen]; [by intros ->|].
  intros (s1 & He & Ht). destruct Hlaw as [Hev Hlaw].
  destruct (law_keeps _ _ _ _ _ _ _ Hle Hpast Hrun Hev He) as [Hrun1 Hle1].
  apply (IH (past ++ [ev]) s1); [done..| |done|done]. apply seen_app. exists s. split; [done|]. by exists s1.
Qed.

Lemma lawful_app applied declared past t u :
  lawful applied declared past (t ++ u) ↔ lawful applied declared past t ∧ lawful applied declared (past ++ t) u.
Proof.
  revert past. induction t as [|ev t IH]; intros past; cbn [app lawful]; [by rewrite app_nil_r; naive_solver|].
  rewrite IH, <- app_assoc. cbn [app]. naive_solver.
Qed.

(** A trace is lawful whose mutations are, after whichever part of it. *)
Lemma lawful_by applied declared past t :
  (∀ u m, u `prefix_of` t → m ∈ mutations t → law applied declared (past ++ u) m) → lawful applied declared past t.
Proof.
  revert past. induction t as [|ev t IH]; intros past Hm; cbn [lawful]; [done|]. split.
  - apply Forall_forall. intros m Hin. rewrite <- (app_nil_r past). apply Hm; [apply prefix_nil|].
    rewrite mutations_cons. apply elem_of_app. by left.
  - apply IH. intros u m Hu Hin. rewrite <- app_assoc. cbn [app]. apply Hm; [by apply prefix_cons|].
    rewrite mutations_cons. apply elem_of_app. by right.
Qed.

Lemma lawful_calm applied declared past t : calm t → lawful applied declared past t.
Proof.
  intros Hc. apply lawful_by. intros u m _ Hin. unfold calm in Hc. rewrite Forall_forall in Hc. apply Hc in Hin. by destruct m.
Qed.
End role.

(** ** Lemmas: a pass is lawful *)

Lemma setName_inj kind kind' name : setName kind name = setName kind' name → kind = kind'.
Proof. destruct kind, kind'; cbn; unfold CoordinatorName, DataName; try done; intros E; by apply app_inj_l_s in E. Qed.

Lemma memberName_inj kind kind' o o' : memberName kind o = memberName kind' o' → kind = kind' ∧ o = o'.
Proof.
  destruct kind, kind'; cbn; intros E; [|done..|by apply DataInstanceName_inj in E as ->].
  by apply coordinatorName_inj in E as ->.
Qed.

(** An apply that went through wrote everything asked for. *)
Lemma apply_loop_written {L} `{ConditionsAPI L} generation desired applied (st : passState L) t st' applied' d :
  returns (apply_loop generation desired applied st) t (st', inl applied') → d ∈ desired →
  ∃ answer, Event (apply d) (inl answer) ∈ t.
Proof.
  revert applied t. induction desired as [|d' desired IH]; intros applied t Hrun; [by intros ?%elem_of_nil|].
  cbn [apply_loop] in Hrun. apply returns_trigger in Hrun as ([err|] & t1 & -> & Hrun); cbn [mbind prog_bind] in Hrun;
    [by destruct Hrun as [_ [=]]|].
  apply returns_trigger in Hrun as ([answer|err] & t2 & -> & Hrun); cbn [mbind prog_bind] in Hrun;
    [|by destruct Hrun as [_ [=]]].
  intros [->|Hin]%elem_of_cons; [exists answer; right; left|].
  destruct (IH _ _ Hrun Hin) as [a Ha]. exists a. by do 2 right.
Qed.

(** The view a pass plans on was answered, by a coordinator that names a leader, before
    anything was changed under it. *)
Lemma observeCluster_view `{Kube} {L} (cluster : MemgraphDBCluster L) coordinators u leader observed :
  returns (observeCluster (CoordinatorEndpoints cluster coordinators)) u (inl (leader, observed)) →
  mutations u = [] ∧ ∃ c, Event (EShowInstances c) (inl observed) ∈ u ∧ observedLeader observed ≠ "".
Proof.
  intros Hr. split; [exact (quiet_mutations _ _ _ (observe_loop_quiet _ _ _ _) Hr)|].
  eapply observe_loop_spec in Hr as [_ (co & asked & _ & Hin & _ & Hl & _)]; [by exists asked|].
  intros e He. split; [done|]. by apply list_elem_of_fmap in He as (o & -> & _).
Qed.

(** The count of the role as it was resolved: from the copy that was read, or from the pods
    that were listed in its place. *)
Lemma countOf_resolved `{Kube} {L} kind (cluster : MemgraphDBCluster L) shrinks tc shrinks' replicas :
  let namespace := m_Namespace (Meta cluster) in let name := m_Name (Meta cluster) in let count := countOf kind replicas in
  returns (resolveReplicaCounts cluster shrinks) tc (shrinks', inl replicas) →
  resolved namespace (setName kind name) (declaredOf kind cluster) (podSelector kind name) tc count ∧
  (rc_unseenShrinks replicas = [] → trusted shrinks (namespace, setName kind name) (cachedOf <$> rr_statefulSet count) = true).
Proof.
  intros namespace name count (Hc & Hd & Hun)%resolveReplicaCounts_spec.
  assert (resolved namespace (setName kind name) (declaredOf kind cluster) (podSelector kind name) tc count) as Hres by (by destruct kind).
  split; [done|]. intros E. destruct (trusted _ _ _) eqn:Et; [done|]. rewrite E in Hun.
  assert (rr_name count ∈ []) as ?%elem_of_nil; [|done]. apply Hun.
  exists count. split; [destruct kind; [left|right; left]|]. split; [done|]. by rewrite (resolved_name _ _ _ _ _ _ Hres).
Qed.

Section pass.
Context `{RangeOrder} `{Kube} `{QuantityOrder Quantity} {L : Type} `{ConditionsAPI L}
  (kind : RoleKind) (primitives : Primitives) (reconciler : Reconciler) (cluster : MemgraphDBCluster L).
Local Abbreviation namespace := (m_Namespace (Meta cluster)).
Local Abbreviation name := (m_Name (Meta cluster)).
Local Abbreviation applied replicas := (rr_applied (countOf kind replicas)).

(** What the pass applies of the role is its resolved count. *)
Lemma desired_counts replicas m :
  m ∈ applying <$> desiredObjects primitives reconciler cluster replicas →
  match m with
  | MCommand _ => False
  | MApply set count => set = setName kind name → count = applied replicas
  | _ => True
  end.
Proof.
  intros (d & -> & Hd)%list_elem_of_fmap. unfold desiredObjects in Hd. apply elem_of_app in Hd as [Hd|Hd].
  - repeat (apply elem_of_cons in Hd as [->|Hd]; [cbn; first [done|intros E]|]); [| |by apply elem_of_nil in Hd].
    + apply (setName_inj Coordinating kind) in E as <-. done.
    + apply (setName_inj Serving kind) in E as <-. done.
  - by apply desired_objects in Hd as (k & object & ->).
Qed.

(** The desired objects hold the role's StatefulSet. *)
Lemma desired_set replicas :
  ∃ claims, DStatefulSet (setName kind name) (applied replicas) claims ∈ desiredObjects primitives reconciler cluster replicas.
Proof.
  destruct kind; eexists; unfold desiredObjects; apply elem_of_app; left; [do 4 right; left|do 5 right; left].
Qed.

(** A command of a plan only lets declared members join. *)
Lemma plan_joins external coordinators data observed lag command o members :
  command ∈ Planner.Plan (passTopology cluster external coordinators data) observed lag →
  memberName kind o ∈ joined command members → memberName kind o ∈ members ∨ (o < declaredOf kind cluster)%Z.
Proof.
  intros Hp%elem_of_Plan Hin. destruct command; cbn in Hin; try (left; set_solver).
  - apply elem_of_union in Hin as [Hin%elem_of_singleton|?]; [|by left]. destruct Hp as [Hp _]. cbn in Hp.
    apply list_elem_of_fmap in Hp as (o' & -> & Ho'%elem_of_seqZ). right.
    apply (memberName_inj kind Coordinating) in Hin as [-> ->]. cbn.
    unfold DeclaredCoordinators, CoordinatorID. lia.
  - apply elem_of_union in Hin as [Hin%elem_of_singleton|?]; [|by left]. destruct Hp as [Hp _]. cbn in Hp.
    apply list_elem_of_fmap in Hp as (o' & -> & Ho'%elem_of_seqZ). right.
    apply (memberName_inj kind Serving) in Hin as [-> ->]. cbn. unfold DeclaredDataInstances. lia.
Qed.

(** A view that shows the retiring members gone has a row for none. *)
Lemma Retired_gone external replicas observed o :
  Retired (passTopology cluster external (rr_applied (rc_coordinators replicas)) (rr_applied (rc_data replicas))) observed = true →
  (declaredOf kind cluster ≤ o < applied replicas)%Z → ¬ has_row observed (memberName kind o).
Proof.
  unfold Retired. intros [Hd Hc]%andb_true_iff Ho (row & Hrow & Hb). destruct kind; cbn [declaredOf countOf memberName] in Ho, Hrow.
  - cbn [passTopology t_RetiringCoordinators] in Hc. unfold RetiringCoordinators in Hc. unfold DeclaredCoordinators in Ho.
    rewrite (proj2 (Z.leb_gt _ _)) in Hc by lia. rewrite forallb_forall in Hc.
    assert (coordinatorRegistered (Planner.index observed) (coordinator cluster (normalize (Spec cluster)) o "") = true) as Hr.
    { unfold coordinatorRegistered. change (c_Name _) with (CoordinatorInstanceName o). rewrite Hrow. by rewrite bool_decide_eq_false_2. }
    specialize (Hc (coordinator cluster (normalize (Spec cluster)) o "")). cbv beta in Hc. rewrite Hr in Hc.
    enough (negb true = true) by done. apply Hc.
    apply list_elem_of_In, list_elem_of_fmap. exists o. split; [done|]. apply elem_of_seqZ. lia.
  - cbn [passTopology t_RetiringDataInstances] in Hd. unfold RetiringDataInstances in Hd. unfold DeclaredDataInstances in Ho.
    rewrite (proj2 (Z.leb_gt _ _)) in Hd by lia. rewrite forallb_forall in Hd.
    assert (is_registered (Planner.index observed) (DataInstanceName o) = true) as Hr.
    { unfold is_registered. rewrite Hrow. by apply bool_decide_eq_true_2. }
    specialize (Hd (dataInstance cluster (normalize (Spec cluster)) o "")). cbn [dataInstance d_Name] in Hd. rewrite Hr in Hd.
    enough (negb true = true) by done. apply Hd. apply list_elem_of_In, list_elem_of_fmap. exists o. split; [done|]. apply elem_of_seqZ. lia.
Qed.

(** The registration pass keeps the law, after a past whose writes of the role are all at its
    count, with at least one answered. *)
Lemma registration_lawful shrinks tc shrinks' reads replicas exposure roles claims (st : passState L) tr st' result past :
  returns (resolveReplicaCounts cluster shrinks) tc (shrinks', inl replicas) →
  returns (reconcileRegistration cluster reconciler reads replicas exposure roles claims st) tr (st', result) →
  wrote (setName kind name) past ≠ [] →
  (∀ count answer, (count, answer) ∈ wrote (setName kind name) past → count = applied replicas) →
  (∀ command, MCommand command ∉ mutations past) →
  lawful kind name (applied replicas) (declaredOf kind cluster) past tr.
Proof.
  intros Hres Hreg Hne Hall Hno. destruct (countOf_resolved kind _ _ _ _ _ Hres) as [[_ [_ Hle] _ _] _].
  apply reconcileRegistration_spec in Hreg as (_ & _ & [Hm|(_ & leader & observed & lag & u & [w ->] & Hobs & _ & Hdid)]).
  { apply lawful_calm. unfold calm. rewrite Hm. constructor. }
  apply observeCluster_view in Hobs as (Hq & c & Hview & Hl). apply lawful_app.
  split; [apply lawful_calm; unfold calm; rewrite Hq; constructor|]. rewrite mutations_app, Hq in Hdid. cbn [app] in Hdid.
  assert (∀ set t, calm t → wrote set t = []) as Hcw by (intros; by apply calm_wrote).
  assert (wrote (setName kind name) (past ++ u) = wrote (setName kind name) past) as Hwu.
  { rewrite wrote_app, (Hcw _ u), app_nil_r; [done|]. unfold calm. rewrite Hq. constructor. }
  destruct Hdid as [(k & Ek)|[(_ & _ & Hret & Hpre)|(_ & _ & classes & roles' & d & _ & _ & _ & Ed)]].
  - apply lawful_by. intros v m Hv Hin. rewrite Ek in Hin. apply list_elem_of_fmap in Hin as (command & -> & Hin).
    assert (wrote (setName kind name) v = []) as Ev.
    { apply wrote_nil. intros count Hc. assert (MApply (setName kind name) count ∈ mutations w) as Hw.
      { destruct Hv as [x ->]. rewrite mutations_app. apply elem_of_app. by left. }
      rewrite Ek in Hw. by apply list_elem_of_fmap in Hw as (? & [=] & _). }
    cbn. rewrite wrote_app, Ev, app_nil_r, Hwu. split; [done|]. split; [done|].
    intros o members Ho. apply elem_of_take in Hin as (i & Hin & _).
    eapply plan_joins in Ho as [?|?]; [by left|right; lia|by eapply list_elem_of_lookup_2].
  - apply lawful_by. intros v m Hv Hin.
    assert (m ∈ shrinks_of cluster (passTopology cluster (ea_addresses exposure) (rr_applied (rc_coordinators replicas))
      (rr_applied (rc_data replicas))) replicas) as Hsh by (destruct Hpre as [x ->]; apply elem_of_app; by left).
    apply list_elem_of_bind in Hsh as (role & Hsh & Hrole). unfold shrink_of in Hsh.
    case_decide; [by apply elem_of_nil in Hsh|]. apply list_elem_of_singleton in Hsh as ->. cbn [law]. intros E. right.
    assert (rr_declared (sh_replicas role) = declaredOf kind cluster) as ->.
    { assert (∃ k, sh_replicas role = countOf k replicas) as [k Ek].
      { apply elem_of_cons in Hrole as [->|Hrole%list_elem_of_singleton]; [by exists Coordinating|subst role; by exists Serving]. }
      rewrite Ek in *. destruct (countOf_resolved k _ _ _ _ _ Hres) as [[Hn [-> _] _ _] _]. rewrite Hn in E. by apply setName_inj in E as ->. }
    split; [done|]. split; [done|]. split.
    + intros command. rewrite !mutations_app, Hq. rewrite !elem_of_app. intros [[Hc|Hc]|Hc]; [by apply Hno in Hc|by apply elem_of_nil in Hc|].
      assert (MCommand command ∈ mutations w) as Hw by (destruct Hv as [x ->]; rewrite mutations_app; apply elem_of_app; by left).
      destruct Hpre as [x Ex]. assert (MCommand command ∈ mutations w ++ x) as Hx by (apply elem_of_app; by left).
      rewrite <- Ex in Hx. apply list_elem_of_bind in Hx as (r & Hx & _). unfold shrink_of in Hx.
      case_decide; [by apply elem_of_nil in Hx|]. by apply list_elem_of_singleton in Hx.
    + exists c, observed. split; [rewrite !elem_of_app; auto|]. split; [done|]. intros o. by eapply Retired_gone.
  - apply lawful_calm. unfold calm. rewrite Ed. by repeat constructor.
Qed.

(** A whole pass keeps the law of the role, at the count it resolved, or changes nothing of it. *)
Lemma pass_lawful semanticDeepEqual shrinks t status shrinks' result :
  returns (Reconcile primitives reconciler semanticDeepEqual (inl cluster) shrinks) t (status, shrinks', result) →
  calm t ∨ ∃ replicas shrinks1 tc rest, t = tc ++ rest ∧ calm tc ∧
    returns (resolveReplicaCounts cluster shrinks) tc (shrinks1, inl replicas) ∧ rc_unseenShrinks replicas = [] ∧
    lawful kind name (applied replicas) (declaredOf kind cluster) [] t.
Proof.
  intros (tc & s1 & counts & rest & fin & -> & Hc & Hf & Hres & Hx)%Reconcile_shape.
  destruct Hx as [[Hr _]|(replicas & -> & Hun & pre & ta & post & st & st1 & r1 & -> & Hpre & Ha & Hpost)].
  { left. by rewrite !calm_app. }
  right. exists replicas, s1, tc, ((pre ++ ta ++ post) ++ fin). do 4 (split; [done|]).
  assert (∀ m, m ∈ mutations ta → m ∈ applying <$> desiredObjects primitives reconciler cluster replicas) as Hta.
  { apply apply_loop_spec in Ha as (_ & _ & Hm). intros m Hin. destruct r1; [destruct Hm as (_ & <- & _); done|].
    destruct Hm as [x ->]. apply elem_of_app. by left. }
  rewrite !lawful_app. cbn [app]. split; [by apply lawful_calm|]. split; [split; [by apply lawful_calm|]|by apply lawful_calm].
  split.
  { apply lawful_by. intros u m _ Hin%Hta%desired_counts. destruct m; [done| |done..]. intros E. left. by apply Hin. }
  destruct r1 as [written_|]; [|by destruct Hpost as [Hp _]; apply lawful_calm].
  destruct Hpost as [[Hp _]|(q & tr & reads & e & roles & claims & st2 & st3 & r & -> & Hq & _ & Hreg & _)]; [by apply lawful_calm|].
  apply lawful_app. split; [by apply lawful_calm|].
  assert (wrote (setName kind name) (((tc ++ pre) ++ ta) ++ q) = wrote (setName kind name) ta) as Ew.
  { rewrite !wrote_app, (calm_wrote _ tc), (calm_wrote _ pre), (calm_wrote _ q) by done. by rewrite app_nil_r. }
  eapply registration_lawful; [exact Hres|exact Hreg|rewrite Ew..|].
  - destruct (desired_set replicas) as [cl Hin]. eapply apply_loop_written in Hin as [answer Hin]; [|exact Ha].
    apply (wrote_event (setName kind name)) in Hin; [|done]. intros E. rewrite E in Hin. by apply elem_of_nil in Hin.
  - intros count answer Hin%wrote_mutation%Hta%desired_counts. by apply Hin.
  - intros command. rewrite !mutations_app, !elem_of_app.
    assert (∀ v, calm v → MCommand command ∉ mutations v) as Hno.
    { intros v Hv Hin. unfold calm in Hv. rewrite Forall_forall in Hv. by apply Hv in Hin. }
    intros [[[Hin|Hin]|Hin%Hta%desired_counts]|Hin]; [by eapply Hno, Hin|by eapply Hno, Hin|done|by eapply Hno, Hin].
Qed.
End pass.

(** ** Lemmas: reads and writes of a seen trace *)

Section seen.
Context (kind : RoleKind) (namespace name : string).
Local Abbreviation set := (setName kind name).
Local Abbreviation sees := (sees kind namespace name).
Local Abbreviation seen := (seen kind namespace name).
Local Abbreviation versions_of := (versions_of kind namespace name).


Lemma current_lookup s w : current s = Some w → wo_versions s !! pred (length (wo_versions s)) = Some (Some w).
Proof. unfold current. rewrite <- last_lookup. by destruct (last _) as [[]|]; intros [= <-]. Qed.


Lemma latest_some s j w : wo_versions s !! j = Some (Some w) → is_Some (latest s).
Proof.
  intros Hj%list_elem_of_lookup_2. unfold latest. apply last_is_Some. intros E.
  assert (w ∈ omap id (wo_versions s)) as Hin by (apply list_elem_of_omap; by exists (Some w)). rewrite E in Hin. by apply elem_of_nil in Hin.
Qed.









End seen.

(** ** Lemmas: the count a pass resolves *)

Section resolves.
Context (kind : RoleKind) `{Kube} {L : Type} (cluster : MemgraphDBCluster L).
Local Abbreviation namespace := (m_Namespace (Meta cluster)).
Local Abbreviation name := (m_Name (Meta cluster)).
Local Abbreviation declared := (declaredOf kind cluster).

(** Every member is below it, when the pods of a deleted StatefulSet are kept. *)
Lemma resolves_members shrinks tc shrinks' replicas u s :
  returns (resolveReplicaCounts cluster shrinks) tc (shrinks', inl replicas) → tc ⊆ u →
  members_run kind s → keeps_pods kind namespace name declared u s → below kind s (rr_applied (countOf kind replicas)).
Proof.
  intros Hres Hsub Hrun [Hg Hl] o Ho. pose proof (Hrun o Ho). destruct (countOf_resolved kind _ _ _ _ _ Hres) as [[_ [_ Hle] Hf Hm] _].
  destruct (rr_statefulSet _) as [sts|].
  - destruct (Hf sts eq_refl) as [Hin ->]. specialize (Hg sts (Hsub _ Hin)). lia.
  - destruct (Hm eq_refl) as (err & pods & He & Hnf & Hp & Hcount & _).
    destruct (Hl pods o) as [Hr (pod & E & Hpod)%list_elem_of_fmap]; [exists err; auto|done..|]. by eapply Hcount.
Qed.


End resolves.

(** A member's pod outlives any part of a pass. *)
Lemma pass_members kind namespace name `{RangeOrder} `{Kube} `{QuantityOrder Quantity} {L} `{ConditionsAPI L} primitives reconciler
    (cluster : MemgraphDBCluster L) semanticDeepEqual shrinks t u status shrinks' result s s' :
  m_Namespace (Meta cluster) = namespace → m_Name (Meta cluster) = name →
  returns (Reconcile primitives reconciler semanticDeepEqual (inl cluster) shrinks) t (status, shrinks', result) →
  u `prefix_of` t → seen kind namespace name u s s' → keeps_pods kind namespace name (declaredOf kind cluster) u s →
  members_run kind s → members_run kind s'.
Proof.
  intros <- <- Hr Hu Hs Hg Hm. assert (calm u → members_run kind s') as Hcalm.
  { intros Hc. eapply (lawful_keeps kind _ _ (live s) 0%Z [] u s s s'); [by apply lawful_calm|exact Hm|done|exact Hm|exact Hs]. }
  apply (pass_lawful kind) in Hr as [Hc|(replicas & s1 & tc & rest & -> & Hc & Hres & _ & Hlaw)].
  { apply Hcalm. destruct Hu as [v ->]. by apply calm_app in Hc as [? _]. }
  destruct (prefix_weak_total u tc (tc ++ rest)) as [[v ->]|[v ->]]; [done|by apply prefix_app_r| |].
  { apply Hcalm. by apply calm_app in Hc as [? _]. }
  destruct Hu as [v' E]. rewrite <- app_assoc in E. apply app_inv_head in E as ->. rewrite app_assoc in Hlaw.
  apply lawful_app in Hlaw as [Hlaw _].
  eapply lawful_keeps; [exact Hlaw| |done|exact Hm|exact Hs]. eapply resolves_members; [exact Hres| |exact Hm|exact Hg]. set_solver.
Qed.

(** ** Lemmas: what the expectations protect *)


(** An expectation stays, or is given up on a copy that is trusted with it, or on none. *)
Definition forgot (namespace name : string) (t : list (event eff)) (before after : StatefulSets) : Prop :=
  after !! (namespace, name) = before !! (namespace, name) ∨
  after !! (namespace, name) = None ∧
  ((∃ sts, Event (EGetStatefulSet namespace name) (inl sts) ∈ t ∧ trusted before (namespace, name) (Some (cachedOf sts)) = true) ∨
   ∃ err, Event (EGetStatefulSet namespace name) (inr err) ∈ t ∧ IsNotFound err = true).

Lemma forgot_in namespace name t u before before' after after' :
  forgot namespace name t before after → t ⊆ u → before' !! (namespace, name) = before !! (namespace, name) →
  after' !! (namespace, name) = after !! (namespace, name) → forgot namespace name u before' after'.
Proof.
  unfold forgot, trusted. intros Hf Hs -> ->. destruct Hf as [?|[? [(sts & ? & ?)|(err & ? & ?)]]];
    [by left|right; (split; [done|])..]; [left; exists sts|right; exists err]; auto.
Qed.

(** Reading the counts forgets an expectation only on a copy it trusts. *)
Lemma resolve_role_forgets namespace name declared selector shrinks unseen t shrinks' r :
  returns (resolve_role namespace name declared selector shrinks unseen) t (shrinks', r) →
  (∀ other, other ≠ (namespace, name) → shrinks' !! other = shrinks !! other) ∧ forgot namespace name t shrinks shrinks'.
Proof.
  assert (∀ cached, let s := (Satisfied shrinks (namespace, name) cached).1 in
    (∀ other, other ≠ (namespace, name) → s !! other = shrinks !! other) ∧
    (s !! (namespace, name) = shrinks !! (namespace, name) ∨
     s !! (namespace, name) = None ∧ trusted shrinks (namespace, name) cached = true)) as Hsat.
  { intros cached. split; [apply Satisfied_spec|]. unfold Satisfied, trusted.
    destruct (shrinks !! (namespace, name)) as [w|] eqn:E; [|by left].
    destruct (caught_up_with w cached); cbn; [right; by rewrite lookup_delete_eq|left; exact E]. }
  unfold resolve_role. intros (t1 & got & t2 & -> & Hget & Hrun)%returns_bind.
  apply returns_trigger in Hget as (answer & t1' & -> & [-> ->]).
  assert (∀ ev, ev = Event (EGetStatefulSet namespace name) answer → ev ∈ [ev] ++ t2) as Hin by (intros; left).
  destruct answer as [sts|err]; [|destruct (IsNotFound err) eqn:Enf].
  - destruct (Hsat (Some (cachedOf sts))) as [Hoth Hk]. change (cachedOf <$> Some sts) with (Some (cachedOf sts)) in Hrun.
    destruct (Satisfied _ _ _) as [s b]. destruct Hrun as [-> [= -> _]]. cbn in Hoth, Hk.
    split; [done|]. destruct Hk as [?|[? ?]]; [by left|]. right. split; [done|]. left. exists sts. split; [left|done].
  - destruct (Hsat None) as [Hoth Hk]. change (cachedOf <$> None) with (@None Cached) in Hrun. destruct (Satisfied _ _ _) as [s b].
    apply returns_bind in Hrun as (t3 & c & t4 & -> & _ & Hrun).
    assert (shrinks' = s) as -> by (by destruct c; destruct Hrun as [_ [= -> _]]). cbn in Hoth, Hk.
    split; [done|]. destruct Hk as [?|[? _]]; [by left|]. right. split; [done|]. right. exists err. split; [left|done].
  - destruct Hrun as [_ [= -> _]]. split; [done|by left].
Qed.

Lemma resolve_forgets kind `{Kube} {L} (cluster : MemgraphDBCluster L) shrinks t shrinks' counts :
  returns (resolveReplicaCounts cluster shrinks) t (shrinks', counts) →
  forgot (m_Namespace (Meta cluster)) (setName kind (m_Name (Meta cluster))) t shrinks shrinks'.
Proof.
  unfold resolveReplicaCounts. intros (t1 & [s1 r1] & t2 & -> & [Ho1 Hk1]%resolve_role_forgets & Hrun)%returns_bind.
  assert (CoordinatorName (m_Name (Meta cluster)) ≠ DataName (m_Name (Meta cluster))) as Hne.
  { intros E. by apply (setName_inj Coordinating Serving) in E. }
  destruct r1 as [[unseen coordinators]|err].
  - apply returns_bind in Hrun as (t3 & [s2 r2] & t4 & -> & [Ho2 Hk2]%resolve_role_forgets & Hrun).
    assert (shrinks' = s2) as -> by (by destruct r2 as [[? ?]|]; destruct Hrun as [_ [= -> _]]).
    destruct kind; cbn [setName].
    + eapply forgot_in; [exact Hk1|set_solver|done|]. apply Ho2. by intros [= ?].
    + eapply forgot_in; [exact Hk2|set_solver| |done]. symmetry. apply Ho1. by intros [= ?].
  - destruct Hrun as [-> [= -> _]]. destruct kind; cbn [setName].
    + eapply forgot_in; [exact Hk1|set_solver|done..].
    + left. apply Ho1. by intros [= ?].
Qed.

(** ** Lemmas: what a pass writes and expects *)

(** The answered writes of a pass to a StatefulSet are those of the apply, at the resolved
    count, and those of the registration pass, the last of which is expected. *)
Lemma pass_expects kind `{RangeOrder} `{Kube} `{QuantityOrder Quantity} {L} `{ConditionsAPI L} primitives reconciler
    (cluster : MemgraphDBCluster L) semanticDeepEqual shrinks t status shrinks' result :
  let namespace := m_Namespace (Meta cluster) in let set := setName kind (m_Name (Meta cluster)) in
  returns (Reconcile primitives reconciler semanticDeepEqual (inl cluster) shrinks) t (status, shrinks', result) →
  ∃ resolved_ counts tc applied shed,
    returns (resolveReplicaCounts cluster shrinks) tc (resolved_, counts) ∧ tc ⊆ t ∧ wrote set t = applied ++ shed ∧
    (∀ count answer, (count, answer) ∈ applied → ∃ replicas, counts = inl replicas ∧ count = rr_applied (countOf kind replicas)) ∧
    (shed ≠ [] → ∃ sts, Event (EGetStatefulSet namespace set) (inl sts) ∈ tc) ∧
    shrinks' !! (namespace, set) =
      match last shed with Some (_, (uid, generation)) => Some (mkWritten uid generation) | None => resolved_ !! (namespace, set) end.
Proof.
  intros namespace set (tc & s1 & counts & rest & fin & -> & Hc & Hf & Hres & Hx)%Reconcile_shape.
  assert (∀ v, calm v → wrote set v = []) as Hno by (intros; by apply calm_wrote).
  rewrite !wrote_app, (Hno tc), (Hno fin), app_nil_r by done.
  destruct Hx as [[Hr ->]|(replicas & -> & _ & pre & ta & post & st & st1 & r1 & -> & Hpre & Ha & Hpost)].
  { exists s1, counts, tc, [], []. rewrite (Hno rest) by done. repeat split; [done|set_solver| |done]. by intros ? ? ?%elem_of_nil. }
  rewrite !wrote_app, (Hno pre) by done. exists s1, (inl replicas), tc, (wrote set ta), (wrote set post).
  split; [done|]. split; [set_solver|]. split; [done|]. split.
  - intros count answer Hin%wrote_mutation. exists replicas. split; [done|].
    apply apply_loop_spec in Ha as (_ & _ & Hm).
    assert (MApply set count ∈ applying <$> desiredObjects primitives reconciler cluster replicas) as Hd.
    { destruct r1; [by destruct Hm as (_ & <- & _)|]. destruct Hm as [x ->]. apply elem_of_app. by left. }
    apply (desired_counts kind) in Hd. by apply Hd.
  - destruct r1 as [?|]; [|destruct Hpost as [Hp ->]; by rewrite (Hno post)].
    destruct Hpost as [[Hp ->]|(q & tr & reads & e & roles & claims & st2 & st3 & r & -> & Hq & <- & Hreg & <-)]; [by rewrite (Hno post)|].
    rewrite wrote_app, (Hno q) by done. cbn [app]. split; [|by eapply reconcileRegistration_expects].
    intros Hne. destruct (rr_statefulSet (countOf kind replicas)) as [sts|] eqn:Ests.
    + exists sts. apply (countOf_resolved kind) in Hres as [Hres _]. by eapply resolved_found.
    + destruct Hne. unfold reconcileRegistration in Hreg. assert (workloadsReady replicas roles = false) as E.
      { unfold workloadsReady, role_ready. destruct kind; cbn [countOf] in Ests; rewrite Ests; [done|by rewrite andb_false_r]. }
      rewrite E in Hreg. cbn [negb] in Hreg. by destruct Hreg as [-> _].
Qed.

(** ** Lemmas: the operator over time *)

Section over_time.
Context (kind : RoleKind) (namespace name : string).
Local Abbreviation set := (setName kind name).
Local Abbreviation seen := (seen kind namespace name).





Section steps.
Context `{RangeOrder} `{Kube} `{QuantityOrder Quantity} {L : Type} `{ConditionsAPI L}.

Lemma step_members c c' : step kind namespace name (keeps_pods kind namespace name) c c' → members_run kind c.1 → members_run kind c'.1.
Proof.
  intros [primitives reconciler deepEqual cluster t status result s s' shrinks shrinks' Hns Hn Hr Hs Hg
         |primitives reconciler deepEqual cluster t u status result s s' shrinks shrinks' Hns Hn Hr Hu Hs Hg] Hk.
  - eapply pass_members; [exact Hns|exact Hn|exact Hr|done|exact Hs|exact Hg|exact Hk].
  - change (members_run kind s'). eapply pass_members; [exact Hns|exact Hn|exact Hr|exact Hu|exact Hs|exact Hg|exact Hk].
Qed.




Lemma reached_members s0 s shrinks :
  starts kind s0 → rtc (step kind namespace name (keeps_pods kind namespace name)) (s0, ∅) (s, shrinks) → members_run kind s.
Proof.
  intros (_ & _ & _ & Hm) Hr. change (members_run kind (s, shrinks).1).
  apply (rtc_ind_r (λ c, members_run kind c.1) (s0, ∅)) in Hr; [done|done|].
  intros c c' _ Hstep IH. by eapply step_members.
Qed.
End steps.
End over_time.

(** A pass that reads an older copy of what is expected does nothing. *)
Lemma older_copy_defers kind `{RangeOrder} `{Kube} `{QuantityOrder Quantity} {L} `{ConditionsAPI L} primitives reconciler
    (cluster : MemgraphDBCluster L) semanticDeepEqual shrinks t status shrinks' result uid generation :
  let namespace := m_Namespace (Meta cluster) in let set := setName kind (m_Name (Meta cluster)) in
  shrinks !! (namespace, set) = Some (mkWritten uid generation) →
  returns (Reconcile primitives reconciler semanticDeepEqual (inl cluster) shrinks) t (status, shrinks', result) →
  (∀ r, Event (EGetStatefulSet namespace set) r ∈ t → ∃ sts, r = inl sts ∧ ks_UID sts = uid ∧ (ks_Generation sts < generation)%Z) →
  mutations t = [] ∧ shrinks' !! (namespace, set) = Some (mkWritten uid generation) ∧
  (result = Requeue requeueWhilePending ∨ ∃ err, result = Failed err).
Proof.
  intros namespace set Hexp Hrun Hold.
  assert (∀ sts, ks_UID sts = uid → (ks_Generation sts < generation)%Z → trusted shrinks (namespace, set) (Some (cachedOf sts)) = false) as Hun.
  { intros sts Hu Hg. unfold trusted. rewrite Hexp. cbn. by rewrite bool_decide_eq_true_2, (proj2 (Z.leb_gt _ _)). }
  cbn [Reconcile] in Hrun. apply returns_bind in Hrun as (t0 & [st0 r0] & t1 & -> & Hrun & [-> [= -> -> ->]]). rewrite app_nil_r in *.
  apply reconcilePass_spec in Hrun as (u & st1 & r & Hc & -> & _ & Hend).
  unfold reconcileCluster in Hc. apply returns_bind in Hc as (tc & [s1 counts] & rest & -> & Hres & Hc). cbn [ps_shrinks] in Hres.
  assert (tc ⊆ t0) as Hsub.
  { destruct (semanticDeepEqual _ _); [destruct Hend as [-> _]|destruct Hend as (? & -> & _)]; set_solver. }
  assert (s1 !! (namespace, set) = Some (mkWritten uid generation)) as Hs1.
  { pose proof (resolve_forgets kind _ _ _ _ _ Hres) as [E|[_ [(sts & Hin & Ht)|(err & Hin & _)]]]; [unfold namespace, set; by rewrite E|..].
    - destruct (Hold _ (Hsub _ Hin)) as (sts' & [= <-] & Hu & Hg). by rewrite Hun in Ht.
    - by destruct (Hold _ (Hsub _ Hin)) as (? & [=] & _). }
  assert (rest = [] ∧ ps_shrinks st1 = s1 ∧ (r = Requeue requeueWhilePending ∨ ∃ err, r = Failed err)) as (-> & -> & Hr).
  { destruct counts as [replicas|err]; [|destruct Hc as [-> [= -> ->]]; eauto].
    destruct (rc_unseenShrinks replicas) as [|unseen unseens] eqn:Eu; [|destruct Hc as [-> [= -> ->]]; auto]. exfalso.
    destruct (countOf_resolved kind _ _ _ _ _ Hres) as [[_ _ Hf Hm] Htr]. specialize (Htr Eu).
    destruct (rr_statefulSet (countOf kind replicas)) as [sts|].
    - destruct (Hf sts eq_refl) as [Hin _]. destruct (Hold _ (Hsub _ Hin)) as (sts' & [= <-] & Hu & Hg).
      cbn [fmap option_fmap option_map] in Htr. by rewrite Hun in Htr.
    - destruct (Hm eq_refl) as (err & ? & Hin & _). by destruct (Hold _ (Hsub _ Hin)) as (? & [=] & _). }
  rewrite app_nil_r in Hend. pose proof (quiet_mutations _ _ _ (proj1 (resolveReplicaCounts_effects cluster _)) Hres) as Hq.
  destruct (semanticDeepEqual _ _); [by destruct Hend as [-> ->]|]. destruct Hend as (answer & -> & Ha).
  rewrite mutations_app, Hq. split; [done|]. split; [done|]. destruct answer; [destruct Ha as (errs & -> & _); eauto|by subst].
Qed.

(** ** Properties *)

(** C2: from a process that starts over members that all run, at whatever moment between passes
    and restarts, under whatever sequence of edits of the spec, refused calls, commands that
    fail after they took effect, copies the cache shows late, and deletions of the StatefulSet
    to recreate it with grown volumes, every member of the Memgraph cluster keeps the pod of
    its ordinal: the role is never run with fewer pods than a registered member's ordinal asks
    for, and a StatefulSet that is recreated takes over every member's pod. This is so for
    coordinators and data instances alike, where nobody else writes the StatefulSet or
    registers members, a refused call to the API server changes nothing and a view that names a
    leader lists every member ([sees]), no edit lowers the spec below a growth the cache does
    not show yet, and the members' pods outlive their StatefulSet until it is recreated
    ([keeps_pods]). *)
Theorem members_keep_their_pods (kind : RoleKind) (namespace name : string)
    `{RangeOrder} `{Kube} `{QuantityOrder Quantity} {L} `{ConditionsAPI L} (s0 s : world) (shrinks : StatefulSets) :
  starts kind s0 → rtc (step kind namespace name (keeps_pods kind namespace name)) (s0, ∅) (s, shrinks) →
  ∀ o, memberName kind o ∈ wo_members s → (o < live s)%Z.
Proof. intros Hs Hr. exact (reached_members _ _ _ _ _ _ Hs Hr). Qed.



(** C15: a shrink is never forgotten. When the last write of a StatefulSet that a pass got
    answered lowers the count the pass had written before, the process expects that write,
    however the pass ends, another role's failing shrink included; and from then on a pass
    whose cache still shows an older copy of the StatefulSet changes nothing at all, goes on
    expecting it, and asks to be requeued soon, unless it fails. *)
Theorem shed_is_awaited (kind : RoleKind) `{RangeOrder} `{Kube} `{QuantityOrder Quantity} {L} `{ConditionsAPI L} primitives reconciler
    (cluster : MemgraphDBCluster L) semanticDeepEqual shrinks t status shrinks' result writes before answer count uid generation :
  let namespace := m_Namespace (Meta cluster) in let set := setName kind (m_Name (Meta cluster)) in
  returns (Reconcile primitives reconciler semanticDeepEqual (inl cluster) shrinks) t (status, shrinks', result) →
  wrote set t = writes ++ [(count, (uid, generation))] → (before, answer) ∈ writes → (count < before)%Z →
  shrinks' !! (namespace, set) = Some (mkWritten uid generation) ∧
  ∀ primitives reconciler (edited : MemgraphDBCluster L) t status shrinks'' result,
    m_Namespace (Meta edited) = namespace → m_Name (Meta edited) = m_Name (Meta cluster) →
    returns (Reconcile primitives reconciler semanticDeepEqual (inl edited) shrinks') t (status, shrinks'', result) →
    (∀ r, Event (EGetStatefulSet namespace set) r ∈ t → ∃ sts, r = inl sts ∧ ks_UID sts = uid ∧ (ks_Generation sts < generation)%Z) →
    mutations t = [] ∧ shrinks'' !! (namespace, set) = Some (mkWritten uid generation) ∧
    (result = Requeue requeueWhilePending ∨ ∃ err, result = Failed err).
Proof.
  intros namespace set Hrun Hw Hin Hlt. apply (pass_expects kind) in Hrun as (r & counts & tc & applied & shed & _ & _ & Hw' & Happ & _ & Hx).
  fold namespace set in Hw', Hx. assert (shrinks' !! (namespace, set) = Some (mkWritten uid generation)) as Hexp.
  { rewrite Hx. rewrite Hw' in Hw. destruct shed as [|x shed _] using rev_ind.
    - rewrite app_nil_r in Hw. subst applied. destruct (Happ before answer) as (replicas & -> & ->); [apply elem_of_app; by left|].
      destruct (Happ count (uid, generation)) as (? & [= <-] & ->); [apply elem_of_app; right; left|]. lia.
    - rewrite app_assoc in Hw. apply app_inj_2 in Hw as [_ [= ->]]; [|done]. by rewrite last_snoc. }
  split; [done|]. intros primitives' reconciler' edited t' status' shrinks'' result' Hns Hn Hrun Hold.
  unfold namespace, set in *. rewrite <- Hns, <- Hn in *. by eapply (older_copy_defers kind).
Qed.

(** ** Witnesses: an operator over a simulated world *)

(** A run against an environment that keeps to [sees] is seen. *)
Lemma run_seen kind namespace name {A} (handle : ∀ X, eff X → world → world * X) (p : prog eff A) s :
  (∀ X (e : eff X) s, sees kind namespace name (Event e (handle X e s).2) s (handle X e s).1) →
  seen kind namespace name (Effects.run handle p s).1.2 s (Effects.run handle p s).1.1.
Proof.
  intros Hh. revert s. induction p as [a|X e k IH]; intros s; cbn [Effects.run]; [done|].
  pose proof (Hh X e s) as He. destruct (handle X e s) as [s1 x]. specialize (IH x s1).
  destruct (Effects.run handle (k x) s1) as [[s2 t] a]. by exists s1.
Qed.

Import Workloads.Example.
#[local] Existing Instance Api.Example.kube_text.

Module Example.
Definition cluster (data : Z) : MemgraphDBCluster (gmap string Condition) := Api.Example.cluster (Some 1%Z) (Some data).
Definition coordinatorRow : CoordinatorSpec := Topology.coordinator (cluster 1) (normalize (Spec (cluster 1))) 0 "".
Definition dataRow (ordinal : Z) : DataInstanceSpec := Topology.dataInstance (cluster 1) (normalize (Spec (cluster 1))) ordinal "".
Definition row (name : string) : Instance :=
  if decide (name = "coordinator_0") then mkInstance name (c_BoltServer coordinatorRow) "" "" "up" "leader"
  else if decide (name = "instance_0") then mkInstance name (d_BoltServer (dataRow 0)) "" "" "up" "main"
  else mkInstance name (d_BoltServer (dataRow 1)) "" "" "up" "replica".

(** The object [old] was created with smaller volumes than the spec asks for now. *)
Definition copy (w : write) : KStatefulSet :=
  mkKStatefulSet (wr_uid w) (wr_generation w) (Some (wr_replicas w)) ∅ (wr_replicas w) (wr_replicas w) "r2" (wr_generation w) false
    (if decide (wr_uid w = "old") then [mkClaimTemplate "lib-storage" (Some "5Gi")] else []).
Definition lag (name : string) : ReplicationLag := mkReplicationLag name [].
Definition extended (v : option write) (s : world) : world := mkWorld (wo_versions s ++ [v]) (wo_cache s) (wo_members s).

(** The data instances' StatefulSet; [late] when its cache keeps to the copy it showed last. *)
Definition answer (late : bool) (X : Type) (e : eff X) (s : world) : world * X :=
  match e in eff X return world * X with
  | EGetStatefulSet namespace set =>
      if decide (namespace = "default" ∧ set = DataName "db") then
        let j := if late then wo_cache s else pred (length (wo_versions s)) in
        if decide (wo_cache s ≤ j) then
          match wo_versions s !! j with
          | Some (Some w) => (mkWorld (wo_versions s) j (wo_members s), inl (copy w))
          | Some None => (mkWorld (wo_versions s) j (wo_members s), inr (StatusError NotFound set))
          | None => (s, inr (New ""))
          end
        else (s, inr (New ""))
      else (s, inl (copy (mkWrite "other" 1 1)))
  | EApplyStatefulSet set count _ =>
      if decide (set = DataName "db") then
        match current s with
        | Some w =>
            let generation := if decide (wr_replicas w = count) then wr_generation w else (wr_generation w + 1)%Z in
            (extended (Some (mkWrite (wr_uid w) generation count)) s, inl (wr_uid w, generation))
        | None =>
            let uid := "new-" ^^ pretty (length (wo_versions s)) in
            if decide (Forall (λ w, wr_uid w ≠ uid) (omap id (wo_versions s)))
            then (extended (Some (mkWrite uid 1 count)) s, inl (uid, 1%Z)) else (s, inr (New ""))
        end
      else (s, inl ("other", 1%Z))
  | EOrphanStatefulSet namespace set uid =>
      if decide (namespace = "default" ∧ set = DataName "db") then
        if decide (wr_uid <$> current s = Some uid) then (extended None s, None) else (s, Some (StatusError Conflict set))
      else (s, None)
  | ERun _ command => (mkWorld (wo_versions s) (wo_cache s) (joined command (wo_members s)), None)
  | EShowInstances _ => (s, inl (row <$> elements (wo_members s)))
  | EShowReplicationLag _ => (s, inl (lag <$> elements (wo_members s)))
  | EListPods _ selector =>
      (s, inl (if decide (selector = DataPodSelector "db")
               then (λ o, Reconcile.Example.pod (PodName "db-data" o) "uid" "r2") <$> seqZ 0 (live s)
               else [Reconcile.Example.pod "db-coordinator-0" "uid-c" "r2"]))
  | EConnect _ _ => (s, inl 0)
  | EGetSecret _ _ => (s, inl {[ SystemUserPasswordKey := "p"; SystemUserHashKey := "bcrypt:p" ]})
  | EShowConfig _ => (s, inl {[ "bolt_num_workers" := "1" ]})
  | EShowCoordinatorSettings _ => (s, inl {[ "failover_timeout" := "1" ]})
  | e => (s, idle _ e)
  end.

Definition pass (data : Z) (late : bool) (s : world) (shrinks : StatefulSets) :=
  Effects.run (answer late)
    (Reconcile Reconcile.Example.primitives Reconcile.Example.reconciler Reconcile.Example.same (inl (cluster data)) shrinks) s.
Definition start : world := mkWorld [Some (mkWrite "old" 1 2)] 0 {[ "coordinator_0"; "instance_0"; "instance_1" ]}.

Definition next (data : Z) (late : bool) (c : world * StatefulSets) : world * StatefulSets :=
  let r := pass data late c.1 c.2 in (r.1.1, r.2.1.2).

(** What the pass read, listed and wrote of the StatefulSet. *)
Definition reads (ev : event eff) : list (KStatefulSet + error) :=
  match ev with
  | Event (EGetStatefulSet namespace set) r => if decide (namespace = "default" ∧ set = DataName "db") then [r] else []
  | _ => []
  end.
Definition lists (ev : event eff) : list (list KPod) :=
  match ev with
  | Event (EListPods namespace selector) (inl pods) => if decide (selector = DataPodSelector "db") then [pods] else []
  | _ => []
  end.

(** Whether the outside was fair to it: it read every growth and wrote what it read, or it
    found nothing and was listed the pods that ran. *)
Definition fair (data : Z) (late : bool) (c : world * StatefulSets) : bool :=
  let t := (pass data late c.1 c.2).1.2 in
  bool_decide (0 < live c.1 < 2 ^ 31 - 1)%Z && bool_decide (wo_members c.1 ⊆ {[ "coordinator_0"; "instance_0"; "instance_1" ]}) &&
  forallb (λ r, match r with
                | inl sts => (live c.1 <=? Z.max data (default 0 (ks_SpecReplicas sts)))%Z &&
                             forallb (λ '(_, (uid, _)), bool_decide (uid = ks_UID sts)) (wrote (DataName "db") t)
                | inr err => forallb (λ pods, bool_decide (kp_Name <$> pods = PodName "db-data" <$> seqZ 0 (live c.1))) (t ≫= lists)
                end) (t ≫= reads).

(** The StatefulSet deleted for its grown volumes while the spec went down to one, created
    again with both pods, the second instance unregistered, and its pod shed. *)
Definition deleted : world * StatefulSets := next 1 false (start, ∅).
Definition recreated : world * StatefulSets := next 1 false deleted.
Definition shed : world * StatefulSets := next 1 false (next 1 false recreated).
End Example.

Lemma answer_sees late X (e : eff X) s :
  sees Serving "default" "db" (Event e (Example.answer late X e s).2) s (Example.answer late X e s).1.
Proof.
  destruct e; cbn -[decide CoordinatorName DataName]; try done.
  - split; [|done]. intros _ n Hn.
    assert (∀ name, i_Name (Example.row name) = name) as Hname.
    { intros name. unfold Example.row. by repeat case_decide. }
    exists (Example.row n). split.
    + apply index_by_NoDup.
      * rewrite <- list_fmap_compose. rewrite (list_fmap_ext _ id); [|intros i x _; apply Hname]. rewrite list_fmap_id. apply NoDup_elements.
      * split; [|apply Hname]. apply list_elem_of_fmap. exists n. split; [done|]. by apply elem_of_elements.
    + unfold Example.row. by repeat case_decide.
  - by left.
  - case_decide; [|done]. case_decide; [|done].
    destruct (wo_versions s !! _) as [[w|]|] eqn:E; [by eexists _, w|by eexists|done].
  - case_decide; [|done]. destruct (current s) as [w|] eqn:E.
    + split; [|done]. split; [done|]. case_decide; (split; [lia|]); cbn; intros; [done|lia].
    + case_decide as Hf; [|done]. split; [|done]. intros w Hw. rewrite Forall_forall in Hf. apply Hf, list_elem_of_omap. by exists (Some w).
  - case_decide; [|done]. case_decide as Hu; [|done]. split; [|done].
    destruct (current s) as [w|]; [|done]. exists w. split; [done|]. cbn in Hu. by simplify_eq.
Qed.

Section example.
Import Example.

Lemma example_returns data late c :
  returns (Reconcile Reconcile.Example.primitives Reconcile.Example.reconciler Reconcile.Example.same (inl (cluster data)) c.2)
    (pass data late c.1 c.2).1.2 ((pass data late c.1 c.2).2.1.1, (next data late c).2, (pass data late c.1 c.2).2.2).
Proof.
  pose proof (run_returns (answer late)
    (Reconcile Reconcile.Example.primitives Reconcile.Example.reconciler Reconcile.Example.same (inl (cluster data)) c.2) c.1) as Hrun.
  fold (pass data late c.1 c.2) in Hrun. unfold next. by destruct (pass data late c.1 c.2) as [[s t] [[status shrinks] result]].
Qed.

Lemma example_seen data late c : seen Serving "default" "db" (pass data late c.1 c.2).1.2 c.1 (next data late c).1.
Proof. apply run_seen. intros. apply answer_sees. Qed.

Lemma example_fair data late c :
  fair data late c = true → let t := (pass data late c.1 c.2).1.2 in
  keeps_pods Serving "default" "db" data t c.1 ∧ keeps_counts Serving "default" "db" data t c.1 ∧ none_beyond Serving "default" "db" t c.1.
Proof.
  intros Hfair t. unfold fair in Hfair. fold t in Hfair. apply andb_true_iff in Hfair as [Hfair Hall].
  apply andb_true_iff in Hfair as [Hlive%bool_decide_eq_true Hm%bool_decide_eq_true]. rewrite forallb_forall in Hall.
  assert (∀ r, Event (EGetStatefulSet "default" (DataName "db")) r ∈ t → r ∈ t ≫= reads) as Hr.
  { intros r Hin. apply list_elem_of_bind. eexists. split; [|exact Hin]. cbn. left. }
  assert (∀ pods, Event (EListPods "default" (DataPodSelector "db")) (inl pods) ∈ t → pods ∈ t ≫= lists) as Hp.
  { intros pods Hin. apply list_elem_of_bind. eexists. split; [|exact Hin]. cbn. rewrite decide_True by done. left. }
  assert (∀ sts, Event (EGetStatefulSet "default" (DataName "db")) (inl sts) ∈ t →
    (live c.1 ≤ Z.max data (default 0%Z (ks_SpecReplicas sts)))%Z ∧
    ∀ count uid generation, (count, (uid, generation)) ∈ wrote (DataName "db") t → uid = ks_UID sts) as Hread.
  { intros sts Hin%Hr%list_elem_of_In%Hall. apply andb_true_iff in Hin as [Hg%Z.leb_le Hw]. split; [done|].
    rewrite forallb_forall in Hw. intros count uid g Hin%list_elem_of_In%Hw. by apply bool_decide_eq_true in Hin. }
  assert (∀ pods, left_behind Serving "default" "db" t pods → kp_Name <$> pods = PodName "db-data" <$> seqZ 0 (live c.1)) as Hnames.
  { intros pods (err & Hin%Hr%list_elem_of_In%Hall & _ & Hl%Hp). cbn in Hin. rewrite forallb_forall in Hin.
    by apply list_elem_of_In, Hin, bool_decide_eq_true in Hl. }
  assert (∀ o, (0 ≤ o < live c.1)%Z → PodName (setName Serving "db") o ∈ PodName "db-data" <$> seqZ 0 (live c.1)) as Hin.
  { intros o Ho. apply list_elem_of_fmap. exists o. split; [done|]. apply elem_of_seqZ. lia. }
  assert (growth_shown Serving "default" "db" data t c.1) as Hgrowth by (intros sts Hs; by apply Hread).
  split; [split; [done|]|split; [split; [done|split]|]].
  - intros pods o Hl%Hnames Ho Hlt. rewrite Hl. assert (o = 0 ∨ o = 1)%Z as Hcases.
    { apply Hm in Ho. rewrite !elem_of_union, !elem_of_singleton in Ho. destruct Ho as [[Ho|Ho]|Ho].
      - by apply (memberName_inj Serving Coordinating o 0) in Ho as [].
      - apply (memberName_inj Serving Serving o 0) in Ho as []. by left.
      - apply (memberName_inj Serving Serving o 1) in Ho as []. by right. }
    split; [lia|]. apply Hin. lia.
  - intros pods Hl%Hnames. right. split; [lia|]. rewrite Hl. apply Hin. lia.
  - intros sts count uid g Hs. by apply Hread.
  - intros pods o Hl%Hnames. rewrite Hl. intros (o' & E & Ho'%elem_of_seqZ)%list_elem_of_fmap. apply PodName_inj in E. lia.
Qed.

Lemma example_step data late c F :
  (∀ declared t s, keeps_pods Serving "default" "db" declared t s ∧ keeps_counts Serving "default" "db" declared t s → F declared t s) →
  Example.fair data late c = true → step Serving "default" "db" F c (next data late c).
Proof.
  intros HF Hs. destruct c as [s shrinks]. destruct (example_fair data late (s, shrinks) Hs) as (Hp & Hc & _).
  refine (step_pass Serving "default" "db" F Reconcile.Example.primitives Reconcile.Example.reconciler Reconcile.Example.same (cluster data)
    _ _ _ s _ shrinks _ eq_refl eq_refl (example_returns data late (s, shrinks)) (example_seen data late (s, shrinks)) _).
  by apply HF.
Qed.

Lemma keeps_pods_nil kind namespace name declared s : keeps_pods kind namespace name declared [] s.
Proof. split; [by intros ? ?%elem_of_nil|]. by intros ? ? (? & ?%elem_of_nil & _). Qed.

Lemma example_starts : starts Serving start.
Proof.
  split; [done|]. split.
  - intros i k j wi wj Hk Hi Hj _. apply list_lookup_singleton_Some in Hi as [-> [= <-]], Hj as [-> [= <-]].
    assert (k = 0) as -> by lia. split; [done|]. split; [done|]. by eexists.
  - split; [done|]. intros o Ho. unfold start in Ho. cbn [wo_members] in Ho. rewrite !elem_of_union, !elem_of_singleton in Ho. destruct Ho as [[Ho|Ho]|Ho].
    + by apply (memberName_inj Serving Coordinating o 0) in Ho as [].
    + by apply (memberName_inj Serving Serving o 0) in Ho as [_ ->].
    + by apply (memberName_inj Serving Serving o 1) in Ho as [_ ->].
Qed.

(** What became of the StatefulSet, and of its count. *)
Example example_history :
  wo_versions shed.1 =
    [Some (mkWrite "old" 1 2); None; Some (mkWrite "new-2" 1 2); Some (mkWrite "new-2" 1 2); Some (mkWrite "new-2" 1 2);
     Some (mkWrite "new-2" 2 1)].
Proof. vm_compute. reflexivity. Qed.

(** The pass after the shrink waits while the cache still shows the pods it shed. *)
Example shrink_is_awaited : mutations (pass 1 true shed.1 shed.2).1.2 = [].
Proof. vm_compute. reflexivity. Qed.

(** A growth that the cache does not show yet is undone by the pass after the spec is lowered,
    without a retirement. *)
Example growth_is_undone :
  let c := next 2 false (next 1 false shed) in live c.1 = 2%Z ∧
  MApply "db-data" 1 ∈ mutations (pass 1 true c.1 c.2).1.2 ∧ live (next 1 true c).1 = 1%Z.
Proof. split; [vm_compute; reflexivity|]. split; [vm_compute; do 6 right; left|vm_compute; reflexivity]. Qed.
End example.

(** Over the deletion and the shrink; then the process ends, before its next pass has done
    anything. *)
Lemma members_keep_their_pods_witness :
  live (restarted Example.shed.1) = 1%Z ∧ DataInstanceName 0 ∈ wo_members (restarted Example.shed.1) ∧
  ∀ o, memberName Serving o ∈ wo_members (restarted Example.shed.1) → (o < 1)%Z.
Proof.
  split; [vm_compute; reflexivity|]. split; [vm_compute; reflexivity|].
  apply (members_keep_their_pods Serving "default" "db" Example.start (restarted Example.shed.1) ∅).
  - exact example_starts.
  - assert (∀ c : world * StatefulSets, c = (c.1, c.2)) as Hc by (by intros []).
    refine (rtc_r _ (Example.shed.1, Example.shed.2) _ _ _).
    + rewrite <- Hc. do 4 (eapply rtc_r; [|apply example_step; [by intros ??? []|vm_compute; reflexivity]]). apply rtc_refl.
    + refine (step_crash Serving "default" "db" _ Reconcile.Example.primitives Reconcile.Example.reconciler Reconcile.Example.same
        (Example.cluster 1) (Example.pass 1 false Example.shed.1 Example.shed.2).1.2 [] _ _ Example.shed.1 Example.shed.1 Example.shed.2
        (Example.next 1 false Example.shed).2 eq_refl eq_refl (example_returns 1 false Example.shed) _ _ _); [apply prefix_nil|done|].
      apply keeps_pods_nil.
Defined.


(** The pass that sheds the pod, and the next one over a cache that has not seen it. *)
Lemma shed_is_awaited_witness :
  Example.shed.2 !! ("default", "db-data") = Some (mkWritten "new-2" 2) ∧
  mutations (Example.pass 1 true Example.shed.1 Example.shed.2).1.2 = [].
Proof.
  destruct (shed_is_awaited Serving Reconcile.Example.primitives Reconcile.Example.reconciler (Example.cluster 1) Reconcile.Example.same
    _ _ _ _ _ [(2%Z, ("new-2", 1%Z))] 2 ("new-2", 1%Z) 1 "new-2" 2 (example_returns 1 false (Example.next 1 false Example.recreated)))
    as [Hexp Hnext]; [vm_compute; reflexivity|left|done|].
  split; [exact Hexp|].
  apply (Hnext Reconcile.Example.primitives Reconcile.Example.reconciler (Example.cluster 1) _ _ _ _ eq_refl eq_refl
    (example_returns 1 true Example.shed)).
  intros r Hr. assert (r ∈ (Example.pass 1 true Example.shed.1 Example.shed.2).1.2 ≫= Example.reads) as Hin.
  { apply list_elem_of_bind. eexists. split; [|exact Hr]. cbn. left. }
  assert ((Example.pass 1 true Example.shed.1 Example.shed.2).1.2 ≫= Example.reads = [inl (Example.copy (mkWrite "new-2" 1 2))]) as E
    by (vm_compute; reflexivity).
  rewrite E in Hin. apply list_elem_of_singleton in Hin as ->. eexists. split; [reflexivity|]. split; [reflexivity|].
  vm_compute. reflexivity.
Defined.
