(* ===== verification/Watches.v ===== *)
(** * Package controller: what starts a pass

    The watch mappings of memgraphdbcluster_controller.go, from an event on a Secret, a claim
    or a pod to the clusters whose passes it concerns, with the predicate that drops a pod's
    idle updates, and the discovery of the optional kinds when the manager starts. *)

From S2P Require Import Prelude GoStrings GoErrors K8s Api Client Planner Volumes Effects Rollout.
From S2P Require Import Resources Topology Flags Vector Workloads Monitoring Status World Apply ExposurePass Events Replicas.

(** ** Definitions *)

(** [metav1.GetControllerOf]: the owner reference that controls an object. *)
Record OwnerReference := mkOwnerReference { ow_APIVersion : string; ow_Kind : string; ow_Name : string }.

(** A [reconcile.Request], by namespace and name. *)
Abbreviation Request := (string * string)%type.

(** [memgraphcomv1alpha1.GroupVersion.Group]. *)
Definition Group : string := "memgraph.com".

Section watches.
Context `{Kube} {L : Type}.

(** [clustersForSecret], on the clusters the API server lists in the Secret's namespace. *)
Definition clustersForSecret (controller : option OwnerReference) (namespace secret : string)
    (listed : list (MemgraphDBCluster L) + error) : list Request :=
  let mapped :=
    match listed with
    | inr _ => []
    | inl clusters =>
        (λ cluster, (m_Namespace (Meta cluster), m_Name (Meta cluster))) <$>
          List.filter (λ cluster, bool_decide (lc_Name (LicenseSecretOf (Spec cluster)) = secret) ||
                                  bool_decide (AWSCredentialsSecretOf (Spec cluster) = secret)) clusters
    end in
  match controller with
  | Some owner =>
      if bool_decide (ow_Kind owner = "MemgraphDBCluster") && HasPrefix (ow_APIVersion owner) (Group ^^ "/")
      then [(namespace, ow_Name owner)] else mapped
  | None => mapped
  end.
End watches.

(** A Secret with a MemgraphDBCluster of the operator's group for controller. *)
Definition clusterControlled (controller : option OwnerReference) : Prop :=
  ∃ version name, controller = Some (mkOwnerReference (Group ^^ "/" ^^ version) "MemgraphDBCluster" name).

Definition clusterForClaim (namespace : string) (claimLabels : gmap string string) : list Request :=
  let name := ClusterNameOf claimLabels in
  if decide (name = "") then [] else [(namespace, name)].

Definition clusterForPod (namespace : string) (podLabels : gmap string string) : list Request :=
  let name := ClusterNameOfMemgraphPod podLabels in
  if decide (name = "") then [] else [(namespace, name)].

(** [memgraphPodChanged] on an update of a pod. *)
Definition memgraphPodChanged (old new : KPod) : bool :=
  negb (Bool.eqb (podReady old) (podReady new)) ||
  negb (bool_decide ((kp_Labels old !!? StatefulSetRevisionLabel | "") = (kp_Labels new !!? StatefulSetRevisionLabel | ""))).

(** [meta.RESTMapper.RESTMapping]: the group version a kind is served at, at one version or at
    any, or its error, which may be the one [IsNoMatchError] tells. *)
Inductive mappingError := NoMatch | OtherMapping (err : error).

Fixpoint kindsServed (RESTMapping : string → string → option string → string + mappingError) (group version : string)
    (kinds : list string) : (bool * string) + error :=
  match kinds with
  | [] => inl (true, "")
  | kind :: kinds =>
      match RESTMapping group kind (Some version) with
      | inl _ => kindsServed RESTMapping group version kinds
      | inr (OtherMapping err) => inr (wrap ("discovering " ^^ kind ^^ "." ^^ group) err)
      | inr NoMatch =>
          match RESTMapping group kind None with
          | inl groupVersion => inl (false, kind ^^ " is served only as " ^^ groupVersion)
          | inr _ => inl (false, kind ^^ " is not served")
          end
      end
  end.

Definition GatewayAPIServed RESTMapping (group version : string) : (bool * string) + error :=
  kindsServed RESTMapping group version ["Gateway"; "TCPRoute"].
Definition ServiceMonitorServed RESTMapping (group version : string) : (bool * string) + error :=
  kindsServed RESTMapping group version ["ServiceMonitor"].

(** ** Lemmas *)

(** A label set that extends an object's is read the same. *)
Lemma ClusterNameOf_weaken labels more :
  is_Some (labels !! NameLabel) → is_Some (labels !! instanceLabel) → is_Some (labels !! componentLabel) → labels ⊆ more →
  ClusterNameOf more = ClusterNameOf labels ∧ ClusterNameOfMemgraphPod more = ClusterNameOfMemgraphPod labels.
Proof.
  intros [n Hn] [i Hi] [c Hc] Hsub. unfold ClusterNameOfMemgraphPod, ClusterNameOf.
  by rewrite (lookup_weaken _ _ _ _ Hn Hsub), (lookup_weaken _ _ _ _ Hi Hsub), (lookup_weaken _ _ _ _ Hc Hsub), Hn, Hi, Hc.
Qed.

(** The labels of an object built for a role, extended by its controllers. *)
Lemma clusterForPod_labels namespace name component custom more :
  name ≠ "" → labels name component custom ⊆ more →
  clusterForPod namespace more =
    if decide (component = coordinatorComponent ∨ component = dataComponent) then [(namespace, name)] else [].
Proof.
  intros Hn Hsub. destruct (labels_identity name component custom) as (_ & _ & _ & _ & Hp).
  assert (∀ k, k ∈ [NameLabel; instanceLabel; componentLabel] → is_Some (labels name component custom !! k)) as Hk.
  { intros k Hk. rewrite lookup_labels, lookup_selectorLabels.
    repeat (apply elem_of_cons in Hk as [->|Hk]; [by eexists|]). by apply elem_of_nil in Hk. }
  destruct (ClusterNameOf_weaken (labels name component custom) more) as [_ E]; [apply Hk..|done|]; [by left|by right; left|by do 2 right; left|].
  unfold clusterForPod. rewrite E, Hp. repeat case_decide; done.
Qed.

Lemma clusterForClaim_labels namespace name component more :
  name ≠ "" → selectorLabels name component ⊆ more → clusterForClaim namespace more = [(namespace, name)].
Proof.
  intros Hn Hsub.
  assert (∀ k, k ∈ [NameLabel; instanceLabel; componentLabel] → is_Some (selectorLabels name component !! k)) as Hk.
  { intros k Hk. rewrite lookup_selectorLabels.
    repeat (apply elem_of_cons in Hk as [->|Hk]; [by eexists|]). by apply elem_of_nil in Hk. }
  destruct (ClusterNameOf_weaken (selectorLabels name component) more) as [E _]; [apply Hk..|done|]; [by left|by right; left|by do 2 right; left|].
  assert (ClusterNameOf (selectorLabels name component) = name) as E'.
  { unfold ClusterNameOf. by rewrite !lookup_selectorLabels. }
  unfold clusterForClaim. rewrite E, E'. by rewrite decide_False.
Qed.

(** The kinds are reported as served exactly where each is, at the version asked for, and what is
    found lacking is named. *)
Lemma kindsServed_served RESTMapping group version kinds missing :
  kindsServed RESTMapping group version kinds = inl (true, missing) ↔
  missing = "" ∧ ∀ kind, kind ∈ kinds → ∃ at_, RESTMapping group kind (Some version) = inl at_.
Proof.
  induction kinds as [|k kinds IH]; cbn [kindsServed].
  - split; [by intros [= <-]; split; [|intros ? ?%elem_of_nil]|by intros [-> _]].
  - destruct (RESTMapping group k (Some version)) as [v|[|err]] eqn:E.
    + rewrite IH. split; intros [Hm Hk]; (split; [done|]).
      * intros kind [->|Hin]%elem_of_cons; [by exists v|by apply Hk].
      * intros kind Hin. apply Hk. by right.
    + split; [by destruct (RESTMapping group k None)|]. intros [_ Hk]. destruct (Hk k) as [? Hx]; [left|congruence].
    + split; [done|]. intros [_ Hk]. destruct (Hk k) as [? Hx]; [left|congruence].
Qed.

Lemma kindsServed_lacking RESTMapping group version kinds missing :
  kindsServed RESTMapping group version kinds = inl (false, missing) →
  ∃ kind, kind ∈ kinds ∧ HasPrefix missing kind = true ∧ RESTMapping group kind (Some version) = inr NoMatch.
Proof.
  induction kinds as [|k kinds IH]; cbn [kindsServed]; [done|].
  destruct (RESTMapping group k (Some version)) as [v|[|err]] eqn:E; [|intros Hm; exists k|done].
  - intros (kind & Hin & ?)%IH. exists kind. split; [by right|done].
  - split; [left|]. split; [|done].
    destruct (RESTMapping group k None) as [gv|]; injection Hm as <-;
      unfold HasPrefix; rewrite bool_decide_eq_true_2; (done || by rewrite CutPrefix_app; eexists).
Qed.

Lemma clustersForSecret_controlled `{Kube} {L} version name namespace secret (listed : list (MemgraphDBCluster L) + error) :
  clustersForSecret (Some (mkOwnerReference (Group ^^ "/" ^^ version) "MemgraphDBCluster" name)) namespace secret listed =
  [(namespace, name)].
Proof.
  cbn [clustersForSecret ow_Kind ow_APIVersion ow_Name].
  rewrite bool_decide_eq_true_2 by done. unfold HasPrefix. rewrite bool_decide_eq_true_2; [done|].
  rewrite <- app_assoc_s, CutPrefix_app. by eexists.
Qed.

Lemma clustersForSecret_uncontrolled `{Kube} {L} controller namespace secret (listed : list (MemgraphDBCluster L) + error) :
  ¬ clusterControlled controller →
  clustersForSecret controller namespace secret listed = clustersForSecret None namespace secret listed.
Proof.
  intros Hc. destruct controller as [[apiVersion kind name]|]; [|done]. cbn [clustersForSecret ow_Kind ow_APIVersion ow_Name].
  rewrite (proj2 (andb_false_iff _ _)); [done|]. destruct (decide (kind = "MemgraphDBCluster")) as [->|];
    [right|left; by apply bool_decide_eq_false_2].
  destruct (HasPrefix apiVersion (Group ^^ "/")) eqn:Hp; [|done]. destruct Hc.
  unfold HasPrefix in Hp. apply bool_decide_eq_true in Hp as [version ->%CutPrefix_Some]. exists version, name.
  by rewrite app_assoc_s.
Qed.

(** A Secret that no cluster controls is mapped by the clusters that name it. *)
Lemma clustersForSecret_named `{Kube} {L} controller namespace secret (clusters : list (MemgraphDBCluster L)) request :
  ¬ clusterControlled controller →
  request ∈ clustersForSecret controller namespace secret (inl clusters) ↔
    ∃ other, other ∈ clusters ∧ request = (m_Namespace (Meta other), m_Name (Meta other)) ∧
      (lc_Name (LicenseSecretOf (Spec other)) = secret ∨ AWSCredentialsSecretOf (Spec other) = secret).
Proof.
  intros Hc. rewrite clustersForSecret_uncontrolled by done. unfold clustersForSecret. rewrite list_elem_of_fmap. split.
  - intros (other & E & [Hin Hr]%elem_of_bfilter). exists other. split; [done|]. split; [done|].
    by apply orb_true_iff in Hr as [?%bool_decide_eq_true|?%bool_decide_eq_true]; [left|right].
  - intros (other & Hin & E & Hr). exists other. split; [done|]. apply elem_of_bfilter. split; [done|].
    apply orb_true_iff. destruct Hr; [left|right]; by apply bool_decide_eq_true.
Qed.

(** What the roll keeps of a pod, when an update the watch drops leaves it alone. *)
Lemma rolloutPod_dropped instanceName ordinal old new :
  kp_Name new = kp_Name old → kp_UID new = kp_UID old → memgraphPodChanged old new = false →
  rolloutPod instanceName ordinal new = rolloutPod instanceName ordinal old ↔
  (podReady old = true → kp_Deleting new = kp_Deleting old).
Proof.
  intros En Eu Hc. unfold memgraphPodChanged in Hc.
  apply orb_false_iff in Hc as [Hr%negb_false_iff%eqb_prop Hl%negb_false_iff%bool_decide_eq_true].
  unfold rolloutPod. rewrite En, Eu, Hr, Hl. split.
  - intros E Hn'. injection E as E. rewrite Hn' in E. by destruct (kp_Deleting new), (kp_Deleting old).
  - intros Hd. destruct (podReady new); [by rewrite Hd|by rewrite !andb_false_r].
Qed.

(** The loop's view at the pod's own ordinal, over an update the watch drops. *)
Lemma observe_ordinal_dropped name instanceName byName observed ordinal old new :
  kp_Name old = PodName name ordinal → kp_Name new = PodName name ordinal → kp_UID new = kp_UID old →
  memgraphPodChanged old new = false →
  observe_ordinal name instanceName (<[PodName name ordinal := new]> byName) observed ordinal =
  observe_ordinal name instanceName (<[PodName name ordinal := old]> byName) observed ordinal ↔
  (podReady old = true → kp_Deleting new = kp_Deleting old) ∧
  ∀ annotation, annotation ∈ [FlagsAnnotation; TemplateHashAnnotation] →
    (kp_Annotations new !!? annotation | "") = (kp_Annotations old !!? annotation | "").
Proof.
  intros Eo En Eu Hc. rewrite <- (rolloutPod_dropped instanceName ordinal) by (by rewrite ?Eo). unfold observe_ordinal.
  rewrite !lookup_insert_eq, En, Eo. split.
  - intros E. injection E as Epods Eflags Etemplates. apply (app_inv_head (r_Pods (or_Role observed))) in Epods.
    split; [by apply (f_equal head), (inj Some) in Epods|]. apply (f_equal (.!! PodName name ordinal)) in Eflags, Etemplates.
    rewrite !lookup_insert_eq in Eflags, Etemplates. injection Eflags as Eflags. injection Etemplates as Etemplates.
    intros annotation [->|[->|[]%elem_of_nil]%elem_of_cons]%elem_of_cons; done.
  - intros [-> Ha]. rewrite !Ha by by_decide. done.
Qed.

(** ** Properties *)

(** C38: every outside change a pass acts on starts one of its cluster's: a pod of either
    StatefulSet, whatever labels its controllers add, is mapped to the cluster it was built
    for and a vmagent pod to none; so is a claim with its StatefulSet's selector labels; a
    Secret that a cluster controls starts that cluster's pass alone, and any other, controlled
    or not, the passes of exactly the listed clusters that read their license or AWS
    credentials from it, and none when they cannot be listed. Of the updates the watch drops,
    one changes what the roll observes at the pod's ordinal only by marking a ready pod for
    deletion or by rewriting the flags or template annotation the pod was started with; any
    other leaves everything a pass observes of the role as it was. *)
Theorem watches_reach_the_cluster `{RangeOrder} `{Kube} {L} digest marshal (cluster : MemgraphDBCluster L) :
  m_Name (Meta cluster) ≠ "" →
  let key := (m_Namespace (Meta cluster), m_Name (Meta cluster)) in
  (∀ replicas sts role component more, Workloads.built digest marshal cluster replicas sts role component →
     (te_Labels (sf_Template sts) ⊆ more → clusterForPod (m_Namespace (Meta cluster)) more = [key]) ∧
     (sf_Selector sts ⊆ more → clusterForClaim (m_Namespace (Meta cluster)) more = [key])) ∧
  (∀ deployment more, VMAgentDeployment cluster = Some deployment → te_Labels (dp_Template deployment) ⊆ more →
     clusterForPod (m_Namespace (Meta cluster)) more = []) ∧
  (∀ version secret listed,
     clustersForSecret (Some (mkOwnerReference (Group ^^ "/" ^^ version) "MemgraphDBCluster" (m_Name (Meta cluster))))
       (m_Namespace (Meta cluster)) secret (listed : list (MemgraphDBCluster L) + error) = [key]) ∧
  (∀ controller namespace secret, ¬ clusterControlled controller →
     (∀ (clusters : list (MemgraphDBCluster L)) request,
        request ∈ clustersForSecret controller namespace secret (inl clusters) ↔
        ∃ other, other ∈ clusters ∧ request = (m_Namespace (Meta other), m_Name (Meta other)) ∧
          (lc_Name (LicenseSecretOf (Spec other)) = secret ∨ AWSCredentialsSecretOf (Spec other) = secret)) ∧
     ∀ err, clustersForSecret controller namespace secret (inr err : list (MemgraphDBCluster L) + error) = []) ∧
  ∀ old new, kp_Name new = kp_Name old → kp_UID new = kp_UID old → memgraphPodChanged old new = false →
    let alike := (podReady old = true → kp_Deleting new = kp_Deleting old) ∧
      ∀ annotation, annotation ∈ [FlagsAnnotation; TemplateHashAnnotation] →
        (kp_Annotations new !!? annotation | "") = (kp_Annotations old !!? annotation | "") in
    ∀ name instanceName byName observed,
      (∀ ordinal, PodName name ordinal = kp_Name old →
         observe_ordinal name instanceName (<[kp_Name old := new]> byName) observed ordinal =
         observe_ordinal name instanceName (<[kp_Name old := old]> byName) observed ordinal ↔ alike) ∧
      (alike → ∀ ordinals,
         foldl (observe_ordinal name instanceName (<[kp_Name old := new]> byName)) observed ordinals =
         foldl (observe_ordinal name instanceName (<[kp_Name old := old]> byName)) observed ordinals).
Proof.
  intros Hn key. split; [|split; [|split; [|split]]].
  - intros replicas sts role component more Hb. destruct (built_shape _ _ _ _ _ _ _ Hb) as (c & f & env & ports & probe & name & _ & ->).
    cbn [sf_Template te_Labels sf_Selector buildStatefulSet]. split.
    + intros Hsub. rewrite (clusterForPod_labels _ _ _ _ _ Hn Hsub). rewrite decide_True; [done|]. destruct Hb; [by left|by right].
    + by apply clusterForClaim_labels.
  - intros d more Hd Hsub. unfold VMAgentDeployment in Hd. destruct (nmo_vmagent _) as [block|]; [|done].
    cbn [mbind option_bind] in Hd. injection Hd as <-. cbn [dp_Template te_Labels] in Hsub.
    erewrite (clusterForPod_labels _ (m_Name (Meta cluster)) vmagentComponent ∅); [by rewrite decide_False by (by intros [?|?])|done|].
    etrans; [|exact Hsub]. unfold monitoringLabels. apply insert_subseteq. by rewrite lookup_labels, lookup_selectorLabels.
  - intros version secret listed. apply clustersForSecret_controlled.
  - intros controller namespace secret Hc. split; [by intros; apply clustersForSecret_named|].
    intros err. by rewrite clustersForSecret_uncontrolled.
  - intros old new En Eu Hc alike name instanceName byName observed. split.
    + intros ordinal E. rewrite <- E. apply observe_ordinal_dropped; congruence.
    + intros Ha os. revert observed. induction os as [|ordinal os IH]; intros observed; cbn; [done|]. rewrite <- IH. f_equal.
      destruct (decide (PodName name ordinal = kp_Name old)) as [E|Hne].
      * rewrite <- E. apply observe_ordinal_dropped; [congruence..|exact Ha].
      * unfold observe_ordinal. by rewrite !lookup_insert_ne by done.
Qed.

#[local] Existing Instance Api.Example.kube_text.

Module Example.
Definition cluster : MemgraphDBCluster (gmap string Condition) := Workloads.Example.cluster.
Definition pod (deleting : bool) : KPod :=
  mkKPod "db-data-0" "uid" {[ StatefulSetRevisionLabel := "r1" ]} ∅ deleting [mkPodCondition PodReady "True"] [].
Definition nothing : observedRole := mkObservedRole (mkRole 1 "r2" false []) "" ∅ "" ∅.
End Example.

Lemma watches_reach_the_cluster_witness :
  clusterForPod (m_Namespace (Meta Example.cluster)) (te_Labels (sf_Template Workloads.Example.data)) =
    [(m_Namespace (Meta Example.cluster), m_Name (Meta Example.cluster))] ∧
  (m_Namespace (Meta Example.cluster), m_Name (Meta Example.cluster)) ∈
  clustersForSecret (Some (mkOwnerReference "v1" "MemgraphDBCluster" "other")) (m_Namespace (Meta Example.cluster)) "memgraph-secrets"
    (inl [Example.cluster]) ∧
  memgraphPodChanged (Example.pod false) (Example.pod true) = false ∧
  observe_ordinal "db-data" (λ _ : Z, "instance_0") {[ "db-data-0" := Example.pod true ]} Example.nothing 0 ≠
  observe_ordinal "db-data" (λ _ : Z, "instance_0") {[ "db-data-0" := Example.pod false ]} Example.nothing 0.
Proof.
  pose proof (watches_reach_the_cluster digest_example Workloads.Example.marshal Example.cluster) as W.
  destruct W as (Hpods & _ & _ & Hsecret & Hdrop); [done|].
  split; [eapply (proj1 (Hpods 2%Z _ _ _ _ (built_data _ _ _ _))); reflexivity|].
  split; [|split; [done|]].
  - apply (Hsecret (Some (mkOwnerReference "v1" "MemgraphDBCluster" "other"))); [by intros (version & name & E)|].
    exists Example.cluster. split; [left|]. split; [reflexivity|]. left. reflexivity.
  - intros E. apply (proj1 (Hdrop (Example.pod false) (Example.pod true) eq_refl eq_refl eq_refl
      "db-data" (λ _ : Z, "instance_0") ∅ Example.nothing) 0%Z eq_refl) in E as [E _].
    by specialize (E eq_refl).
Defined.
