(* ===== verification/Wire.v ===== *)
(** * A pass down to the driver

    The passes of the controller act on Memgraph through the Client interface; here their
    effects are answered by the Bolt client of bolt.go, over an environment that answers the
    calls of the driver, so what a whole pass does is told by the drivers, the sessions and the
    queries it leaves. *)

From S2P Require Import Prelude GoStrings GoErrors K8s Api Client Planner PlanRun Effects Bolt Settings Volumes Rollout.
From S2P Require Import Resources Topology Workloads Expectations Status World Exposure Apply.
From S2P Require Import ExposurePass Replicas VolumePass Connections Registration Reconcile.

(** ** Definitions *)

Section wire.
Context `{RangeOrder} `{Kube} {S : Type}.
Context (handle : ∀ X, driverCall X → S → S * X) (api : ∀ X, eff X → S → S * X) (password : string).

(** An effect of a pass: Memgraph's by the Bolt client, under the pass's password, and the
    others by [api]. *)
Definition wired (X : Type) (e : eff X) (s : S * list (event driverCall)) : (S * list (event driverCall)) * X :=
  match e in eff X return (S * list (event driverCall)) * X with
  | EConnect address tls => drive handle (Connect password address tls) s
  | EClose c => drive handle (Close c) s
  | EShowInstances c => drive handle (ShowInstances c) s
  | EShowReplicationLag c => drive handle (ShowReplicationLag c) s
  | ERun c command => @Run _ (boltClient handle c) command s
  | EShowSettings c => drive handle (ShowSettings c) s
  | ESetSetting c name value => drive handle (SetSetting c name value) s
  | EShowConfig c => drive handle (ShowConfig c) s
  | EShowCoordinatorSettings c => drive handle (ShowCoordinatorSettings c) s
  | ESetCoordinatorSetting c name value => drive handle (SetCoordinatorSetting c name value) s
  | e => let '(s', x) := api _ e s.1 in ((s', s.2), x)
  end.
End wire.

(** The queries a command may run. *)
Definition command_queries (c : Command) : list string :=
  match c with
  | AddCoordinator c => [addCoordinatorQuery c]
  | RegisterInstance i => [registerInstanceQuery i]
  | UpdateCoordinatorBoltServer c => [updateCoordinatorBoltServerQuery (c_ID c) (c_BoltServer c)]
  | UpdateInstanceBoltServer i => [updateInstanceBoltServerQuery (d_Name i) (d_BoltServer i)]
  | SetInstanceToMain candidates restore =>
      setInstanceToMainQuery <$> candidates ++ if decide (restore = "") then [] else [restore]
  | DemoteInstance name => [demoteInstanceQuery name]
  | UnregisterInstance name => [unregisterInstanceQuery name]
  | RemoveCoordinator c => [removeCoordinatorQuery (c_ID c)]
  | YieldLeadership _ => [yieldLeadershipQuery]
  end.

(** The queries of an effect. *)
Definition effect_queries `{Kube} (e : event eff) : list string :=
  match e with
  | Event (EShowInstances _) _ => [showInstancesQuery]
  | Event (EShowReplicationLag _) _ => [showReplicationLagQuery]
  | Event (ERun _ command) _ => command_queries command
  | Event (EShowSettings _) _ => [showSettingsQuery]
  | Event (ESetSetting _ name value) _ => [setSettingQuery name value]
  | Event (EShowConfig _) _ => [showConfigQuery]
  | Event (EShowCoordinatorSettings _) _ => [showCoordinatorSettingsQuery]
  | Event (ESetCoordinatorSetting _ name value) _ => [setCoordinatorSettingQuery name value]
  | _ => []
  end.

(** ** Lemmas *)

(** The driver calls [u] carry out the effects [t]: what [t] opened and closed is what [u] left
    open and closed, no session stays, and every query is one of [t]'s. *)
Record carries `{Kube} (u : list (event driverCall)) (t : list (event eff)) : Prop := {
  ca_drivers : (u ≫= opens_driver) ++ closed t ≡ₚ (u ≫= closes_driver) ++ opened t;
  ca_sessions : u ≫= opens_session ≡ₚ u ≫= closes_session;
  ca_queries : u ≫= query_of ⊆ t ≫= effect_queries
}.

Section carries.
Context `{Kube}.

Lemma carries_nil : carries [] [].
Proof. done. Qed.

Lemma carries_app u v t w : carries u t → carries v w → carries (u ++ v) (t ++ w).
Proof.
  intros [Hd Hs Hq] [Hd' Hs' Hq']. split; rewrite !bind_app.
  - rewrite closed_app, opened_app.
    transitivity (((u ≫= opens_driver) ++ closed t) ++ ((v ≫= opens_driver) ++ closed w)); [by solve_Permutation|].
    rewrite Hd, Hd'. by solve_Permutation.
  - by rewrite Hs, Hs'.
  - intros text [Hin|Hin]%elem_of_app; apply elem_of_app; [left; by apply Hq|right; by apply Hq'].
Qed.
End carries.

(** Client calls that run queries among [texts], with every session closed. *)
Definition calls {S} (texts : list string) (s s' : S * list (event driverCall)) : Prop :=
  ∃ u, s'.2 = s.2 ++ u ∧ settles u [] ∧ u ≫= query_of ⊆ texts.

Lemma calls_refl {S} texts (s : S * list (event driverCall)) : calls texts s s.
Proof. exists []. rewrite app_nil_r. split; [done|]. split; [apply settles_nil|]. by intros ? ?%elem_of_nil. Qed.

Lemma calls_trans {S} texts (s1 s2 s3 : S * list (event driverCall)) : calls texts s1 s2 → calls texts s2 s3 → calls texts s1 s3.
Proof.
  intros (u & E & Hu & Hq) (v & E' & Hv & Hq'). exists (u ++ v). rewrite E', E, <- app_assoc. split; [done|].
  split; [by apply settles_after|]. rewrite bind_app. intros text [?|?]%elem_of_app; auto.
Qed.

(** Dialling runs no query. *)
Definition dials (X : Type) (e : driverCall X) : Prop :=
  match e with SessionRun _ _ => False | _ => True end.
#[local] Hint Extern 0 (dials _ _) => exact I : effects.

Lemma Connect_queries password address tls t r : returns (Connect password address tls) t r → t ≫= query_of = [].
Proof.
  assert (∀ scheme creds errs, all_effects dials (dial_scheme address scheme creds errs)) as Hscheme.
  { intros scheme creds. induction creds as [|c creds IH]; intros errs; cbn [dial_scheme]; all_effects. }
  assert (∀ creds schemes errs, all_effects dials (dial_schemes address creds schemes errs)) as Hschemes.
  { intros creds schemes. induction schemes as [|scheme schemes IH]; intros errs; cbn [dial_schemes]; all_effects. }
  intros Hr. pose proof (all_effects_returns _ _ _ _ (Hschemes _ _ _) Hr) as Hall. clear Hr.
  induction t as [|[X e x] t IH]; [done|]. cbn. rewrite IH by (intros Y f y Hin; apply (Hall Y f y); by right).
  specialize (Hall X e x). destruct e; try done. by destruct Hall; left.
Qed.

Section wire_lemmas.
Context `{RangeOrder} `{Kube} {S : Type}.
Context (handle : ∀ X, driverCall X → S → S * X) (api : ∀ X, eff X → S → S * X) (password : string).

Lemma drive_run {X} (p : prog driverCall X) s :
  ∃ u, (drive handle p s).1.2 = s.2 ++ u ∧ returns p u (drive handle p s).2.
Proof.
  unfold drive. pose proof (run_returns handle p s.1) as Hp. destruct (Effects.run handle p s.1) as [[s' u] x]. by exists u.
Qed.

Lemma command_calls c text texts s : text ∈ texts → calls texts s (drive handle (command c text) s).1.
Proof.
  intros Hin. destruct (drive_run (command c text) s) as (u & E & (Hs & Hq & _)%command_spec). exists u.
  split; [done|]. split; [done|]. rewrite Hq. by intros ? ->%list_elem_of_singleton.
Qed.

Lemma try_candidates_calls c candidates errs s texts :
  setInstanceToMainQuery <$> candidates ⊆ texts →
  calls texts s (@try_candidates _ (boltClient handle c) candidates errs s).1.1.
Proof.
  revert errs s. induction candidates as [|n candidates IH]; intros errs s Ht; cbn [try_candidates]; [apply calls_refl|].
  assert (Hc : calls texts s (drive handle (command c (setInstanceToMainQuery n)) s).1) by (apply command_calls, Ht; left).
  cbn [client_SetInstanceToMain boltClient]. destruct (drive handle _ s) as [s1 [err|]]; [|exact Hc].
  eapply calls_trans; [exact Hc|]. apply IH. intros text Hin. apply Ht. by right.
Qed.

Lemma Run_calls c command s : calls (command_queries command) s (@Run _ (boltClient handle c) command s).1.
Proof.
  destruct command as [| | | |candidates restore| | | |]; cbn [Run boltClient command_queries]; try (apply command_calls; left).
  unfold run_SetInstanceToMain. set (texts := _ <$> _).
  assert (Hc : calls texts s (@try_candidates _ (boltClient handle c) candidates [] s).1.1).
  { apply try_candidates_calls. unfold texts. rewrite fmap_app. by apply list_subseteq_app_l. }
  destruct (try_candidates _ _ _) as [[s1 errs] []]; [exact Hc|]. case_decide as Hr; [exact Hc|].
  assert (Hc' : calls texts s1 (drive handle (Bolt.command c (setInstanceToMainQuery restore)) s1).1).
  { apply command_calls. unfold texts. rewrite fmap_app. apply elem_of_app. right. left. }
  cbn [client_SetInstanceToMain boltClient]. destruct (drive handle _ s1) as [s2 [err|]]; exact (calls_trans _ _ _ _ Hc Hc').
Qed.

(** One effect of a pass is carried out. *)
Lemma wired_carries X (e : eff X) s :
  ∃ u, (wired handle api password X e s).1.2 = s.2 ++ u ∧ carries u [Event e (wired handle api password X e s).2].
Proof.
  assert (Hdrive : ∀ Y (f : eff Y) (p : prog driverCall Y), (∀ u x, returns p u x → carries u [Event f x]) →
    ∃ u, (drive handle p s).1.2 = s.2 ++ u ∧ carries u [Event f (drive handle p s).2]).
  { intros Y f p Hp. destruct (drive_run p s) as (u & E & Hr). exists u. split; [done|]. by apply Hp. }
  assert (Hquery : ∀ u Y (f : eff Y) x text, closes (Event f x) = [] → opens (Event f x) = [] →
    text ∈ effect_queries (Event f x) → settles u [] ∧ u ≫= query_of = [text] ∧ u ≫= attempt = [] → carries u [Event f x]).
  { intros u Y f x text Hc Ho Ht ([Hd Hs] & Hq & _). rewrite app_nil_r in Hd. split; cbn [mbind list_bind]; [|done|].
    - unfold closed, opened. cbn [mbind list_bind]. by rewrite Hc, Ho, !app_nil_r.
    - rewrite Hq, app_nil_r. by intros ? ->%list_elem_of_singleton. }
  assert (Hapi : ∀ Y (f : eff Y), closes (Event f (api Y f s.1).2) = [] → opens (Event f (api Y f s.1).2) = [] →
    carries [] [Event f (api Y f s.1).2]).
  { intros Y f Hc Ho. split; [|done|by intros ? ?%elem_of_nil]. unfold closed, opened. cbn [mbind list_bind]. by rewrite Hc, Ho. }
  destruct e; cbn [wired];
    try (apply Hdrive; intros u x Hr; eapply Hquery; [done..|left|]; (by eapply query_spec) || by eapply command_spec);
    try match goal with |- context [api ?Y ?f s.1] =>
          specialize (Hapi Y f eq_refl eq_refl); destruct (api Y f s.1) as [s' x]; exists [];
          rewrite app_nil_r; split; [done|exact Hapi]
        end.
  - apply Hdrive. intros u r Hr. pose proof (Connect_queries _ _ _ _ _ Hr) as Hq.
    apply dial_schemes_spec in Hr as ([Hd Hs] & _ & _ & _). split; [|done|by rewrite Hq].
    rewrite Hd. destruct r; cbn; by rewrite app_nil_r.
  - apply Hdrive. intros u r (x & v & -> & -> & ->). done.
  - destruct (Run_calls c command s) as (u & E & [Hd Hs] & Hq). exists u. split; [done|].
    split; [by rewrite Hd, !app_nil_r|done|]. cbn. by rewrite app_nil_r.
Qed.

(** A program over the effects of a pass is carried out. *)
Lemma run_carries {A} (p : prog eff A) s :
  ∃ u, (Effects.run (wired handle api password) p s).1.1.2 = s.2 ++ u ∧
    carries u (Effects.run (wired handle api password) p s).1.2.
Proof.
  revert s. induction p as [a|X e k IH]; intros s; cbn [Effects.run].
  { exists []. rewrite app_nil_r. split; [done|apply carries_nil]. }
  destruct (wired_carries X e s) as (u & Eu & Hu). destruct (wired handle api password X e s) as [s1 x].
  destruct (IH x s1) as (v & Ev & Hv). destruct (Effects.run _ (k x) s1) as [[s2 t] a]. cbn in *.
  exists (u ++ v). rewrite Ev, Eu, <- app_assoc. split; [done|]. by apply (carries_app u v [_] t).
Qed.
End wire_lemmas.

Lemma carries_settles `{Kube} u t : carries u t → leaves_open t [] → settles u [].
Proof.
  intros [Hd Hs _] Ho. unfold leaves_open in Ho. split; [|done]. rewrite Ho, app_nil_r in Hd. rewrite app_nil_r.
  by apply Permutation_app_inv_r in Hd.
Qed.

(** The commands of a pass are of its registration stage. *)
Lemma staged_commands `{RangeOrder} `{Kube} `{QuantityOrder Quantity} {L} `{ConditionsAPI L} primitives reconciler
    (cluster : MemgraphDBCluster L) replicas t user claims app pr reg command :
  staged primitives reconciler cluster replicas t user claims app pr reg →
  MCommand command ∈ user ++ claims ++ app ++ pr ++ reg → MCommand command ∈ reg.
Proof.
  intros [Hu (grown & orphaned & -> & Hg & Ho) [Happ Hpr _ _]]. rewrite Forall_forall in Hu, Hg, Hpr.
  rewrite !elem_of_app. intros [Hin|[[Hin|Hin]|[Hin|[Hin|Hin]]]]; [..|done].
  - by destruct (Hu _ Hin) as [?|?].
  - by destruct (Hg _ Hin) as (? & ? & ? & ? & _ & _ & _ & _ & _ & _ & ?).
  - destruct Ho as [->|(m & -> & Hm & _)]; [by apply elem_of_nil in Hin|].
    apply list_elem_of_singleton in Hin as <-. by destruct Hm as (? & ? & ? & _ & _ & _ & ? & _).
  - destruct Happ as [rest E]. assert (MCommand command ∈ applying <$> desiredObjects primitives reconciler cluster replicas) as Hd.
    { rewrite E. apply elem_of_app. by left. }
    by apply list_elem_of_fmap in Hd as ([] & ? & _).
  - by destruct (Hpr _ Hin) as [(? & ? & ? & _ & _ & _ & _ & _ & ?)|(? & ? & ? & _ & _ & _ & _ & _ & ?)].
Qed.

(** A command a registration pass runs is of the plan. *)
Lemma pass_did_command `{RangeOrder} `{Kube} `{QuantityOrder Quantity} {L} `{ConditionsAPI L} (cluster : MemgraphDBCluster L)
    topology replicas roles observed lag done command :
  pass_did cluster topology replicas roles observed lag done → MCommand command ∈ done →
  command ∈ Planner.Plan topology observed lag.
Proof.
  intros [(k & ->)|[(_ & _ & _ & rest & E)|(_ & _ & ? & ? & ? & _ & _ & _ & ->)]] Hin.
  - apply list_elem_of_fmap in Hin as (c & [= ->] & Hin). by eapply elem_of_take in Hin as (i & Hi & _); eapply list_elem_of_lookup_2.
  - assert (MCommand command ∈ shrinks_of cluster topology replicas) as Hsh.
    { rewrite E. apply elem_of_app. by left. }
    apply list_elem_of_bind in Hsh as (role & Hsh & _). unfold shrink_of in Hsh.
    case_decide; [by apply elem_of_nil in Hsh|]. by apply list_elem_of_singleton in Hsh.
  - by apply list_elem_of_singleton in Hin.
Qed.

(** A query of a command is a mutation of the pass. *)
Lemma effect_queries_read `{Kube} t text :
  text ∈ t ≫= effect_queries →
  text ∈ [showInstancesQuery; showReplicationLagQuery; showSettingsQuery; showConfigQuery; showCoordinatorSettingsQuery] ∨
  (∃ name value, text = setSettingQuery name value ∨ text = setCoordinatorSettingQuery name value) ∨
  ∃ command, MCommand command ∈ mutations t ∧ text ∈ command_queries command.
Proof.
  induction t as [|[X e x] t IH]; [by intros ?%elem_of_nil|]. cbn [mbind list_bind]. rewrite mutations_cons.
  intros [Hin|Hin]%elem_of_app.
  2: { destruct (IH Hin) as [?|[?|(c & Hc & ?)]]; [by left|by right; left|]. right; right. exists c. split; [|done].
       apply elem_of_app. by right. }
  destruct e; cbn [effect_queries] in Hin;
    try (by apply elem_of_nil in Hin);
    try (apply list_elem_of_singleton in Hin as ->; (left; by_decide) || (right; left; eauto)).
  right; right. eexists. split; [left|done].
Qed.

(** ** Properties *)

(** C11: a pass leaves nothing on the wire: run down to the driver, whatever the driver, the
    instances and the API server answer, a whole pass ends with every driver it made and every
    session it opened closed, and each query it ran only reads, sets a setting, or is of a
    command of the plan for what this pass observed. *)
Theorem pass_on_the_wire `{RangeOrder} `{Kube} `{QuantityOrder Quantity} {L} `{ConditionsAPI L} {S}
    (handle : ∀ X, driverCall X → S → S * X) (api : ∀ X, eff X → S → S * X) password primitives reconciler
    (cluster : MemgraphDBCluster L) semanticDeepEqual shrinks s :
  let out := Effects.run (wired handle api password)
               (Reconcile primitives reconciler semanticDeepEqual (inl cluster) shrinks) (s, []) in
  let '(calls, pass, result) := (out.1.1.2, out.1.2, out.2.2) in
  settles calls [] ∧ result ≠ Panicked ∧
  ∀ text, text ∈ calls ≫= query_of →
    text ∈ [showInstancesQuery; showReplicationLagQuery; showSettingsQuery; showConfigQuery; showCoordinatorSettingsQuery] ∨
    (∃ name value, text = setSettingQuery name value ∨ text = setCoordinatorSettingQuery name value) ∨
    ∃ awaited replicas exposure leader observed lag command,
      let '(coordinators, data) := (rr_applied (rc_coordinators replicas), rr_applied (rc_data replicas)) in
      ran_in pass (resolveReplicaCounts cluster shrinks) (awaited, inl replicas) ∧
      ran_in pass (observeExternalAccess cluster reconciler) (inl exposure) ∧
      ran_in pass (observeCluster (CoordinatorEndpoints cluster coordinators)) (inl (leader, observed)) ∧
      (lag = [] ∨ Event (EShowReplicationLag leader) (inl lag) ∈ pass) ∧
      command ∈ Planner.Plan (passTopology cluster (ea_addresses exposure) coordinators data) observed lag ∧
      text ∈ command_queries command.
Proof.
  cbv zeta. set (p := Reconcile _ _ _ _ _). destruct (run_carries handle api password p (s, [])) as (u & Eu & Hu).
  pose proof (run_returns (wired handle api password) p (s, [])) as Hrun.
  destruct (Effects.run _ p (s, [])) as [[[s' calls] pass] [[status shrinks'] result]]. cbn in Eu, Hu, Hrun |- *. subst calls.
  apply Reconcile_spec in Hrun as (Ho & Hp & awaited & counts & Hran & Hx).
  split; [by eapply carries_settles|]. split; [done|]. intros text Hin.
  destruct (effect_queries_read pass text) as [?|[?|(command & Hc & Ht)]]; [by apply (ca_queries _ _ Hu)|by left|by right; left|].
  right; right. destruct counts as [replicas|err]; [|rewrite Hx in Hc; by apply elem_of_nil in Hc].
  destruct Hx as [_ (user & claims & app & pr & reg & Em & Hs)]. rewrite Em in Hc.
  pose proof (staged_commands _ _ _ _ _ _ _ _ _ _ _ Hs Hc) as Hreg. destruct Hs as [_ _ [_ _ _ Hregd]].
  destruct Hregd as [->|(exposure & applied & roles & leader & observed & lag & He & _ & Hobs & _ & Hlag & Hdid)];
    [by apply elem_of_nil in Hreg|].
  exists awaited, replicas, exposure, leader, observed, lag, command. do 4 (split; [done|]). split; [|done].
  exact (pass_did_command _ _ _ _ _ _ _ _ Hdid Hreg).
Qed.

(** ** Example: a pass of the cluster of Reconcile.v, whose data instance is not registered yet *)

Import Workloads.Example.
#[local] Existing Instance Api.Example.kube_text.

Module Example.
(** The driver's state is the last query. *)
Definition handle (X : Type) (e : driverCall X) (s : string) : string * X :=
  match e in driverCall X return string * X with
  | NewDriverWithContext _ _ => (s, inl 0)
  | VerifyConnectivity _ | CloseDriver _ | CloseSession _ => (s, None)
  | NewSession _ => (s, 0)
  | SessionRun _ text => (text, inl 0)
  | Collect _ =>
      (s, inl (if decide (s = showInstancesQuery)
               then [{[ "name" := VString "coordinator_0"; "health" := VString "up"; "role" := VString "leader";
                        "bolt_server" := VString "db-coordinator-0.db-coordinator.default.svc.cluster.local:7687";
                        "coordinator_server" := VString "db-coordinator-0.db-coordinator.default.svc.cluster.local:12000" ]}]
               else []))
  end.
Definition api (X : Type) (e : eff X) (s : string) : string * X := (s, (Reconcile.Example.handle X e tt).2).
Definition pass :=
  Effects.run (wired handle api "p")
    (Reconcile Reconcile.Example.primitives Reconcile.Example.reconciler Reconcile.Example.same
       (inl Reconcile.Example.cluster) ∅) ("", []).
End Example.

(** The pass registers the instance and makes it MAIN. *)
Example pass_queries :
  Example.pass.1.1.2 ≫= query_of =
    [showInstancesQuery; showReplicationLagQuery;
     registerInstanceQuery
       (mkDataInstanceSpec "instance_0" "db-data-0.db-data.default.svc.cluster.local:7687"
          "db-data-0.db-data.default.svc.cluster.local:10000" "db-data-0.db-data.default.svc.cluster.local:20000");
     setInstanceToMainQuery "instance_0"].
Proof. vm_compute. reflexivity. Qed.

Lemma pass_on_the_wire_witness : settles Example.pass.1.1.2 [] ∧ Example.pass.2.2 = Requeue requeueAfterRegistration.
Proof.
  split; [|vm_compute; reflexivity].
  exact (proj1 (pass_on_the_wire Example.handle Example.api "p" Reconcile.Example.primitives Reconcile.Example.reconciler
                  Reconcile.Example.cluster Reconcile.Example.same ∅ "")).
Defined.
