(* ===== verification/Manager.v ===== *)
(** * The manager: informers, caches and the passes that read them

    What cmd/main.go and SetupWithManager configure of controller-runtime: the kinds the
    controller watches and owns, and the label selectors its cache keeps objects by. A read
    through the manager's client is answered by the informer of its kind, and fails where
    nothing watches the kind (ReaderFailOnMissingInformer); the API reader's reads, which are
    the Secrets', bypass it. *)

From S2P Require Import Prelude GoStrings GoErrors K8s Api Client Planner PlanRun Effects Settings Volumes Rollout.
From S2P Require Import Resources Topology Flags Vector Workloads Monitoring Expectations Status World Exposure Apply.
From S2P Require Import ExposurePass Events SystemUser SettingsPass Replicas VolumePass FlagClasses Connections Registration.
From S2P Require Import Reconcile PassEffects.

(** ** Definitions *)

(** What [SetupWithManager] owns: an event on one of these objects starts the pass of the
    cluster that controls it. *)
Definition ownedKinds (r : Reconciler) : list string :=
  ["StatefulSet"; "Deployment"; "Service"; "ConfigMap"] ++
  (if GatewayAPI r then ["Gateway"; "TCPRoute"] else []) ++
  (if ServiceMonitorAPI r then ["ServiceMonitor"] else []).

(** What it watches as whole objects. Secrets are watched by metadata only, which answers no
    read of a Secret. *)
Definition informerKinds (r : Reconciler) : list string :=
  ["MemgraphDBCluster"] ++ ownedKinds r ++ ["PersistentVolumeClaim"; "Pod"].

(** main.go's [cache.Options]: the label an object of the kind is cached for. *)
Definition cacheByObject : list (string * (string * string)) :=
  [("Pod", (ManagedByLabel, ManagedByValue));
   ("ConfigMap", (ManagedByLabel, ManagedByValue));
   ("Deployment", (ManagedByLabel, ManagedByValue));
   ("PersistentVolumeClaim", (NameLabel, NameValue))].

(** Whether the cache keeps an object of the kind with the labels. *)
Definition cached (kind : string) (labels : gmap string string) : bool :=
  match List.find (λ '(k, _), bool_decide (k = kind)) cacheByObject with
  | Some (_, (label, value)) => bool_decide (labels !! label = Some value)
  | None => true
  end.

(** ** Lemmas *)

(** The kinds a pass builds are owned, and those it reads informed. *)
Lemma built_owned r kind : kind ∈ builtKinds r ↔ kind ∈ ownedKinds r.
Proof. done. Qed.

Lemma read_informed r kind : kind ∈ builtKinds r ++ ["PersistentVolumeClaim"; "Pod"] → kind ∈ informerKinds r.
Proof. rewrite elem_of_app, built_owned. intros Hk. unfold informerKinds. rewrite !elem_of_app. tauto. Qed.

(** What the calls of a pass read and apply. *)
Lemma Reconcile_kinds `{RangeOrder} `{Kube} `{QuantityOrder Quantity} {L} `{ConditionsAPI L} primitives r
    (cluster : MemgraphDBCluster L) semanticDeepEqual shrinks t out :
  returns (Reconcile primitives r semanticDeepEqual (inl cluster) shrinks) t out →
  ∀ X (e : eff X) x, Event e x ∈ t →
    (∀ kind, cachedRead e = Some kind → kind ∈ informerKinds r) ∧
    (∀ kind name, appliedObject e = Some (kind, name) → kind ∈ ownedKinds r ∨ kind = "Secret" ∧
       name ∈ [SystemUserSecretName (m_Name (Meta cluster)); SystemUserHashSecretName (m_Name (Meta cluster))]).
Proof.
  intros Hrun X e x Hin. destruct (Reconcile_issues _ _ _ _ _ _ _ Hrun _ _ _ Hin) as [(Hr & Ha & _)|[answer E]].
  - split; [intros kind Hk; by apply read_informed, Hr|exact Ha].
  - pose proof (f_equal (λ ev, match ev with Event e _ => (cachedRead e, appliedObject e) end) E) as [= -> ->]. done.
Qed.

(** Labels beyond those an object is cached for do not matter. *)
Lemma cached_weaken kind labels more :
  labels ⊆ more → cached kind labels = true → cached kind more = true.
Proof.
  intros Hsub. unfold cached. destruct (List.find _ _) as [[k [label value]]|]; [|done].
  intros Hl%bool_decide_eq_true. apply bool_decide_eq_true. by eapply lookup_weaken.
Qed.

Lemma cached_labels kind name component custom :
  kind ∈ ["Pod"; "ConfigMap"; "Deployment"] → cached kind (labels name component custom) = true.
Proof.
  intros Hk. assert (labels name component custom !! ManagedByLabel = Some ManagedByValue) as Hl by apply labels_identity.
  repeat (apply elem_of_cons in Hk as [->|Hk]; [by apply bool_decide_eq_true|]). by apply elem_of_nil in Hk.
Qed.

Lemma cached_monitoringLabels kind name component custom :
  kind ∈ ["Pod"; "ConfigMap"; "Deployment"] → cached kind (monitoringLabels name component custom) = true.
Proof.
  intros Hk. assert (monitoringLabels name component custom !! ManagedByLabel = Some ManagedByValue) as Hl.
  { unfold monitoringLabels. rewrite lookup_insert_ne by done. apply labels_identity. }
  repeat (apply elem_of_cons in Hk as [->|Hk]; [by apply bool_decide_eq_true|]). by apply elem_of_nil in Hk.
Qed.

Lemma cached_claim name component more : selectorLabels name component ⊆ more → cached "PersistentVolumeClaim" more = true.
Proof.
  intros Hsub. eapply cached_weaken; [exact Hsub|]. apply bool_decide_eq_true. by rewrite lookup_selectorLabels.
Qed.

(** ** Properties *)

(** C21: the manager is set up for its passes: whatever the cluster serves, a pass only reads,
    through the cache, kinds an informer answers for, so no read fails for a kind nothing
    watches; every object it creates or applies is of a kind the controller owns, whose events
    start the cluster's pass, but for the system user's two Secrets, whose kind is watched by
    metadata only and never read through the cache; and the selectors of the cache keep every
    object the operator made that a pass reads: the pods of both StatefulSets and their
    claims, whatever labels their controllers add, the ConfigMaps and the vmagent Deployment. *)
Theorem manager_serves_the_pass `{RangeOrder} `{Kube} `{QuantityOrder Quantity} {L} `{ConditionsAPI L} primitives r
    (cluster : MemgraphDBCluster L) :
  (∀ semanticDeepEqual shrinks t out,
     returns (Reconcile primitives r semanticDeepEqual (inl cluster) shrinks) t out →
     ∀ X (e : eff X) x, Event e x ∈ t →
       (∀ kind, cachedRead e = Some kind → kind ∈ informerKinds r) ∧
       (∀ kind name, appliedObject e = Some (kind, name) → kind ∈ ownedKinds r ∨ kind = "Secret" ∧ (kind ∉ informerKinds r) ∧
          name ∈ [SystemUserSecretName (m_Name (Meta cluster)); SystemUserHashSecretName (m_Name (Meta cluster))])) ∧
  (∀ digest marshal replicas sts role component more, Workloads.built digest marshal cluster replicas sts role component →
     (te_Labels (sf_Template sts) ⊆ more → cached "Pod" more = true) ∧
     (sf_Selector sts ⊆ more → cached "PersistentVolumeClaim" more = true)) ∧
  (∀ dashboard scrape vector coordinators data configMap,
     Some configMap ∈ [Some (CoordinatorFlagsConfigMap cluster); Some (DataFlagsConfigMap cluster);
                       GrafanaDashboard dashboard cluster; VMAgentConfigMap scrape cluster coordinators data;
                       VectorConfigMap vector cluster] →
     cached "ConfigMap" (km_Labels (cm_Meta configMap)) = true) ∧
  (∀ deployment, VMAgentDeployment cluster = Some deployment →
     cached "Deployment" (km_Labels (dp_Meta deployment)) = true).
Proof.
  split; [|split; [|split]].
  - intros eqb shrinks t out Hrun X e x Hin. destruct (Reconcile_kinds _ _ _ _ _ _ _ Hrun _ _ _ Hin) as [Hr Ha]. split; [done|].
    intros kind name [?|[-> Hn]]%Ha; [by left|right]. split; [done|]. split; [|done].
    unfold informerKinds, ownedKinds. destruct (GatewayAPI r), (ServiceMonitorAPI r); by_decide.
  - intros digest marshal replicas sts role component more (c & f & env & ports & probe & name & _ & ->)%built_shape.
    cbn [sf_Template te_Labels sf_Selector buildStatefulSet]. split; [|apply cached_claim].
    intros Hsub. eapply cached_weaken; [exact Hsub|]. apply cached_labels. left.
  - intros dashboard scrape vector coordinators data m Hm.
    apply elem_of_cons in Hm as [[= ->]|Hm]; [apply cached_labels; right; left|].
    apply elem_of_cons in Hm as [[= ->]|Hm]; [apply cached_labels; right; left|].
    apply elem_of_cons in Hm as [E|Hm].
    { unfold GrafanaDashboard in E. destruct (nmo_grafanaDashboard _); [|done]. injection E as ->.
      apply cached_monitoringLabels; right; left. }
    apply elem_of_cons in Hm as [E|E%list_elem_of_singleton].
    { unfold VMAgentConfigMap in E. destruct (nmo_vmagent _); [|done]. cbn [mbind option_bind] in E. injection E as ->.
      apply cached_monitoringLabels; right; left. }
    unfold VectorConfigMap in E. destruct (nmo_vector _); [|done]. cbn [mbind option_bind] in E. injection E as ->.
    apply cached_monitoringLabels; right; left.
  - intros d Hd. unfold VMAgentDeployment in Hd. destruct (nmo_vmagent _) as [block|]; [|done].
    cbn [mbind option_bind] in Hd. injection Hd as <-. apply cached_monitoringLabels. by_decide.
Qed.

(** ** Witness: the passes of the example cluster *)

Import Workloads.Example.
#[local] Existing Instance Api.Example.kube_text.

Module Example.
Definition reads (kind : string) (ev : event eff) : bool :=
  match ev with Event e _ => bool_decide (cachedRead e = Some kind) end.
End Example.

Lemma manager_serves_the_pass_witness :
  cached "Pod" (te_Labels (sf_Template Workloads.Example.data)) = true ∧
  List.existsb (Example.reads "StatefulSet") Reconcile.Example.pass.1.2 = true ∧
  "StatefulSet" ∈ informerKinds Reconcile.Example.reconciler.
Proof.
  pose proof (manager_serves_the_pass Reconcile.Example.primitives Reconcile.Example.reconciler Workloads.Example.cluster)
    as (_ & Hbuilt & _).
  pose proof (manager_serves_the_pass Reconcile.Example.primitives Reconcile.Example.reconciler Reconcile.Example.cluster)
    as (Hserved & _).
  pose proof (run_returns Reconcile.Example.handle
    (Reconcile Reconcile.Example.primitives Reconcile.Example.reconciler Reconcile.Example.same (inl Reconcile.Example.cluster) ∅) tt)
    as Hrun. fold Reconcile.Example.pass in Hrun.
  assert (List.existsb (Example.reads "StatefulSet") Reconcile.Example.pass.1.2 = true) as Hin by (vm_compute; reflexivity).
  split; [|split; [exact Hin|]].
  - eapply (proj1 (Hbuilt digest_example Workloads.Example.marshal 2%Z _ _ _ _ (built_data _ _ _ _))); reflexivity.
  - apply List.existsb_exists in Hin as ([X e x] & Hin & He%bool_decide_eq_true).
    apply list_elem_of_In in Hin. exact (proj1 (Hserved _ _ _ _ Hrun _ _ _ Hin) _ He).
Defined.
