(* ===== verification/Main.v ===== *)
(** * The process: command line, manager options and start-up

    cmd/main.go with [SetupWithManager]: the flags with their defaults and package flag's
    parsing of them, the options of the manager and of its servers, the watches of the
    controller, and the steps of [main] up to the manager's start, as a program whose effects
    are the calls into controller-runtime. A log line is not an effect. What controller-runtime
    and zap register on the command line themselves ([foreign]) is a parameter, and so are the
    group versions the Gateway API and Prometheus Operator packages declare. *)

From S2P Require Import Prelude GoStrings GoErrors K8s Api Effects Planner Rollout Resources World ExposurePass Replicas Watches.
From S2P Require Import PlanRun Status Exposure Apply Volumes Workloads Settings Events SystemUser Registration Reconcile PassEffects Manager.

(** ** Definitions *)

(** *** The command line *)

Record certs := mkCerts { certPath : string; certName : string; certKey : string }.

(** The variables the flags are bound to. *)
Record options := mkOptions {
  metricsAddr : string;
  probeAddr : string;
  enableLeaderElection : bool;
  secureMetrics : bool;
  webhookCert : certs;
  metricsCert : certs;
  enableHTTP2 : bool
}.

Definition defaults : options :=
  mkOptions "0" ":8081" false true (mkCerts "" "tls.crt" "tls.key") (mkCerts "" "tls.crt" "tls.key") false.

(** [flag.StringVar] and [flag.BoolVar]: what setting the flag assigns. *)
Inductive variable :=
| StringVar (assign : string → options → options)
| BoolVar (assign : bool → options → options).

Definition flags : list (string * variable) :=
  [("metrics-bind-address", StringVar (λ v '(mkOptions _ p l s w m h), mkOptions v p l s w m h));
   ("health-probe-bind-address", StringVar (λ v '(mkOptions a _ l s w m h), mkOptions a v l s w m h));
   ("leader-elect", BoolVar (λ v '(mkOptions a p _ s w m h), mkOptions a p v s w m h));
   ("metrics-secure", BoolVar (λ v '(mkOptions a p l _ w m h), mkOptions a p l v w m h));
   ("webhook-cert-path", StringVar (λ v '(mkOptions a p l s (mkCerts _ n k) m h), mkOptions a p l s (mkCerts v n k) m h));
   ("webhook-cert-name", StringVar (λ v '(mkOptions a p l s (mkCerts d _ k) m h), mkOptions a p l s (mkCerts d v k) m h));
   ("webhook-cert-key", StringVar (λ v '(mkOptions a p l s (mkCerts d n _) m h), mkOptions a p l s (mkCerts d n v) m h));
   ("metrics-cert-path", StringVar (λ v '(mkOptions a p l s w (mkCerts _ n k) h), mkOptions a p l s w (mkCerts v n k) h));
   ("metrics-cert-name", StringVar (λ v '(mkOptions a p l s w (mkCerts d _ k) h), mkOptions a p l s w (mkCerts d v k) h));
   ("metrics-cert-key", StringVar (λ v '(mkOptions a p l s w (mkCerts d n _) h), mkOptions a p l s w (mkCerts d n v) h));
   ("enable-http2", BoolVar (λ v '(mkOptions a p l s w m _), mkOptions a p l s w m v))].

(** [strconv.ParseBool]. *)
Definition ParseBool (s : string) : option bool :=
  if decide (s ∈ ["1"; "t"; "T"; "true"; "TRUE"; "True"]) then Some true
  else if decide (s ∈ ["0"; "f"; "F"; "false"; "FALSE"; "False"]) then Some false
  else None.

(** [Value.Set]: [None] where the value is refused. *)
Definition Set_ (var : variable) (value : string) (o : options) : option options :=
  match var with
  | StringVar assign => Some (assign value o)
  | BoolVar assign => (λ b, assign b o) <$> ParseBool value
  end.

(** How [FlagSet.parseOne] reads a word: the end of the flags, kept or dropped, a word it
    refuses, or a flag's name with the value after its equals sign. *)
Inductive word := Positional | Terminator | BadSyntax | Named (name : string) (value : option string).

Definition named (name : string) : word :=
  match name with
  | "" => BadSyntax
  | String c _ =>
      if decide (c = "-"%char ∨ c = "="%char) then BadSyntax
      else match Cut name "=" with
           | Some (name, value) => Named name (Some value)
           | None => Named name None
           end
  end.

Definition parse_word (s : string) : word :=
  match s with
  | String "-" (String "-" "") => Terminator
  | String "-" (String "-" name) => named name
  | String "-" (String c name) => named (String c name)
  | _ => Positional
  end.

(** What [flag.Parse] leaves: the variables with the words that are not flags, the usage text
    ([os.Exit(0)]), or an error ([os.Exit(2)]). *)
Inductive parsed := Parsed (o : options) (args : list string) | Helped | Refused.

Section command_line.
(** A flag a library has registered: whether it is boolean, and which values it takes. *)
Context (foreign : string → option (bool * (string → bool))).

Definition formal (name : string) : option (bool * (string → options → option options)) :=
  match List.find (λ '(n, _), bool_decide (n = name)) flags with
  | Some (_, var) => Some (match var with BoolVar _ => true | StringVar _ => false end, Set_ var)
  | None => (λ '(isBool, takes), (isBool, λ value o, if (takes value : bool) then Some o else None)) <$> foreign name
  end.

Fixpoint parse (args : list string) (o : options) : parsed :=
  match args with
  | [] => Parsed o []
  | s :: rest =>
      match parse_word s with
      | Positional => Parsed o args
      | Terminator => Parsed o rest
      | BadSyntax => Refused
      | Named name value =>
          match formal name, value with
          | None, _ => if decide (name = "help" ∨ name = "h") then Helped else Refused
          | Some (true, set), _ =>
              match set (default "true" value) o with Some o => parse rest o | None => Refused end
          | Some (false, set), Some value =>
              match set value o with Some o => parse rest o | None => Refused end
          | Some (false, set), None =>
              match rest with
              | [] => Refused
              | value :: rest => match set value o with Some o => parse rest o | None => Refused end
              end
          end
      end
  end.
End command_line.

(** *** The manager's options *)

(** Of a [tls.Config], the protocols it negotiates. *)
Record tlsConfig := mkTlsConfig { NextProtos : list string }.

Definition disableHTTP2 (c : tlsConfig) : tlsConfig := mkTlsConfig ["http/1.1"].

Definition tlsOpts (o : options) : list (tlsConfig → tlsConfig) := if enableHTTP2 o then [] else [disableHTTP2].

(** Of [webhook.Options], what main.go sets. *)
Record webhookOptions := mkWebhookOptions { wo_TLSOpts : list (tlsConfig → tlsConfig); wo_Cert : certs }.

Definition webhookServerOptions (o : options) : webhookOptions :=
  mkWebhookOptions (tlsOpts o)
    (if 0 <? String.length (certPath (webhookCert o)) then webhookCert o else mkCerts "" "" "").

Inductive filterProvider := WithAuthenticationAndAuthorization.

Record metricsOptions := mkMetricsOptions {
  mo_BindAddress : string;
  mo_SecureServing : bool;
  mo_TLSOpts : list (tlsConfig → tlsConfig);
  mo_FilterProvider : option filterProvider;
  mo_Cert : certs
}.

Definition metricsServerOptions (o : options) : metricsOptions :=
  mkMetricsOptions (metricsAddr o) (secureMetrics o) (tlsOpts o)
    (if secureMetrics o then Some WithAuthenticationAndAuthorization else None)
    (if 0 <? String.length (certPath (metricsCert o)) then metricsCert o else mkCerts "" "" "").

(** The packages whose types [init] adds to the scheme. *)
Inductive api := ClientGo | Memgraph | GatewayV1 | MonitoringV1.
#[export] Instance api_eq_dec : EqDecision api.
Proof. solve_decision. Defined.

Record ctrlOptions := mkCtrlOptions {
  co_Scheme : list api;
  co_Metrics : metricsOptions;
  co_WebhookServer : webhookOptions;
  co_HealthProbeBindAddress : string;
  co_ReaderFailOnMissingInformer : bool;
  co_ByObject : list (string * (string * string));
  co_LeaderElection : bool;
  co_LeaderElectionID : string
}.

Definition managerOptions (scheme : list api) (o : options) : ctrlOptions :=
  mkCtrlOptions scheme (metricsServerOptions o) (webhookServerOptions o) (probeAddr o) true cacheByObject
    (enableLeaderElection o) "a5adec69.memgraph.com".

(** *** The controller *)

Definition maxConcurrentReconciles : Z := 4.

Section controller.
Context `{Kube} {L : Type}.

(** The calls on the controller's builder: an event on an object is mapped to the clusters
    whose passes it starts by its owner, or by the function given. *)
Inductive watch :=
| For (kind : string)
| Owns (kind : string)
| WatchesMetadata (kind : string)
    (map : option OwnerReference → string → string → list (MemgraphDBCluster L) + error → list Request)
| Watches (kind : string) (map : string → gmap string string → list Request)
    (predicate : option (KPod → KPod → bool)).

Record builder := mkBuilder { b_Watches : list watch; b_Name : string; b_MaxConcurrentReconciles : Z }.

(** [SetupWithManager] up to [Complete]. *)
Definition SetupWithManager (r : Reconciler) : builder :=
  mkBuilder
    ([For "MemgraphDBCluster"; Owns "StatefulSet"; Owns "Deployment"; Owns "Service"; Owns "ConfigMap";
      WatchesMetadata "Secret" clustersForSecret;
      Watches "PersistentVolumeClaim" clusterForClaim None;
      Watches "Pod" clusterForPod (Some memgraphPodChanged)] ++
     (if GatewayAPI r then [Owns "Gateway"; Owns "TCPRoute"] else []) ++
     (if ServiceMonitorAPI r then [Owns "ServiceMonitor"] else []))
    "memgraphdbcluster" maxConcurrentReconciles.

(** The kinds the builder owns, and those it starts an informer of whole objects for. *)
Definition owned (w : watch) : list string := match w with Owns kind => [kind] | _ => [] end.
Definition informed (w : watch) : list string :=
  match w with For kind | Owns kind | Watches kind _ _ => [kind] | WatchesMetadata _ _ => [] end.

(** *** Start-up *)

(** The calls into controller-runtime. Each answers an error or none, but for the mapper, which
    answers what is served. *)
Inductive boot : Type → Type :=
| EAddToScheme (a : api) : boot (option error)
| EGetConfigOrDie : boot (option error)
| ENewManager (o : ctrlOptions) : boot (option error)
| EGetRESTMapper : boot (string → string → option string → string + mappingError)
| EComplete (b : builder) : boot (option error)
| EAddHealthzCheck (name : string) : boot (option error)
| EAddReadyzCheck (name : string) : boot (option error)
| EStart : boot (option error).

(** How the process ends: an exit status, or a panic. *)
Inductive ended := Exit (status : Z) | Panicked.

(** A call whose error ends the process. *)
Definition must (e : boot (option error)) (failure : ended) (k : prog boot ended) : prog boot ended :=
  err ← trigger e; match err with Some _ => mret failure | None => k end.

(** [init], and [main] on the scheme it leaves. *)
Definition schemeAPIs : list api := [ClientGo; Memgraph; GatewayV1; MonitoringV1].

Fixpoint init (apis : list api) (k : prog boot ended) : prog boot ended :=
  match apis with
  | [] => k
  | a :: apis => must (EAddToScheme a) Panicked (init apis k)
  end.

Context (foreign : string → option (bool * (string → bool)))
  (gatewayGV monitoringGV : string * string).

(** The reconciler [main] builds from what it discovers. *)
Definition discovered (gateway serviceMonitor : bool * string) : Reconciler :=
  mkReconciler gateway.1 gateway.2 serviceMonitor.1 serviceMonitor.2 gatewayGV.2 monitoringGV.2.

Definition main (scheme : list api) (argv : list string) : prog boot ended :=
  match parse foreign argv defaults with
  | Helped => mret (Exit 0)
  | Refused => mret (Exit 2)
  | Parsed o _ =>
      must EGetConfigOrDie (Exit 1)
      (must (ENewManager (managerOptions scheme o)) (Exit 1)
      (mapper ← trigger EGetRESTMapper;
       match GatewayAPIServed mapper gatewayGV.1 gatewayGV.2 with
       | inr _ => mret (Exit 1)
       | inl gateway =>
           mapper ← trigger EGetRESTMapper;
           match ServiceMonitorServed mapper monitoringGV.1 monitoringGV.2 with
           | inr _ => mret (Exit 1)
           | inl serviceMonitor =>
               must (EComplete (SetupWithManager (discovered gateway serviceMonitor))) (Exit 1)
               (must (EAddHealthzCheck "healthz") (Exit 1)
               (must (EAddReadyzCheck "readyz") (Exit 1)
               (must EStart (Exit 1) (mret (Exit 0)))))
           end
       end))
  end.

Definition process (argv : list string) : prog boot ended := init schemeAPIs (main schemeAPIs argv).
End controller.
Arguments watch {_} _.
Arguments builder {_} _.
Arguments boot {_} _ _.

(** ** What the theorems speak of *)

(** The ways a command line sets a flag: with one dash or two, the value after an equals sign
    or, of a string flag, in the next word; a bare boolean flag is true. *)
Inductive spelled (name : string) : variable → string → list string → Prop :=
| spelled_equals var dash value : dash ∈ ["-"; "--"] → spelled name var value [dash ^^ name ^^ "=" ^^ value]
| spelled_next assign dash value : dash ∈ ["-"; "--"] → spelled name (StringVar assign) value [dash ^^ name; value]
| spelled_bare assign dash : dash ∈ ["-"; "--"] → spelled name (BoolVar assign) "true" [dash ^^ name].

Definition FormatBool (b : bool) : string := if b then "true" else "false".

(** A command line that says every option. *)
Definition commandLine (o : options) : list string :=
  ["--metrics-bind-address=" ^^ metricsAddr o; "--health-probe-bind-address=" ^^ probeAddr o;
   "--leader-elect=" ^^ FormatBool (enableLeaderElection o); "--metrics-secure=" ^^ FormatBool (secureMetrics o);
   "--webhook-cert-path=" ^^ certPath (webhookCert o); "--webhook-cert-name=" ^^ certName (webhookCert o);
   "--webhook-cert-key=" ^^ certKey (webhookCert o); "--metrics-cert-path=" ^^ certPath (metricsCert o);
   "--metrics-cert-name=" ^^ certName (metricsCert o); "--metrics-cert-key=" ^^ certKey (metricsCert o);
   "--enable-http2=" ^^ FormatBool (enableHTTP2 o)].

(** No word of the command line names the flag. *)
Definition unnamed (name : string) (argv : list string) : Prop :=
  ∀ s value, s ∈ argv → parse_word s ≠ Named name value.

(** The configuration a server serves with: the options are applied one after another. *)
Definition configured (opts : list (tlsConfig → tlsConfig)) (c : tlsConfig) : tlsConfig := foldl (λ c f, f c) c opts.

(** The error a call into controller-runtime answered. *)
Definition failure `{Kube} {L} (ev : event (boot L)) : option error :=
  match ev with
  | @Event _ X e x =>
      match e in boot _ Y return Y → option error with
      | EGetRESTMapper => λ _, None
      | EAddToScheme _ | EGetConfigOrDie | ENewManager _ | EComplete _ | EAddHealthzCheck _ | EAddReadyzCheck _ | EStart =>
          λ err, err
      end x
  end.

(** What the manager's start answered, of the event that is it. *)
Definition started `{Kube} {L} (ev : event (boot L)) : option (option error) :=
  match ev with
  | @Event _ X e x => match e in boot _ Y return Y → option (option error) with EStart => Some | _ => λ _, None end x
  end.

(** The calls of [main] that reach the manager's start. *)
Definition bootTrace `{Kube} {L} (scheme : list api) (o : options) mapper1 mapper2 (r : Reconciler) (err : option error) :
    list (event (boot L)) :=
  [Event EGetConfigOrDie None; Event (ENewManager (managerOptions scheme o)) None;
   Event EGetRESTMapper mapper1; Event EGetRESTMapper mapper2;
   Event (EComplete (SetupWithManager r)) None;
   Event (EAddHealthzCheck "healthz") None; Event (EAddReadyzCheck "readyz") None; Event EStart err].

(** ** Lemmas *)

Lemma flags_each (P : string → variable → Prop) name var :
  (name, var) ∈ flags → Forall (λ '(name, var), P name var) flags → P name var.
Proof. intros Hin HF. rewrite Forall_forall in HF. exact (HF _ Hin). Qed.

Lemma parse_word_flag dash name var value :
  (name, var) ∈ flags → dash ∈ ["-"; "--"] →
  parse_word (dash ^^ name ^^ "=" ^^ value) = Named name (Some value) ∧ parse_word (dash ^^ name) = Named name None.
Proof.
  intros Hin Hd. pattern name, var. apply (flags_each _ _ _ Hin). clear name var Hin.
  repeat (apply elem_of_cons in Hd as [->|Hd]; [repeat constructor|]). by apply elem_of_nil in Hd.
Qed.

Lemma formal_flag foreign name var :
  (name, var) ∈ flags →
  formal foreign name = Some (match var with BoolVar _ => true | StringVar _ => false end, Set_ var).
Proof. intros Hin. pattern name, var. apply (flags_each _ _ _ Hin). repeat constructor. Qed.

Lemma parse_spelled foreign name var value words args o :
  (name, var) ∈ flags → spelled name var value words →
  parse foreign (words ++ args) o = match Set_ var value o with Some o => parse foreign args o | None => Refused end.
Proof.
  intros Hin Hs. destruct Hs as [var dash v Hd|assign dash v Hd|assign dash Hd];
    [destruct (parse_word_flag dash _ _ v Hin Hd) as [E1 E2]..|destruct (parse_word_flag dash _ _ "" Hin Hd) as [E1 E2]];
    cbn [app parse];
    rewrite ?E1, ?E2, (formal_flag _ _ _ Hin); [by destruct var|done..].
Qed.

Lemma ParseBool_Format b : ParseBool (FormatBool b) = Some b.
Proof. by destruct b. Qed.

(** A command line sets each option it says, whatever was set before. *)
Lemma parse_commandLine foreign o o0 args : parse foreign (commandLine o ++ args) o0 = parse foreign args o.
Proof.
  assert (∀ word name var value args o o', parse_word word = Named name (Some value) → (name, var) ∈ flags →
    Set_ var value o = Some o' → parse foreign (word :: args) o = parse foreign args o') as Hstep.
  { intros word name var value args' p p' Ew Hin Es. cbn [parse]. rewrite Ew, (formal_flag _ _ _ Hin).
    destruct var; cbn [default from_option id]; by rewrite Es. }
  destruct o as [a p l s [wd wn wk] [md mn mk] h], o0 as [a0 p0 l0 s0 [wd0 wn0 wk0] [md0 mn0 mk0] h0].
  unfold commandLine. cbn [app metricsAddr probeAddr enableLeaderElection secureMetrics webhookCert metricsCert enableHTTP2
    certPath certName certKey].
  do 11 (erewrite Hstep; [|reflexivity|repeat first [left|right]|cbn [Set_]; rewrite ?ParseBool_Format; reflexivity]).
  done.
Qed.

(** A flag no word names keeps its value. *)
Lemma parse_keeps {A} (field : options → A) foreign kept :
  Forall (λ '(name, var), name ≠ kept → ∀ v o o', Set_ var v o = Some o' → field o' = field o) flags →
  ∀ args o o' rest, unnamed kept args → parse foreign args o = Parsed o' rest → field o' = field o.
Proof.
  intros Hflags. assert (∀ name set b v o o', formal foreign name = Some (b, set) → name ≠ kept → set v o = Some o' →
    field o' = field o) as Hset.
  { intros name set b v o o' E Hne Es. unfold formal in E. destruct (List.find _ flags) as [[n var]|] eqn:Ef.
    - injection E as <- <-. apply List.find_some in Ef as [Hin%list_elem_of_In ->%bool_decide_eq_true].
      rewrite Forall_forall in Hflags. by apply (Hflags _ Hin Hne v).
    - destruct (foreign name) as [[isBool takes]|]; [|done]. cbn in E. injection E as <- <-. by destruct (takes v); [injection Es as ->|]. }
  intros args. remember (length args) as n eqn:En. revert args En. induction (lt_wf n) as [n _ IH].
  intros [|s args] -> o o' rest Hun; cbn [parse]; [by intros [= <- _]|].
  assert (∀ tl o, tl `suffix_of` args → parse foreign tl o = Parsed o' rest → field o' = field o) as Hrec.
  { intros tl p Hsuf Hp. eapply (IH (length tl)); [|done| |exact Hp].
    - cbn. pose proof (suffix_length _ _ Hsuf). lia.
    - intros w v Hw. apply Hun. right. destruct Hsuf as [pre ->]. apply elem_of_app. by right. }
  destruct (parse_word s) as [| | |name value] eqn:Ew; [by intros [= <- _]|by intros [= <- _]|done|].
  assert (name ≠ kept) as Hne by (intros ->; exact (Hun s value ltac:(left) Ew)).
  destruct (formal foreign name) as [[b set]|] eqn:Ef; [|by case_decide].
  assert (∀ v tl, tl `suffix_of` args →
    match set v o with Some o => parse foreign tl o | None => Refused end = Parsed o' rest → field o' = field o) as Hgo.
  { intros v tl Hsuf. destruct (set v o) as [p|] eqn:Es; [|done]. intros Hp. rewrite (Hrec tl p Hsuf Hp). by apply (Hset _ _ _ _ _ _ Ef Hne Es). }
  destruct b; [by apply Hgo|]. destruct value as [v|]; [by apply Hgo|].
  destruct args as [|v args]; [done|]. apply Hgo. by exists [v].
Qed.

Ltac flags_keep :=
  repeat apply Forall_cons_2; try apply Forall_nil_2; intros Hne v [? ? ? ? [] [] ?] o' E; try done; cbn in E;
  try destruct (ParseBool v); by simplify_eq/=.

(** Flag by flag: only the one kept sets the field. *)
Lemma flags_keep_http2 :
  Forall (λ '(name, var), name ≠ "enable-http2" → ∀ v o o', Set_ var v o = Some o' → enableHTTP2 o' = enableHTTP2 o) flags.
Proof. flags_keep. Qed.

Lemma flags_keep_secure :
  Forall (λ '(name, var), name ≠ "metrics-secure" → ∀ v o o', Set_ var v o = Some o' → secureMetrics o' = secureMetrics o) flags.
Proof. flags_keep. Qed.

Lemma configured_protocols o c :
  NextProtos (configured (tlsOpts o) c) = if enableHTTP2 o then NextProtos c else ["http/1.1"].
Proof. unfold tlsOpts. by destruct (enableHTTP2 o). Qed.

Section boot.
Context `{Kube} {L : Type}.

Lemma must_returns (e : boot L (option error)) f k t s :
  returns (must e f k) t s ↔
  (∃ err, t = [Event e (Some err)] ∧ s = f) ∨ ∃ t', t = Event e None :: t' ∧ returns k t' s.
Proof.
  unfold must. rewrite returns_trigger. split.
  - intros ([err|] & t' & -> & Hr); [left; destruct Hr as [-> ->]; by exists err|right; by exists t'].
  - intros [(err & -> & ->)|(t' & -> & Hr)]; [by exists (Some err), []|by exists None, t'].
Qed.

(** The scheme is complete before [main] runs. *)
Lemma init_returns apis (k : prog (boot L) ended) t s :
  returns (init apis k) t s ↔
  (∃ ok a err rest, apis = ok ++ a :: rest ∧ s = Panicked ∧
     t = ((λ a, Event (EAddToScheme a) None) <$> ok) ++ [Event (EAddToScheme a) (Some err)]) ∨
  ∃ t', t = ((λ a, Event (EAddToScheme a) None) <$> apis) ++ t' ∧ returns k t' s.
Proof.
  revert t. induction apis as [|a apis IH]; intros t; cbn [init].
  - split; [intros Hr; right; by exists t|]. intros [(ok & a & err & rest & E & _)|(t' & -> & Hr)]; [by destruct ok|done].
  - rewrite must_returns. split.
    + intros [(err & -> & ->)|(t' & -> & [(ok & b & err & rest & -> & -> & ->)|(u & -> & Hr)]%IH)].
      * left. by exists [], a, err, apis.
      * left. by exists (a :: ok), b, err, rest.
      * right. by exists u.
    + intros [(ok & b & err & rest & E & -> & ->)|(t' & -> & Hr)].
      * destruct ok as [|c ok]; injection E as -> ->; [left; by exists err|]. right. eexists. split; [done|].
        apply IH. left. by exists ok, b, err, rest.
      * right. eexists. split; [done|]. apply IH. right. by exists t'.
Qed.

(** Nothing follows a call that failed, and the process does not end well. *)
Definition fails_fast (p : prog (boot L) ended) : Prop :=
  ∀ t s t1 ev t2 err, returns p t s → t = t1 ++ ev :: t2 → failure ev = Some err → t2 = [] ∧ s ≠ Exit 0.

Lemma fails_fast_ret s : fails_fast (mret s).
Proof. intros t s' t1 ev t2 err [-> _] E. by destruct t1. Qed.

Lemma fails_fast_must (e : boot L (option error)) f k :
  (∀ x, failure (Event e x) = x) → f ≠ Exit 0 → fails_fast k → fails_fast (must e f k).
Proof.
  intros He Hf Hk t s t1 ev t2 err [(err' & -> & ->)|(t' & -> & Hr)]%must_returns E Hev.
  - destruct t1 as [|ev1 t1]; injection E as <- E; [by subst|by destruct t1].
  - destruct t1 as [|ev1 t1]; injection E as <- E; [by rewrite He in Hev|by eapply Hk].
Qed.

Lemma fails_fast_mapper k : (∀ mapper, fails_fast (k mapper)) → fails_fast (trigger EGetRESTMapper ≫= k).
Proof.
  intros Hk t s t1 ev t2 err (mapper & t' & -> & Hr)%returns_trigger E Hev.
  destruct t1 as [|ev1 t1]; injection E as <- E; [done|by eapply Hk].
Qed.

Lemma process_fails_fast foreign gatewayGV monitoringGV argv : fails_fast (process foreign gatewayGV monitoringGV argv).
Proof.
  assert (∀ scheme, fails_fast (main foreign gatewayGV monitoringGV scheme argv)) as Hm.
  { intros scheme. unfold main. repeat first
      [ apply fails_fast_ret | apply fails_fast_must; [done|done|] | apply fails_fast_mapper; intros ? | case_match ]. }
  unfold process, schemeAPIs, init. repeat (apply fails_fast_must; [done|done|]). apply Hm.
Qed.

(** The manager was not started, nor help asked for. *)
Ltac unstarted := left; (split; [repeat constructor|by split]).

(** A run of [main] that does not reach the manager's start, or the one that does. *)
Lemma main_returns foreign gatewayGV monitoringGV scheme argv t status :
  returns (main foreign gatewayGV monitoringGV scheme argv) t status →
  (Forall (λ ev : event (boot L), started ev = None) t ∧ (status = Exit 0 ↔ parse foreign argv defaults = Helped) ∧
   (parse foreign argv defaults = Helped → t = [])) ∨
  ∃ o rest mapper1 mapper2 gateway serviceMonitor err,
    parse foreign argv defaults = Parsed o rest ∧
    GatewayAPIServed mapper1 gatewayGV.1 gatewayGV.2 = inl gateway ∧
    ServiceMonitorServed mapper2 monitoringGV.1 monitoringGV.2 = inl serviceMonitor ∧
    t = bootTrace scheme o mapper1 mapper2 (discovered gatewayGV monitoringGV gateway serviceMonitor) err ∧
    status = Exit (match err with Some _ => 1 | None => 0 end).
Proof.
  unfold main. destruct (parse _ _ _) as [o rest| |] ; [|intros [-> ->]; by left..].
  intros [(? & -> & ->)|(? & -> & [(? & -> & ->)|(? & -> & Hr)]%must_returns)]%must_returns;
    [by unstarted..|].
  apply returns_trigger in Hr as (m1 & ? & -> & Hr). cbn [prog_bind] in Hr.
  destruct (GatewayAPIServed _ _ _) as [gateway|err] eqn:Eg; [|destruct Hr as [-> ->]; by unstarted].
  apply returns_trigger in Hr as (m2 & ? & -> & Hr). cbn [prog_bind] in Hr.
  destruct (ServiceMonitorServed _ _ _) as [monitor|err] eqn:Es; [|destruct Hr as [-> ->]; by unstarted].
  apply must_returns in Hr as [(? & -> & ->)|(? & -> & [(? & -> & ->)|(? & -> & [(? & -> & ->)|(? & -> & Hr)]%must_returns)]%must_returns)];
    [by unstarted..|].
  right. exists o, rest, m1, m2, gateway, monitor.
  apply must_returns in Hr as [(err & -> & ->)|(? & -> & [-> ->])]; [by exists (Some err)|by exists None].
Qed.

(** The scheme's part of a run. *)
Definition schemeTrace : list (event (boot L)) := (λ a, Event (EAddToScheme a) None) <$> schemeAPIs.

Lemma process_returns foreign gatewayGV monitoringGV argv t status :
  returns (process foreign gatewayGV monitoringGV argv) t status →
  (Forall (λ ev : event (boot L), started ev = None) t ∧
   (status = Exit 0 ↔ parse foreign argv defaults = Helped ∧ t = schemeTrace)) ∨
  ∃ o rest mapper1 mapper2 gateway serviceMonitor err,
    parse foreign argv defaults = Parsed o rest ∧
    GatewayAPIServed mapper1 gatewayGV.1 gatewayGV.2 = inl gateway ∧
    ServiceMonitorServed mapper2 monitoringGV.1 monitoringGV.2 = inl serviceMonitor ∧
    t = schemeTrace ++ bootTrace schemeAPIs o mapper1 mapper2 (discovered gatewayGV monitoringGV gateway serviceMonitor) err ∧
    status = Exit (match err with Some _ => 1 | None => 0 end).
Proof.
  unfold process. intros [(ok & a & err & rest & _ & -> & ->)|(t' & -> & Hr)]%init_returns.
  - left. split.
    + apply Forall_app. split; [|by repeat constructor]. apply Forall_fmap, Forall_forall. done.
    + split; [done|]. intros [_ E]. assert (Some err ∈ failure <$> schemeTrace) as Hin.
      { rewrite <- E, fmap_app. apply elem_of_app. right. left. }
      cbn in Hin. repeat (apply elem_of_cons in Hin as [?|Hin]; [done|]). by apply elem_of_nil in Hin.
  - apply main_returns in Hr as [(Hs & Hst & Hnil)|(o & rest & m1 & m2 & g & s & err & Ep & Eg & Es & -> & ->)].
    + left. split; [apply Forall_app; split; [by repeat constructor|done]|]. rewrite Hst. split; [intros E|by intros [? _]].
      split; [done|]. by rewrite (Hnil E), app_nil_r.
    + right. by exists o, rest, m1, m2, g, s, err.
Qed.

Lemma started_none (t : list (event (boot L))) err :
  Forall (λ ev, started ev = None) t → Event EStart err ∉ t.
Proof. intros HF Hin. rewrite Forall_forall in HF. by specialize (HF _ Hin). Qed.

Lemma bootTrace_start scheme o m1 m2 r err err' :
  Event EStart err ∈ schemeTrace ++ bootTrace scheme o m1 m2 r err' ↔ err = err'.
Proof.
  split; [|intros ->; apply elem_of_app; right; do 7 right; left]. intros Hin. apply (list_elem_of_fmap_2 started) in Hin.
  cbn in Hin. repeat (apply elem_of_cons in Hin as [E|Hin]; [congruence|]). by apply elem_of_nil in Hin.
Qed.

(** The watches are those the passes rely on. *)
Lemma SetupWithManager_owns r : b_Watches (SetupWithManager (L:=L) r) ≫= owned = ownedKinds r.
Proof. unfold ownedKinds. cbn. by destruct (GatewayAPI r), (ServiceMonitorAPI r). Qed.

Lemma SetupWithManager_informs r : b_Watches (SetupWithManager (L:=L) r) ≫= informed ≡ₚ informerKinds r.
Proof.
  unfold informerKinds, ownedKinds. cbn. constructor. do 4 constructor.
  destruct (GatewayAPI r), (ServiceMonitorAPI r); apply (Permutation_app_comm ["PersistentVolumeClaim"; "Pod"]).
Qed.

Lemma SetupWithManager_secrets r : WatchesMetadata "Secret" clustersForSecret ∈ b_Watches (SetupWithManager (L:=L) r).
Proof. cbn. do 5 right. left. Qed.
End boot.

(** ** Properties *)

(** C39: the manager starts last, once, and only when everything before it has succeeded: in
    any run of the process that reaches the start, the scheme holds all four groups of types,
    the manager was made with the options of the command line, what the cluster serves was
    discovered, and the controller was completed for the reconciler discovered and both
    checks added. The process ends with status 0 exactly when the start returned no error,
    but for a command line asking for help, and nothing follows a call that failed. And the
    watches completed are those the passes of that reconciler rely on: every kind such a pass
    reads through the cache is informed, and every object it creates or applies is of a kind
    owned, but for the two Secrets of the system user, for which Secrets are watched by
    metadata. *)
Theorem manager_starts_last `{Kube} {L : Type} foreign gatewayGV monitoringGV argv t status :
  returns (process (L:=L) foreign gatewayGV monitoringGV argv) t status →
  (∀ err, Event EStart err ∈ t →
     ∃ o rest mapper1 mapper2 gateway serviceMonitor,
       parse foreign argv defaults = Parsed o rest ∧
       GatewayAPIServed mapper1 gatewayGV.1 gatewayGV.2 = inl gateway ∧
       ServiceMonitorServed mapper2 monitoringGV.1 monitoringGV.2 = inl serviceMonitor ∧
       let r := discovered gatewayGV monitoringGV gateway serviceMonitor in
       let watches := b_Watches (SetupWithManager (L:=L) r) in
       t = ((λ a, Event (EAddToScheme a) None) <$> schemeAPIs) ++ bootTrace schemeAPIs o mapper1 mapper2 r err ∧
       ∀ (ro : RangeOrder) (qo : QuantityOrder Quantity) (conditions : ConditionsAPI L) primitives (cluster : MemgraphDBCluster L)
         semanticDeepEqual shrinks pass out,
         returns (Reconcile primitives r semanticDeepEqual (inl cluster) shrinks) pass out →
         ∀ X (e : eff X) x, Event e x ∈ pass →
           (∀ kind, cachedRead e = Some kind → kind ∈ watches ≫= informed) ∧
           (∀ kind name, appliedObject e = Some (kind, name) →
              kind ∈ watches ≫= owned ∨
              (kind = "Secret" ∧ WatchesMetadata "Secret" clustersForSecret ∈ watches ∧
               name ∈ [SystemUserSecretName (m_Name (Meta cluster)); SystemUserHashSecretName (m_Name (Meta cluster))]))) ∧
  (status = Exit 0 ↔ Event EStart None ∈ t ∨
     parse foreign argv defaults = Helped ∧ t = ((λ a, Event (EAddToScheme a) None) <$> schemeAPIs)) ∧
  (∀ t1 ev t2 err, t = t1 ++ ev :: t2 → failure ev = Some err → t2 = [] ∧ status ≠ Exit 0).
Proof.
  intros Hr. split; [|split; [|by intros; eapply process_fails_fast]].
  - intros err Hin. apply process_returns in Hr as [[HF _]|(o & rest & m1 & m2 & g & s & err' & Ep & Eg & Es & -> & _)];
      [by destruct (started_none _ _ HF Hin)|].
    apply bootTrace_start in Hin as ->. exists o, rest, m1, m2, g, s.
    split; [done|]. split; [done|]. split; [done|]. intros r watches. split; [done|].
    intros * Hpass X e x Hev. destruct (Reconcile_kinds _ _ _ _ _ _ _ Hpass _ _ _ Hev) as [Hreads Happlied].
    split; [intros kind Hk; unfold watches; rewrite SetupWithManager_informs; exact (Hreads kind Hk)|].
    intros kind name [Hown|[-> Hname]]%Happlied; [left|right; split; [done|split; [apply SetupWithManager_secrets|done]]].
    unfold watches. by rewrite SetupWithManager_owns.
  - apply process_returns in Hr as [[HF ->]|(o & rest & m1 & m2 & g & s & err' & Ep & _ & _ & -> & ->)].
    + split; [by right|intros [Hin|]; [by destruct (started_none _ _ HF Hin)|done]].
    + rewrite bootTrace_start. split; [by destruct err'; [|left]|]. by intros [<-|[? _]]; [|congruence].
Qed.

(** C36: the command line means what it spells: a flag in any of its spellings sets its
    variable, or is refused with the process when it is a boolean that cannot be read; a
    command line that says every option reads back as those options, whatever was set before;
    and the manager is guarded by default: unless a word names enable-http2, the webhook and
    the metrics server negotiate HTTP/1.1 alone, whatever configuration they start from, and
    unless one names metrics-secure, metrics are served over TLS behind the authentication
    and authorization filter. *)
Theorem command_line_reads_back foreign :
  (∀ name var value words args o, (name, var) ∈ flags → spelled name var value words →
     parse foreign (words ++ args) o = match Set_ var value o with Some o => parse foreign args o | None => Refused end) ∧
  (∀ o o0 args, parse foreign (commandLine o ++ args) o0 = parse foreign args o) ∧
  (∀ scheme argv o rest, parse foreign argv defaults = Parsed o rest →
     let options := managerOptions scheme o in
     (unnamed "enable-http2" argv → ∀ c,
        NextProtos (configured (wo_TLSOpts (co_WebhookServer options)) c) = ["http/1.1"] ∧
        NextProtos (configured (mo_TLSOpts (co_Metrics options)) c) = ["http/1.1"]) ∧
     (unnamed "metrics-secure" argv →
        mo_SecureServing (co_Metrics options) = true ∧
        mo_FilterProvider (co_Metrics options) = Some WithAuthenticationAndAuthorization)).
Proof.
  split; [intros *; apply parse_spelled|]. split; [apply parse_commandLine|].
  intros scheme argv o rest Ep options. split.
  - intros Hun c. assert (NextProtos (configured (tlsOpts o) c) = ["http/1.1"]) as E; [|by split].
    by rewrite configured_protocols, (parse_keeps enableHTTP2 _ _ flags_keep_http2 _ _ _ _ Hun Ep).
  - intros Hun. cbn. by rewrite (parse_keeps secureMetrics _ _ flags_keep_secure _ _ _ _ Hun Ep).
Qed.

(** ** Witnesses *)

Module Example.
Import Api.Example.
#[local] Existing Instance kube_text.

(** An environment that serves every kind and answers no error. *)
Definition boots (X : Type) (e : boot (gmap string Condition) X) (s : unit) : unit * X :=
  match e in boot _ Y return unit * Y with
  | EGetRESTMapper => (s, λ group kind version, inl "v1")
  | EAddToScheme _ | EGetConfigOrDie | ENewManager _ | EComplete _ | EAddHealthzCheck _ | EAddReadyzCheck _ | EStart => (s, None)
  end.

Definition foreign (name : string) : option (bool * (string → bool)) :=
  if decide (name = "zap-devel") then Some (true, λ value, bool_decide (is_Some (ParseBool value))) else None.

Definition argv : list string := ["--leader-elect"; "-metrics-bind-address"; ":8443"; "--zap-devel=false"].
Definition pass := run boots (process foreign ("gateway.networking.k8s.io", "v1") ("monitoring.coreos.com", "v1") argv) tt.
End Example.

(** The value of a boolean flag in a word of its own ends the flags. *)
Example metrics_secure_false :
  parse Example.foreign ["--metrics-secure"; "false"; "--enable-http2"] defaults = Parsed defaults ["false"; "--enable-http2"].
Proof. vm_compute. reflexivity. Qed.

Lemma command_line_reads_back_witness :
  parse Example.foreign Example.argv defaults =
    Parsed (mkOptions ":8443" ":8081" true true (mkCerts "" "tls.crt" "tls.key") (mkCerts "" "tls.crt" "tls.key") false) [] ∧
  parse Example.foreign ["--leader-elect=yes"] defaults = Refused ∧
  ∀ c, NextProtos (configured (tlsOpts defaults) c) = ["http/1.1"].
Proof.
  split; [vm_compute; reflexivity|].
  destruct (command_line_reads_back Example.foreign) as (Hset & _ & Hsafe). split.
  - exact (Hset "leader-elect" _ "yes" ["--leader-elect=yes"] [] defaults
      ltac:(do 2 right; left) (spelled_equals _ _ "--" _ ltac:(right; left))).
  - intros c. apply (Hsafe [] [] defaults [] eq_refl). intros s value Hin. by apply elem_of_nil in Hin.
Defined.

Lemma manager_starts_last_witness :
  Example.pass.2 = Exit 0 ∧ length Example.pass.1.2 = 12 ∧ Event EStart None ∈ Example.pass.1.2.
Proof.
  pose proof (run_returns Example.boots
    (process Example.foreign ("gateway.networking.k8s.io", "v1") ("monitoring.coreos.com", "v1") Example.argv) tt) as Hrun.
  fold Example.pass in Hrun. apply manager_starts_last in Hrun as (_ & Hend & _).
  assert (Example.pass.2 = Exit 0) as E by reflexivity. apply Hend in E as [Hin|[Hhelp _]]; [|by vm_compute in Hhelp].
  split; [reflexivity|]. split; [reflexivity|exact Hin].
Defined.
